(* ===== verification/_CoqProject ===== *)
-Q . S2P
Prelude.v
Refinement.v
ByteSwap.v
Ieee754.v
FloatError.v
FixedPoint.v
Vita49Types.v
PacketHeader.v
ContextPacket.v
SignalDataPacket.v
Vita49Codec.v
GeneralLogger.v
SensorMessages.v
Programs.v
Vita49FileCodec.v
Vita49RoundTripTest.v
Vita49PerfBenchmark.v
HighBandwidthPublisher.v
HighBandwidthSubscriber.v
HighBandwidthTest.v
DataHandler.v
DataHandlerSpec.v
Timer.v
SnoozableTimer.v
Zyre.v
ZyreTest.v
ProtoTopics.v
ITransport.v
TransportZyre.v
PlaybackEngine.v
Dds.v
DdsTest.v
TransportDds.v
OmniscopeApp.v
OmniscopeMain.v
OmniscopeSystem.v
GrpcServer.v
GrpcClient.v
