(* ===== verification/Prelude.v ===== *)
(** Verification of StarterCpp: a VITA 49.2 packet library, publish/subscribe
    transports, threading utilities and the Omniscope monitor built on them.

    * The program and its model

    - VITA 49.2 (src/libs/Vita49_2).  [Vita49Types]: the vocabulary; [ByteSwap]:
      loads and stores in both byte orders; [PacketHeader], [ContextPacket],
      [SignalDataPacket]: the three codecs; [Vita49Codec]: packets in a stream,
      splitting of sample vectors.  [Ieee754]: the float and double operations
      they use, [FloatError]: their rounding on arbitrary samples and scales,
      [FixedPoint]: the fixed-point values doubles are rounded to.  Each C++
      function is a function of the same name; a buffer is the list of the bytes
      that may be accessed.
    - Tools over the codec (src/apps/Tools, src/apps/TestApps).
      [Vita49FileCodec]: the file tool, its three modes and its command line.
      [Vita49RoundTripTest]: the accuracy test.  [Vita49PerfBenchmark]: the
      benchmark.  [Programs]: arguments and endings of a program;
      [GeneralLogger]: the log lines and the loggers.
    - UDP multicast (src/libs/PubSub).  [HighBandwidthPublisher] fragments a
      message, [HighBandwidthSubscriber] reassembles and dispatches it.
      [HighBandwidthTest]: the two programs that exchange messages over it.
    - Zyre (src/libs/PubSub, src/libs/proto).  [Zyre]: node, publisher,
      subscriber; [ProtoTopics]: topic registry and JSON conversions;
      [ZyreTest]: the two programs over it.  [SensorMessages]: the messages of
      these and of the UDP multicast programs, what their publishers put into
      them and what their subscribers' handlers print.
    - DDS (src/libs/CycloneDDS).  [Dds]: topic registry, publisher, subscriber;
      [DdsTest]: the two programs over it, and the older subscriber program
      that is no longer built.
    - Threads (src/libs/CommonUtils).  [DataHandler], [Timer], [SnoozableTimer]:
      a state record with the program counters of the threads, and [exec], which
      performs one atomic action of one thread.  So are [PlaybackEngine] and the
      subscriber of [Dds].  [Refinement]: simulation between two such systems;
      [DataHandlerSpec]: the broadcast queue that [DataHandler] implements.
    - Omniscope (src/apps/Omniscope).  [ITransport]: the interface, a type class
      with laws; [TransportZyre] and [TransportDds]: its instances;
      [PlaybackEngine]: replay of recordings; [OmniscopeApp]: the web socket
      commands, recording, broadcast, written against the interface only;
      [OmniscopeMain]: main.cpp, the application over the two transports and the
      threads the transports own.  [OmniscopeSystem]: runs of the whole program
      with the engine's and the readers' threads, and two programs that
      exchange a recording.
    - gRPC (src/apps/TestApps, src/libs/GrpcService).  [GrpcServer]: the handlers
      of the three services and the server's process; [GrpcClient]: the client,
      over a stub, and the stub that is [GrpcServer].

    [OmniscopeApp] calls the transports and the engine; a transport calls back
    into it with each message; the engine's thread calls back with the messages
    it replays, which go to the transports.  [TransportZyre] is built on [Zyre]
    and [ProtoTopics], [TransportDds] on [Dds], the tools on [Vita49Codec].
    [OmniscopeMain] instantiates the interface with the sum of the two
    transports, so that its theorems are about the program as it is linked.

    * Conventions

    An integer is a [Z] with its wrap-around written out ([u8] to [u64], [s16]
    to [s64] below).  [None] in the option monad is undefined behaviour, an
    exception that leaves the function, or an action that is not enabled; each
    file says which.  What the environment decides (clock readings, results of
    socket, file and library calls, the samples a reader takes) is an argument.

    * The theorems

    - Codec: parsing never leaves the buffer and returns what a greedy
      specification ([Parses]) does; headers, samples, context fields and whole
      streams survive encoding and decoding, floats rounded as the formats round
      them and unchanged when the formats hold them; splitting loses no sample;
      encoding context fields is defined exactly when each is in its numeric
      range.  A decoded packet is described by layouts of its own ([raw_payload],
      [fieldsAt]), not by the decoder's.
    - Tools: the round-trip mode reports PERFECT on every file it can decode;
      generate, inspect and round trip agree; the accuracy test computes an
      error of at most half a quantization step.
    - Fragments: the datagrams of any number of messages, in any order, mixed,
      repeated or lost, make exactly the calls of the messages that get complete,
      with the published bytes, as long as nothing of a message comes after it is
      complete ([none_late]) and no clean-up finds a message begun and incomplete
      too old ([none_expires]); the receive loop is safe on numbers in range, and
      out of range it is not.
    - Threads: exactly-once in-order delivery, no call before its time, every
      stop returns within a bounded number of steps, with the interleavings in
      which it does not or a snooze is lost; every run of the queue with its
      listeners is a run of an abstract queue that each listener reads in order.
    - Omniscope: messages cross a transport unchanged and once; a subscriber
      runs exactly when its topic is active; subscriptions touch one transport
      and one topic; what is recorded is replayed.
    - Programs: what the publisher program of a transport sends is printed by its
      subscriber program, message by message, over Zyre, UDP multicast and DDS,
      from the command line to the log lines; in the running Omniscope program
      every topic has its transport, and a message of a topic a client has
      subscribed to reaches the clients, from a Zyre peer as from a DDS reader;
      what one program replays reaches another program's clients; a program
      told to shut down ends with its replay thread joined.
    - gRPC: a stream sends what was submitted since the last clear, exactly; a
      pass of the client against the server sees its own readings and no error;
      the client ends once its flag is cleared.

    Invariants are proved by induction over reachable states ([reachable],
    [reachable_ind'] below).  The properties that a manifest lists carry a
    number in their comment.

    A call is split into the actions between which other threads may run: the
    calls on [DataHandler] test the flag before they take a mutex; a handler of
    [OmniscopeApp] that uses the engine goes on in an action of its own
    ([Resume]), the replay thread running meanwhile.  A publication that throws
    on the replay thread ends the process ([PublishThrows]).

    * Fuel and bounds

    Recursion is structural but for these.  [parseStream] takes one more unit
    of fuel than the buffer has bytes, a packet having at least four; its
    refinement theorem shows the loop ends before.  [encodeSignalData] takes one
    more than there are samples, each packet taking at least one.  The 16 bits
    31 to 15 of the CIF0 bound the decode loop.  [HighBandwidthPublisher] sends
    exactly the number of fragments computed.  [DDSSubscriber.stop] runs the
    polling thread for the samples in hand, or taken once more, and five steps;
    [DDSSubscriber.stop_run] shows that it ends there.

    * Parameters

    The value of [lroundf] where the standard leaves it unspecified, [cosf],
    [sinf], [log10], [atof], [stof] and the random distributions; the byte order
    of the host; zyre, protobuf, crow, gRPC and the DDS library, as records or classes
    of operations with what their documentation promises as laws, of crow's JSON
    that a dumped object loads as one with its fields and no other ([CrowLaws]),
    with instances in the witnesses; the generated conversions between DDS samples
    and JSON, which may throw.

    * Not modelled

    Formatting and output of log lines are spdlog's.  CrowCompat.h adapts crow
    at compile time.  The programs over Zyre and UDP multicast never leave their
    loops; they are described after any number of passes.  What happens between
    a network library's send and the peer's receive is a hypothesis of the theorems on two programs, which says what may be lost,
    repeated or reordered.  Omniscope's page, routing and server are crow's; its
    handlers that use the engine are taken one at a time, while crow may run them
    on several threads.
    Exhaustion of memory, and failures of mutexes and thread creation, are not
    modelled. *)

From Stdlib Require Export ZArith Lia.
From stdpp Require Export base tactics list gmap strings numbers option.

#[global] Open Scope Z_scope.

(** * Machine integers

    A C++ unsigned integer of width w is a [Z] in [0, 2^w); a cast to a
    narrower or unsigned type is one of the wraps below, a cast to a signed
    type one of the [s..] functions (C++20 two's complement conversion). *)

Definition u8 (z : Z) : Z := z mod 256.
Definition u16 (z : Z) : Z := z mod 65536.
Definition u32 (z : Z) : Z := z mod 4294967296.
Definition u64 (z : Z) : Z := z mod 18446744073709551616.

Definition s16 (z : Z) : Z := (z + 32768) mod 65536 - 32768.
Definition s32 (z : Z) : Z := (z + 2147483648) mod 4294967296 - 2147483648.
Definition s64 (z : Z) : Z :=
  (z + 9223372036854775808) mod 18446744073709551616 - 9223372036854775808.

(** * Buffers

    A [const uint8_t*] into a buffer is the list of the bytes that may be
    accessed through it; reading or writing at an index outside that list is
    undefined behaviour, which is [None] in the option monad ([x ← e; k]). *)

Definition zlen {A} (l : list A) : Z := Z.of_nat (length l).

Definition ptr_read (m : list Z) (p : Z) : option Z :=
  if p <? 0 then None else m !! Z.to_nat p.

Definition ptr_write (m : list Z) (p v : Z) : option (list Z) :=
  if (0 <=? p) && (p <? zlen m) then Some (<[Z.to_nat p := v]> m) else None.

(** [out.resize(out.size() + n)]: value-initialised new elements. *)
Definition resize_by (out : list Z) (n : Z) : list Z :=
  out ++ replicate (Z.to_nat n) 0.

(** [data + n] for a pointer into a buffer. *)
Definition ptr_add {A} (m : list A) (n : Z) : list A := drop (Z.to_nat n) m.

(** The bytes in front of [data + n]. *)
Definition ptr_upto {A} (n : Z) (m : list A) : list A := take (Z.to_nat n) m.

(** A vector is a byte string when its elements are 8-bit values. *)
Definition is_byte (b : Z) : Prop := 0 <= b < 256.
Abbreviation bytes_ok := (Forall is_byte).

(** * Shared automation *)

Create HintDb wrapdb.

Ltac unwrap := unfold u8, u16, u32, u64, s16, s32, s64 in *.
Ltac divmod := Z.div_mod_to_equations; lia.

(** Case analysis on the condition of an [if] on booleans over Z. *)
Ltac case_bool :=
  match goal with
  | |- context [if ?b then _ else _] => destruct b eqn:?
  end.

(** Turn boolean comparisons in the context into propositions. *)
Ltac bool_prop :=
  repeat match goal with
  | H : (_ && _) = true |- _ => apply andb_true_iff in H as [? ?]
  | H : (_ || _) = false |- _ => apply orb_false_iff in H as [? ?]
  | H : negb _ = true |- _ => apply negb_true_iff in H
  | H : negb _ = false |- _ => apply negb_false_iff in H
  | H : (_ <? _) = true |- _ => apply Z.ltb_lt in H
  | H : (_ <? _) = false |- _ => apply Z.ltb_ge in H
  | H : (_ <=? _) = true |- _ => apply Z.leb_le in H
  | H : (_ <=? _) = false |- _ => apply Z.leb_gt in H
  | H : (_ =? _) = true |- _ => apply Z.eqb_eq in H
  | H : (_ =? _) = false |- _ => apply Z.eqb_neq in H
  end.

Lemma bind_ret {A B} (x : A) (f : A -> option B) : (Some x ≫= f) = f x.
Proof. done. Qed.

(** Weakening a [Forall2] with what is known of the elements on the left. *)
Lemma Forall2_impl_in {A B} (P Q : A -> B -> Prop) l k :
  Forall2 P l k -> (∀ x y, x ∈ l -> P x y -> Q x y) -> Forall2 Q l k.
Proof.
  induction 1 as [|x y l k Hxy _ IH]; intros HPQ; constructor.
  - apply HPQ; [by apply list_elem_of_here|done].
  - apply IH. intros a b Ha. apply HPQ. by apply list_elem_of_further.
Qed.

(** * Transition systems

    Concurrent components are given by [exec a s]: the state after the atomic
    action [a], [None] when [a] is not enabled in [s]. *)
Section system.
Context {A S : Type} (exec : A -> S -> option S) (init : S).

Fixpoint execs (l : list A) (s : S) : option S :=
  match l with
  | [] => Some s
  | a :: l => s ← exec a s; execs l s
  end.

Inductive reachable : S -> Prop :=
  | reachable_init : reachable init
  | reachable_step a s s' : reachable s -> exec a s = Some s' -> reachable s'.

Lemma execs_app l k s : execs (l ++ k) s = (s' ← execs l s; execs k s').
Proof.
  revert s. induction l as [|a l IH]; intros s; cbn [execs app]; [done|].
  destruct (exec a s); [apply IH|done].
Qed.

Lemma execs_reachable l s s' : reachable s -> execs l s = Some s' -> reachable s'.
Proof.
  revert s. induction l as [|a l IH]; intros s Hs; cbn [execs]; [by intros [= <-]|].
  intros (s1 & H1 & H2)%bind_Some. eapply IH; [|done]. by eapply reachable_step.
Qed.

(** What every action of the sequence preserves holds after it. *)
Lemma execs_invariant (P : S -> Prop) l s s' :
  (∀ a s s', a ∈ l -> P s -> exec a s = Some s' -> P s') -> P s -> execs l s = Some s' -> P s'.
Proof.
  revert s. induction l as [|a l IH]; intros s HP Hs; cbn [execs]; [by intros [= <-]|].
  intros (s1 & H1 & H2)%bind_Some. eapply IH; [|by eapply HP; [left|..]|done].
  intros b ?? Hb. eapply HP. by right.
Qed.

(** An invariant holds initially and is preserved by every action. *)
Lemma reachable_ind' (P : S -> Prop) :
  P init -> (∀ a s s', P s -> exec a s = Some s' -> P s') -> ∀ s, reachable s -> P s.
Proof. intros Hi Hs s. induction 1; eauto. Qed.

End system.

(** * Integer lemmas *)

Lemma u8_small z : 0 <= z < 256 -> u8 z = z.
Proof. intros. by apply Z.mod_small. Qed.

Lemma u16_small z : 0 <= z < 65536 -> u16 z = z.
Proof. intros. by apply Z.mod_small. Qed.

Lemma u32_small z : 0 <= z < 4294967296 -> u32 z = z.
Proof. intros. by apply Z.mod_small. Qed.

Lemma u64_small z : 0 <= z < 18446744073709551616 -> u64 z = z.
Proof. intros. by apply Z.mod_small. Qed.

Lemma u8_bound z : 0 <= u8 z < 256.
Proof. by apply Z.mod_pos_bound. Qed.

Lemma u16_bound z : 0 <= u16 z < 65536.
Proof. by apply Z.mod_pos_bound. Qed.

Lemma u32_bound z : 0 <= u32 z < 4294967296.
Proof. by apply Z.mod_pos_bound. Qed.

Lemma u64_bound z : 0 <= u64 z < 18446744073709551616.
Proof. by apply Z.mod_pos_bound. Qed.

Lemma s16_u16 z : -32768 <= z < 32768 -> s16 (u16 z) = z.
Proof. intros. unwrap. divmod. Qed.

Lemma s64_u64 z :
  -9223372036854775808 <= z < 9223372036854775808 -> s64 (u64 z) = z.
Proof. intros. unwrap. divmod. Qed.

Lemma s16_bound z : -32768 <= s16 z < 32768.
Proof. unfold s16. pose proof (Z.mod_pos_bound (z + 32768) 65536). lia. Qed.

Lemma u16_s16 z : u16 (s16 z) = u16 z.
Proof. unwrap. divmod. Qed.

#[export] Hint Resolve u8_bound u16_bound u32_bound u64_bound s16_bound : wrapdb.

(** Disjoint [|] is addition: the low operand fits under the shift. *)
Lemma testbit_high b n i :
  0 <= b < 2 ^ n -> n <= i -> 0 <= n -> Z.testbit b i = false.
Proof.
  intros Hb Hi Hn. rewrite <- (Z.mod_small b (2 ^ n)) by done.
  by apply Z.mod_pow2_bits_high.
Qed.

Lemma lor_shiftl_add a b n :
  0 <= n -> 0 <= b < 2 ^ n -> Z.lor (Z.shiftl a n) b = a * 2 ^ n + b.
Proof.
  intros Hn Hb. rewrite <- Z.shiftl_mul_pow2, <- Z.add_lor_land by done.
  assert (Z.land (Z.shiftl a n) b = 0) as ->; [|lia].
  apply Z.bits_inj'; intros i Hi.
  rewrite Z.land_spec, Z.bits_0, Z.shiftl_spec by done.
  destruct (decide (i < n)).
  - by rewrite Z.testbit_neg_r by lia.
  - rewrite (testbit_high b n) by lia. by rewrite andb_false_r.
Qed.

Lemma lor_add_shiftl a b n :
  0 <= n -> 0 <= b < 2 ^ n -> Z.lor b (Z.shiftl a n) = b + a * 2 ^ n.
Proof. intros. rewrite Z.lor_comm, lor_shiftl_add by done. lia. Qed.

(** [x | y] where y is a multiple of 2^n and x fits under it. *)
Lemma lor_low_high x y n :
  0 <= n -> 0 <= x < 2 ^ n -> y mod 2 ^ n = 0 -> Z.lor y x = y + x.
Proof.
  intros Hn Hx Hy.
  assert (y = Z.shiftl (y / 2 ^ n) n) as E.
  { rewrite Z.shiftl_mul_pow2 by done.
    pose proof (Z.div_mod y (2 ^ n)). lia. }
  rewrite E at 1. rewrite lor_shiftl_add by done.
  pose proof (Z.div_mod y (2 ^ n)). lia.
Qed.

Lemma land_mod x n : 0 <= n -> Z.land x (2 ^ n - 1) = x mod 2 ^ n.
Proof. intros. rewrite <- Z.land_ones by done. by rewrite Z.ones_equiv. Qed.

Lemma land_1 x : Z.land x 1 = x mod 2.
Proof. apply (land_mod x 1). lia. Qed.
Lemma land_3 x : Z.land x 3 = x mod 4.
Proof. apply (land_mod x 2). lia. Qed.
Lemma land_15 x : Z.land x 15 = x mod 16.
Proof. apply (land_mod x 4). lia. Qed.
Lemma land_ff x : Z.land x 255 = x mod 256.
Proof. apply (land_mod x 8). lia. Qed.
Lemma land_ffff x : Z.land x 65535 = x mod 65536.
Proof. apply (land_mod x 16). lia. Qed.
Lemma land_ffffff x : Z.land x 16777215 = x mod 16777216.
Proof. apply (land_mod x 24). lia. Qed.
Lemma land_ffffffff x : Z.land x 4294967295 = x mod 4294967296.
Proof. apply (land_mod x 32). lia. Qed.

Create Rewrite HintDb masks.
#[export] Hint Rewrite land_1 land_3 land_15 land_ff land_ffff land_ffffff
  land_ffffffff : masks.

(** Masks become [mod], right shifts by a literal become [/]. *)
Ltac mask_arith :=
  autorewrite with masks in *;
  rewrite ?Z.shiftr_div_pow2 in * by lia;
  rewrite ?Z.shiftl_mul_pow2 in * by lia;
  change (2 ^ 8) with 256 in *; change (2 ^ 16) with 65536 in *;
  change (2 ^ 24) with 16777216 in *; change (2 ^ 32) with 4294967296 in *;
  change (2 ^ 20) with 1048576 in *; change (2 ^ 22) with 4194304 in *;
  change (2 ^ 26) with 67108864 in *; change (2 ^ 27) with 134217728 in *;
  change (2 ^ 28) with 268435456 in *.

(** * Buffer lemmas *)

Lemma zlen_nonneg {A} (l : list A) : 0 <= zlen l.
Proof. unfold zlen. lia. Qed.

Lemma zlen_app {A} (l k : list A) : zlen (l ++ k) = zlen l + zlen k.
Proof. unfold zlen. rewrite length_app. lia. Qed.

Lemma zlen_nil {A} : zlen (@nil A) = 0.
Proof. done. Qed.

Lemma zlen_cons {A} (x : A) l : zlen (x :: l) = 1 + zlen l.
Proof. unfold zlen. simpl. lia. Qed.

Lemma zlen_replicate {A} n (x : A) : zlen (replicate n x) = Z.of_nat n.
Proof. unfold zlen. by rewrite length_replicate. Qed.

Lemma zlen_resize out n : 0 <= n -> zlen (resize_by out n) = zlen out + n.
Proof. intros. unfold resize_by. rewrite zlen_app, zlen_replicate. lia. Qed.

Create Rewrite HintDb zlen.
#[export] Hint Rewrite @zlen_app @zlen_nil @zlen_cons @zlen_replicate : zlen.

Lemma zlen_ptr_add {A} (m : list A) n :
  0 <= n <= zlen m -> zlen (ptr_add m n) = zlen m - n.
Proof. unfold zlen, ptr_add. rewrite length_drop. lia. Qed.

Lemma ptr_read_is_Some m p : 0 <= p < zlen m -> is_Some (ptr_read m p).
Proof.
  intros. unfold ptr_read. destruct (Z.ltb_spec p 0); [lia|].
  apply lookup_lt_is_Some. unfold zlen in *. lia.
Qed.

Lemma ptr_read_oob m p : ~ 0 <= p < zlen m -> ptr_read m p = None.
Proof.
  intros. unfold ptr_read. destruct (Z.ltb_spec p 0); [done|].
  apply lookup_ge_None. unfold zlen in *. lia.
Qed.

Lemma ptr_read_byte m p b : bytes_ok m -> ptr_read m p = Some b -> is_byte b.
Proof.
  intros Hm. unfold ptr_read. destruct (p <? 0); [done|].
  apply Forall_lookup_1. done.
Qed.

Lemma ptr_read_app_l m k p : p < zlen m -> ptr_read (m ++ k) p = ptr_read m p.
Proof.
  intros. unfold ptr_read. destruct (Z.ltb_spec p 0); [done|].
  apply lookup_app_l. unfold zlen in *. lia.
Qed.

Lemma ptr_read_app_r m k p :
  0 <= p -> ptr_read (m ++ k) (zlen m + p) = ptr_read k p.
Proof.
  intros. unfold ptr_read, zlen. destruct (Z.ltb_spec (Z.of_nat (length m) + p) 0); [lia|].
  destruct (Z.ltb_spec p 0); [lia|].
  rewrite lookup_app_r by lia. f_equal. lia.
Qed.

Lemma ptr_read_add m n p :
  0 <= n -> 0 <= p -> ptr_read (ptr_add m n) p = ptr_read m (n + p).
Proof.
  intros. unfold ptr_read, ptr_add.
  destruct (Z.ltb_spec p 0); [lia|]. destruct (Z.ltb_spec (n + p) 0); [lia|].
  rewrite lookup_drop. f_equal. lia.
Qed.

Lemma ptr_add_app {A} (m k : list A) : ptr_add (m ++ k) (zlen m) = k.
Proof. unfold ptr_add, zlen. rewrite Nat2Z.id. by apply drop_app_length. Qed.

Lemma ptr_add_0 {A} (m : list A) : ptr_add m 0 = m.
Proof. done. Qed.

Lemma ptr_add_add {A} (m : list A) a b :
  0 <= a -> 0 <= b -> ptr_add (ptr_add m a) b = ptr_add m (a + b).
Proof. intros. unfold ptr_add. rewrite drop_drop. f_equal. lia. Qed.

Lemma bytes_ok_ptr_add m n : bytes_ok m -> bytes_ok (ptr_add m n).
Proof. apply Forall_drop. Qed.

(** Writing consecutive bytes; the multi-byte stores of the code are
    instances, and appending is resizing followed by such a store. *)
Fixpoint write_bytes (m : list Z) (p : Z) (bs : list Z) : option (list Z) :=
  match bs with
  | [] => Some m
  | b :: bs => m' ← ptr_write m p b; write_bytes m' (p + 1) bs
  end.

Lemma ptr_write_app l x r v :
  ptr_write (l ++ x :: r) (zlen l) v = Some (l ++ v :: r).
Proof.
  unfold ptr_write, zlen. rewrite length_app. simpl.
  destruct (Z.leb_spec 0 (Z.of_nat (length l))); [|lia].
  destruct (Z.ltb_spec (Z.of_nat (length l)) (Z.of_nat (length l + S (length r)))); [|lia].
  simpl. rewrite Nat2Z.id. by rewrite insert_app_r_alt, Nat.sub_diag by lia.
Qed.

Lemma write_bytes_app l z r bs :
  length z = length bs -> write_bytes (l ++ z ++ r) (zlen l) bs = Some (l ++ bs ++ r).
Proof.
  revert l z. induction bs as [|b bs IH]; intros l [|x z] Hl; try discriminate; [done|].
  simpl in *. rewrite ptr_write_app. simpl.
  specialize (IH (l ++ [b]) z ltac:(lia)).
  replace (zlen (l ++ [b])) with (zlen l + 1) in IH by (autorewrite with zlen; lia).
  rewrite <- !(assoc_L (++)) in IH. done.
Qed.

Lemma write_bytes_resize out n bs :
  zlen bs = n -> write_bytes (resize_by out n) (zlen out) bs = Some (out ++ bs).
Proof.
  intros Hn. unfold resize_by. rewrite <- (app_nil_r (replicate _ _)).
  rewrite write_bytes_app; [by rewrite app_nil_r|].
  rewrite length_replicate. unfold zlen in Hn. lia.
Qed.

Lemma write_bytes_app_l l r bs k p m :
  write_bytes l p bs = Some m -> r = l ++ k -> write_bytes r p bs = Some (m ++ k).
Proof.
  revert l r p. induction bs as [|b bs IH]; intros l r p H ->; simpl in *.
  - by injection H as ->.
  - destruct (ptr_write l p b) as [l'|] eqn:E; [|done]. simpl in H.
    unfold ptr_write in *. case_match; [|done]. injection E as <-. bool_prop.
    unfold zlen in *. rewrite length_app.
    destruct (Z.ltb_spec p (Z.of_nat (length l + length k))); [|lia].
    destruct (Z.leb_spec 0 p); [|lia]. simpl.
    eapply IH; [done|]. rewrite insert_app_l by lia. done.
Qed.

(** * Slices: the bytes an n-byte load touches *)

Fixpoint slice (m : list Z) (p : Z) (n : nat) : option (list Z) :=
  match n with
  | O => Some []
  | S n => b ← ptr_read m p; bs ← slice m (p + 1) n; Some (b :: bs)
  end.

Lemma slice_length m p n bs : slice m p n = Some bs -> length bs = n.
Proof.
  revert p bs. induction n as [|n IH]; intros p bs; simpl.
  - by intros [= <-].
  - destruct (ptr_read m p); [|done]. simpl.
    destruct (slice m (p + 1) n) eqn:E; [|done]. intros [= <-].
    simpl. f_equal. by eapply IH.
Qed.

Lemma slice_bytes m p n bs : bytes_ok m -> slice m p n = Some bs -> bytes_ok bs.
Proof.
  intros Hm. revert p bs. induction n as [|n IH]; intros p bs; simpl.
  - by intros [= <-].
  - destruct (ptr_read m p) eqn:Er; [|done]. simpl.
    destruct (slice m (p + 1) n) eqn:E; [|done]. intros [= <-].
    constructor; [by eapply ptr_read_byte | by eapply IH].
Qed.

Lemma slice_total m p n :
  0 <= p -> p + Z.of_nat n <= zlen m -> is_Some (slice m p n).
Proof.
  revert p. induction n as [|n IH]; intros p Hp Hl; simpl; [done|].
  destruct (ptr_read_is_Some m p) as [b ->]; [lia|]. simpl.
  destruct (IH (p + 1)) as [bs ->]; [lia..|]. done.
Qed.

Lemma slice_inside m p n bs :
  slice m p n = Some bs -> (0 < n)%nat -> 0 <= p /\ p + Z.of_nat n <= zlen m.
Proof.
  revert p bs. induction n as [|n IH]; intros p bs; [lia|]. cbn [slice].
  intros (b & Hb & (bs' & Hs & _)%bind_Some)%bind_Some _.
  assert (0 <= p < zlen m) as Hp.
  { unfold ptr_read in Hb. destruct (Z.ltb_spec p 0); [done|].
    apply lookup_lt_Some in Hb. unfold zlen. lia. }
  destruct n as [|n]; [lia|]. apply IH in Hs; lia.
Qed.

Lemma slice_app_r m k p n : 0 <= p -> slice (m ++ k) (zlen m + p) n = slice k p n.
Proof.
  revert p. induction n as [|n IH]; intros p Hp; simpl; [done|].
  rewrite ptr_read_app_r by done. destruct (ptr_read k p); [|done]. simpl.
  by rewrite <- Z.add_assoc, IH by lia.
Qed.

Lemma slice_app_l m k p n :
  p + Z.of_nat n <= zlen m -> slice (m ++ k) p n = slice m p n.
Proof.
  revert p. induction n as [|n IH]; intros p Hp; simpl; [done|].
  rewrite ptr_read_app_l by lia. destruct (ptr_read m p); [|done]. simpl.
  by rewrite IH by lia.
Qed.

Lemma slice_add m a p n :
  0 <= a -> 0 <= p -> slice (ptr_add m a) p n = slice m (a + p) n.
Proof.
  intros Ha. revert p. induction n as [|n IH]; intros p Hp; simpl; [done|].
  rewrite ptr_read_add by done. destruct (ptr_read m (a + p)); [|done]. simpl.
  rewrite IH by lia. by rewrite Z.add_assoc.
Qed.

Lemma slice_0_take m n : Z.of_nat n <= zlen m -> slice m 0 n = Some (take n m).
Proof.
  intros Hl. rewrite <- (take_drop n m) at 1.
  assert (length (take n m) = n) as Hn.
  { rewrite length_take. unfold zlen in Hl. lia. }
  rewrite slice_app_l by (unfold zlen; lia).
  revert Hn. generalize (take n m) as l. clear. intros l <-.
  enough (∀ k, slice (k ++ l) (zlen k) (length l) = Some l) as H by apply (H []).
  induction l as [|x l IH]; intros k; simpl; [done|].
  rewrite <- (Z.add_0_r (zlen k)), ptr_read_app_r by lia. simpl.
  specialize (IH (k ++ [x])). rewrite <- (assoc_L (++)) in IH. simpl in IH.
  autorewrite with zlen in IH. rewrite !Z.add_0_r in *. by rewrite IH.
Qed.

Lemma slice_app_exact l bs r n :
  length bs = n -> slice (l ++ bs ++ r) (zlen l) n = Some bs.
Proof.
  intros <-. rewrite <- (Z.add_0_r (zlen l)), slice_app_r by lia.
  rewrite slice_0_take by (autorewrite with zlen; unfold zlen; lia).
  by rewrite take_app_length.
Qed.

(** * Stores of a block inside, or not inside, a buffer *)

Lemma write_bytes_in m p bs :
  0 <= p -> p + zlen bs <= zlen m ->
  write_bytes m p bs = Some (ptr_upto p m ++ bs ++ ptr_add m (p + zlen bs)).
Proof.
  intros Hp Hl. pose proof (zlen_nonneg bs).
  assert (m = ptr_upto p m ++ ptr_upto (zlen bs) (ptr_add m p) ++ ptr_add m (p + zlen bs)) as E.
  { unfold ptr_upto, ptr_add. replace (Z.to_nat (p + zlen bs)) with (Z.to_nat p + Z.to_nat (zlen bs))%nat by lia.
    by rewrite <- drop_drop, !take_drop. }
  assert (zlen (ptr_upto p m) = p) as Hz.
  { unfold ptr_upto, zlen in *. rewrite length_take. lia. }
  rewrite E at 1. rewrite <- Hz at 4. apply write_bytes_app.
  unfold ptr_upto, ptr_add, zlen in *. rewrite length_take, length_drop. lia.
Qed.

Lemma write_bytes_oob m p bs :
  bs <> [] -> ~ (0 <= p /\ p + zlen bs <= zlen m) -> write_bytes m p bs = None.
Proof.
  revert m p. induction bs as [|b bs IH]; intros m p Hne Hp; [done|]. cbn [write_bytes].
  rewrite zlen_cons in Hp. unfold ptr_write.
  destruct ((0 <=? p) && (p <? zlen m)) eqn:E; [|done]. bool_prop. rewrite bind_ret.
  destruct bs as [|b' bs]; [change (zlen []) with 0 in Hp; lia|].
  apply IH; [done|]. unfold zlen in *. rewrite length_insert. lia.
Qed.

Lemma slice_take_drop m p n :
  0 <= p -> p + Z.of_nat n <= zlen m -> slice m p n = Some (take n (ptr_add m p)).
Proof.
  intros Hp Hl. rewrite <- (Z.add_0_r p) at 1. rewrite <- slice_add by lia.
  apply slice_0_take. rewrite zlen_ptr_add; lia.
Qed.
