(* ===== verification/Refinement.v ===== *)
(** Refinement between transition systems: a detailed system, given as in
    Prelude.v by what each atomic action does, implements an abstract one when
    every enabled action is matched by one abstract action or by none. *)

From S2P Require Import Prelude.

Section refinement.
Context {C CS A AS : Type} (cexec : C -> CS -> option CS) (aexec : A -> AS -> option AS).
(** What the detailed action looks like from outside ([None]: nothing). *)
Context (label : C -> CS -> option A).

(** The abstract actions of a detailed run. *)
Fixpoint labels (l : list C) (s : CS) : list A :=
  match l with
  | [] => []
  | c :: l =>
      match cexec c s with
      | Some s' => option_list (label c s) ++ labels l s'
      | None => []
      end
  end.

(** [abs] maps detailed states to abstract ones as long as [inv] holds. *)
Class Simulation (inv : CS -> Prop) (abs : CS -> AS) : Prop := {
  sim_inv c s s' : inv s -> cexec c s = Some s' -> inv s';
  sim_step c s s' : inv s -> cexec c s = Some s' ->
    execs aexec (option_list (label c s)) (abs s) = Some (abs s');
}.

Context (inv : CS -> Prop) (abs : CS -> AS) `{!Simulation inv abs}.

(** Every detailed run is an abstract run. *)
Lemma simulation_execs l s s' :
  inv s -> execs cexec l s = Some s' -> execs aexec (labels l s) (abs s) = Some (abs s').
Proof.
  revert s. induction l as [|c l IH]; intros s Hs; cbn [execs labels]; [by intros [= <-]|].
  intros (s1 & E1 & E2)%bind_Some. rewrite E1, execs_app, (sim_step c s s1 Hs E1), bind_ret.
  apply IH; [|done]. by eapply sim_inv.
Qed.

(** So what holds of every abstract state that can be reached holds of every
    detailed one. *)
Lemma simulation_reachable init s :
  inv init -> reachable cexec init s -> reachable aexec (abs init) (abs s).
Proof.
  intros Hi Hr. assert (inv s /\ reachable aexec (abs init) (abs s)) as [_ H]; [|done].
  induction Hr as [|c s s' _ [Hs IH] E]; [split; [done|constructor]|]. split; [by eapply sim_inv|].
  eapply execs_reachable; [exact IH|]. by eapply sim_step.
Qed.
End refinement.
