(* ===== verification/ByteSwap.v ===== *)
(** Byte-order helpers: src/libs/Vita49_2/ByteSwap.h.

    The loads and stores are translated shift by shift.  The reference
    semantics is positional notation ([le_bytes]/[le_value] and their
    reversals); the class [ByteCodec] is what the packet code relies on, and
    each load/store pair of the header is an instance of it. *)

From S2P Require Import Prelude.

(** * Big-endian loads and stores *)

Definition readU16BE (m : list Z) (p : Z) : option Z :=
  p0 ← ptr_read m p;
  p1 ← ptr_read m (p + 1);
  Some (u16 (Z.lor (Z.shiftl (u16 p0) 8) (u16 p1))).

Definition readU32BE (m : list Z) (p : Z) : option Z :=
  p0 ← ptr_read m p;
  p1 ← ptr_read m (p + 1);
  p2 ← ptr_read m (p + 2);
  p3 ← ptr_read m (p + 3);
  Some (Z.lor (Z.lor (Z.lor (u32 (Z.shiftl (u32 p0) 24))
                            (u32 (Z.shiftl (u32 p1) 16)))
                     (u32 (Z.shiftl (u32 p2) 8)))
              (u32 p3)).

Definition readU64BE (m : list Z) (p : Z) : option Z :=
  hi ← readU32BE m p;
  lo ← readU32BE m (p + 4);
  Some (Z.lor (u64 (Z.shiftl (u64 hi) 32)) (u64 lo)).

Definition readI16BE (m : list Z) (p : Z) : option Z :=
  v ← readU16BE m p; Some (s16 v).

Definition writeU16BE (m : list Z) (p val : Z) : option (list Z) :=
  m ← ptr_write m p (u8 (Z.land (Z.shiftr val 8) 0xFF));
  ptr_write m (p + 1) (u8 (Z.land val 0xFF)).

Definition writeU32BE (m : list Z) (p val : Z) : option (list Z) :=
  m ← ptr_write m p (u8 (Z.land (Z.shiftr val 24) 0xFF));
  m ← ptr_write m (p + 1) (u8 (Z.land (Z.shiftr val 16) 0xFF));
  m ← ptr_write m (p + 2) (u8 (Z.land (Z.shiftr val 8) 0xFF));
  ptr_write m (p + 3) (u8 (Z.land val 0xFF)).

Definition writeU64BE (m : list Z) (p val : Z) : option (list Z) :=
  m ← writeU32BE m p (u32 (Z.land (Z.shiftr val 32) 0xFFFFFFFF));
  writeU32BE m (p + 4) (u32 (Z.land val 0xFFFFFFFF)).

Definition writeI16BE (m : list Z) (p val : Z) : option (list Z) :=
  writeU16BE m p (u16 val).

(** * Little-endian loads and stores *)

Definition readU16LE (m : list Z) (p : Z) : option Z :=
  p0 ← ptr_read m p;
  p1 ← ptr_read m (p + 1);
  Some (u16 (Z.lor (u16 p0) (Z.shiftl (u16 p1) 8))).

Definition readU32LE (m : list Z) (p : Z) : option Z :=
  p0 ← ptr_read m p;
  p1 ← ptr_read m (p + 1);
  p2 ← ptr_read m (p + 2);
  p3 ← ptr_read m (p + 3);
  Some (Z.lor (Z.lor (Z.lor (u32 p0)
                            (u32 (Z.shiftl (u32 p1) 8)))
                     (u32 (Z.shiftl (u32 p2) 16)))
              (u32 (Z.shiftl (u32 p3) 24))).

Definition readU64LE (m : list Z) (p : Z) : option Z :=
  lo ← readU32LE m p;
  hi ← readU32LE m (p + 4);
  Some (Z.lor (u64 lo) (u64 (Z.shiftl (u64 hi) 32))).

Definition readI16LE (m : list Z) (p : Z) : option Z :=
  v ← readU16LE m p; Some (s16 v).

Definition writeU16LE (m : list Z) (p val : Z) : option (list Z) :=
  m ← ptr_write m p (u8 (Z.land val 0xFF));
  ptr_write m (p + 1) (u8 (Z.land (Z.shiftr val 8) 0xFF)).

Definition writeU32LE (m : list Z) (p val : Z) : option (list Z) :=
  m ← ptr_write m p (u8 (Z.land val 0xFF));
  m ← ptr_write m (p + 1) (u8 (Z.land (Z.shiftr val 8) 0xFF));
  m ← ptr_write m (p + 2) (u8 (Z.land (Z.shiftr val 16) 0xFF));
  ptr_write m (p + 3) (u8 (Z.land (Z.shiftr val 24) 0xFF)).

Definition writeU64LE (m : list Z) (p val : Z) : option (list Z) :=
  m ← writeU32LE m p (u32 (Z.land val 0xFFFFFFFF));
  writeU32LE m (p + 4) (u32 (Z.land (Z.shiftr val 32) 0xFFFFFFFF)).

Definition writeI16LE (m : list Z) (p val : Z) : option (list Z) :=
  writeU16LE m p (u16 val).

(** * Reference semantics: positional notation in base 256 *)

Fixpoint le_bytes (n : nat) (v : Z) : list Z :=
  match n with
  | O => []
  | S n => v mod 256 :: le_bytes n (v / 256)
  end.

Fixpoint le_value (bs : list Z) : Z :=
  match bs with
  | [] => 0
  | b :: bs => b + 256 * le_value bs
  end.

Definition be_bytes (n : nat) (v : Z) : list Z := rev (le_bytes n v).
Definition be_value (bs : list Z) : Z := le_value (rev bs).

(** What a load/store pair of n bytes promises to its clients. *)
Class ByteCodec (n : nat) (rd : list Z -> Z -> option Z)
    (wr : list Z -> Z -> Z -> option (list Z))
    (val : list Z -> Z) (enc : Z -> list Z) : Prop := {
  codec_rd m p : bytes_ok m -> rd m p = val <$> slice m p n;
  codec_wr m p v : wr m p v = write_bytes m p (enc v);
  codec_len v : length (enc v) = n;
  codec_bytes v : bytes_ok (enc v);
  codec_val_enc v : 0 <= v < 256 ^ Z.of_nat n -> val (enc v) = v;
  codec_enc_val bs : bytes_ok bs -> length bs = n -> enc (val bs) = bs;
  codec_bound bs : bytes_ok bs -> length bs = n -> 0 <= val bs < 256 ^ Z.of_nat n;
}.

(** * The reference encodings are inverse to each other *)

Lemma length_le_bytes n v : length (le_bytes n v) = n.
Proof. revert v. induction n; intros; simpl; auto. Qed.

Lemma le_bytes_ok n v : bytes_ok (le_bytes n v).
Proof.
  revert v. induction n; intros; simpl; constructor; [|done].
  by apply Z.mod_pos_bound.
Qed.

Lemma le_value_bytes n v : 0 <= v < 256 ^ Z.of_nat n -> le_value (le_bytes n v) = v.
Proof.
  revert v. induction n as [|n IH]; intros v Hv; cbn [le_bytes le_value].
  - change (256 ^ Z.of_nat 0) with 1 in Hv. lia.
  - rewrite Nat2Z.inj_succ, Z.pow_succ_r in Hv by lia. rewrite IH by (split; [apply Z.div_pos | apply Z.div_lt_upper_bound]; lia).
    divmod.
Qed.

Lemma le_bytes_value bs n :
  bytes_ok bs -> length bs = n -> le_bytes n (le_value bs) = bs.
Proof.
  intros H <-. induction H as [|b bs Hb _ IH]; cbn [le_bytes le_value length]; [done|].
  unfold is_byte in Hb. f_equal; [divmod|]. rewrite <- IH at 3. f_equal. divmod.
Qed.

Lemma le_value_bound bs n :
  bytes_ok bs -> length bs = n -> 0 <= le_value bs < 256 ^ Z.of_nat n.
Proof.
  intros H <-. induction H as [|b bs Hb _ IH]; cbn [le_value length]; [done|].
  unfold is_byte in Hb. rewrite Nat2Z.inj_succ, Z.pow_succ_r by lia. lia.
Qed.

Lemma bytes_ok_rev bs : bytes_ok bs -> bytes_ok (rev bs).
Proof. rewrite rev_alt, <- (rev_alt bs). intros. by apply Forall_rev. Qed.

(** * Every access of the header is a [ByteCodec] *)

Lemma le_value_cons b bs : le_value (b :: bs) = b + 256 * le_value bs.
Proof. done. Qed.

(** An 8-bit value extracted by shift and mask is a base-256 digit. *)
Lemma byte_digit val k :
  0 <= k -> u8 (Z.land (Z.shiftr val k) 0xFF) = val / 2 ^ k mod 256.
Proof.
  intros. rewrite land_ff, Z.shiftr_div_pow2 by done. unfold u8.
  by rewrite Z.mod_mod.
Qed.

Lemma byte_digit_0 val : u8 (Z.land val 0xFF) = val mod 256.
Proof. rewrite land_ff. unfold u8. by rewrite Z.mod_mod. Qed.

Lemma div_256 v k : 0 <= k -> v / 2 ^ k / 256 = v / 2 ^ (k + 8).
Proof.
  intros. rewrite Z.pow_add_r by lia. by rewrite Z.div_div by lia.
Qed.

Ltac codec_read :=
  let Hm := fresh "Hm" in
  intros Hm; cbn [slice fmap option_fmap option_map mbind option_bind];
  rewrite <- ?Z.add_assoc; change (1 + (1 + 1)) with 3; change (1 + 1) with 2;
  repeat match goal with
  | |- context [ptr_read ?m ?p] =>
      let b := fresh "b" in let E := fresh "E" in
      destruct (ptr_read m p) as [b|] eqn:E;
      [apply (ptr_read_byte _ _ _ Hm) in E; unfold is_byte in E | done];
      cbn [mbind option_bind fmap option_fmap option_map]
  end.

(** The shift/or chain of a load, over four bytes. *)
Lemma or4 a b c d :
  is_byte a -> is_byte b -> is_byte c -> is_byte d ->
  Z.lor (Z.lor (Z.lor (u32 (Z.shiftl (u32 a) 24)) (u32 (Z.shiftl (u32 b) 16)))
               (u32 (Z.shiftl (u32 c) 8))) (u32 d)
  = a * 16777216 + b * 65536 + c * 256 + d.
Proof.
  unfold is_byte. intros. rewrite !(u32_small a), !(u32_small b), !(u32_small c), !(u32_small d) by lia.
  rewrite !u32_small by (rewrite Z.shiftl_mul_pow2 by lia; lia).
  rewrite (lor_low_high (Z.shiftl b 16) _ 24);
    [|lia|rewrite Z.shiftl_mul_pow2 by lia; lia
     |rewrite Z.shiftl_mul_pow2 by lia; by apply Z_mod_mult].
  rewrite (lor_low_high (Z.shiftl c 8) _ 16);
    [|lia|rewrite Z.shiftl_mul_pow2 by lia; lia
     |rewrite !Z.shiftl_mul_pow2 by lia; divmod].
  rewrite (lor_low_high d _ 8);
    [|lia|lia|rewrite !Z.shiftl_mul_pow2 by lia; divmod].
  rewrite !Z.shiftl_mul_pow2 by lia. lia.
Qed.

Lemma or4_rev a b c d :
  Z.lor (Z.lor (Z.lor (u32 d) (u32 (Z.shiftl (u32 c) 8)))
               (u32 (Z.shiftl (u32 b) 16))) (u32 (Z.shiftl (u32 a) 24))
  = Z.lor (Z.lor (Z.lor (u32 (Z.shiftl (u32 a) 24)) (u32 (Z.shiftl (u32 b) 16)))
               (u32 (Z.shiftl (u32 c) 8))) (u32 d).
Proof.
  rewrite (Z.lor_comm _ (u32 (Z.shiftl (u32 a) 24))), <- !Z.lor_assoc.
  f_equal. rewrite (Z.lor_comm (u32 (Z.shiftl (u32 c) 8))), !Z.lor_assoc.
  rewrite (Z.lor_comm (u32 d)), <- !Z.lor_assoc. f_equal. apply Z.lor_comm.
Qed.

(** An access whose load and store agree with positional notation is a codec. *)
Lemma le_codec n rd wr :
  (∀ m p, bytes_ok m -> rd m p = le_value <$> slice m p n) ->
  (∀ m p v, wr m p v = write_bytes m p (le_bytes n v)) ->
  ByteCodec n rd wr le_value (le_bytes n).
Proof.
  intros Hrd Hwr. split; [done|done|apply length_le_bytes|apply le_bytes_ok| | |].
  - apply le_value_bytes.
  - intros. by apply le_bytes_value.
  - intros. by apply le_value_bound.
Qed.

Lemma be_codec n rd wr :
  (∀ m p, bytes_ok m -> rd m p = be_value <$> slice m p n) ->
  (∀ m p v, wr m p v = write_bytes m p (be_bytes n v)) ->
  ByteCodec n rd wr be_value (be_bytes n).
Proof.
  intros Hrd Hwr. unfold be_bytes, be_value in *. split; [done|done| | | | |].
  - intros v. by rewrite length_rev, length_le_bytes.
  - intros v. apply bytes_ok_rev, le_bytes_ok.
  - intros v Hv. rewrite rev_involutive. by apply le_value_bytes.
  - intros bs Hbs Hl. rewrite le_bytes_value;
      [apply rev_involutive|by apply bytes_ok_rev|by rewrite length_rev].
  - intros bs Hbs Hl. apply le_value_bound; [by apply bytes_ok_rev|].
    by rewrite length_rev.
Qed.

Lemma le_bytes_2 v : le_bytes 2 v = [v mod 256; v / 2 ^ 8 mod 256].
Proof. done. Qed.

Lemma le_bytes_4 v :
  le_bytes 4 v =
    [v mod 256; v / 2 ^ 8 mod 256; v / 2 ^ 16 mod 256; v / 2 ^ 24 mod 256].
Proof. cbn. rewrite !Z.div_div by lia. done. Qed.

(** A chain of single-byte stores is [write_bytes]. *)
Ltac codec_write :=
  intros m p v; rewrite ?byte_digit, ?byte_digit_0 by lia;
  unfold be_bytes; rewrite ?le_bytes_4, ?le_bytes_2; cbn [rev app write_bytes];
  rewrite <- ?Z.add_assoc; change (1 + (1 + 1)) with 3; change (1 + 1) with 2;
  repeat match goal with
  | |- context [ptr_write ?m ?p ?v ≫= _] =>
      let E := fresh "E" in
      destruct (ptr_write m p v) eqn:E; cbn [mbind option_bind]; [|done]
  end; try done; try (by destruct (ptr_write _ _ _)).

#[export] Instance ByteCodec_U16BE :
  ByteCodec 2 readU16BE writeU16BE be_value (be_bytes 2).
Proof.
  apply be_codec.
  - intros m p. unfold readU16BE. codec_read. f_equal.
    rewrite !(u16_small b), !(u16_small b0) by lia.
    rewrite (lor_shiftl_add b b0 8), u16_small by lia. unfold be_value. cbn. lia.
  - unfold writeU16BE. codec_write.
Qed.

#[export] Instance ByteCodec_U16LE :
  ByteCodec 2 readU16LE writeU16LE le_value (le_bytes 2).
Proof.
  apply le_codec.
  - intros m p. unfold readU16LE. codec_read. f_equal.
    rewrite !(u16_small b), !(u16_small b0) by lia.
    rewrite (lor_add_shiftl b0 b 8), u16_small by lia. cbn. lia.
  - unfold writeU16LE. codec_write.
Qed.

#[export] Instance ByteCodec_U32BE :
  ByteCodec 4 readU32BE writeU32BE be_value (be_bytes 4).
Proof.
  apply be_codec.
  - intros m p. unfold readU32BE. codec_read. f_equal. rewrite or4 by done.
    unfold be_value. cbn. lia.
  - unfold writeU32BE. codec_write.
Qed.

#[export] Instance ByteCodec_U32LE :
  ByteCodec 4 readU32LE writeU32LE le_value (le_bytes 4).
Proof.
  apply le_codec.
  - intros m p. unfold readU32LE. codec_read. f_equal. rewrite or4_rev, or4 by done.
    cbn. lia.
  - unfold writeU32LE. codec_write.
Qed.

(** ** 64-bit accesses are two 32-bit ones *)

Lemma slice_split m p a b :
  slice m p (a + b) =
    (x ← slice m p a; y ← slice m (p + Z.of_nat a) b; Some (x ++ y)).
Proof.
  revert p. induction a as [|a IH]; intros p; cbn [slice Nat.add mbind option_bind].
  - rewrite Z.add_0_r. by destruct (slice m p b).
  - destruct (ptr_read m p); [|done]. cbn [mbind option_bind].
    rewrite IH, Nat2Z.inj_succ. replace (p + 1 + Z.of_nat a) with (p + Z.succ (Z.of_nat a)) by lia.
    destruct (slice m (p + 1) a); [|done]. cbn [mbind option_bind].
    by destruct (slice m _ b).
Qed.

Lemma write_bytes_split m p x y :
  write_bytes m p (x ++ y) =
    (m' ← write_bytes m p x; write_bytes m' (p + zlen x) y).
Proof.
  revert m p. induction x as [|a x IH]; intros m p; simpl.
  - by rewrite Z.add_0_r.
  - destruct (ptr_write m p a); [|done]. simpl. rewrite IH, zlen_cons.
    by rewrite (Z.add_assoc p).
Qed.

Lemma le_value_app x y :
  le_value (x ++ y) = le_value x + 256 ^ zlen x * le_value y.
Proof.
  induction x as [|a x IH]; [cbn; by destruct (le_value y)|]. cbn [app le_value].
  rewrite IH, zlen_cons, Z.pow_add_r by (try apply zlen_nonneg; lia). lia.
Qed.

Lemma le_bytes_8 v :
  0 <= v -> le_bytes 8 v = le_bytes 4 (u32 v) ++ le_bytes 4 (u32 (v / 2 ^ 32)).
Proof.
  intros Hv. cbn [le_bytes app]. unfold u32. rewrite !Z.div_div by lia.
  change (2 ^ 32) with 4294967296. do 7 (f_equal; [divmod|]). f_equal. divmod.
Qed.

Lemma le_bytes_mod n v : le_bytes n (v mod 256 ^ Z.of_nat n) = le_bytes n v.
Proof.
  revert v. induction n as [|n IH]; intros v; cbn [le_bytes]; [done|].
  rewrite Nat2Z.inj_succ, Z.pow_succ_r, Z.rem_mul_r by lia.
  specialize (IH (v / 256)). rewrite <- IH.
  generalize ((v / 256) mod 256 ^ Z.of_nat n). intros q. f_equal; [|f_equal]; divmod.
Qed.

(** Halves of a 64-bit store, as the masks of the code select them. *)
Lemma hi_half v : u32 (Z.land (Z.shiftr v 32) 0xFFFFFFFF) = u32 (v / 2 ^ 32).
Proof.
  rewrite land_ffffffff, Z.shiftr_div_pow2 by lia. unfold u32. by rewrite Z.mod_mod.
Qed.

Lemma lo_half v : u32 (Z.land v 0xFFFFFFFF) = u32 v.
Proof. rewrite land_ffffffff. unfold u32. by rewrite Z.mod_mod. Qed.

Lemma or_halves hi lo :
  0 <= hi < 4294967296 -> 0 <= lo < 4294967296 ->
  Z.lor (u64 (Z.shiftl (u64 hi) 32)) (u64 lo) = hi * 4294967296 + lo.
Proof.
  intros. rewrite !(u64_small hi), !(u64_small lo) by lia.
  rewrite u64_small by (rewrite Z.shiftl_mul_pow2 by lia; lia).
  by rewrite lor_shiftl_add by lia.
Qed.

Lemma write_bytes_mod8 v : le_bytes 8 v = le_bytes 8 (u64 v).
Proof. symmetry. apply (le_bytes_mod 8). Qed.

Lemma le_bytes_8_halves v :
  le_bytes 8 v = le_bytes 4 (u32 v) ++ le_bytes 4 (u32 (v / 2 ^ 32)).
Proof.
  rewrite write_bytes_mod8, le_bytes_8 by apply u64_bound. f_equal; f_equal; unwrap; divmod.
Qed.

#[export] Instance ByteCodec_U64LE :
  ByteCodec 8 readU64LE writeU64LE le_value (le_bytes 8).
Proof.
  apply le_codec.
  - intros m p Hm. unfold readU64LE. rewrite !codec_rd by done.
    change (slice m p 8) with (slice m p (4 + 4)). rewrite slice_split. change (Z.of_nat 4) with 4.
    destruct (slice m p 4) as [lo|] eqn:Elo; [|done]. cbn [fmap option_fmap option_map mbind option_bind].
    destruct (slice m (p + 4) 4) as [hi|] eqn:Ehi; [|done]. cbn.
    pose proof (le_value_bound lo 4 (slice_bytes _ _ _ _ Hm Elo) (slice_length _ _ _ _ Elo)).
    pose proof (le_value_bound hi 4 (slice_bytes _ _ _ _ Hm Ehi) (slice_length _ _ _ _ Ehi)).
    rewrite Z.lor_comm, or_halves by done. f_equal. rewrite le_value_app.
    unfold zlen. rewrite (slice_length _ _ _ _ Elo). change (256 ^ Z.of_nat 4) with 4294967296. lia.
  - intros m p v. unfold writeU64LE. rewrite hi_half, lo_half, codec_wr, le_bytes_8_halves.
    rewrite write_bytes_split. destruct (write_bytes m p _) as [m'|]; [|done].
    cbn [mbind option_bind]. by rewrite codec_wr.
Qed.

#[export] Instance ByteCodec_U64BE :
  ByteCodec 8 readU64BE writeU64BE be_value (be_bytes 8).
Proof.
  apply be_codec.
  - intros m p Hm. unfold readU64BE. rewrite !codec_rd by done.
    change (slice m p 8) with (slice m p (4 + 4)). rewrite slice_split. change (Z.of_nat 4) with 4.
    destruct (slice m p 4) as [hi|] eqn:Ehi; [|done]. cbn [fmap option_fmap option_map mbind option_bind].
    destruct (slice m (p + 4) 4) as [lo|] eqn:Elo; [|done].
    cbn [fmap option_fmap option_map mbind option_bind].
    pose proof (codec_bound (rd:=readU32BE) hi (slice_bytes _ _ _ _ Hm Ehi) (slice_length _ _ _ _ Ehi)).
    pose proof (codec_bound (rd:=readU32BE) lo (slice_bytes _ _ _ _ Hm Elo) (slice_length _ _ _ _ Elo)).
    rewrite or_halves by done. f_equal. unfold be_value. rewrite rev_app_distr, le_value_app.
    unfold zlen. rewrite length_rev, (slice_length _ _ _ _ Elo).
    change (256 ^ Z.of_nat 4) with 4294967296. lia.
  - intros m p v. unfold writeU64BE. rewrite hi_half, lo_half, codec_wr.
    unfold be_bytes at 2. rewrite le_bytes_8_halves, rev_app_distr, write_bytes_split.
    fold (be_bytes 4 (u32 (v / 2 ^ 32))) (be_bytes 4 (u32 v)).
    destruct (write_bytes m p _) as [m'|]; [|done].
    cbn [mbind option_bind]. by rewrite codec_wr.
Qed.

(** * What clients use *)

Section codec_facts.
Context {n : nat} {rd : list Z -> Z -> option Z} {wr : list Z -> Z -> Z -> option (list Z)}.
Context {val : list Z -> Z} {enc : Z -> list Z} `{!ByteCodec n rd wr val enc}.

Lemma codec_read_at l v r :
  bytes_ok l -> bytes_ok r -> 0 <= v < 256 ^ Z.of_nat n ->
  rd (l ++ enc v ++ r) (zlen l) = Some v.
Proof.
  intros Hl Hr Hv. pose proof (codec_bytes v) as He. rewrite codec_rd.
  - rewrite slice_app_exact by apply codec_len. simpl. f_equal. by apply codec_val_enc.
  - rewrite !Forall_app. done.
Qed.

Lemma codec_read_total m p :
  bytes_ok m -> 0 <= p -> p + Z.of_nat n <= zlen m ->
  ∃ v, rd m p = Some v /\ 0 <= v < 256 ^ Z.of_nat n.
Proof.
  intros Hm Hp Hl. destruct (slice_total m p n) as [bs Hbs]; [done..|].
  exists (val bs). rewrite codec_rd, Hbs by done. split; [done|].
  apply codec_bound; [by eapply slice_bytes | by eapply slice_length].
Qed.

Lemma codec_read_slice m p v :
  bytes_ok m -> rd m p = Some v -> slice m p n = Some (enc v).
Proof.
  intros Hm. rewrite codec_rd by done. destruct (slice m p n) as [bs|] eqn:E; [|done].
  intros [= <-]. f_equal. symmetry.
  apply codec_enc_val; [by eapply slice_bytes | by eapply slice_length].
Qed.

Lemma codec_append out v :
  wr (resize_by out (Z.of_nat n)) (zlen out) v = Some (out ++ enc v).
Proof.
  rewrite codec_wr. apply write_bytes_resize. unfold zlen. by rewrite codec_len.
Qed.

(** A store followed by a load at the same place: a round trip that leaves the
    bytes around it alone. *)
Lemma codec_access l old r v :
  bytes_ok l -> bytes_ok r -> length old = n -> 0 <= v < 256 ^ Z.of_nat n ->
  wr (l ++ old ++ r) (zlen l) v = Some (l ++ enc v ++ r) /\
  rd (l ++ enc v ++ r) (zlen l) = Some v.
Proof.
  intros Hl Hr Ho Hv. split; [|by apply codec_read_at].
  rewrite codec_wr. apply write_bytes_app. by rewrite codec_len.
Qed.

(** An access that leaves the buffer is undefined. *)
Lemma codec_read_oob m p :
  bytes_ok m -> (0 < n)%nat -> ~ (0 <= p /\ p + Z.of_nat n <= zlen m) -> rd m p = None.
Proof.
  intros Hm Hn Hp. rewrite codec_rd by done.
  destruct (slice m p n) as [bs|] eqn:E; [|done]. exfalso. apply Hp.
  by apply slice_inside in E.
Qed.
End codec_facts.

(** ** 16-bit signed accesses *)

Lemma readI16BE_at l v r :
  bytes_ok l -> bytes_ok r -> -32768 <= v < 32768 ->
  readI16BE (l ++ be_bytes 2 (u16 v) ++ r) (zlen l) = Some v.
Proof.
  intros Hl Hr Hv. unfold readI16BE. pose proof (u16_bound v) as Hu.
  erewrite (codec_read_at (rd:=readU16BE)) by done. cbn. by rewrite s16_u16.
Qed.

Lemma readI16LE_at l v r :
  bytes_ok l -> bytes_ok r -> -32768 <= v < 32768 ->
  readI16LE (l ++ le_bytes 2 (u16 v) ++ r) (zlen l) = Some v.
Proof.
  intros Hl Hr Hv. unfold readI16LE. pose proof (u16_bound v) as Hu.
  erewrite (codec_read_at (rd:=readU16LE)) by done. cbn. by rewrite s16_u16.
Qed.

(** * Properties *)

(** In both byte orders and at every width, storing a value of that width
    into a buffer and loading it back gives the value; the bytes around it are
    unchanged and the big-endian bytes are the little-endian ones reversed. *)
Theorem byteswap_roundtrip l a b c r v16 v32 v64 i16 :
  bytes_ok l -> bytes_ok r -> length a = 2%nat -> length b = 4%nat -> length c = 8%nat ->
  0 <= v16 < 2 ^ 16 -> 0 <= v32 < 2 ^ 32 -> 0 <= v64 < 2 ^ 64 -> - 2 ^ 15 <= i16 < 2 ^ 15 ->
  ∃ e16 e32 e64 ei,
    (writeU16BE (l ++ a ++ r) (zlen l) v16 = Some (l ++ e16 ++ r) /\
     readU16BE (l ++ e16 ++ r) (zlen l) = Some v16 /\
     writeU16LE (l ++ a ++ r) (zlen l) v16 = Some (l ++ rev e16 ++ r) /\
     readU16LE (l ++ rev e16 ++ r) (zlen l) = Some v16) /\
    (writeU32BE (l ++ b ++ r) (zlen l) v32 = Some (l ++ e32 ++ r) /\
     readU32BE (l ++ e32 ++ r) (zlen l) = Some v32 /\
     writeU32LE (l ++ b ++ r) (zlen l) v32 = Some (l ++ rev e32 ++ r) /\
     readU32LE (l ++ rev e32 ++ r) (zlen l) = Some v32) /\
    (writeU64BE (l ++ c ++ r) (zlen l) v64 = Some (l ++ e64 ++ r) /\
     readU64BE (l ++ e64 ++ r) (zlen l) = Some v64 /\
     writeU64LE (l ++ c ++ r) (zlen l) v64 = Some (l ++ rev e64 ++ r) /\
     readU64LE (l ++ rev e64 ++ r) (zlen l) = Some v64) /\
    (writeI16BE (l ++ a ++ r) (zlen l) i16 = Some (l ++ ei ++ r) /\
     readI16BE (l ++ ei ++ r) (zlen l) = Some i16 /\
     writeI16LE (l ++ a ++ r) (zlen l) i16 = Some (l ++ rev ei ++ r) /\
     readI16LE (l ++ rev ei ++ r) (zlen l) = Some i16).
Proof.
  intros Hl Hr Ha Hb Hc H16 H32 H64 Hi.
  change (2 ^ 15) with 32768 in Hi. pose proof (u16_bound i16) as Hu.
  exists (be_bytes 2 v16), (be_bytes 4 v32), (be_bytes 8 v64), (be_bytes 2 (u16 i16)).
  unfold be_bytes. rewrite !rev_involutive.
  fold (be_bytes 2 v16) (be_bytes 4 v32) (be_bytes 8 v64) (be_bytes 2 (u16 i16)).
  destruct (codec_access (rd:=readU16BE) l a r v16) as [? ?]; [done..|].
  destruct (codec_access (rd:=readU16LE) l a r v16) as [? ?]; [done..|].
  destruct (codec_access (rd:=readU32BE) l b r v32) as [? ?]; [done..|].
  destruct (codec_access (rd:=readU32LE) l b r v32) as [? ?]; [done..|].
  destruct (codec_access (rd:=readU64BE) l c r v64) as [? ?]; [done..|].
  destruct (codec_access (rd:=readU64LE) l c r v64) as [? ?]; [done..|].
  destruct (codec_access (rd:=readU16BE) l a r (u16 i16)) as [? ?]; [done..|].
  destruct (codec_access (rd:=readU16LE) l a r (u16 i16)) as [? ?]; [done..|].
  split_and!; try done; [by apply readI16BE_at|by apply readI16LE_at].
Qed.

Lemma byteswap_roundtrip_witness :
  ∃ e16 e32 e64 ei,
    (writeU16BE ([1] ++ [0; 0] ++ [2]) (zlen [1]) 258 = Some ([1] ++ e16 ++ [2]) /\
     readU16BE ([1] ++ e16 ++ [2]) (zlen [1]) = Some 258 /\
     writeU16LE ([1] ++ [0; 0] ++ [2]) (zlen [1]) 258 = Some ([1] ++ rev e16 ++ [2]) /\
     readU16LE ([1] ++ rev e16 ++ [2]) (zlen [1]) = Some 258) /\
    (writeU32BE ([1] ++ [0; 0; 0; 0] ++ [2]) (zlen [1]) 66051 = Some ([1] ++ e32 ++ [2]) /\
     readU32BE ([1] ++ e32 ++ [2]) (zlen [1]) = Some 66051 /\
     writeU32LE ([1] ++ [0; 0; 0; 0] ++ [2]) (zlen [1]) 66051 = Some ([1] ++ rev e32 ++ [2]) /\
     readU32LE ([1] ++ rev e32 ++ [2]) (zlen [1]) = Some 66051) /\
    (writeU64BE ([1] ++ replicate 8 0 ++ [2]) (zlen [1]) 5 = Some ([1] ++ e64 ++ [2]) /\
     readU64BE ([1] ++ e64 ++ [2]) (zlen [1]) = Some 5 /\
     writeU64LE ([1] ++ replicate 8 0 ++ [2]) (zlen [1]) 5 = Some ([1] ++ rev e64 ++ [2]) /\
     readU64LE ([1] ++ rev e64 ++ [2]) (zlen [1]) = Some 5) /\
    (writeI16BE ([1] ++ [0; 0] ++ [2]) (zlen [1]) (-2) = Some ([1] ++ ei ++ [2]) /\
     readI16BE ([1] ++ ei ++ [2]) (zlen [1]) = Some (-2) /\
     writeI16LE ([1] ++ [0; 0] ++ [2]) (zlen [1]) (-2) = Some ([1] ++ rev ei ++ [2]) /\
     readI16LE ([1] ++ rev ei ++ [2]) (zlen [1]) = Some (-2)).
Proof.
  apply byteswap_roundtrip; try done; repeat constructor; unfold is_byte; lia.
Defined.
