(* ===== verification/Ieee754.v ===== *)
(** IEEE-754 arithmetic used by the VITA 49.2 code.

    [float] and [double] are the standard library's executable specification
    [spec_float] at (24, 128) and (53, 1024), so every product, quotient and
    conversion below rounds exactly as the hardware does; [std::round],
    [std::lroundf] and float-to-integer casts are written over it.  The
    lemmas say when scaling by a power of two is exact. *)

From Stdlib Require Import SpecFloat.
From S2P Require Import Prelude.

(** * Operations *)

Definition f32_prec : Z := 24.
Definition f32_emax : Z := 128.
Definition f64_prec : Z := 53.
Definition f64_emax : Z := 1024.

Abbreviation float := spec_float.
Abbreviation double := spec_float.

Definition f32_mul : float -> float -> float := SFmul f32_prec f32_emax.
Definition f32_div : float -> float -> float := SFdiv f32_prec f32_emax.
Definition f64_mul : double -> double -> double := SFmul f64_prec f64_emax.
Definition f64_div : double -> double -> double := SFdiv f64_prec f64_emax.

Definition f32_add : float -> float -> float := SFadd f32_prec f32_emax.
Definition f32_sub : float -> float -> float := SFsub f32_prec f32_emax.
Definition f64_add : double -> double -> double := SFadd f64_prec f64_emax.
Definition f64_sqrt : double -> double := SFsqrt f64_prec f64_emax.

(** [static_cast<float>(double)], [static_cast<double>(float)]. *)
Definition convert (prec emax : Z) (x : spec_float) : spec_float :=
  match x with
  | S754_finite s m e => binary_normalize prec emax (cond_Zopp s (Z.pos m)) e s
  | _ => x
  end.

Definition f32_of_f64 : double -> float := convert f32_prec f32_emax.
Definition f64_of_f32 : float -> double := convert f64_prec f64_emax.

(** [std::min], [std::max]: the first argument unless the second is strictly
    smaller, greater. *)
Definition f32_min (a b : float) : float := if SFltb b a then b else a.
Definition f32_max (a b : float) : float := if SFltb a b then b else a.

(** [static_cast<float>(i)], [static_cast<double>(i)]: round to nearest even. *)
Definition f32_of_Z (z : Z) : float := binary_normalize f32_prec f32_emax z 0 false.
Definition f64_of_Z (z : Z) : double := binary_normalize f64_prec f64_emax z 0 false.

(** The magnitude m * 2^e rounded to an integer, halves away from zero. *)
Definition round_mag (m : positive) (e : Z) : Z :=
  if 0 <=? e then Z.pos m * 2 ^ e
  else (Z.pos m + 2 ^ (- e - 1)) / 2 ^ (- e).

(** [std::round(double)]. *)
Definition f64_round (x : double) : double :=
  match x with
  | S754_finite s m e =>
      if 0 <=? e then x
      else binary_normalize f64_prec f64_emax (cond_Zopp s (round_mag m e)) 0 s
  | _ => x
  end.

(** A float cast to an integer truncates; the cast is undefined when the
    truncated value is not representable in the target [lo, hi). *)
Definition trunc_mag (m : positive) (e : Z) : Z :=
  if 0 <=? e then Z.pos m * 2 ^ e else Z.pos m / 2 ^ (- e).

Definition float_to_int (lo hi : Z) (x : spec_float) : option Z :=
  match x with
  | S754_zero _ => Some 0
  | S754_finite s m e =>
      let v := cond_Zopp s (trunc_mag m e) in
      if (lo <=? v) && (v <? hi) then Some v else None
  | _ => None
  end.

Definition double_to_int64 : double -> option Z := float_to_int (- 2 ^ 63) (2 ^ 63).
Definition double_to_int16 : double -> option Z := float_to_int (- 2 ^ 15) (2 ^ 15).

(** [std::lroundf]: the rounded value when it fits a 64-bit [long]; on a NaN,
    an infinity or an out-of-range value the result is unspecified ([None]). *)
Definition lroundf (x : float) : option Z :=
  match x with
  | S754_zero _ => Some 0
  | S754_finite s m e =>
      let v := cond_Zopp s (round_mag m e) in
      if (- 2 ^ 63 <=? v) && (v <? 2 ^ 63) then Some v else None
  | _ => None
  end.

Example lroundf_half : lroundf (S754_finite false 5 (-1)) = Some 3.
Proof. reflexivity. Qed.
Example lroundf_neg_half : lroundf (S754_finite true 5 (-1)) = Some (-3).
Proof. reflexivity. Qed.

(** * Shifting mantissas *)

Definition shln (m : positive) (k : nat) : positive := Nat.iter k xO m.

Lemma shln_Z m k : Z.pos (shln m k) = Z.pos m * 2 ^ Z.of_nat k.
Proof.
  induction k as [|k IH]; [cbn; lia|].
  change (shln m (S k)) with (xO (shln m k)).
  rewrite Pos2Z.inj_xO, IH, Nat2Z.inj_succ, Z.pow_succ_r by lia. lia.
Qed.

Lemma shln_add m a b : shln (shln m a) b = shln m (b + a).
Proof. unfold shln. by rewrite Nat.iter_add. Qed.

Lemma shln_mul m n k : Pos.mul m (shln n k) = shln (Pos.mul m n) k.
Proof.
  enough (Z.pos (Pos.mul m (shln n k)) = Z.pos (shln (Pos.mul m n) k)) by lia.
  rewrite Pos2Z.inj_mul, !shln_Z, Pos2Z.inj_mul. lia.
Qed.

Lemma iter_pos_nat {A} (f : A -> A) p x : SpecFloat.iter_pos f p x = Nat.iter (Pos.to_nat p) f x.
Proof.
  revert x. induction p as [p IH|p IH|]; intros x; cbn [SpecFloat.iter_pos]; [| |done].
  - rewrite !IH, <- Nat.iter_add, <- Nat.iter_succ_r. f_equal. lia.
  - rewrite !IH, <- Nat.iter_add. f_equal. lia.
Qed.

Lemma shr_exact m k :
  Nat.iter k shr_1 (Build_shr_record (Z.pos (shln m k)) false false)
  = Build_shr_record (Z.pos m) false false.
Proof. induction k as [|k IH]; [done|]. rewrite Nat.iter_succ_r. exact IH. Qed.

(** ** Digit counts *)

Lemma digits2_shln m k : digits2_pos (shln m k) = Pos.of_nat (Pos.to_nat (digits2_pos m) + k).
Proof.
  induction k as [|k IH]; simpl.
  - by rewrite Nat.add_0_r, Pos2Nat.id.
  - change (shln m (S k)) with (xO (shln m k)). cbn [digits2_pos]. rewrite IH. lia.
Qed.

Lemma digits2_shln_Z m k :
  Z.pos (digits2_pos (shln m k)) = Z.pos (digits2_pos m) + Z.of_nat k.
Proof. rewrite digits2_shln. lia. Qed.

Lemma digits2_bound m :
  2 ^ (Z.pos (digits2_pos m) - 1) <= Z.pos m < 2 ^ Z.pos (digits2_pos m).
Proof.
  induction m as [m IH|m IH|]; cbn [digits2_pos]; [| |done];
    rewrite Pos2Z.inj_succ; unfold Z.succ;
    replace (Z.pos (digits2_pos m) + 1 - 1) with (Z.succ (Z.pos (digits2_pos m) - 1)) by lia;
    rewrite <- Z.add_1_r, !Z.pow_add_r in * by lia; lia.
Qed.

Lemma digits2_le m p : 0 <= p -> Z.pos m < 2 ^ p -> Z.pos (digits2_pos m) <= p.
Proof.
  intros Hp Hm. pose proof (digits2_bound m) as [Hlo _].
  assert (2 ^ (Z.pos (digits2_pos m) - 1) < 2 ^ p) as H by lia.
  apply Z.pow_lt_mono_r_iff in H; lia.
Qed.

Lemma new_location_0 n : new_location n 0 = loc_Exact.
Proof. unfold new_location. by destruct (Z.even n). Qed.

(** * Exact results *)

Section exact.
Context (prec emax : Z) (Hprec : 1 < prec) (Hemax : prec < emax).
Local Abbreviation fexp := (fexp prec emax).
Local Abbreviation emin := (emin prec emax).
Local Abbreviation digits m := (Z.pos (digits2_pos m)).

(** A mantissa that is a canonical one shifted left rounds to it exactly. *)
Lemma round_aux_exact s m k e :
  bounded prec emax m e = true ->
  binary_round_aux prec emax s (Z.pos (shln m k)) (e - Z.of_nat k) loc_Exact
  = S754_finite s m e.
Proof.
  unfold bounded, canonical_mantissa. intros [Hc He]%andb_true_iff.
  apply Z.eqb_eq in Hc.
  assert (shr_fexp prec emax (Z.pos (shln m k)) (e - Z.of_nat k) loc_Exact
          = (Build_shr_record (Z.pos m) false false, e)) as E1.
  { unfold shr_fexp. cbn [shr_record_of_loc Zdigits2]. rewrite digits2_shln_Z.
    replace (digits m + Z.of_nat k + (e - Z.of_nat k)) with (digits m + e) by lia.
    rewrite Hc. destruct k as [|k].
    - replace (e - (e - Z.of_nat 0)) with 0 by lia. cbn. f_equal. lia.
    - replace (e - (e - Z.of_nat (S k))) with (Z.pos (Pos.of_nat (S k))) by lia.
      unfold shr. rewrite iter_pos_nat, Nat2Pos.id, shr_exact by done. f_equal. lia. }
  assert (shr_fexp prec emax (Z.pos m) e loc_Exact
          = (Build_shr_record (Z.pos m) false false, e)) as E2.
  { unfold shr_fexp. cbn [shr_record_of_loc Zdigits2]. rewrite Hc, Z.sub_diag. done. }
  unfold binary_round_aux. rewrite E1.
  cbn [shr_m loc_of_shr_record round_nearest_even]. rewrite E2. cbn [shr_m].
  by rewrite He.
Qed.

(** The canonical float of value ±m·2^e, when m has at most [prec] digits. *)
Definition norm_shift (m : positive) : nat := Z.to_nat (prec - digits m).
Definition norm (s : bool) (m : positive) (e : Z) : spec_float :=
  S754_finite s (shln m (norm_shift m)) (e - Z.of_nat (norm_shift m)).

(** m·2^e is a normal number of the format. *)
Definition in_range (m : positive) (e : Z) : Prop :=
  digits m <= prec /\ emin <= digits m + e - prec /\ digits m + e <= emax.

Lemma norm_bounded m e :
  in_range m e ->
  bounded prec emax (shln m (norm_shift m)) (e - Z.of_nat (norm_shift m)) = true.
Proof.
  intros (Hd & Hlo & Hhi). unfold bounded, canonical_mantissa, SpecFloat.fexp, norm_shift.
  rewrite digits2_shln_Z. apply andb_true_iff.
  rewrite Z.eqb_eq, Z.leb_le. lia.
Qed.

Lemma digits_norm m :
  digits m <= prec -> digits (shln m (norm_shift m)) = prec.
Proof. intros. rewrite digits2_shln_Z. unfold norm_shift. lia. Qed.

Lemma binary_round_norm s m e :
  in_range m e -> binary_round prec emax s m e = norm s m e.
Proof.
  intros Hr. pose proof (norm_bounded m e Hr) as Hb.
  destruct Hr as (Hd & Hlo & Hhi). unfold binary_round, shl_align.
  assert (fexp (digits m + e) - e = - Z.of_nat (norm_shift m)) as Ee
    by (unfold SpecFloat.fexp, norm_shift; lia).
  rewrite Ee. pose proof (round_aux_exact s _ 0 _ Hb) as H. simpl in H.
  rewrite Z.sub_0_r in H. unfold norm.
  destruct (norm_shift m) as [|k] eqn:Ek; simpl in *.
  - rewrite Z.sub_0_r in H. rewrite Z.sub_0_r. exact H.
  - rewrite <- H. f_equal; [|unfold SpecFloat.fexp, norm_shift in *; lia]. f_equal.
    rewrite Pos2Nat.inj_iter, SuccNat2Pos.id_succ. done.
Qed.

(** Multiplying and dividing by 2^k only moves the exponent. *)
Lemma norm_mul_pow2 s m e k :
  in_range m e -> in_range m (e + k) -> in_range 1 k ->
  SFmul prec emax (norm s m e) (norm false 1 k) = norm s m (e + k).
Proof.
  intros Hr Hr' H1. pose proof (norm_bounded m (e + k) Hr') as Hb.
  unfold norm at 1 2. cbn [SFmul]. rewrite xorb_false_r.
  rewrite shln_mul, Pos.mul_1_r. unfold norm.
  rewrite <- (round_aux_exact s _ (norm_shift 1) _ Hb). f_equal. lia.
Qed.

Lemma norm_div_pow2 s m e k :
  in_range m e -> in_range m (e - k) -> in_range 1 k ->
  SFdiv prec emax (norm s m e) (norm false 1 k) = norm s m (e - k).
Proof.
  intros Hr Hr' H1. pose proof (norm_bounded m (e - k) Hr') as Hb.
  destruct Hr as (Hd & Hlo & Hhi), Hr' as (_ & Hlo' & Hhi').
  assert (Z.of_nat (norm_shift 1) = prec - 1) as E1 by (unfold norm_shift; cbn; lia).
  unfold norm at 1 2. cbn [SFdiv]. rewrite xorb_false_r.
  unfold SFdiv_core_binary. cbn [Zdigits2].
  rewrite !digits_norm by (done || (cbn; lia)). rewrite E1.
  set (M := shln m (norm_shift m)).
  set (E := e - Z.of_nat (norm_shift m)).
  set (x := E - (k - (prec - 1))).
  replace (prec + E - (prec + (k - (prec - 1)))) with x by lia.
  assert (0 <= x - Z.min (fexp x) x /\
          (x - Z.min (fexp x) x = prec \/ x - Z.min (fexp x) x = prec - 1)) as [Hs0 Hs].
  { unfold x, E, SpecFloat.fexp, norm_shift in *. lia. }
  set (sh := x - Z.min (fexp x) x) in *.
  assert ((match sh with Z0 => Z.pos M | Z.pos _ => Z.shiftl (Z.pos M) sh | Z.neg _ => 0 end)
          = Z.pos M * 2 ^ sh) as ->.
  { destruct sh; [lia| |lia]. by rewrite Z.shiftl_mul_pow2. }
  set (j := Z.to_nat (sh - (prec - 1))).
  assert (Z.pos M * 2 ^ sh = Z.pos (shln M j) * Z.pos (shln 1 (norm_shift 1))) as ->.
  { rewrite !shln_Z, E1, Z.mul_1_l, <- Z.mul_assoc, <- Z.pow_add_r by lia. f_equal. f_equal. lia. }
  pose proof (Z_div_mod (Z.pos (shln M j) * Z.pos (shln 1 (norm_shift 1)))
    (Z.pos (shln 1 (norm_shift 1))) ltac:(lia)) as Hdm.
  destruct (Z.div_eucl _ _) as [q r]. destruct Hdm as [Hq Hr0].
  assert (q = Z.pos (shln M j) /\ r = 0) as [-> ->].
  { revert Hq Hr0. generalize (Z.pos (shln M j)) (Z.pos (shln 1 (norm_shift 1))).
    clear. intros a b Hq Hr. destruct (Z.lt_trichotomy q a) as [?|[->|?]]; nia. }
  rewrite new_location_0.
  replace (Z.min (fexp x) x) with (e - k - Z.of_nat (norm_shift m) - Z.of_nat j).
  { exact (round_aux_exact s _ j _ Hb). }
  unfold j. rewrite Z2Nat.id by lia. unfold sh, x, E. lia.
Qed.

(** Integers of at most [prec] bits convert exactly. *)
Lemma normalize_norm s m :
  digits m <= prec -> in_range m 0 ->
  binary_normalize prec emax (cond_Zopp s (Z.pos m)) 0 s = norm s m 0.
Proof. intros. destruct s; simpl; by apply binary_round_norm. Qed.
End exact.

(** ** Rounding and truncating an exact integer *)

Lemma round_mag_shln m k : round_mag (shln m k) (- Z.of_nat k) = Z.pos m.
Proof.
  unfold round_mag. rewrite shln_Z. destruct (Z.leb_spec 0 (- Z.of_nat k)).
  - destruct k; [|lia]. cbn. lia.
  - rewrite Z.opp_involutive.
    assert (2 ^ Z.of_nat k = 2 * 2 ^ (Z.of_nat k - 1)) as E.
    { rewrite <- Z.pow_succ_r by lia. f_equal. lia. }
    pose proof (Z.pow_pos_nonneg 2 (Z.of_nat k - 1)).
    rewrite Z.add_comm, Z.div_add by lia. rewrite Z.div_small by lia. lia.
Qed.

Lemma trunc_mag_shln m k : trunc_mag (shln m k) (- Z.of_nat k) = Z.pos m.
Proof.
  unfold trunc_mag. rewrite shln_Z. destruct (Z.leb_spec 0 (- Z.of_nat k)).
  - destruct k; [|lia]. cbn. lia.
  - rewrite Z.opp_involutive. apply Z.div_mul. lia.
Qed.

(** * Fixed-point values of the two formats

    [pow2_32 k] and [pow2_64 k] are 2^k; [dyadic z k] is z·2^k. *)

Definition pow2_32 (k : Z) : float := norm f32_prec false 1 k.
Definition pow2_64 (k : Z) : double := norm f64_prec false 1 k.

Definition dyadic (prec : Z) (z k : Z) : spec_float :=
  match z with
  | Z0 => S754_zero false
  | Zpos m => norm prec false m k
  | Zneg m => norm prec true m k
  end.

Lemma digits_of_bound m p : 0 < p -> Z.pos m < 2 ^ p -> 1 <= Z.pos (digits2_pos m) <= p.
Proof. intros. split; [lia|]. apply digits2_le; lia. Qed.

Section dyadic.
Context (prec emax : Z) (Hprec : 1 < prec) (Hemax : prec < emax).

(** Exponents for which z·2^k, |z| < 2^prec, is a normal number. *)
Definition exponent_ok (k : Z) : Prop :=
  3 - emax + prec <= k /\ k <= emax - prec - 3.

Lemma exponent_in_range m k :
  Z.pos m < 2 ^ prec -> exponent_ok k -> in_range prec emax m k.
Proof.
  intros Hm [? ?]. pose proof (digits_of_bound m prec ltac:(lia) Hm).
  unfold in_range, SpecFloat.emin. lia.
Qed.

Lemma one_lt_pow : 1 < 2 ^ prec.
Proof. apply Z.pow_gt_1; lia. Qed.

Lemma dyadic_of_Z z :
  - 2 ^ prec < z < 2 ^ prec -> exponent_ok 0 ->
  binary_normalize prec emax z 0 false = dyadic prec z 0.
Proof.
  intros Hz Hk. destruct z as [|m|m]; simpl; [done| |];
    (apply binary_round_norm; [done..|]; apply exponent_in_range; done || lia).
Qed.

Lemma dyadic_mul_pow2 z e k :
  - 2 ^ prec < z < 2 ^ prec -> exponent_ok e -> exponent_ok (e + k) -> exponent_ok k ->
  SFmul prec emax (dyadic prec z e) (norm prec false 1 k) = dyadic prec z (e + k).
Proof.
  intros Hz He Hek Hk. pose proof one_lt_pow.
  destruct z as [|m|m]; cbn [dyadic]; [done| |];
    (apply norm_mul_pow2; [done..| | |]; apply exponent_in_range; done || lia).
Qed.

Lemma dyadic_div_pow2 z e k :
  - 2 ^ prec < z < 2 ^ prec -> exponent_ok e -> exponent_ok (e - k) -> exponent_ok k ->
  SFdiv prec emax (dyadic prec z e) (norm prec false 1 k) = dyadic prec z (e - k).
Proof.
  intros Hz He Hek Hk. pose proof one_lt_pow.
  destruct z as [|m|m]; cbn [dyadic]; [done| |];
    (apply norm_div_pow2; [done..| | |]; apply exponent_in_range; done || lia).
Qed.

Lemma float_to_int_dyadic lo hi z :
  lo <= z < hi -> float_to_int lo hi (dyadic prec z 0) = Some z.
Proof.
  intros Hz. destruct z as [|m|m]; cbn [dyadic float_to_int norm].
  { done. }
  all: change (0 - Z.of_nat (norm_shift prec m)) with (- Z.of_nat (norm_shift prec m)).
  all: rewrite trunc_mag_shln; cbn [cond_Zopp Z.opp].
  all: by rewrite (proj2 (Z.leb_le _ _)), (proj2 (Z.ltb_lt _ _)) by lia.
Qed.
End dyadic.

(** Side conditions on the two formats. *)
Ltac fmt :=
  unfold exponent_ok, f32_prec, f32_emax, f64_prec, f64_emax in *;
  done || lia.

(** ** Double: fixed-point fields survive conversion to [double] and back *)

Lemma f64_of_Z_dyadic z :
  - 2 ^ 53 < z < 2 ^ 53 -> f64_of_Z z = dyadic f64_prec z 0.
Proof. intros. apply dyadic_of_Z; fmt. Qed.

Lemma f64_round_dyadic z :
  - 2 ^ 53 < z < 2 ^ 53 -> f64_round (dyadic f64_prec z 0) = dyadic f64_prec z 0.
Proof.
  intros Hz.
  assert (∀ s m, Z.pos m < 2 ^ 53 ->
    f64_round (norm f64_prec s m 0) = norm f64_prec s m 0) as Hn.
  { intros s m Hm. unfold f64_round, norm at 1. case_bool; [done|].
    change (0 - Z.of_nat (norm_shift f64_prec m)) with (- Z.of_nat (norm_shift f64_prec m)).
    rewrite round_mag_shln.
    pose proof (digits_of_bound m 53 ltac:(lia) Hm).
    apply normalize_norm; [fmt|].
    apply exponent_in_range; fmt. }
  destruct z as [|m|m]; simpl; [done| |]; apply Hn; lia.
Qed.

Lemma f64_fixed_roundtrip lo hi z k :
  - 2 ^ 53 < z < 2 ^ 53 -> lo <= z < hi -> 0 <= k <= 100 ->
  float_to_int lo hi (f64_round (f64_mul (f64_div (f64_of_Z z) (pow2_64 k)) (pow2_64 k)))
  = Some z.
Proof.
  intros Hz Hlh Hk. unfold f64_mul, f64_div, pow2_64. rewrite f64_of_Z_dyadic by done.
  rewrite dyadic_div_pow2, dyadic_mul_pow2
    by fmt.
  replace (0 - k + k) with 0 by lia.
  rewrite f64_round_dyadic by done. by apply float_to_int_dyadic.
Qed.

(** ** Float: 16-bit samples survive conversion to [float] and back *)

Lemma f32_of_Z_dyadic z :
  - 2 ^ 24 < z < 2 ^ 24 -> f32_of_Z z = dyadic f32_prec z 0.
Proof. intros. apply dyadic_of_Z; fmt. Qed.

Lemma lroundf_dyadic z :
  - 2 ^ 24 < z < 2 ^ 24 -> lroundf (dyadic f32_prec z 0) = Some z.
Proof.
  intros Hz. destruct z as [|m|m]; simpl; [done| |]; rewrite round_mag_shln; simpl;
    repeat case_bool; try done; lia.
Qed.

Lemma f32_scale_exact i k :
  - 2 ^ 24 < i < 2 ^ 24 -> -50 <= k <= 50 ->
  f32_mul (f32_of_Z i) (f32_div (f32_of_Z 1) (pow2_32 k)) = dyadic f32_prec i (- k).
Proof.
  intros Hi Hk. unfold f32_mul, f32_div, pow2_32. rewrite !f32_of_Z_dyadic by lia.
  rewrite (dyadic_div_pow2 f32_prec f32_emax) with (z := 1)
    by fmt.
  cbn [dyadic]. rewrite dyadic_mul_pow2
    by fmt.
  f_equal.
Qed.

Lemma f32_sample_roundtrip i k :
  - 2 ^ 24 < i < 2 ^ 24 -> -50 <= k <= 50 ->
  lroundf (f32_mul (f32_mul (f32_of_Z i) (f32_div (f32_of_Z 1) (pow2_32 k))) (pow2_32 k))
  = Some i.
Proof.
  intros Hi Hk. rewrite f32_scale_exact by done. unfold f32_mul, pow2_32.
  rewrite dyadic_mul_pow2 by fmt.
  replace (- k + k) with 0 by lia. by apply lroundf_dyadic.
Qed.

(** ** Comparison and difference *)

(** The magnitudes of two normalised numbers of one exponent compare as their
    integers. *)
Lemma norm_compare prec m1 m2 e :
  Z.pos m1 < 2 ^ prec -> Z.pos m2 < 2 ^ prec -> 0 <= prec ->
  match Z.compare (e - Z.of_nat (norm_shift prec m1)) (e - Z.of_nat (norm_shift prec m2)) with
  | Eq => Pos.compare (shln m1 (norm_shift prec m1)) (shln m2 (norm_shift prec m2))
  | c => c
  end = Pos.compare m1 m2.
Proof.
  intros H1 H2 Hp.
  assert (∀ a b, Z.pos (digits2_pos a) < Z.pos (digits2_pos b) -> Z.pos a < Z.pos b) as Hlt.
  { intros a b Hab. destruct (digits2_bound a) as [_ Ha], (digits2_bound b) as [Hb _].
    apply (Z.lt_le_trans _ _ _ Ha). etransitivity; [|exact Hb]. apply Z.pow_le_mono_r; lia. }
  pose proof (digits2_le m1 prec Hp H1). pose proof (digits2_le m2 prec Hp H2).
  unfold norm_shift. rewrite !Z2Nat.id by lia.
  destruct (Z.compare_spec (e - (prec - Z.pos (digits2_pos m1))) (e - (prec - Z.pos (digits2_pos m2))))
    as [Hd|Hd|Hd].
  - replace (prec - Z.pos (digits2_pos m2)) with (prec - Z.pos (digits2_pos m1)) by lia.
    set (k := Z.to_nat _). change (Pos.compare ?a ?b) with (Z.compare (Z.pos a) (Z.pos b)).
    rewrite !shln_Z. symmetry. apply Zmult_compare_compat_r. apply Z.lt_gt, Z.pow_pos_nonneg; lia.
  - symmetry. apply Pos.compare_lt_iff. specialize (Hlt m1 m2). lia.
  - symmetry. apply Pos.compare_gt_iff. specialize (Hlt m2 m1). lia.
Qed.

Lemma dyadic_compare prec z w e :
  - 2 ^ prec < z < 2 ^ prec -> - 2 ^ prec < w < 2 ^ prec -> 0 <= prec ->
  SFcompare (dyadic prec z e) (dyadic prec w e) = Some (Z.compare z w).
Proof.
  intros Hz Hw Hp.
  destruct z as [|m|m], w as [|n|n]; try done; unfold dyadic, norm; cbn [SFcompare]; f_equal;
    change (Pos.compare_cont Eq ?a ?b) with (Pos.compare a b);
    pose proof (norm_compare prec m n e ltac:(lia) ltac:(lia) Hp) as H.
  - cbn [Z.compare]. rewrite <- H. by destruct (Z.compare _ _).
  - cbn [Z.compare]. rewrite <- H. by destruct (Z.compare _ _).
Qed.

Lemma f32_min_dyadic z w e :
  - 2 ^ 24 < z < 2 ^ 24 -> - 2 ^ 24 < w < 2 ^ 24 ->
  f32_min (dyadic f32_prec z e) (dyadic f32_prec w e) = dyadic f32_prec (Z.min z w) e.
Proof.
  intros Hz Hw. unfold f32_min, SFltb. rewrite dyadic_compare by fmt.
  destruct (Z.compare_spec w z); by rewrite ?Z.min_l, ?Z.min_r by lia.
Qed.

Lemma f32_max_dyadic z w e :
  - 2 ^ 24 < z < 2 ^ 24 -> - 2 ^ 24 < w < 2 ^ 24 ->
  f32_max (dyadic f32_prec z e) (dyadic f32_prec w e) = dyadic f32_prec (Z.max z w) e.
Proof.
  intros Hz Hw. unfold f32_max, SFltb. rewrite dyadic_compare by fmt.
  destruct (Z.compare_spec z w); by rewrite ?Z.max_l, ?Z.max_r by lia.
Qed.

(** The difference of a finite number with itself is +0. *)
Lemma f32_sub_diag z e : f32_sub (dyadic f32_prec z e) (dyadic f32_prec z e) = S754_zero false.
Proof.
  unfold f32_sub. destruct z as [|m|m]; [done| |]; unfold dyadic, norm; cbn [SFsub];
    by rewrite Z.sub_diag.
Qed.
