(* ===== verification/FloatError.v ===== *)
(** Rounding errors of the sample arithmetic.

    Ieee754.v shows which operations on fixed-point values are exact.  Here the
    operands are arbitrary finite floats: multiplying by 2^k is exact, and so is
    the subtraction of the nearest quantization step, so the error of a
    quantized sample is at most half a step.  Products and quotients of normal
    numbers are within one unit of the exact value, so that a 16-bit integer
    divided and multiplied by any scale rounds back to itself.  A finite float with mantissa m
    and exponent e has the value ±m·2^e; values are compared as multiples of
    the smallest subnormal. *)

From Stdlib Require Import SpecFloat.
From S2P Require Import Prelude Ieee754.

(** * Canonical numbers *)

Section canonical.
Context (prec emax : Z) (Hprec : 1 < prec) (Hemax : prec < emax).
#[local] Abbreviation fexp := (fexp prec emax).
#[local] Abbreviation emin := (emin prec emax).
#[local] Abbreviation digits m := (Z.pos (digits2_pos m)).

(** m·2^e is a number of the format. *)
Definition fits (m : positive) (e : Z) : Prop := fexp (digits m + e) <= e /\ digits m + e <= emax.

(** ±m·2^e, with the mantissa of the format. *)
Definition canonical (s : bool) (m : positive) (e : Z) : spec_float :=
  S754_finite s (shln m (Z.to_nat (e - fexp (digits m + e)))) (fexp (digits m + e)).

Lemma fits_intro m e : Z.pos m < 2 ^ prec -> emin <= e -> digits m + e <= emax -> fits m e.
Proof.
  intros Hm He Hd. pose proof (digits2_le m prec ltac:(lia) Hm). split; [|done].
  unfold SpecFloat.fexp. lia.
Qed.

Lemma canonical_bounded m e :
  fits m e -> bounded prec emax (shln m (Z.to_nat (e - fexp (digits m + e)))) (fexp (digits m + e)) = true.
Proof.
  intros [Hf Hd]. unfold bounded, canonical_mantissa. rewrite digits2_shln_Z.
  apply andb_true_iff. rewrite Z.eqb_eq, Z.leb_le. split; [f_equal; lia|].
  unfold SpecFloat.fexp, SpecFloat.emin in *. lia.
Qed.

Lemma bounded_exponent m e : bounded prec emax m e = true -> fexp (digits m + e) = e /\ e <= emax - prec.
Proof.
  unfold bounded, canonical_mantissa. intros [H1 H2]%andb_true_iff.
  apply Z.eqb_eq in H1. apply Z.leb_le in H2. done.
Qed.

Lemma bounded_digits m e : bounded prec emax m e = true -> Z.pos m < 2 ^ prec /\ emin <= e /\ digits m <= prec.
Proof.
  intros [H1 H2]%bounded_exponent. pose proof (digits2_bound m) as [_ Hm].
  assert (digits m <= prec) by (unfold SpecFloat.fexp in *; lia).
  split; [|split; [unfold SpecFloat.fexp in *; lia|done]].
  eapply Z.lt_le_trans; [exact Hm|]. apply Z.pow_le_mono_r; lia.
Qed.

Lemma bounded_fits m e : bounded prec emax m e = true -> fits m e.
Proof.
  intros Hb. pose proof (bounded_exponent m e Hb) as [H1 H2]. pose proof (bounded_digits m e Hb) as (_ & _ & Hd).
  split; lia.
Qed.

Lemma canonical_of_bounded s m e : bounded prec emax m e = true -> canonical s m e = S754_finite s m e.
Proof. intros [H _]%bounded_exponent. unfold canonical. by rewrite H, Z.sub_diag. Qed.

(** Any way of writing a number of the format rounds to it. *)
Lemma binary_round_canonical s m e i :
  fits m e -> binary_round prec emax s (shln m i) (e - Z.of_nat i) = canonical s m e.
Proof.
  intros Hf. pose proof (canonical_bounded m e Hf) as Hb. pose proof Hf as [Hle _].
  unfold binary_round, shl_align, canonical. rewrite digits2_shln_Z.
  replace (digits m + Z.of_nat i + (e - Z.of_nat i)) with (digits m + e) by lia.
  set (E := fexp (digits m + e)) in *. set (j := Z.to_nat (e - E)) in *.
  destruct (E - (e - Z.of_nat i)) as [|k|k] eqn:Ed.
  - pose proof (round_aux_exact prec emax s (shln m j) 0 E Hb) as H.
    cbn in H. rewrite Z.sub_0_r in H. replace (e - Z.of_nat i) with E by lia.
    replace i with j by lia. exact H.
  - pose proof (round_aux_exact prec emax s (shln m j) (Pos.to_nat k) E Hb) as H.
    rewrite shln_add in H. replace (Pos.to_nat k + j)%nat with i in H by lia.
    replace (E - Z.of_nat (Pos.to_nat k)) with (e - Z.of_nat i) in H by lia. exact H.
  - pose proof (round_aux_exact prec emax s (shln m j) 0 E Hb) as H.
    cbn in H. rewrite Z.sub_0_r in H. rewrite <- H. f_equal. f_equal.
    trans (shln (shln m i) (Pos.to_nat k)); [unfold shln; by rewrite Pos2Nat.inj_iter|].
    rewrite shln_add. f_equal. lia.
Qed.

(** Multiplying by 2^k. *)
Lemma mul_pow2_canonical s m e k :
  bounded prec emax m e = true -> fits m (e + k) ->
  SFmul prec emax (S754_finite s m e) (norm prec false 1 k) = canonical s m (e + k).
Proof.
  intros Hb Hf. pose proof (canonical_bounded m (e + k) Hf) as Hb'. destruct Hf as [Hf _].
  unfold norm. cbn [SFmul]. rewrite xorb_false_r, shln_mul, Pos.mul_1_r. unfold canonical.
  set (E := fexp (digits m + (e + k))) in *. set (j := Z.to_nat (e + k - E)) in *.
  assert (e + k - (prec - 1) <= E) by (unfold E, SpecFloat.fexp; lia).
  rewrite <- (round_aux_exact prec emax s (shln m j) (Z.to_nat (E - (e + k - (prec - 1)))) E Hb').
  rewrite shln_add. unfold norm_shift. f_equal; [|cbn; lia]. do 2 f_equal. cbn. lia.
Qed.

(** ** Comparison *)

Lemma bounded_le m1 e1 m2 e2 :
  bounded prec emax m1 e1 = true -> bounded prec emax m2 e2 = true ->
  Z.pos m1 * 2 ^ (e1 - emin) <= Z.pos m2 * 2 ^ (e2 - emin) ->
  SFleb (S754_finite false m1 e1) (S754_finite false m2 e2) = true.
Proof.
  intros H1 H2 Hv. pose proof (bounded_digits _ _ H1) as (_ & ? & ?).
  pose proof (bounded_digits _ _ H2) as (Hm2 & ? & ?).
  unfold SFleb. cbn [SFcompare]. destruct (Z.compare_spec e1 e2) as [->|Hlt|Hgt]; [|done|].
  - apply Z.mul_le_mono_pos_r in Hv; [|apply Z.pow_pos_nonneg; lia].
    change (Pos.compare_cont Eq m1 m2) with (Pos.compare m1 m2).
    destruct (Pos.compare_spec m1 m2); [done..|lia].
  - exfalso. apply bounded_exponent in H1 as [H1 _].
    assert (digits m1 = prec) by (unfold SpecFloat.fexp in *; lia).
    pose proof (digits2_bound m1) as [Hlo _].
    replace (e1 - emin) with ((e1 - e2 - 1) + 1 + (e2 - emin)) in Hv by lia.
    rewrite !Z.pow_add_r in Hv by lia.
    assert (2 ^ (e2 - emin) > 0 /\ 1 <= 2 ^ (e1 - e2 - 1)) as [? ?].
    { pose proof (Z.pow_pos_nonneg 2 (e2 - emin)). pose proof (Z.pow_pos_nonneg 2 (e1 - e2 - 1)). lia. }
    assert (Z.pos m1 * (2 ^ (e1 - e2 - 1) * 2 ^ 1) <= Z.pos m2) by nia.
    assert (2 ^ prec = 2 * 2 ^ (prec - 1)) as E.
    { rewrite <- Z.pow_succ_r by lia. f_equal. lia. }
    replace (digits m1 - 1) with (prec - 1) in Hlo by lia. nia.
Qed.

Lemma canonical_value m e :
  fits m e ->
  Z.pos (shln m (Z.to_nat (e - fexp (digits m + e)))) * 2 ^ (fexp (digits m + e) - emin) = Z.pos m * 2 ^ (e - emin).
Proof.
  intros [Hf _]. rewrite shln_Z. rewrite <- Z.mul_assoc, <- Z.pow_add_r.
  - do 2 f_equal. lia.
  - lia.
  - unfold SpecFloat.fexp. lia.
Qed.

Lemma canonical_le m1 e1 m2 e2 :
  fits m1 e1 -> fits m2 e2 ->
  Z.pos m1 * 2 ^ (e1 - emin) <= Z.pos m2 * 2 ^ (e2 - emin) ->
  SFleb (canonical false m1 e1) (canonical false m2 e2) = true.
Proof.
  intros H1 H2 Hv. apply bounded_le; [by apply canonical_bounded..|]. by rewrite !canonical_value.
Qed.
End canonical.

(** * The quantization error of a float *)

#[local] Abbreviation bounded32 := (bounded f32_prec f32_emax).
#[local] Abbreviation canonical32 := (canonical f32_prec f32_emax).

Lemma f32_formats : 1 < f32_prec /\ f32_prec < f32_emax.
Proof. done. Qed.

Lemma f32_fits m e : Z.pos m < 2 ^ 24 -> -149 <= e <= 100 -> fits f32_prec f32_emax m e.
Proof.
  intros Hm He. pose proof (digits2_le m 24 ltac:(lia) Hm).
  apply fits_intro; [done..| |]; unfold SpecFloat.emin; fmt.
Qed.

(** 32767/32768, the largest sample a 16-bit integer stands for. *)
Definition full_scale : float := S754_finite false 16776704 (-24).
Definition half_step : float := pow2_32 (-16).

Definition sample_in_range (x : float) : bool :=
  valid_binary f32_prec f32_emax x && SFleb (SFabs x) full_scale.

Lemma SFleb_finite m1 e1 m2 e2 :
  SFleb (S754_finite false m1 e1) (S754_finite false m2 e2) = true -> e1 < e2 \/ e1 = e2 /\ Z.pos m1 <= Z.pos m2.
Proof.
  unfold SFleb. cbn [SFcompare]. destruct (Z.compare_spec e1 e2) as [->|?|?]; [right|by left|done].
  split; [done|]. change (Pos.compare_cont Eq m1 m2) with (Pos.compare m1 m2) in *.
  destruct (Pos.compare_spec m1 m2); [subst; lia|lia|done].
Qed.

Lemma in_range_value s m e :
  sample_in_range (S754_finite s m e) = true ->
  bounded32 m e = true /\ -149 <= e <= -24 /\ Z.pos m <= 32767 * 2 ^ (-15 - e).
Proof.
  unfold sample_in_range. intros [Hb Hle]%andb_true_iff. cbn [valid_binary] in Hb. split; [exact Hb|].
  pose proof (bounded_digits f32_prec f32_emax m e Hb) as (Hm & He & _).
  assert (-149 <= e) by (unfold SpecFloat.emin in *; fmt).
  apply SFleb_finite in Hle as [Hlt|[-> Hlem]]; [|split; [lia|exact Hlem]].
  split; [lia|]. assert (2 ^ 10 <= 2 ^ (-15 - e)) by (apply Z.pow_le_mono_r; lia). unfold f32_prec in *. lia.
Qed.

Lemma round_mag_half m k :
  1 <= k ->
  let n := (Z.pos m + 2 ^ (k - 1)) / 2 ^ k in
  0 <= n /\ - 2 ^ (k - 1) <= Z.pos m - n * 2 ^ k <= 2 ^ (k - 1).
Proof.
  intros Hk n. assert (2 ^ k = 2 * 2 ^ (k - 1)) as E by (rewrite <- Z.pow_succ_r by lia; f_equal; lia).
  pose proof (Z.pow_pos_nonneg 2 (k - 1) ltac:(lia) ltac:(lia)).
  unfold n. rewrite E. split; [apply Z.div_pos; lia|].
  pose proof (Z.div_mod (Z.pos m + 2 ^ (k - 1)) (2 * 2 ^ (k - 1)) ltac:(lia)).
  pose proof (Z.mod_pos_bound (Z.pos m + 2 ^ (k - 1)) (2 * 2 ^ (k - 1)) ltac:(lia)). lia.
Qed.

(** A difference computed as ±d·2^e, at most half a step. *)
Lemma error_le b d e :
  Z.pos d < 2 ^ 24 -> -149 <= e <= -16 -> Z.pos d <= 2 ^ (-16 - e) ->
  SFleb (SFabs (canonical32 b d e)) half_step = true.
Proof.
  intros Hd He Hle. change (SFabs (canonical32 b d e)) with (canonical32 false d e).
  change half_step with (canonical32 false 1 (-16)).
  apply canonical_le; [done..| | |]; [apply f32_fits; lia..|].
  change (SpecFloat.emin f32_prec f32_emax) with (-149). rewrite Z.mul_1_l.
  etransitivity; [apply Z.mul_le_mono_nonneg_r; [|exact Hle]; apply Z.pow_nonneg; lia|].
  rewrite <- Z.pow_add_r by lia. apply Z.pow_le_mono_r; lia.
Qed.

Lemma normalize_error d i e :
  - 2 ^ 24 < d < 2 ^ 24 -> -149 <= e <= -16 -> Z.abs d <= 2 ^ (-16 - e) ->
  SFleb (SFabs (binary_normalize f32_prec f32_emax (d * 2 ^ Z.of_nat i) (e - Z.of_nat i) false)) half_step = true.
Proof.
  intros Hd He Hle. destruct d as [|d|d]; [done| |].
  - rewrite <- shln_Z. cbn [binary_normalize].
    rewrite binary_round_canonical by (done || apply f32_fits; lia). apply error_le; lia.
  - rewrite <- Pos2Z.opp_pos, Z.mul_opp_l, <- shln_Z, Pos2Z.opp_pos.
    cbn [binary_normalize].
    rewrite binary_round_canonical by (done || apply f32_fits; lia). apply error_le; lia.
Qed.

Lemma round_mag_shift m e E :
  E <= e -> e < 0 -> round_mag (shln m (Z.to_nat (e - E))) E = round_mag m e.
Proof.
  intros HE He. unfold round_mag. rewrite !(proj2 (Z.leb_gt _ _)) by lia. rewrite shln_Z, Z2Nat.id by lia.
  replace (- E - 1) with ((- e - 1) + (e - E)) by lia. replace (- E) with (- e + (e - E)) by lia.
  rewrite !Z.pow_add_r, <- Z.mul_add_distr_r by lia.
  rewrite Z.div_mul_cancel_r; [done| |]; apply Z.pow_nonzero; lia.
Qed.

Lemma shl_align_Z m e e' : e' <= e -> Z.pos (fst (shl_align m e e')) = Z.pos m * 2 ^ (e - e').
Proof.
  intros He. unfold shl_align. destruct (e' - e) as [|k|k] eqn:E; [|lia|]; cbn [fst].
  - replace (e - e') with 0 by lia. lia.
  - trans (Z.pos (shln m (Pos.to_nat k))); [unfold shln; by rewrite Pos2Nat.inj_iter|].
    rewrite shln_Z. do 2 f_equal. lia.
Qed.

(** The sample times 2^15, rounded. *)
Lemma scaled_sample s m e :
  sample_in_range (S754_finite s m e) = true ->
  let n := round_mag m (e + 15) in
  0 <= n <= 32767 /\ Z.abs (Z.pos m - n * 2 ^ (-15 - e)) <= 2 ^ (-16 - e) /\
  lroundf (f32_mul (S754_finite s m e) (pow2_32 15)) = Some (cond_Zopp s n).
Proof.
  intros (Hb & He & Hm)%in_range_value n.
  pose proof (bounded_digits f32_prec f32_emax m e Hb) as (Hm24 & _ & _).
  destruct (round_mag_half m (-15 - e) ltac:(lia)) as [Hn0 Herr].
  assert (n = (Z.pos m + 2 ^ (-15 - e - 1)) / 2 ^ (-15 - e)) as En.
  { unfold n, round_mag. rewrite (proj2 (Z.leb_gt _ _)) by lia. by replace (- (e + 15)) with (-15 - e) by lia. }
  rewrite <- En in *. replace (-15 - e - 1) with (-16 - e) in * by lia.
  assert (n <= 32767) as Hn.
  { rewrite En. assert (0 < 2 ^ (-16 - e)) by (apply Z.pow_pos_nonneg; lia).
    assert (2 ^ (-15 - e) = 2 * 2 ^ (-16 - e)) as E by (rewrite <- Z.pow_succ_r by lia; f_equal; lia).
    apply Z.lt_succ_r, Z.div_lt_upper_bound; lia. }
  split; [done|]. split; [lia|].
  assert (fits f32_prec f32_emax m (e + 15)) as Hf by (apply f32_fits; [exact Hm24|lia]).
  unfold f32_mul, pow2_32. rewrite mul_pow2_canonical by done. unfold canonical.
  cbn [lroundf]. pose proof Hf as [Hle _].
  rewrite round_mag_shift by (done || lia). fold n.
  rewrite (proj2 (Z.leb_le _ _)), (proj2 (Z.ltb_lt _ _)) by (destruct s; cbn [cond_Zopp]; lia). done.
Qed.

(** Subtracting the integer n steps of 2^-15, of the same sign. *)
Lemma sub_steps s m e n :
  e <= -24 -> 0 < n < 2 ^ 24 ->
  ∃ i, f32_sub (S754_finite s m e) (dyadic f32_prec (cond_Zopp s n) (-15))
       = binary_normalize f32_prec f32_emax
           (cond_Zopp s (Z.pos m - n * 2 ^ (-15 - e)) * 2 ^ Z.of_nat i) (e - Z.of_nat i) false.
Proof.
  intros He Hn. destruct n as [|n|n]; [lia| |lia].
  assert (dyadic f32_prec (cond_Zopp s (Z.pos n)) (-15) = norm f32_prec s n (-15)) as -> by (by destruct s).
  unfold norm, f32_sub. cbn [SFsub]. set (k := norm_shift f32_prec n).
  set (ey := -15 - Z.of_nat k). exists (Z.to_nat (e - Z.min e ey)).
  rewrite !shl_align_Z, shln_Z by lia. rewrite !Z2Nat.id by lia. f_equal; [|lia].
  assert (Z.pos n * 2 ^ Z.of_nat k * 2 ^ (ey - Z.min e ey) = Z.pos n * 2 ^ (-15 - e) * 2 ^ (e - Z.min e ey)) as ->.
  { rewrite <- !Z.mul_assoc, <- !Z.pow_add_r by lia. do 2 f_equal. lia. }
  destruct s; cbn [cond_Zopp]; lia.
Qed.

(** A sample in range is quantized to within half a step. *)
Lemma quantization_error x :
  sample_in_range x = true ->
  ∃ n, -32768 <= n < 32768 /\ lroundf (f32_mul x (pow2_32 15)) = Some n /\
    SFleb (SFabs (f32_sub x (dyadic f32_prec n (-15)))) half_step = true.
Proof.
  destruct x as [s|s| |s m e]; [|done..|]; intros Hx.
  { exists 0. split; [done|]. by destruct s. }
  destruct (scaled_sample s m e Hx) as (Hn & Herr & Hl).
  destruct (in_range_value s m e Hx) as (Hb & He & Hm).
  pose proof (bounded_digits f32_prec f32_emax m e Hb) as (Hm24 & _ & _).
  set (n := round_mag m (e + 15)) in *. exists (cond_Zopp s n).
  split; [destruct s; cbn [cond_Zopp]; lia|]. split; [exact Hl|].
  destruct (Z.eq_dec n 0) as [E|Hne].
  - rewrite E in *. replace (cond_Zopp s 0) with 0 by (by destruct s). cbn [dyadic].
    change (f32_sub (S754_finite s m e) (S754_zero false)) with (S754_finite s m e).
    rewrite <- (canonical_of_bounded f32_prec f32_emax s m e Hb). apply error_le; [exact Hm24|lia..].
  - destruct (sub_steps s m e n) as (i & ->); [lia..|].
    assert (1 <= 2 ^ (-15 - e)) as Hp by (pose proof (Z.pow_pos_nonneg 2 (-15 - e)); lia).
    assert (n * 2 ^ (-15 - e) < 2 ^ 25) as Hlt.
    { assert (n * 2 ^ (-15 - e) <= Z.pos m + 2 ^ (-16 - e)) by lia.
      assert (2 ^ (-15 - e) = 2 * 2 ^ (-16 - e)) by (rewrite <- Z.pow_succ_r by lia; f_equal; lia).
      unfold f32_prec in *. nia. }
    assert (2 ^ (-16 - e) < 2 ^ 24) as Hstep.
    { assert (2 ^ (-15 - e) = 2 * 2 ^ (-16 - e)) by (rewrite <- Z.pow_succ_r by lia; f_equal; lia). nia. }
    apply normalize_error; [|lia|]; destruct s; cbn [cond_Zopp]; lia.
Qed.

(** * Rounded results

    A product or quotient of normal numbers is a mantissa of full length within
    one unit of the exact value. *)

Section rounded.
Context (prec emax : Z) (Hprec : 1 < prec) (Hemax : prec < emax).
#[local] Abbreviation fexp := (fexp prec emax).
#[local] Abbreviation emin := (emin prec emax).
#[local] Abbreviation digits m := (Z.pos (digits2_pos m)).

Lemma digits_unique m p : 0 < p -> 2 ^ (p - 1) <= Z.pos m < 2 ^ p -> digits m = p.
Proof.
  intros Hp [Hlo Hhi]. pose proof (digits2_bound m) as [Hl Hh]. 
  destruct (Z.lt_trichotomy (digits m) p) as [H|[H|H]]; [|done|].
  - assert (2 ^ digits m <= 2 ^ (p - 1)) by (apply Z.pow_le_mono_r; lia). lia.
  - assert (2 ^ p <= 2 ^ (digits m - 1)) by (apply Z.pow_le_mono_r; lia). lia.
Qed.

Lemma shr_1_half r : 0 <= shr_m r -> shr_m (shr_1 r) = shr_m r / 2.
Proof.
  destruct r as [m b c]. cbn [shr_m shr_1]. intros Hm. destruct m as [|[p|p|]|p]; try done; cbn [shr_m].
  - rewrite Pos2Z.inj_xI. symmetry. rewrite Z.add_comm, Z.mul_comm, Z.div_add by lia. by cbn.
  - rewrite Pos2Z.inj_xO, Z.mul_comm. by rewrite Z.div_mul by lia.
Qed.

Lemma shr_iter_div n r : 0 <= shr_m r -> shr_m (Nat.iter n shr_1 r) = shr_m r / 2 ^ Z.of_nat n.
Proof.
  intros Hr. induction n as [|n IH]; [by rewrite Z.div_1_r|].
  cbn [Nat.iter nat_rect]. assert (0 < 2 ^ Z.of_nat n) by (apply Z.pow_pos_nonneg; lia).
  change (nat_rect _ r (λ _, shr_1) n) with (Nat.iter n shr_1 r).
  rewrite shr_1_half by (rewrite IH; apply Z.div_pos; lia).
  rewrite IH, Z.div_div, Nat2Z.inj_succ, Z.pow_succ_r by lia. f_equal. lia.
Qed.

Lemma shr_fexp_div m e l t :
  0 <= t -> fexp (digits m + e) - e = t ->
  ∃ r, shr_fexp prec emax (Z.pos m) e l = (r, e + t) /\ shr_m r = Z.pos m / 2 ^ t.
Proof.
  intros Ht E. unfold shr_fexp. cbn [Zdigits2]. rewrite E.
  assert (shr_m (shr_record_of_loc (Z.pos m) l) = Z.pos m) as Em by (by destruct l as [|[]]).
  destruct t as [|p|p]; [| |lia]; cbn [shr].
  - exists (shr_record_of_loc (Z.pos m) l). rewrite Em, Z.add_0_r. split; [done|]. by rewrite Z.div_1_r.
  - eexists. split; [done|]. rewrite iter_pos_nat, shr_iter_div by (by rewrite Em). rewrite Em. do 2 f_equal. lia.
Qed.

Lemma round_nearest_cases m l : round_nearest_even m l = m \/ round_nearest_even m l = m + 1.
Proof. destruct l as [|[]]; cbn; auto. case_bool; auto. Qed.

Lemma round_aux_close s m e l :
  prec <= digits m -> emin <= digits m + e - prec ->
  let t := digits m - prec in
  ∃ c t', t <= t' <= t + 1 /\ digits c = prec /\ Z.abs (Z.pos c * 2 ^ t' - Z.pos m) <= 2 ^ t /\
    binary_round_aux prec emax s (Z.pos m) e l =
      if e + t' <=? emax - prec then S754_finite s c (e + t') else S754_infinity s.
Proof.
  intros Hd He t. assert (0 <= t) as Ht by lia.
  assert (0 < 2 ^ t) as Hp by (apply Z.pow_pos_nonneg; lia).
  pose proof (digits2_bound m) as [Hlo Hhi].
  assert (2 ^ digits m = 2 ^ prec * 2 ^ t) as E1 by (rewrite <- Z.pow_add_r by lia; f_equal; lia).
  assert (2 ^ (digits m - 1) = 2 ^ (prec - 1) * 2 ^ t) as E2 by (rewrite <- Z.pow_add_r by lia; f_equal; lia).
  assert (2 ^ prec = 2 * 2 ^ (prec - 1)) as E3 by (rewrite <- Z.pow_succ_r by lia; f_equal; lia).
  set (F := Z.pos m / 2 ^ t).
  assert (2 ^ (prec - 1) <= F < 2 ^ prec) as HF.
  { split; [apply Z.div_le_lower_bound; lia|apply Z.div_lt_upper_bound; lia]. }
  pose proof (Z.div_mod (Z.pos m) (2 ^ t) ltac:(lia)) as Hdm. fold F in Hdm.
  pose proof (Z.mod_pos_bound (Z.pos m) (2 ^ t) Hp) as Hmod.
  destruct (shr_fexp_div m e l t) as (r & Er & Hr); [done|unfold SpecFloat.fexp; lia|]. fold F in Hr.
  unfold binary_round_aux. rewrite Er, Hr. clear Er Hr.
  pose proof (round_nearest_cases F (loc_of_shr_record r)) as HM.
  remember (round_nearest_even F (loc_of_shr_record r)) as M eqn:EM. clear EM.
  assert (0 < 2 ^ (prec - 1)) by (apply Z.pow_pos_nonneg; lia).
  destruct M as [|M|M]; [lia| |lia].
  assert (Z.abs (Z.pos M * 2 ^ t - Z.pos m) <= 2 ^ t) as Herr by nia.
  destruct (Z.lt_ge_cases (Z.pos M) (2 ^ prec)) as [Hlt|Hge].
  - assert (digits M = prec) as HdM by (apply digits_unique; lia).
    destruct (shr_fexp_div M (e + t) loc_Exact 0) as (r' & Er' & Hr'); [done|unfold SpecFloat.fexp; lia|].
    exists M, t. rewrite Er', Hr', Z.div_1_r, Z.add_0_r. split; [lia|]. done.
  - assert (Z.pos M = 2 ^ prec) as EMp by lia.
    assert (digits M = prec + 1) as HdM.
    { apply digits_unique; [lia|]. rewrite EMp. replace (prec + 1 - 1) with prec by lia.
      split; [lia|]. apply Z.pow_lt_mono_r; lia. }
    destruct (shr_fexp_div M (e + t) loc_Exact 1) as (r' & Er' & Hr'); [done|unfold SpecFloat.fexp; lia|].
    rewrite Er', Hr', EMp, E3. change (2 ^ 1) with 2. rewrite Z.mul_comm, Z.div_mul by lia.
    destruct (2 ^ (prec - 1)) as [|c|c] eqn:Ec; [lia| |lia].
    exists c, (t + 1). split; [lia|]. split.
    { apply digits_unique; lia. }
    rewrite Z.add_assoc. split; [|done]. rewrite Z.pow_add_r by lia. change (2 ^ 1) with 2.
    replace (Z.pos c * (2 ^ t * 2)) with (Z.pos M * 2 ^ t) by lia. done.
Qed.
End rounded.

(** ** Samples at any scale

    A 16-bit integer divided and multiplied by the same scale rounds back to
    itself: the three roundings move it by less than half. *)

#[local] Abbreviation digits m := (Z.pos (digits2_pos m)).

(** A normal float of magnitude from 2^-103 up to 2^124. *)
Definition usable_scale (x : float) : bool :=
  match x with
  | S754_finite _ m e => (2 ^ 23 <=? Z.pos m) && (Z.pos m <? 2 ^ 24) && (-126 <=? e) && (e <=? 100)
  | _ => false
  end.

Lemma f32_mul_close s1 s2 a b ea eb :
  digits a = 24 -> digits b = 24 -> -172 <= ea + eb <= 79 ->
  ∃ c t, 23 <= t <= 25 /\ digits c = 24 /\ Z.abs (Z.pos c * 2 ^ t - Z.pos a * Z.pos b) <= 2 ^ 24 /\
    f32_mul (S754_finite s1 a ea) (S754_finite s2 b eb) = S754_finite (xorb s1 s2) c (ea + eb + t).
Proof.
  intros Ha Hb He. pose proof (digits2_bound a) as Ba. pose proof (digits2_bound b) as Bb.
  rewrite Ha in Ba. rewrite Hb in Bb. change (2 ^ (24 - 1)) with 8388608 in *. change (2 ^ 24) with 16777216 in *.
  assert (47 <= digits (a * b) <= 48) as Hd.
  { split.
    - destruct (Z.le_gt_cases 47 (digits (a * b))); [done|]. pose proof (digits2_bound (a * b)) as [_ H'].
      assert (2 ^ digits (a * b) <= 2 ^ 46) by (apply Z.pow_le_mono_r; lia).
      change (2 ^ 46) with 70368744177664 in *. nia.
    - apply digits2_le; [lia|]. change (2 ^ 48) with 281474976710656. nia. }
  destruct (round_aux_close f32_prec f32_emax ltac:(done) (xorb s1 s2) (a * b) (ea + eb) loc_Exact)
    as (c & t & Ht & Hc & Herr & E); [fmt|unfold SpecFloat.emin; fmt|].
  change f32_prec with 24 in *. change f32_emax with 128 in *.
  exists c, t. split; [lia|]. split; [done|]. split.
  { etransitivity; [exact Herr|]. change 16777216 with (2 ^ 24). apply Z.pow_le_mono_r; lia. }
  unfold f32_mul. cbn [SFmul]. change f32_prec with 24. change f32_emax with 128. rewrite E.
  by rewrite (proj2 (Z.leb_le _ _)) by lia.
Qed.

Lemma f32_inv_close s m e :
  digits m = 24 -> -126 <= e <= 100 ->
  ∃ c t, 0 <= t <= 2 /\ digits c = 24 /\ Z.abs (Z.pos c * 2 ^ t * Z.pos m - 2 ^ 47) <= 2 ^ 26 /\
    f32_div (f32_of_Z 1) (S754_finite s m e) = S754_finite s c (t - 47 - e).
Proof.
  intros Hm He. pose proof (digits2_bound m) as Bm. rewrite Hm in Bm.
  change (2 ^ (24 - 1)) with 8388608 in *. change (2 ^ 24) with 16777216 in *.
  change (f32_of_Z 1) with (S754_finite false 8388608 (-23)). unfold f32_div. cbn [SFdiv xorb].
  unfold SFdiv_core_binary. cbn [Zdigits2]. rewrite Hm. change (digits 8388608) with 24.
  replace (Z.min _ _) with (-47 - e) by (unfold SpecFloat.fexp, SpecFloat.emin, f32_prec, f32_emax; lia).
  replace (-23 - e - (-47 - e)) with 24 by lia. rewrite Z.shiftl_mul_pow2 by lia.
  change (8388608 * 2 ^ 24) with (2 ^ 47).
  assert (2 ^ 47 = 140737488355328) as E47 by done.
  pose proof (Z.div_mod (2 ^ 47) (Z.pos m) ltac:(lia)) as Hdm.
  pose proof (Z.mod_pos_bound (2 ^ 47) (Z.pos m) ltac:(lia)) as Hmod.
  unfold Z.modulo, Z.div in Hdm, Hmod. destruct (Z.div_eucl (2 ^ 47) (Z.pos m)) as [q r] eqn:Eq.
  assert (8388608 <= q <= 16777216) as Hq by nia. destruct q as [|q|q]; [lia| |lia].
  assert (24 <= digits q <= 25) as Hd.
  { split; [|apply digits2_le; [lia|]; change (2 ^ 25) with 33554432; lia].
    destruct (Z.le_gt_cases 24 (digits q)); [done|]. pose proof (digits2_bound q) as [_ H'].
    assert (2 ^ digits q <= 2 ^ 23) by (apply Z.pow_le_mono_r; lia). change (2 ^ 23) with 8388608 in *. lia. }
  destruct (round_aux_close f32_prec f32_emax ltac:(done) s q (-47 - e) (new_location (Z.pos m) r))
    as (c & t & Ht & Hc & Herr & E); [fmt|unfold SpecFloat.emin; fmt|].
  change f32_prec with 24 in *. change f32_emax with 128 in *.
  exists c, t. split; [lia|]. split; [done|]. rewrite E, (proj2 (Z.leb_le _ _)) by lia.
  split; [|f_equal; lia].
  assert (2 ^ (digits q - 24) <= 2) as H2 by (change 2 with (2 ^ 1) at 2; apply Z.pow_le_mono_r; lia).
  change (2 ^ 26) with 67108864. generalize dependent (2 ^ t). intros p Herr.
  assert (Z.abs (Z.pos c * p - Z.pos q) * Z.pos m <= 2 * Z.pos m) as Hx by (apply Z.mul_le_mono_nonneg_r; lia).
  rewrite <- (Z.abs_eq (Z.pos m)), <- Z.abs_mul, Z.mul_sub_distr_r in Hx at 1 by lia. lia.
Qed.

Lemma usable_digits s m e : usable_scale (S754_finite s m e) = true -> digits m = 24 /\ -126 <= e <= 100.
Proof.
  cbn [usable_scale]. rewrite !andb_true_iff, !Z.leb_le, Z.ltb_lt. intros (((? & ?) & ?) & ?).
  split; [|lia]. by apply digits_unique.
Qed.

(** Three products within 2^24 of the exact ones. *)
Lemma chain_close n k c0 c1 c2 m t0 t1 t2 :
  0 <= t0 <= 2 -> 23 <= t1 <= 25 -> 23 <= t2 <= 25 -> 8 <= k ->
  0 < m < 2 ^ 24 -> 0 < n * 2 ^ k < 2 ^ 24 ->
  Z.abs (c0 * 2 ^ t0 * m - 2 ^ 47) <= 2 ^ 26 ->
  Z.abs (c1 * 2 ^ t1 - n * 2 ^ k * c0) <= 2 ^ 24 ->
  Z.abs (c2 * 2 ^ t2 - c1 * m) <= 2 ^ 24 ->
  let E := 47 + k - t0 - t1 - t2 in
  0 < E /\ - 2 ^ (E - 1) < c2 - n * 2 ^ E < 2 ^ (E - 1).
Proof.
  intros H0 H1 H2 Hk Hm Hn E0 E1 E2 E. unfold E. clear E. set (E := 47 + k - t0 - t1 - t2).
  assert (0 < E) as HE by lia. split; [done|].
  assert (2 ^ t0 <= 2 ^ 2) by (apply Z.pow_le_mono_r; lia).
  assert (2 ^ t1 <= 2 ^ 25) by (apply Z.pow_le_mono_r; lia).
  assert (0 < 2 ^ t0) by (apply Z.pow_pos_nonneg; lia). assert (0 < 2 ^ t1) by (apply Z.pow_pos_nonneg; lia).
  set (T := 2 ^ (t0 + t1 + t2)).
  assert (0 < T) by (apply Z.pow_pos_nonneg; lia).
  assert (T = 2 ^ t0 * 2 ^ t1 * 2 ^ t2) as ET by (unfold T; by rewrite !Z.pow_add_r by lia).
  assert (2 ^ E * T = 2 ^ k * 2 ^ 47) as EE.
  { unfold T. rewrite <- !Z.pow_add_r by lia. f_equal. lia. }
  assert (2 ^ (E - 1) * T = 2 ^ k * 2 ^ 46) as EE1.
  { unfold T. rewrite <- !Z.pow_add_r by lia. f_equal. lia. }
  assert (2 ^ 8 <= 2 ^ k) by (apply Z.pow_le_mono_r; lia).
  set (A := c2 * 2 ^ t2 - c1 * m) in *. set (B := c1 * 2 ^ t1 - n * 2 ^ k * c0) in *.
  set (C := c0 * 2 ^ t0 * m - 2 ^ 47) in *.
  assert ((c2 - n * 2 ^ E) * T = 2 ^ t0 * 2 ^ t1 * A + 2 ^ t0 * m * B + n * 2 ^ k * C) as EX.
  { rewrite Z.mul_sub_distr_r, <- (Z.mul_assoc n (2 ^ E) T), EE, ET. unfold A, B, C. ring. }
  assert (Z.abs (2 ^ t0 * 2 ^ t1 * A) <= 2 ^ 51) as HA.
  { rewrite Z.abs_mul, (Z.abs_eq (2 ^ t0 * 2 ^ t1)) by lia. change (2 ^ 51) with (2 ^ 2 * 2 ^ 25 * 2 ^ 24).
    apply Z.mul_le_mono_nonneg; [lia| |lia|done]. apply Z.mul_le_mono_nonneg; lia. }
  assert (Z.abs (2 ^ t0 * m * B) <= 2 ^ 50) as HB.
  { rewrite Z.abs_mul, (Z.abs_eq (2 ^ t0 * m)) by lia. change (2 ^ 50) with (2 ^ 2 * 2 ^ 24 * 2 ^ 24).
    apply Z.mul_le_mono_nonneg; [lia| |lia|done]. apply Z.mul_le_mono_nonneg; lia. }
  assert (Z.abs (n * 2 ^ k * C) <= 2 ^ 50) as HC.
  { rewrite Z.abs_mul, (Z.abs_eq (n * 2 ^ k)) by lia. change (2 ^ 50) with (2 ^ 24 * 2 ^ 26).
    apply Z.mul_le_mono_nonneg; lia. }
  assert (- (2 ^ (E - 1) * T) < (c2 - n * 2 ^ E) * T < 2 ^ (E - 1) * T) as [HX1 HX2].
  { rewrite EE1, EX. change (2 ^ 8) with 256 in *. change (2 ^ 46) with 70368744177664.
    change (2 ^ 51) with 2251799813685248 in *. change (2 ^ 50) with 1125899906842624 in *. lia. }
  rewrite <- Z.mul_opp_l in HX1. split; by eapply Z.mul_lt_mono_pos_r.
Qed.

Lemma round_mag_near c E n :
  0 < E -> - 2 ^ (E - 1) < Z.pos c - n * 2 ^ E < 2 ^ (E - 1) -> round_mag c (- E) = n.
Proof.
  intros HE H. unfold round_mag. rewrite (proj2 (Z.leb_gt _ _)), Z.opp_involutive by lia.
  assert (2 ^ E = 2 * 2 ^ (E - 1)) as EE by (rewrite <- Z.pow_succ_r by lia; f_equal; lia).
  symmetry. apply (Z.div_unique_pos _ _ _ (Z.pos c + 2 ^ (E - 1) - n * 2 ^ E)); lia.
Qed.

(** Any 16-bit integer survives decoding and encoding at a usable scale. *)
Lemma scale_roundtrip i scale :
  -32768 <= i < 32768 -> usable_scale scale = true ->
  lroundf (f32_mul (f32_mul (f32_of_Z i) (f32_div (f32_of_Z 1) scale)) scale) = Some i.
Proof.
  intros Hi Hs. destruct scale as [| | |s m e]; [done..|].
  destruct (usable_digits s m e Hs) as [Hm He].
  destruct (f32_inv_close s m e Hm He) as (c0 & t0 & H0 & Hc0 & E0 & ->).
  assert (∀ b n, Z.pos n <= 32768 ->
    lroundf (f32_mul (f32_mul (norm f32_prec b n 0) (S754_finite s c0 (t0 - 47 - e))) (S754_finite s m e))
    = Some (cond_Zopp b (Z.pos n))) as Hn.
  { intros b n Hn. pose proof (digits_of_bound n 16 ltac:(lia) ltac:(change (2 ^ 16) with 65536; lia)) as Hd.
    unfold norm. set (k := norm_shift f32_prec n). assert (8 <= Z.of_nat k <= 23) as Hk by (unfold k, norm_shift; fmt).
    pose proof (digits_norm f32_prec n ltac:(fmt)) as Hdn. fold k in Hdn. change f32_prec with 24 in Hdn.
    destruct (f32_mul_close b s (shln n k) c0 (0 - Z.of_nat k) (t0 - 47 - e)) as (c1 & t1 & H1 & Hc1 & E1 & ->);
      [done|done|lia|].
    destruct (f32_mul_close (xorb b s) s c1 m (0 - Z.of_nat k + (t0 - 47 - e) + t1) e) as (c2 & t2 & H2 & Hc2 & E2 & ->);
      [done|done|lia|].
    rewrite shln_Z in E1. pose proof (digits2_bound m) as Bm. rewrite Hm in Bm.
    pose proof (digits2_bound (shln n k)) as Bn. rewrite Hdn, shln_Z in Bn.
    destruct (chain_close (Z.pos n) (Z.of_nat k) (Z.pos c0) (Z.pos c1) (Z.pos c2) (Z.pos m) t0 t1 t2) as [HE Hr];
      [lia..|done|done|done|].
    set (E := 47 + Z.of_nat k - t0 - t1 - t2) in *.
    replace (_ + e + t2) with (- E) by lia. cbn [lroundf].
    rewrite (round_mag_near c2 E (Z.pos n) HE Hr), xorb_assoc_reverse, xorb_nilpotent, xorb_false_r.
    rewrite (proj2 (Z.leb_le _ _)), (proj2 (Z.ltb_lt _ _)) by (destruct b; cbn [cond_Zopp]; lia). done. }
  rewrite f32_of_Z_dyadic by lia. destruct i as [|n|n]; cbn [dyadic].
  - done.
  - apply (Hn false). lia.
  - apply (Hn true). lia.
Qed.
