(* ===== verification/FixedPoint.v ===== *)
(** Doubles as fixed-point numbers: what [std::round(x * 2^k)] cast to an integer
    type is, for every double x, and the ranges in which the cast is defined.
    Used by the frequency and level fields of context packets. *)

From Stdlib Require Import SpecFloat.
From S2P Require Import Prelude Ieee754 FloatError.

#[local] Abbreviation digits m := (Z.pos (digits2_pos m)).
#[local] Abbreviation bounded64 := (bounded f64_prec f64_emax).

(** The value of a finite double in units of 2^-k, rounded to the nearest
    integer, halves away from zero. *)
Definition rounded (x : double) (k : Z) : option Z :=
  match x with
  | S754_zero _ => Some 0
  | S754_finite s m e => Some (cond_Zopp s (round_mag m (e + k)))
  | _ => None
  end.

(** n is within half a unit of the value of x in units of 2^-k. *)
Definition nearest (x : double) (k n : Z) : Prop :=
  match x with
  | S754_zero _ => n = 0
  | S754_finite s m e =>
      if 0 <=? e + k then n = cond_Zopp s (Z.pos m) * 2 ^ (e + k)
      else 2 * Z.abs (cond_Zopp s (Z.pos m) - n * 2 ^ (- (e + k))) <= 2 ^ (- (e + k))
  | _ => False
  end.

Lemma rounded_nearest x k n : rounded x k = Some n -> nearest x k n.
Proof.
  destruct x as [| | |s m e]; cbn [rounded nearest]; try congruence. intros [= <-].
  unfold round_mag. destruct (Z.leb_spec 0 (e + k)); [destruct s; cbn [cond_Zopp]; lia|].
  destruct (round_mag_half m (- (e + k)) ltac:(lia)) as [_ H'].
  set (n := (Z.pos m + 2 ^ (- (e + k) - 1)) / 2 ^ (- (e + k))) in *.
  assert (2 ^ (- (e + k)) = 2 * 2 ^ (- (e + k) - 1)) as E by (rewrite <- Z.pow_succ_r by lia; f_equal; lia).
  destruct s; cbn [cond_Zopp]; lia.
Qed.

Lemma round_mag_align m e E : E <= e -> round_mag (shln m (Z.to_nat (e - E))) E = round_mag m e.
Proof.
  intros HE. destruct (Z.lt_ge_cases e 0); [by apply round_mag_shift|].
  unfold round_mag. rewrite (proj2 (Z.leb_le 0 e)), shln_Z, Z2Nat.id by lia.
  destruct (Z.leb_spec 0 E).
  - rewrite <- Z.mul_assoc, <- Z.pow_add_r by lia. do 2 f_equal. lia.
  - replace (e - E) with (e + - E) by lia. rewrite Z.pow_add_r, Z.mul_assoc by lia.
    assert (0 < 2 ^ (- E - 1)) by (apply Z.pow_pos_nonneg; lia).
    assert (2 ^ (- E) = 2 * 2 ^ (- E - 1)) as EE by (rewrite <- Z.pow_succ_r by lia; f_equal; lia).
    rewrite Z.add_comm, Z.div_add, Z.div_small by lia. lia.
Qed.

Definition to_range (lo hi : Z) (v : option Z) : option Z :=
  v ≫= λ n, if (lo <=? n) && (n <? hi) then Some n else None.

Lemma round_mag_nonneg m e : 0 <= round_mag m e.
Proof.
  unfold round_mag. case_bool; [apply Z.mul_nonneg_nonneg; [lia|apply Z.pow_nonneg; lia]|].
  apply Z.div_pos; [|bool_prop; apply Z.pow_pos_nonneg; lia].
  pose proof (Z.pow_nonneg 2 (- e - 1)). lia.
Qed.

Lemma float_to_int_round lo hi s m e :
  lo <= 0 < hi -> bounded64 m e = true ->
  float_to_int lo hi (f64_round (S754_finite s m e)) = to_range lo hi (Some (cond_Zopp s (round_mag m e))).
Proof.
  intros Hlh Hb. pose proof (bounded_digits f64_prec f64_emax m e Hb) as (Hm & He & _).
  cbn [f64_round]. destruct (Z.leb_spec 0 e) as [H0|H0].
  { cbn [float_to_int]. unfold trunc_mag, round_mag. by rewrite (proj2 (Z.leb_le 0 e)) by done. }
  assert (round_mag m e <= 2 ^ 52) as Hr.
  { unfold round_mag. rewrite (proj2 (Z.leb_gt _ _)) by lia. change f64_prec with 53 in *.
    assert (2 ^ (- e) = 2 * 2 ^ (- e - 1)) as E by (rewrite <- Z.pow_succ_r by lia; f_equal; lia).
    assert (0 < 2 ^ (- e - 1)) by (apply Z.pow_pos_nonneg; lia).
    apply Z.lt_succ_r, Z.div_lt_upper_bound; lia. }
  pose proof (round_mag_nonneg m e). destruct (round_mag m e) as [|r|r] eqn:Er; [|clear Er|lia].
  { replace (cond_Zopp s 0) with 0 by (by destruct s). cbn. by destruct (Z.leb_spec lo 0), (Z.ltb_spec 0 hi); try lia. }
  change (2 ^ 52) with 4503599627370496 in *.
  assert (binary_normalize f64_prec f64_emax (cond_Zopp s (Z.pos r)) 0 s = norm f64_prec s r 0) as ->.
  { assert (in_range f64_prec f64_emax r 0) by (apply exponent_in_range; [fmt|change (2 ^ f64_prec) with 9007199254740992; lia|fmt]).
    destruct s; cbn [cond_Zopp Z.opp binary_normalize]; by apply binary_round_norm. }
  unfold norm. cbn [float_to_int]. change (0 - Z.of_nat (norm_shift f64_prec r)) with (- Z.of_nat (norm_shift f64_prec r)).
  by rewrite trunc_mag_shln.
Qed.

Lemma to_range_far lo hi s v :
  - 2 ^ 63 <= lo -> hi <= 2 ^ 63 -> 2 ^ 63 < v -> to_range lo hi (Some (cond_Zopp s v)) = None.
Proof.
  intros. cbn [to_range mbind option_bind]. destruct s; cbn [cond_Zopp];
    destruct (Z.leb_spec lo (- v)), (Z.leb_spec lo v), (Z.ltb_spec (- v) hi), (Z.ltb_spec v hi); lia || done.
Qed.

(** The product, rounded and cast. *)
Lemma fixed_of_double lo hi x k :
  - 2 ^ 63 <= lo -> lo <= 0 < hi -> hi <= 2 ^ 63 -> 0 <= k <= 100 -> valid_binary f64_prec f64_emax x = true ->
  float_to_int lo hi (f64_round (f64_mul x (pow2_64 k))) = to_range lo hi (rounded x k).
Proof.
  intros Hlo H0 Hhi Hk Hv. destruct x as [s|s| |s m e]; cbn [rounded].
  { cbn. by destruct (Z.leb_spec lo 0), (Z.ltb_spec 0 hi); try lia. } { done. } { done. }
  cbn [valid_binary] in Hv. pose proof (bounded_digits f64_prec f64_emax m e Hv) as (Hm & He & Hd).
  pose proof (bounded_exponent f64_prec f64_emax m e Hv) as [Hf _].
  unfold f64_mul, pow2_64.
  destruct (Z.le_gt_cases (Z.pos (digits2_pos m) + (e + k)) f64_emax) as [Hle|Hgt].
  - assert (fits f64_prec f64_emax m (e + k)) as Hfit by (split; [unfold SpecFloat.fexp in *; lia|done]).
    rewrite mul_pow2_canonical by (fmt || done). unfold canonical.
    rewrite float_to_int_round by (done || by apply canonical_bounded).
    rewrite round_mag_align; [done|]. by destruct Hfit.
  - pose proof (digits2_bound m) as [Hlo2 _]. change f64_emax with 1024 in *. change f64_prec with 53 in *.
    assert (2 ^ 63 < round_mag m (e + k)) as Hr.
    { unfold round_mag. rewrite (proj2 (Z.leb_le _ _)) by lia.
      apply Z.lt_le_trans with (2 ^ (Z.pos (digits2_pos m) - 1) * 2 ^ (e + k)).
      - rewrite <- Z.pow_add_r by lia. apply Z.pow_lt_mono_r; lia.
      - apply Z.mul_le_mono_nonneg_r; [apply Z.pow_nonneg; lia|done]. }
    rewrite to_range_far by done. unfold norm. cbn [SFmul]. rewrite xorb_false_r, shln_mul, Pos.mul_1_r.
    change (norm_shift 53 1) with 52%nat.
    destruct (round_aux_close 53 1024 ltac:(done) s (shln m 52) (e + (k - Z.of_nat 52)) loc_Exact)
      as (c & t & Ht & _ & _ & ->).
    { rewrite digits2_shln_Z. lia. } { rewrite digits2_shln_Z. unfold SpecFloat.emin. lia. }
    rewrite digits2_shln_Z in Ht. by rewrite (proj2 (Z.leb_gt _ _)) by lia.
Qed.

(** ** Ranges *)

(** The value of a finite double in units of the smallest subnormal. *)
Definition units (s : bool) (m : positive) (e : Z) : Z := cond_Zopp s (Z.pos m * 2 ^ (e + 1074)).

Lemma bounded_lt m1 e1 m2 e2 :
  bounded64 m1 e1 = true -> bounded64 m2 e2 = true -> e1 < e2 ->
  Z.pos m1 * 2 ^ (e1 + 1074) < Z.pos m2 * 2 ^ (e2 + 1074).
Proof.
  intros H1 H2 He. pose proof (bounded_digits _ _ _ _ H1) as (Hm1 & He1 & _).
  pose proof (bounded_exponent _ _ _ _ H2) as [H2' _]. pose proof (digits2_bound m2) as [Hlo _].
  unfold SpecFloat.fexp, SpecFloat.emin in *. change f64_prec with 53 in *. change f64_emax with 1024 in *.
  assert (digits m2 = 53) as Hd by lia. rewrite Hd in Hlo. replace (53 - 1) with 52 in Hlo by done.
  assert (2 ^ (e2 + 1074) = 2 * 2 ^ (e2 - e1 - 1) * 2 ^ (e1 + 1074)) as ->.
  { rewrite <- Z.pow_succ_r, <- Z.pow_add_r by lia. f_equal. lia. }
  assert (1 <= 2 ^ (e2 - e1 - 1)) by (pose proof (Z.pow_pos_nonneg 2 (e2 - e1 - 1)); lia).
  assert (0 < 2 ^ (e1 + 1074)) by (apply Z.pow_pos_nonneg; lia).
  rewrite Z.mul_assoc. apply Z.mul_lt_mono_pos_r; [done|].
  change (2 ^ 53) with (2 ^ 52 * 2) in Hm1.
  apply Z.lt_le_trans with (1 := Hm1). rewrite Z.mul_assoc.
  apply Z.le_trans with (Z.pos m2 * 2); [lia|]. rewrite <- (Z.mul_1_r (Z.pos m2 * 2)) at 1.
  apply Z.mul_le_mono_nonneg_l; lia.
Qed.

Lemma SFcompare_units s1 m1 e1 s2 m2 e2 :
  bounded64 m1 e1 = true -> bounded64 m2 e2 = true ->
  SFcompare (S754_finite s1 m1 e1) (S754_finite s2 m2 e2) = Some (units s1 m1 e1 ?= units s2 m2 e2).
Proof.
  intros H1 H2. pose proof (bounded_digits _ _ _ _ H1) as (_ & He1 & _). pose proof (bounded_digits _ _ _ _ H2) as (_ & He2 & _).
  unfold SpecFloat.emin in *. change f64_prec with 53 in *. change f64_emax with 1024 in *.
  assert (0 < Z.pos m1 * 2 ^ (e1 + 1074)) by (apply Z.mul_pos_pos; [lia|apply Z.pow_pos_nonneg; lia]).
  assert (0 < Z.pos m2 * 2 ^ (e2 + 1074)) by (apply Z.mul_pos_pos; [lia|apply Z.pow_pos_nonneg; lia]).
  assert (match e1 ?= e2 with Eq => Pos.compare m1 m2 | c => c end
          = (Z.pos m1 * 2 ^ (e1 + 1074) ?= Z.pos m2 * 2 ^ (e2 + 1074))) as E.
  { destruct (Z.compare_spec e1 e2) as [->|Hlt|Hgt].
    - by rewrite <- Zmult_compare_compat_r by (apply Z.lt_gt, Z.pow_pos_nonneg; lia).
    - symmetry. apply Z.compare_lt_iff. by apply bounded_lt.
    - symmetry. apply Z.compare_gt_iff. by apply bounded_lt. }
  unfold units. cbn [SFcompare]. change (Pos.compare_cont Eq m1 m2) with (Pos.compare m1 m2).
  destruct s1, s2; cbn [cond_Zopp].
  - rewrite Z.compare_opp, (Z.compare_antisym (Z.pos m1 * _)), <- E. by destruct (e1 ?= e2).
  - f_equal. symmetry. apply Z.compare_lt_iff. lia.
  - f_equal. symmetry. apply Z.compare_gt_iff. lia.
  - rewrite <- E. by destruct (e1 ?= e2).
Qed.

(** Rounding below N. *)
Lemma round_mag_lt m e N :
  -1074 <= e -> 0 < N ->
  round_mag m e < N <-> Z.pos m * 2 ^ (e + 1074) < (2 * N - 1) * 2 ^ 1073.
Proof.
  intros He HN. assert (2 ^ 1074 = 2 * 2 ^ 1073) as E1 by (rewrite <- Z.pow_succ_r by lia; done).
  assert (0 < 2 ^ 1073) by (apply Z.pow_pos_nonneg; lia). remember (2 ^ 1073) as U eqn:EU.
  unfold round_mag. destruct (Z.leb_spec 0 e).
  - rewrite Z.pow_add_r, Z.mul_assoc, E1 by lia. nia.
  - assert (2 ^ (- e) = 2 * 2 ^ (- e - 1)) as E2 by (rewrite <- Z.pow_succ_r by lia; f_equal; lia).
    assert (U = 2 ^ (- e - 1) * 2 ^ (e + 1074)) as E3 by (rewrite EU, <- Z.pow_add_r by lia; f_equal; lia).
    assert (0 < 2 ^ (- e - 1)) by (apply Z.pow_pos_nonneg; lia).
    assert (0 < 2 ^ (e + 1074)) by (apply Z.pow_pos_nonneg; lia).
    rewrite E3, Z.mul_assoc, <- Z.mul_lt_mono_pos_r by done. rewrite E2.
    set (h := 2 ^ (- e - 1)) in *. clearbody h. clear -H0 H1 HN. split; intros H.
    + assert (Z.pos m + h < 2 * h * N); [|lia].
      destruct (Z.lt_ge_cases (Z.pos m + h) (2 * h * N)) as [|Hge]; [done|].
      assert (N <= (Z.pos m + h) / (2 * h)); [|lia]. apply Z.div_le_lower_bound; lia.
    + apply Z.div_lt_upper_bound; lia.
Qed.

(** The ranges: a frequency is an int64 of 2^-20 Hz from -2^43 Hz up to 2^43 Hz,
    a level an int16 of 2^-7 dB between -65537/256 dB and 65535/256 dB, half a
    unit beyond the extreme values.  No NaN or infinity is in range. *)
Definition freq_in_range (hz : double) : bool := SFleb (f64_of_Z (- 2 ^ 43)) hz && SFltb hz (f64_of_Z (2 ^ 43)).

Definition level_in_range (x : double) : bool :=
  SFltb (f64_div (f64_of_Z (-65537)) (f64_of_Z 256)) x && SFltb x (f64_div (f64_of_Z 65535) (f64_of_Z 256)).

Lemma to_range_is_Some lo hi s R :
  lo <= 0 < hi -> 0 <= R ->
  is_Some (to_range lo hi (Some (cond_Zopp s R))) <-> if s then R <= - lo else R < hi.
Proof.
  intros Hl HR. cbn [to_range mbind option_bind]. destruct s; cbn [cond_Zopp].
  - destruct (Z.leb_spec lo (- R)), (Z.ltb_spec (- R) hi); try lia; cbn; split; intros; (done || lia || by destruct H1).
  - destruct (Z.leb_spec lo R), (Z.ltb_spec R hi); try lia; cbn; split; intros; (done || lia || by destruct H1).
Qed.

Lemma freq_round m e :
  bounded64 m e = true ->
  let u := Z.pos m * 2 ^ (e + 1074) in
  (round_mag m (e + 20) < 2 ^ 63 <-> u < 2 ^ 43 * 2 ^ 1074) /\ (round_mag m (e + 20) <= 2 ^ 63 <-> u <= 2 ^ 43 * 2 ^ 1074).
Proof.
  intros Hb u. pose proof (bounded_digits _ _ _ _ Hb) as (Hm & He & _).
  unfold SpecFloat.emin in He. change f64_prec with 53 in *. change f64_emax with 1024 in *.
  destruct (Z.le_gt_cases 0 (e + 20)) as [H0|H0].
  - assert (round_mag m (e + 20) * 2 ^ 1054 = u) as E.
    { unfold round_mag, u. rewrite (proj2 (Z.leb_le _ _)), <- Z.mul_assoc, <- Z.pow_add_r by lia. do 2 f_equal. lia. }
    assert (2 ^ 43 * 2 ^ 1074 = 2 ^ 63 * 2 ^ 1054) as -> by (rewrite <- !Z.pow_add_r by lia; done).
    assert (0 < 2 ^ 1054) by (apply Z.pow_pos_nonneg; lia). rewrite <- E.
    by rewrite <- Z.mul_lt_mono_pos_r, <- Z.mul_le_mono_pos_r.
  - assert (round_mag m (e + 20) < 2 ^ 63) as HR.
    { unfold round_mag. rewrite (proj2 (Z.leb_gt _ _)) by lia.
      assert (2 ^ (- (e + 20)) = 2 * 2 ^ (- (e + 20) - 1)) as E by (rewrite <- Z.pow_succ_r by lia; f_equal; lia).
      assert (0 < 2 ^ (- (e + 20) - 1)) by (apply Z.pow_pos_nonneg; lia).
      change (2 ^ 53) with 9007199254740992 in Hm. change (2 ^ 63) with 9223372036854775808.
      apply Z.div_lt_upper_bound; lia. }
    assert (u < 2 ^ 43 * 2 ^ 1074) as Hu.
    { assert (2 ^ (e + 1074) <= 2 ^ 1054) by (apply Z.pow_le_mono_r; lia).
      assert (0 < 2 ^ (e + 1074)) by (apply Z.pow_pos_nonneg; lia).
      assert (2 ^ 43 * 2 ^ 1074 = 2 ^ 63 * 2 ^ 1054) as -> by (rewrite <- !Z.pow_add_r by lia; done).
      apply Z.le_lt_trans with (2 ^ 53 * 2 ^ 1054); [apply Z.mul_le_mono_nonneg; lia|].
      apply Z.mul_lt_mono_pos_r; [apply Z.pow_pos_nonneg; lia|done]. }
    split; split; intros _; lia.
Qed.

Lemma freq_range x :
  valid_binary f64_prec f64_emax x = true ->
  is_Some (to_range (- 2 ^ 63) (2 ^ 63) (rounded x 20)) <-> freq_in_range x = true.
Proof.
  intros Hv. unfold freq_in_range.
  change (f64_of_Z (- 2 ^ 43)) with (S754_finite true 4503599627370496 (-9)).
  change (f64_of_Z (2 ^ 43)) with (S754_finite false 4503599627370496 (-9)).
  destruct x as [[]|[]| |s m e]; try (split; intros H; (done || by destruct H || (by vm_compute)));  [].
  cbn [rounded]. rewrite to_range_is_Some by (done || apply round_mag_nonneg). cbn [valid_binary] in Hv.
  unfold SFleb, SFltb. rewrite !SFcompare_units by done. unfold units. cbn [cond_Zopp].
  destruct (freq_round m e Hv) as [R1 R2].
  assert (4503599627370496 * 2 ^ (-9 + 1074) = 2 ^ 43 * 2 ^ 1074) as E.
  { change 4503599627370496 with (2 ^ 52). rewrite <- !Z.pow_add_r by lia. done. }
  rewrite E. assert (0 < 2 ^ 43 * 2 ^ 1074) by (apply Z.mul_pos_pos; apply Z.pow_pos_nonneg; lia).
  pose proof (bounded_digits _ _ _ _ Hv) as (_ & He & _). unfold SpecFloat.emin in He.
  assert (0 < Z.pos m * 2 ^ (e + 1074)) by (apply Z.mul_pos_pos; [lia|apply Z.pow_pos_nonneg; fmt]).
  generalize dependent (2 ^ 43 * 2 ^ 1074). intros T R1 R2 _ HT. rewrite Z.opp_involutive.
  destruct s; cbn [cond_Zopp]; [rewrite R2|rewrite R1];
    destruct (Z.compare_spec (- T) (- (Z.pos m * 2 ^ (e + 1074)))), (Z.compare_spec (- (Z.pos m * 2 ^ (e + 1074))) T),
      (Z.compare_spec (- T) (Z.pos m * 2 ^ (e + 1074))), (Z.compare_spec (Z.pos m * 2 ^ (e + 1074)) T);
    cbn; split; intros; done || lia.
Qed.

Lemma level_range x :
  valid_binary f64_prec f64_emax x = true ->
  is_Some (to_range (- 2 ^ 15) (2 ^ 15) (rounded x 7)) <-> level_in_range x = true.
Proof.
  intros Hv. unfold level_in_range.
  change (f64_div (f64_of_Z (-65537)) (f64_of_Z 256)) with (S754_finite true 4503668346847232 (-44)).
  change (f64_div (f64_of_Z 65535) (f64_of_Z 256)) with (S754_finite false 9007061815787520 (-45)).
  destruct x as [[]|[]| |s m e]; try (split; intros H; (done || by destruct H || (by vm_compute)));  [].
  cbn [rounded]. rewrite to_range_is_Some by (done || apply round_mag_nonneg). cbn [valid_binary] in Hv.
  unfold SFltb. rewrite !SFcompare_units by done. unfold units. cbn [cond_Zopp].
  pose proof (bounded_digits _ _ _ _ Hv) as (_ & He & _). unfold SpecFloat.emin in He.
  assert (-1074 <= e) as He' by fmt.
  assert (0 < Z.pos m * 2 ^ (e + 1074)) by (apply Z.mul_pos_pos; [lia|apply Z.pow_pos_nonneg; lia]).
  assert (∀ N, 0 < N -> round_mag m (e + 7) < N <-> Z.pos m * 2 ^ (e + 1074) < (2 * N - 1) * 2 ^ 1066) as HR.
  { intros N HN. rewrite round_mag_lt by lia. replace (e + 7 + 1074) with ((e + 1074) + 7) by lia.
    rewrite Z.pow_add_r, Z.mul_assoc by lia. change (2 ^ 1073) with (2 ^ 1066 * 2 ^ 7). rewrite Z.mul_assoc.
    by rewrite <- Z.mul_lt_mono_pos_r by done. }
  pose proof (HR 32768 ltac:(lia)) as R1. pose proof (HR 32769 ltac:(lia)) as R2.
  assert (9007061815787520 * 2 ^ (-45 + 1074) = (2 * 32768 - 1) * 2 ^ 1066) as ->.
  { change 9007061815787520 with (65535 * 2 ^ 37). rewrite <- Z.mul_assoc, <- Z.pow_add_r by lia. done. }
  assert (4503668346847232 * 2 ^ (-44 + 1074) = (2 * 32769 - 1) * 2 ^ 1066) as ->.
  { change 4503668346847232 with (65537 * 2 ^ 36). rewrite <- Z.mul_assoc, <- Z.pow_add_r by lia. done. }
  assert (0 < 2 ^ 1066) by (apply Z.pow_pos_nonneg; lia). clear HR.
  change (2 ^ 15) with 32768. rewrite Z.opp_involutive.
  generalize dependent (2 ^ 1066). intros T R1 R2 HT.
  destruct s; cbn [cond_Zopp]; [rewrite <- Z.lt_succ_r; change (Z.succ 32768) with 32769; rewrite R2|rewrite R1];
    destruct (Z.compare_spec (- ((2 * 32769 - 1) * T)) (- (Z.pos m * 2 ^ (e + 1074)))),
      (Z.compare_spec (- (Z.pos m * 2 ^ (e + 1074))) ((2 * 32768 - 1) * T)),
      (Z.compare_spec (- ((2 * 32769 - 1) * T)) (Z.pos m * 2 ^ (e + 1074))), (Z.compare_spec (Z.pos m * 2 ^ (e + 1074)) ((2 * 32768 - 1) * T));
    cbn; split; intros; done || lia.
Qed.
