(* ===== verification/Vita49Types.v ===== *)
(** Packet vocabulary: src/libs/Vita49_2/Vita49Types.h.

    Enumerations keep the source's constructors.  [PacketType] is an enum with
    underlying type uint8_t, so [static_cast<PacketType>] of a 4-bit value that
    is no enumerator still yields a value: [ReservedType].  An absent optional
    is [None]; a [double] or [float] is a [spec_float]. *)

From S2P Require Import Prelude Ieee754.

(** * Enumerations *)

Inductive PacketType : Type :=
  | IFDataWithoutStreamId
  | IFDataWithStreamId
  | ExtDataWithoutStreamId
  | ExtDataWithStreamId
  | IFContext
  | ExtContext
  | ReservedType (raw : Z).

Inductive TSI : Type := TSI_None | TSI_UTC | TSI_GPS | TSI_Other.

Inductive TSF : Type := TSF_None | TSF_SampleCount | TSF_RealTime | TSF_FreeRunning.

Inductive ByteOrder : Type := BigEndian | LittleEndian.

#[export] Instance PacketType_eq_dec : EqDecision PacketType.
Proof. solve_decision. Defined.
#[export] Instance TSI_eq_dec : EqDecision TSI.
Proof. solve_decision. Defined.
#[export] Instance TSF_eq_dec : EqDecision TSF.
Proof. solve_decision. Defined.
#[export] Instance ByteOrder_eq_dec : EqDecision ByteOrder.
Proof. solve_decision. Defined.

(** [static_cast<uint32_t>(type)] and [static_cast<PacketType>(raw)]. *)
Definition packetType_to_Z (t : PacketType) : Z :=
  match t with
  | IFDataWithoutStreamId => 0
  | IFDataWithStreamId => 1
  | ExtDataWithoutStreamId => 2
  | ExtDataWithStreamId => 3
  | IFContext => 4
  | ExtContext => 5
  | ReservedType raw => raw
  end.

Definition packetType_of_Z (z : Z) : PacketType :=
  match z with
  | 0 => IFDataWithoutStreamId
  | 1 => IFDataWithStreamId
  | 2 => ExtDataWithoutStreamId
  | 3 => ExtDataWithStreamId
  | 4 => IFContext
  | 5 => ExtContext
  | _ => ReservedType z
  end.

Definition tsi_to_Z (t : TSI) : Z :=
  match t with TSI_None => 0 | TSI_UTC => 1 | TSI_GPS => 2 | TSI_Other => 3 end.

(** Only applied to a value masked with 0x3. *)
Definition tsi_of_Z (z : Z) : TSI :=
  match z with 0 => TSI_None | 1 => TSI_UTC | 2 => TSI_GPS | _ => TSI_Other end.

Definition tsf_to_Z (t : TSF) : Z :=
  match t with
  | TSF_None => 0 | TSF_SampleCount => 1 | TSF_RealTime => 2 | TSF_FreeRunning => 3
  end.

Definition tsf_of_Z (z : Z) : TSF :=
  match z with
  | 0 => TSF_None | 1 => TSF_SampleCount | 2 => TSF_RealTime | _ => TSF_FreeRunning
  end.

(** * Structures *)

Record PacketHeader : Type := mkPacketHeader {
  packetType : PacketType;
  classIdPresent : bool;
  trailerPresent : bool;
  tsiType : TSI;
  tsfType : TSF;
  packetCount : Z;
  packetSize : Z;
  streamId : option Z;
  classIdOUI : option Z;
  informationClassCode : option Z;
  packetClassCode : option Z;
  integerTimestamp : option Z;
  fractionalTimestamp : option Z;
}.

(** [PacketHeader header;] : the default member initialisers. *)
Definition defaultPacketHeader : PacketHeader := {|
  packetType := IFDataWithStreamId;
  classIdPresent := false;
  trailerPresent := false;
  tsiType := TSI_None;
  tsfType := TSF_None;
  packetCount := 0;
  packetSize := 0;
  streamId := None;
  classIdOUI := None;
  informationClassCode := None;
  packetClassCode := None;
  integerTimestamp := None;
  fractionalTimestamp := None;
|}.

Record ContextFields : Type := mkContextFields {
  changeIndicator : bool;
  referencePointId : option Z;
  bandwidth : option double;
  ifRefFrequency : option double;
  rfFrequency : option double;
  rfFreqOffset : option double;
  ifBandOffset : option double;
  referenceLevel : option double;
  gain : option double;
  overRangeCount : option Z;
  sampleRate : option double;
}.

Definition defaultContextFields : ContextFields := {|
  changeIndicator := false;
  referencePointId := None;
  bandwidth := None;
  ifRefFrequency := None;
  rfFrequency := None;
  rfFreqOffset := None;
  ifBandOffset := None;
  referenceLevel := None;
  gain := None;
  overRangeCount := None;
  sampleRate := None;
|}.

(** [IQSample] is std::complex<float>: real and imaginary part. *)
Definition IQSample : Type := float * float.
Definition IQSamples : Type := list IQSample.

(** * Constants *)

Definition DEFAULT_SCALE_FACTOR : float := f32_of_Z 32768.
Definition MAX_PACKET_SIZE_WORDS : Z := 65535.
Definition MAX_PACKET_SIZE_BYTES : Z := u64 (MAX_PACKET_SIZE_WORDS * 4).
Definition FREQ_RADIX : double := f64_of_Z 1048576.
Definition GAIN_RADIX : double := f64_of_Z 128.

(** * Helper functions *)

Definition hasStreamId (type : PacketType) : bool :=
  match type with
  | IFDataWithStreamId | ExtDataWithStreamId | IFContext | ExtContext => true
  | _ => false
  end.

Definition isDataPacket (type : PacketType) : bool :=
  bool_decide (type = IFDataWithoutStreamId) ||
  bool_decide (type = IFDataWithStreamId) ||
  bool_decide (type = ExtDataWithoutStreamId) ||
  bool_decide (type = ExtDataWithStreamId).

Definition isContextPacket (type : PacketType) : bool :=
  bool_decide (type = IFContext) || bool_decide (type = ExtContext).

(** * Lemmas *)

Lemma packetType_of_to t :
  (∀ raw, t = ReservedType raw -> 6 <= raw) -> packetType_of_Z (packetType_to_Z t) = t.
Proof.
  destruct t as [| | | | | |raw]; try done. intros H. specialize (H raw eq_refl).
  destruct raw as [|p|p]; try lia. do 3 (destruct p as [p|p|]; try done; try lia).
Qed.

Lemma packetType_to_of z : 0 <= z -> packetType_to_Z (packetType_of_Z z) = z.
Proof.
  intros. unfold packetType_of_Z. destruct z as [|p|p]; try done.
  do 3 (destruct p; try done).
Qed.

Lemma tsi_of_to t : tsi_of_Z (tsi_to_Z t) = t.
Proof. by destruct t. Qed.

Lemma tsi_to_of z : 0 <= z < 4 -> tsi_to_Z (tsi_of_Z z) = z.
Proof.
  intros. assert (z = 0 \/ z = 1 \/ z = 2 \/ z = 3) by lia.
  by destruct_or!; subst.
Qed.

Lemma tsf_of_to t : tsf_of_Z (tsf_to_Z t) = t.
Proof. by destruct t. Qed.

Lemma tsf_to_of z : 0 <= z < 4 -> tsf_to_Z (tsf_of_Z z) = z.
Proof.
  intros. assert (z = 0 \/ z = 1 \/ z = 2 \/ z = 3) by lia.
  by destruct_or!; subst.
Qed.

Lemma tsi_to_Z_bound t : 0 <= tsi_to_Z t < 4.
Proof. destruct t; simpl; lia. Qed.

Lemma tsf_to_Z_bound t : 0 <= tsf_to_Z t < 4.
Proof. destruct t; simpl; lia. Qed.

Lemma FREQ_RADIX_pow2 : FREQ_RADIX = pow2_64 20.
Proof. vm_compute. reflexivity. Qed.

Lemma GAIN_RADIX_pow2 : GAIN_RADIX = pow2_64 7.
Proof. vm_compute. reflexivity. Qed.

Lemma DEFAULT_SCALE_pow2 : DEFAULT_SCALE_FACTOR = pow2_32 15.
Proof. vm_compute. reflexivity. Qed.

(** A packet is signal data, context, or of a reserved type, exclusively. *)
Lemma packet_kinds t :
  (isDataPacket t = true /\ isContextPacket t = false) \/
  (isDataPacket t = false /\ isContextPacket t = true) \/
  (isDataPacket t = false /\ isContextPacket t = false /\
   hasStreamId t = false /\ ∃ raw, t = ReservedType raw).
Proof. destruct t; naive_solver. Qed.

Lemma isContextPacket_hasStreamId t : isContextPacket t = true -> hasStreamId t = true.
Proof. by destruct t. Qed.
