(* ===== verification/PacketHeader.v ===== *)
(** Common packet header: src/libs/Vita49_2/PacketHeader.{h,cpp}.

    [parse] follows PacketHeaderCodec::parse statement by statement: [None] is
    undefined behaviour (a load outside the buffer), [Some (ok, header,
    headerBytes)] the return value and the two out-parameters, which are
    written up to the point of a [return false].  [serialize] resizes the
    output vector and stores into it. *)

From S2P Require Import Prelude ByteSwap Ieee754 Vita49Types.

(** * Byte-order dispatch *)

Definition readWord (p : list Z) (off : Z) (order : ByteOrder) : option Z :=
  match order with BigEndian => readU32BE p off | LittleEndian => readU32LE p off end.

Definition readDWord (p : list Z) (off : Z) (order : ByteOrder) : option Z :=
  match order with BigEndian => readU64BE p off | LittleEndian => readU64LE p off end.

Definition writeWord (p : list Z) (off val : Z) (order : ByteOrder) : option (list Z) :=
  match order with
  | BigEndian => writeU32BE p off val
  | LittleEndian => writeU32LE p off val
  end.

Definition writeDWord (p : list Z) (off val : Z) (order : ByteOrder) : option (list Z) :=
  match order with
  | BigEndian => writeU64BE p off val
  | LittleEndian => writeU64LE p off val
  end.

(** * parse *)

(** Where a partial parse stands: [return false], or the header so far and
    the current offset. *)
Inductive parse_state : Type :=
  | ReturnFalse (h : PacketHeader)
  | Continue (h : PacketHeader) (offset : Z).

Definition next (r : option parse_state)
    (k : PacketHeader -> Z -> option parse_state) : option parse_state :=
  s ← r; match s with ReturnFalse h => Some (ReturnFalse h) | Continue h o => k h o end.

(** Word 0: the mandatory fields. *)
Definition parseWord0 (word0 : Z) (h : PacketHeader) : PacketHeader :=
  let type := packetType_of_Z (Z.land (Z.shiftr word0 28) 0xF) in
  {| packetType := type;
     classIdPresent := negb (Z.land (Z.shiftr word0 27) 0x1 =? 0);
     trailerPresent := isDataPacket type && negb (Z.land (Z.shiftr word0 26) 0x1 =? 0);
     tsiType := tsi_of_Z (Z.land (Z.shiftr word0 22) 0x3);
     tsfType := tsf_of_Z (Z.land (Z.shiftr word0 20) 0x3);
     packetCount := u8 (Z.land (Z.shiftr word0 16) 0xF);
     packetSize := u16 (Z.land word0 0xFFFF);
     streamId := streamId h;
     classIdOUI := classIdOUI h;
     informationClassCode := informationClassCode h;
     packetClassCode := packetClassCode h;
     integerTimestamp := integerTimestamp h;
     fractionalTimestamp := fractionalTimestamp h |}.

Definition set_streamId (v : Z) (h : PacketHeader) : PacketHeader :=
  mkPacketHeader (packetType h) (classIdPresent h) (trailerPresent h) (tsiType h)
    (tsfType h) (packetCount h) (packetSize h) (Some v) (classIdOUI h)
    (informationClassCode h) (packetClassCode h) (integerTimestamp h)
    (fractionalTimestamp h).

Definition set_classId (oui info code : Z) (h : PacketHeader) : PacketHeader :=
  mkPacketHeader (packetType h) (classIdPresent h) (trailerPresent h) (tsiType h)
    (tsfType h) (packetCount h) (packetSize h) (streamId h) (Some oui)
    (Some info) (Some code) (integerTimestamp h) (fractionalTimestamp h).

Definition set_integerTimestamp (v : Z) (h : PacketHeader) : PacketHeader :=
  mkPacketHeader (packetType h) (classIdPresent h) (trailerPresent h) (tsiType h)
    (tsfType h) (packetCount h) (packetSize h) (streamId h) (classIdOUI h)
    (informationClassCode h) (packetClassCode h) (Some v) (fractionalTimestamp h).

Definition set_fractionalTimestamp (v : Z) (h : PacketHeader) : PacketHeader :=
  mkPacketHeader (packetType h) (classIdPresent h) (trailerPresent h) (tsiType h)
    (tsfType h) (packetCount h) (packetSize h) (streamId h) (classIdOUI h)
    (informationClassCode h) (packetClassCode h) (integerTimestamp h) (Some v).

Section parse.
Context (data : list Z) (order : ByteOrder) (packetBytes : Z).

Definition parseStreamId (h : PacketHeader) (offset : Z) : option parse_state :=
  if hasStreamId (packetType h) then
    if packetBytes <? offset + 4 then Some (ReturnFalse h)
    else v ← readWord data offset order;
         Some (Continue (set_streamId v h) (offset + 4))
  else Some (Continue h offset).

Definition parseClassId (h : PacketHeader) (offset : Z) : option parse_state :=
  if classIdPresent h then
    if packetBytes <? offset + 8 then Some (ReturnFalse h)
    else classWord1 ← readWord data offset order;
         classWord2 ← readWord data (offset + 4) order;
         Some (Continue
           (set_classId (Z.land classWord1 0x00FFFFFF)
              (u16 (Z.land (Z.shiftr classWord2 16) 0xFFFF))
              (u16 (Z.land classWord2 0xFFFF)) h)
           (offset + 8))
  else Some (Continue h offset).

Definition parseIntegerTimestamp (h : PacketHeader) (offset : Z) : option parse_state :=
  if bool_decide (tsiType h = TSI_None) then Some (Continue h offset)
  else if packetBytes <? offset + 4 then Some (ReturnFalse h)
  else v ← readWord data offset order;
       Some (Continue (set_integerTimestamp v h) (offset + 4)).

Definition parseFractionalTimestamp (h : PacketHeader) (offset : Z) : option parse_state :=
  if bool_decide (tsfType h = TSF_None) then Some (Continue h offset)
  else if packetBytes <? offset + 8 then Some (ReturnFalse h)
  else v ← readDWord data offset order;
       Some (Continue (set_fractionalTimestamp v h) (offset + 8)).

Definition parseOptional (h : PacketHeader) : option parse_state :=
  next (next (next (parseStreamId h 4) parseClassId)
         parseIntegerTimestamp) parseFractionalTimestamp.
End parse.

(** [data] is [None] for a null pointer. *)
Definition parse (data : option (list Z)) (length : Z) (order : ByteOrder)
    (header : PacketHeader) (headerBytes : Z) : option (bool * PacketHeader * Z) :=
  match data with
  | None => Some (false, header, headerBytes)
  | Some data =>
      if length <? 4 then Some (false, header, headerBytes)
      else
        word0 ← readWord data 0 order;
        let header := parseWord0 word0 header in
        if (packetSize header =? 0) || (MAX_PACKET_SIZE_WORDS <? packetSize header)
        then Some (false, header, headerBytes)
        else
          let packetBytes := u64 (packetSize header * 4) in
          if length <? packetBytes then Some (false, header, headerBytes)
          else
            s ← parseOptional data order packetBytes header;
            Some (match s with
                  | ReturnFalse h => (false, h, headerBytes)
                  | Continue h offset => (true, h, offset)
                  end)
  end.

(** * serialize *)

Definition buildWord0 (header : PacketHeader) : Z :=
  let w := 0 in
  let w := Z.lor w (u32 (Z.shiftl (Z.land (u32 (packetType_to_Z (packetType header))) 0xF) 28)) in
  let w := Z.lor w (u32 (Z.shiftl (if classIdPresent header then 1 else 0) 27)) in
  let w := if isDataPacket (packetType header)
           then Z.lor w (u32 (Z.shiftl (if trailerPresent header then 1 else 0) 26)) else w in
  let w := Z.lor w (u32 (Z.shiftl (Z.land (u32 (tsi_to_Z (tsiType header))) 0x3) 22)) in
  let w := Z.lor w (u32 (Z.shiftl (Z.land (u32 (tsf_to_Z (tsfType header))) 0x3) 20)) in
  let w := Z.lor w (u32 (Z.shiftl (Z.land (u32 (packetCount header)) 0xF) 16)) in
  Z.lor w (Z.land (u32 (packetSize header)) 0xFFFF).

(** [pos = out.size(); out.resize(pos + 4); writeWord(out.data() + pos, ..)] *)
Definition pushWord (out : list Z) (v : Z) (order : ByteOrder) : option (list Z) :=
  let pos := zlen out in writeWord (resize_by out 4) pos v order.

Definition pushDWord (out : list Z) (v : Z) (order : ByteOrder) : option (list Z) :=
  let pos := zlen out in writeDWord (resize_by out 8) pos v order.

Definition serializeStreamId (header : PacketHeader) (order : ByteOrder)
    (out : list Z) : option (list Z) :=
  match streamId header with
  | Some v => if hasStreamId (packetType header) then pushWord out v order else Some out
  | None => Some out
  end.

Definition classWord2 (header : PacketHeader) : Z :=
  let w := 0 in
  let w := match informationClassCode header with
           | Some v => Z.lor w (u32 (Z.shiftl (u32 v) 16)) | None => w end in
  match packetClassCode header with
  | Some v => Z.lor w (u32 v) | None => w end.

Definition serializeClassId (header : PacketHeader) (order : ByteOrder)
    (out : list Z) : option (list Z) :=
  match classIdOUI header with
  | Some oui =>
      if classIdPresent header then
        let pos := zlen out in
        let out := resize_by out 8 in
        out ← writeWord out pos (Z.land oui 0x00FFFFFF) order;
        writeWord out (pos + 4) (classWord2 header) order
      else Some out
  | None => Some out
  end.

Definition serializeIntegerTimestamp (header : PacketHeader) (order : ByteOrder)
    (out : list Z) : option (list Z) :=
  match integerTimestamp header with
  | Some v => if bool_decide (tsiType header = TSI_None) then Some out
              else pushWord out v order
  | None => Some out
  end.

Definition serializeFractionalTimestamp (header : PacketHeader) (order : ByteOrder)
    (out : list Z) : option (list Z) :=
  match fractionalTimestamp header with
  | Some v => if bool_decide (tsfType header = TSF_None) then Some out
              else pushDWord out v order
  | None => Some out
  end.

Definition serialize (header : PacketHeader) (order : ByteOrder)
    (out : list Z) : option (list Z) :=
  out ← pushWord out (buildWord0 header) order;
  out ← serializeStreamId header order out;
  out ← serializeClassId header order out;
  out ← serializeIntegerTimestamp header order out;
  serializeFractionalTimestamp header order out.

(** * sizeInWords, sizeInBytes *)

Definition sizeInWords (header : PacketHeader) : Z :=
  let words := 1 in
  let words := if hasStreamId (packetType header) then words + 1 else words in
  let words := if classIdPresent header then words + 2 else words in
  let words := if bool_decide (tsiType header = TSI_None) then words else words + 1 in
  if bool_decide (tsfType header = TSF_None) then words else words + 2.

Definition sizeInBytes (header : PacketHeader) : Z := sizeInWords header * 4.

(** * The header an encoder fills in

    SignalDataPacket::encode and ContextPacket::encode build their header with
    the same statements, for their own type and trailer flag; the size is set
    once it is known. *)

Definition buildHeader (type : PacketType) (trailer : bool) (sid count : Z)
    (tsi : TSI) (tsf : TSF) (intTs fracTs : Z) : PacketHeader :=
  mkPacketHeader type false trailer tsi tsf (Z.land count 0xF) 0 (Some sid)
    None None None
    (if bool_decide (tsi = TSI_None) then None else Some intTs)
    (if bool_decide (tsf = TSF_None) then None else Some fracTs).

Definition set_packetSize (v : Z) (h : PacketHeader) : PacketHeader :=
  mkPacketHeader (packetType h) (classIdPresent h) (trailerPresent h) (tsiType h)
    (tsfType h) (packetCount h) v (streamId h) (classIdOUI h)
    (informationClassCode h) (packetClassCode h) (integerTimestamp h)
    (fractionalTimestamp h).

(** * Well-formed headers

    A header the encoder may be given: ranges of the bit fields, and an
    optional field present exactly when the indicator says so. *)

Definition opt_ok (present : bool) (lim : Z) (o : option Z) : Prop :=
  match o with Some v => present = true /\ 0 <= v < lim | None => present = false end.

Record header_wf (h : PacketHeader) : Prop := {
  wf_type : 0 <= packetType_to_Z (packetType h) < 16 /\
            packetType_of_Z (packetType_to_Z (packetType h)) = packetType h;
  wf_trailer : trailerPresent h = true -> isDataPacket (packetType h) = true;
  wf_count : 0 <= packetCount h < 16;
  wf_size : 0 <= packetSize h < 65536;
  wf_streamId : opt_ok (hasStreamId (packetType h)) 4294967296 (streamId h);
  wf_oui : opt_ok (classIdPresent h) 16777216 (classIdOUI h);
  wf_info : opt_ok (classIdPresent h) 65536 (informationClassCode h);
  wf_code : opt_ok (classIdPresent h) 65536 (packetClassCode h);
  wf_tsi : opt_ok (negb (bool_decide (tsiType h = TSI_None))) 4294967296 (integerTimestamp h);
  wf_tsf : opt_ok (negb (bool_decide (tsfType h = TSF_None))) 18446744073709551616
             (fractionalTimestamp h);
}.

(** * Word access through the codec interface *)

Definition encW (order : ByteOrder) (v : Z) : list Z :=
  match order with BigEndian => be_bytes 4 v | LittleEndian => le_bytes 4 v end.

Definition encD (order : ByteOrder) (v : Z) : list Z :=
  match order with BigEndian => be_bytes 8 v | LittleEndian => le_bytes 8 v end.

Lemma length_encW o v : length (encW o v) = 4%nat.
Proof. by destruct o. Qed.

Lemma length_encD o v : length (encD o v) = 8%nat.
Proof. by destruct o. Qed.

Lemma zlen_encW o v : zlen (encW o v) = 4.
Proof. unfold zlen. by rewrite length_encW. Qed.

Lemma zlen_encD o v : zlen (encD o v) = 8.
Proof. unfold zlen. by rewrite length_encD. Qed.

#[export] Hint Rewrite zlen_encW zlen_encD : zlen.

Lemma encW_bytes o v : bytes_ok (encW o v).
Proof. destruct o; [apply (codec_bytes (rd:=readU32BE)) | apply (codec_bytes (rd:=readU32LE))]. Qed.

Lemma encD_bytes o v : bytes_ok (encD o v).
Proof. destruct o; [apply (codec_bytes (rd:=readU64BE)) | apply (codec_bytes (rd:=readU64LE))]. Qed.

#[export] Hint Resolve encW_bytes encD_bytes : wrapdb.

Lemma readWord_at o l v r :
  bytes_ok l -> bytes_ok r -> 0 <= v < 4294967296 ->
  readWord (l ++ encW o v ++ r) (zlen l) o = Some v.
Proof.
  intros. destruct o; cbn [readWord readDWord encW encD writeWord writeDWord];
    [by apply (codec_read_at (rd:=readU32BE)) | by apply (codec_read_at (rd:=readU32LE))].
Qed.

Lemma readDWord_at o l v r :
  bytes_ok l -> bytes_ok r -> 0 <= v < 18446744073709551616 ->
  readDWord (l ++ encD o v ++ r) (zlen l) o = Some v.
Proof.
  intros. destruct o; cbn [readWord readDWord encW encD writeWord writeDWord];
    [by apply (codec_read_at (rd:=readU64BE)) | by apply (codec_read_at (rd:=readU64LE))].
Qed.

Lemma readWord_total o m p :
  bytes_ok m -> 0 <= p -> p + 4 <= zlen m ->
  ∃ v, readWord m p o = Some v /\ 0 <= v < 4294967296.
Proof.
  intros. destruct o; cbn [readWord readDWord encW encD writeWord writeDWord];
    [by apply (codec_read_total (n:=4%nat) (rd:=readU32BE)) | by apply (codec_read_total (n:=4%nat) (rd:=readU32LE))].
Qed.

Lemma readDWord_total o m p :
  bytes_ok m -> 0 <= p -> p + 8 <= zlen m ->
  ∃ v, readDWord m p o = Some v /\ 0 <= v < 18446744073709551616.
Proof.
  intros. destruct o; cbn [readWord readDWord encW encD writeWord writeDWord];
    [by apply (codec_read_total (n:=8%nat) (rd:=readU64BE)) | by apply (codec_read_total (n:=8%nat) (rd:=readU64LE))].
Qed.

Lemma readWord_slice o m p v :
  bytes_ok m -> readWord m p o = Some v -> slice m p 4 = Some (encW o v).
Proof.
  intros. destruct o; cbn [readWord readDWord encW encD] in *;
    [by apply (codec_read_slice (rd:=readU32BE)) | by apply (codec_read_slice (rd:=readU32LE))].
Qed.

Lemma readDWord_slice o m p v :
  bytes_ok m -> readDWord m p o = Some v -> slice m p 8 = Some (encD o v).
Proof.
  intros. destruct o; cbn [readWord readDWord encW encD] in *;
    [by apply (codec_read_slice (rd:=readU64BE)) | by apply (codec_read_slice (rd:=readU64LE))].
Qed.

Lemma pushWord_app out v o : pushWord out v o = Some (out ++ encW o v).
Proof.
  destruct o; unfold pushWord; cbn [writeWord encW];
    [apply (codec_append (n:=4%nat) (rd:=readU32BE)) | apply (codec_append (n:=4%nat) (rd:=readU32LE))].
Qed.

Lemma pushDWord_app out v o : pushDWord out v o = Some (out ++ encD o v).
Proof.
  destruct o; unfold pushDWord; cbn [writeDWord encD];
    [apply (codec_append (n:=8%nat) (rd:=readU64BE)) | apply (codec_append (n:=8%nat) (rd:=readU64LE))].
Qed.

Lemma writeWord_bytes m p v o : writeWord m p v o = write_bytes m p (encW o v).
Proof. destruct o; cbn [readWord readDWord encW encD writeWord writeDWord]; apply codec_wr. Qed.

(** * The serialized form of a header *)

Definition enc_streamId (h : PacketHeader) (o : ByteOrder) : list Z :=
  match streamId h with
  | Some v => if hasStreamId (packetType h) then encW o v else []
  | None => []
  end.

Definition enc_classId (h : PacketHeader) (o : ByteOrder) : list Z :=
  match classIdOUI h with
  | Some oui => if classIdPresent h
                then encW o (Z.land oui 0x00FFFFFF) ++ encW o (classWord2 h) else []
  | None => []
  end.

Definition enc_tsi (h : PacketHeader) (o : ByteOrder) : list Z :=
  match integerTimestamp h with
  | Some v => if bool_decide (tsiType h = TSI_None) then [] else encW o v
  | None => []
  end.

Definition enc_tsf (h : PacketHeader) (o : ByteOrder) : list Z :=
  match fractionalTimestamp h with
  | Some v => if bool_decide (tsfType h = TSF_None) then [] else encD o v
  | None => []
  end.

Definition header_bytes (h : PacketHeader) (o : ByteOrder) : list Z :=
  encW o (buildWord0 h) ++ enc_streamId h o ++ enc_classId h o ++ enc_tsi h o ++ enc_tsf h o.

Lemma serializeClassId_app h o out :
  serializeClassId h o out = Some (out ++ enc_classId h o).
Proof.
  unfold serializeClassId, enc_classId. destruct (classIdOUI h) as [oui|]; [|by rewrite app_nil_r].
  destruct (classIdPresent h); [|by rewrite app_nil_r].
  set (w1 := Z.land oui 0x00FFFFFF). set (w2 := classWord2 h).
  pose proof (write_bytes_resize out 8 (encW o w1 ++ encW o w2)
    ltac:(by autorewrite with zlen)) as H.
  rewrite write_bytes_split, zlen_encW in H. rewrite writeWord_bytes.
  destruct (write_bytes (resize_by out 8) _ _) as [m|]; [|done].
  cbn [mbind option_bind] in *. by rewrite writeWord_bytes.
Qed.

(** Serializing appends [header_bytes], and never stores out of bounds. *)
Lemma serialize_app h o out : serialize h o out = Some (out ++ header_bytes h o).
Proof.
  unfold serialize, header_bytes. rewrite pushWord_app. cbn [mbind option_bind].
  assert (∀ out, serializeStreamId h o out = Some (out ++ enc_streamId h o)) as ->.
  { intros. unfold serializeStreamId, enc_streamId.
    destruct (streamId h); [|by rewrite app_nil_r].
    case_bool; [apply pushWord_app|by rewrite app_nil_r]. }
  cbn [mbind option_bind]. rewrite serializeClassId_app. cbn [mbind option_bind].
  assert (∀ out, serializeIntegerTimestamp h o out = Some (out ++ enc_tsi h o)) as ->.
  { intros. unfold serializeIntegerTimestamp, enc_tsi.
    destruct (integerTimestamp h); [|by rewrite app_nil_r].
    case_bool; [by rewrite app_nil_r|apply pushWord_app]. }
  cbn [mbind option_bind].
  assert (∀ out, serializeFractionalTimestamp h o out = Some (out ++ enc_tsf h o)) as ->.
  { intros. unfold serializeFractionalTimestamp, enc_tsf.
    destruct (fractionalTimestamp h); [|by rewrite app_nil_r].
    case_bool; [by rewrite app_nil_r|apply pushDWord_app]. }
  by rewrite <- !(assoc_L (++)).
Qed.

Lemma header_bytes_ok h o : bytes_ok (header_bytes h o).
Proof.
  unfold header_bytes, enc_streamId, enc_classId, enc_tsi, enc_tsf.
  rewrite !Forall_app. repeat split; repeat case_match; eauto with wrapdb.
  apply Forall_app; eauto with wrapdb.
Qed.

(** The announced size is the serialized size, when presence matches. *)
Lemma zlen_header_bytes h o : header_wf h -> zlen (header_bytes h o) = sizeInBytes h.
Proof.
  intros [_ _ _ _ Hs Ho _ _ Hi Hf].
  unfold header_bytes, sizeInBytes, sizeInWords, enc_streamId, enc_classId, enc_tsi, enc_tsf.
  unfold opt_ok in *. autorewrite with zlen.
  destruct (streamId h) as [v1|]; [destruct Hs as [-> _]|rewrite Hs];
  (destruct (classIdOUI h) as [v2|]; [destruct Ho as [-> _]|rewrite Ho]);
  (destruct (integerTimestamp h) as [v3|]; [destruct Hi as [Hi _]|]);
  (destruct (fractionalTimestamp h) as [v4|]; [destruct Hf as [Hf _]|]);
  try (apply negb_true_iff in Hi; rewrite Hi); try (apply negb_false_iff in Hi; rewrite Hi);
  try (apply negb_true_iff in Hf; rewrite Hf); try (apply negb_false_iff in Hf; rewrite Hf);
  autorewrite with zlen; lia.
Qed.

(** * Word 0 *)

(** The layout of word 0, as arithmetic. *)
Definition word0_layout (pt c t tsi tsf cnt sz : Z) : Z :=
  pt * 268435456 + c * 134217728 + t * 67108864 + tsi * 4194304 + tsf * 1048576
  + cnt * 65536 + sz.

Lemma b2z_bound b : 0 <= Z.b2z b < 2.
Proof. destruct b; simpl; lia. Qed.

Lemma if_b2z (b : bool) : (if b then 1 else 0) = Z.b2z b.
Proof. by destruct b. Qed.

Lemma buildWord0_layout h :
  header_wf h ->
  buildWord0 h =
    word0_layout (packetType_to_Z (packetType h)) (Z.b2z (classIdPresent h))
      (Z.b2z (trailerPresent h)) (tsi_to_Z (tsiType h)) (tsf_to_Z (tsfType h))
      (packetCount h) (packetSize h).
Proof.
  intros [[Hpt _] Htr Hc Hs _ _ _ _ _ _]. unfold buildWord0, word0_layout. rewrite !if_b2z.
  pose proof (tsi_to_Z_bound (tsiType h)). pose proof (tsf_to_Z_bound (tsfType h)).
  pose proof (b2z_bound (classIdPresent h)). pose proof (b2z_bound (trailerPresent h)).
  assert ((if isDataPacket (packetType h) then
     Z.lor (Z.lor (Z.lor 0 (u32 (Z.shiftl (Z.land (u32 (packetType_to_Z (packetType h))) 0xF) 28)))
              (u32 (Z.shiftl (Z.b2z (classIdPresent h)) 27)))
       (u32 (Z.shiftl (Z.b2z (trailerPresent h)) 26))
     else Z.lor (Z.lor 0 (u32 (Z.shiftl (Z.land (u32 (packetType_to_Z (packetType h))) 0xF) 28)))
              (u32 (Z.shiftl (Z.b2z (classIdPresent h)) 27)))
    = Z.lor (Z.lor (Z.lor 0 (u32 (Z.shiftl (Z.land (u32 (packetType_to_Z (packetType h))) 0xF) 28)))
              (u32 (Z.shiftl (Z.b2z (classIdPresent h)) 27)))
       (u32 (Z.shiftl (Z.b2z (trailerPresent h)) 26))) as ->.
  { destruct (isDataPacket (packetType h)) eqn:E; [done|].
    destruct (trailerPresent h); [specialize (Htr eq_refl); congruence|]. symmetry. apply Z.lor_0_r. }
  clear Htr. generalize dependent (packetType_to_Z (packetType h)).
  generalize dependent (tsi_to_Z (tsiType h)). generalize dependent (tsf_to_Z (tsfType h)).
  generalize dependent (Z.b2z (classIdPresent h)). generalize dependent (Z.b2z (trailerPresent h)).
  generalize dependent (packetCount h). generalize dependent (packetSize h).
  intros sz Hsz cnt Hcnt t Ht c Hc tsf Htsf tsi Htsi pt Hpt.
  rewrite !Z.shiftl_mul_pow2, Z.lor_0_l, !land_15, !land_3, !land_ffff by lia.
  rewrite (u32_small pt), (u32_small tsi), (u32_small tsf), (u32_small cnt),
    (u32_small sz), !Z.mod_small, !u32_small by lia.
  rewrite (lor_low_high (c * _) (pt * _) 28), (lor_low_high (t * _) _ 27),
    (lor_low_high (tsi * _) _ 26), (lor_low_high (tsf * _) _ 22),
    (lor_low_high (cnt * _) _ 20), (lor_low_high sz _ 16) by (lia || divmod).
  lia.
Qed.

Lemma buildWord0_bound h : header_wf h -> 0 <= buildWord0 h < 4294967296.
Proof.
  intros Hwf. rewrite buildWord0_layout by done. destruct Hwf as [[Hpt _] _ Hc Hs _ _ _ _ _ _].
  pose proof (tsi_to_Z_bound (tsiType h)). pose proof (tsf_to_Z_bound (tsfType h)).
  pose proof (b2z_bound (classIdPresent h)). pose proof (b2z_bound (trailerPresent h)).
  unfold word0_layout. lia.
Qed.

(** The shifts and masks of [parseWord0] select the fields of the layout. *)
Lemma word0_fields pt c t tsi tsf cnt sz :
  0 <= pt < 16 -> 0 <= c < 2 -> 0 <= t < 2 -> 0 <= tsi < 4 -> 0 <= tsf < 4 ->
  0 <= cnt < 16 -> 0 <= sz < 65536 ->
  let w := word0_layout pt c t tsi tsf cnt sz in
  Z.land (Z.shiftr w 28) 0xF = pt /\ Z.land (Z.shiftr w 27) 0x1 = c /\
  Z.land (Z.shiftr w 26) 0x1 = t /\ Z.land (Z.shiftr w 22) 0x3 = tsi /\
  Z.land (Z.shiftr w 20) 0x3 = tsf /\ Z.land (Z.shiftr w 16) 0xF = cnt /\
  Z.land w 0xFFFF = sz.
Proof.
  intros. unfold w, word0_layout. autorewrite with masks.
  rewrite !Z.shiftr_div_pow2 by lia. repeat split; divmod.
Qed.

(** A header without its optional fields: what word 0 determines. *)
Definition mandatory (h : PacketHeader) : PacketHeader :=
  mkPacketHeader (packetType h) (classIdPresent h) (trailerPresent h) (tsiType h)
    (tsfType h) (packetCount h) (packetSize h) None None None None None None.

Lemma parse_buildWord0 h :
  header_wf h -> parseWord0 (buildWord0 h) defaultPacketHeader = mandatory h.
Proof.
  intros Hwf. rewrite buildWord0_layout by done. destruct Hwf as [[Hpt Hof] Htr Hc Hs _ _ _ _ _ _].
  destruct (word0_fields (packetType_to_Z (packetType h)) (Z.b2z (classIdPresent h))
    (Z.b2z (trailerPresent h)) (tsi_to_Z (tsiType h)) (tsf_to_Z (tsfType h))
    (packetCount h) (packetSize h)) as (E1&E2&E3&E4&E5&E6&E7);
    auto using b2z_bound, tsi_to_Z_bound, tsf_to_Z_bound.
  unfold parseWord0, mandatory. rewrite E1, E2, E3, E4, E5, E6, E7, Hof, tsi_of_to, tsf_of_to.
  rewrite u8_small, u16_small by lia. f_equal.
  - by destruct (classIdPresent h).
  - destruct (trailerPresent h); simpl; [by rewrite Htr|by rewrite andb_false_r].
Qed.

(** * Parsing what was serialized *)

(** The header after the first n optional groups have been read. *)
Definition upto (n : nat) (h : PacketHeader) : PacketHeader :=
  mkPacketHeader (packetType h) (classIdPresent h) (trailerPresent h) (tsiType h)
    (tsfType h) (packetCount h) (packetSize h)
    (if (1 <=? n)%nat then streamId h else None)
    (if (2 <=? n)%nat then classIdOUI h else None)
    (if (2 <=? n)%nat then informationClassCode h else None)
    (if (2 <=? n)%nat then packetClassCode h else None)
    (if (3 <=? n)%nat then integerTimestamp h else None)
    (if (4 <=? n)%nat then fractionalTimestamp h else None).

Lemma upto_4 h : upto 4 h = h.
Proof. by destruct h. Qed.

Lemma classWord2_layout h info code :
  informationClassCode h = Some info -> packetClassCode h = Some code ->
  0 <= info < 65536 -> 0 <= code < 65536 ->
  classWord2 h = info * 65536 + code.
Proof.
  intros Hi Hc Hib Hcb. unfold classWord2. rewrite Hi, Hc.
  rewrite (u32_small info), (u32_small code), Z.lor_0_l by lia.
  rewrite u32_small by (rewrite Z.shiftl_mul_pow2 by lia; lia).
  by rewrite lor_shiftl_add by lia.
Qed.

Section stages.
Context (h : PacketHeader) (o : ByteOrder) (pre r : list Z) (pb : Z).
Context (Hwf : header_wf h) (Hpre : bytes_ok pre) (Hr : bytes_ok r).

Lemma parseStreamId_at :
  zlen pre + zlen (enc_streamId h o) <= pb ->
  parseStreamId (pre ++ enc_streamId h o ++ r) o pb (upto 0 h) (zlen pre)
  = Some (Continue (upto 1 h) (zlen (pre ++ enc_streamId h o))).
Proof.
  intros Hpb. pose proof (wf_streamId h Hwf) as Hs. unfold opt_ok in Hs.
  unfold parseStreamId, enc_streamId, set_streamId, upto in *. cbn [packetType Nat.leb].
  destruct (streamId h) as [v|]; [destruct Hs as [Hs Hv]|]; rewrite Hs in *.
  - autorewrite with zlen in *. rewrite (proj2 (Z.ltb_ge _ _)) by lia.
    by rewrite readWord_at.
  - by rewrite app_nil_r.
Qed.

Lemma parseClassId_at :
  zlen pre + zlen (enc_classId h o) <= pb ->
  parseClassId (pre ++ enc_classId h o ++ r) o pb (upto 1 h) (zlen pre)
  = Some (Continue (upto 2 h) (zlen (pre ++ enc_classId h o))).
Proof.
  intros Hpb. destruct Hwf as [_ _ _ _ _ Ho Hi Hc _ _]. unfold opt_ok in *.
  unfold parseClassId, enc_classId, set_classId, upto in *. cbn [classIdPresent Nat.leb].
  destruct (classIdOUI h) as [oui|]; [destruct Ho as [Ho Hob]|]; rewrite Ho in *.
  - destruct (informationClassCode h) as [info|] eqn:Ei; [destruct Hi as [_ Hib]|done].
    destruct (packetClassCode h) as [code|] eqn:Ec; [destruct Hc as [_ Hcb]|done].
    pose proof (classWord2_layout h info code Ei Ec Hib Hcb) as E2. rewrite E2.
    autorewrite with zlen masks in *. rewrite (proj2 (Z.ltb_ge _ _)) by lia.
    rewrite (Z.mod_small oui) by lia.
    rewrite <- (assoc_L (++)), readWord_at
      by (try apply Forall_app; auto with wrapdb; lia). cbn [mbind option_bind].
    replace (zlen pre + 4) with (zlen (pre ++ encW o oui)) by (autorewrite with zlen; lia).
    rewrite (assoc_L (++) pre), readWord_at
      by (try apply Forall_app; auto with wrapdb; lia). cbn [mbind option_bind].
    autorewrite with masks. rewrite Z.shiftr_div_pow2 by lia.
    change (2 ^ 16) with 65536.
    assert (u16 ((info * 65536 + code) / 65536 mod 65536) = info) as -> by (unwrap; divmod).
    assert (u16 ((info * 65536 + code) mod 65536) = code) as -> by (unwrap; divmod).
    rewrite (Z.mod_small oui) by lia. cbn. do 2 f_equal.
  - destruct (informationClassCode h); [destruct Hi; done|].
    destruct (packetClassCode h); [destruct Hc; done|]. by rewrite app_nil_r.
Qed.

Lemma parseIntegerTimestamp_at :
  zlen pre + zlen (enc_tsi h o) <= pb ->
  parseIntegerTimestamp (pre ++ enc_tsi h o ++ r) o pb (upto 2 h) (zlen pre)
  = Some (Continue (upto 3 h) (zlen (pre ++ enc_tsi h o))).
Proof.
  intros Hpb. pose proof (wf_tsi h Hwf) as Hs. unfold opt_ok in Hs.
  unfold parseIntegerTimestamp, enc_tsi, set_integerTimestamp, upto in *. cbn [tsiType Nat.leb].
  destruct (integerTimestamp h) as [v|]; [destruct Hs as [Hs Hv]|];
    [apply negb_true_iff in Hs|apply negb_false_iff in Hs]; rewrite Hs in *.
  - autorewrite with zlen in *. rewrite (proj2 (Z.ltb_ge _ _)) by lia.
    by rewrite readWord_at.
  - by rewrite app_nil_r.
Qed.

Lemma parseFractionalTimestamp_at :
  zlen pre + zlen (enc_tsf h o) <= pb ->
  parseFractionalTimestamp (pre ++ enc_tsf h o ++ r) o pb (upto 3 h) (zlen pre)
  = Some (Continue (upto 4 h) (zlen (pre ++ enc_tsf h o))).
Proof.
  intros Hpb. pose proof (wf_tsf h Hwf) as Hs. unfold opt_ok in Hs.
  unfold parseFractionalTimestamp, enc_tsf, set_fractionalTimestamp, upto in *.
  cbn [tsfType Nat.leb].
  destruct (fractionalTimestamp h) as [v|]; [destruct Hs as [Hs Hv]|];
    [apply negb_true_iff in Hs|apply negb_false_iff in Hs]; rewrite Hs in *.
  - autorewrite with zlen in *. rewrite (proj2 (Z.ltb_ge _ _)) by lia.
    by rewrite readDWord_at.
  - by rewrite app_nil_r.
Qed.
End stages.

Lemma sizeInWords_bound h : 1 <= sizeInWords h <= 7.
Proof. unfold sizeInWords. repeat case_bool; lia. Qed.

Lemma parseOptional_at h o r pb :
  header_wf h -> bytes_ok r -> sizeInBytes h <= pb ->
  parseOptional (header_bytes h o ++ r) o pb (mandatory h)
  = Some (Continue h (sizeInBytes h)).
Proof.
  intros Hwf Hr Hpb. pose proof (zlen_header_bytes h o Hwf) as Hlen. rewrite <- Hlen in *.
  pose proof (header_bytes_ok h o) as Hok. unfold header_bytes in *.
  rewrite !Forall_app in Hok. destruct Hok as (Hk0 & Hk1 & Hk2 & Hk3 & Hk4).
  autorewrite with zlen in *.
  pose proof (zlen_nonneg (enc_streamId h o)). pose proof (zlen_nonneg (enc_classId h o)).
  pose proof (zlen_nonneg (enc_tsi h o)). pose proof (zlen_nonneg (enc_tsf h o)).
  set (w0 := encW o (buildWord0 h)) in *. unfold parseOptional.
  change (mandatory h) with (upto 0 h). rewrite <- !(assoc_L (++)).
  replace 4 with (zlen w0) at 1 by (unfold w0; by autorewrite with zlen).
  rewrite parseStreamId_at
    by (try apply Forall_app; unfold w0; autorewrite with zlen; rewrite ?Forall_app; done || lia).
  cbn [next mbind option_bind]. rewrite (assoc_L (++)), parseClassId_at
    by (unfold w0; autorewrite with zlen; rewrite ?Forall_app; done || lia).
  cbn [next mbind option_bind]. rewrite (assoc_L (++)), parseIntegerTimestamp_at
    by (unfold w0; autorewrite with zlen; rewrite ?Forall_app; done || lia).
  cbn [next mbind option_bind]. rewrite (assoc_L (++)), parseFractionalTimestamp_at
    by (unfold w0; autorewrite with zlen; rewrite ?Forall_app; done || lia).
  rewrite upto_4. unfold w0. do 2 f_equal. autorewrite with zlen. lia.
Qed.

Lemma packetBytes_small h :
  0 <= packetSize h < 65536 -> u64 (packetSize h * 4) = packetSize h * 4.
Proof. intros. apply u64_small. lia. Qed.

Lemma parse_header_bytes h o r length hb :
  header_wf h -> bytes_ok r ->
  sizeInWords h <= packetSize h -> packetSize h * 4 <= length ->
  parse (Some (header_bytes h o ++ r)) length o defaultPacketHeader hb
  = Some (true, h, sizeInBytes h).
Proof.
  intros Hwf Hr Hs Hl. pose proof (sizeInWords_bound h). pose proof (wf_size h Hwf).
  unfold parse. rewrite (proj2 (Z.ltb_ge _ _)) by lia.
  assert (readWord (header_bytes h o ++ r) 0 o = Some (buildWord0 h)) as ->.
  { unfold header_bytes. rewrite <- (assoc_L (++)). apply (readWord_at o []); [done| |].
    - pose proof (header_bytes_ok h o) as Hok. unfold header_bytes in Hok.
      rewrite !Forall_app in *. tauto.
    - by apply buildWord0_bound. }
  cbn [mbind option_bind]. rewrite parse_buildWord0 by done.
  cbn [packetSize mandatory]. unfold MAX_PACKET_SIZE_WORDS.
  rewrite (proj2 (Z.eqb_neq _ _)), (proj2 (Z.ltb_ge _ _)) by lia. cbn [orb].
  rewrite packetBytes_small by done. rewrite (proj2 (Z.ltb_ge _ _)) by lia.
  rewrite parseOptional_at by (done || unfold sizeInBytes; lia). done.
Qed.

(** * Parsing an arbitrary buffer *)

Definition fill (h : PacketHeader) (a b c d e f : option Z) : PacketHeader :=
  mkPacketHeader (packetType h) (classIdPresent h) (trailerPresent h) (tsiType h)
    (tsfType h) (packetCount h) (packetSize h) a b c d e f.

(** Bytes taken by each optional group. *)
Definition sidBytes (h : PacketHeader) : Z := if hasStreamId (packetType h) then 4 else 0.
Definition cidBytes (h : PacketHeader) : Z := if classIdPresent h then 8 else 0.
Definition tsiBytes (h : PacketHeader) : Z :=
  if bool_decide (tsiType h = TSI_None) then 0 else 4.
Definition tsfBytes (h : PacketHeader) : Z :=
  if bool_decide (tsfType h = TSF_None) then 0 else 8.

Lemma sizeInBytes_groups h :
  sizeInBytes h = 4 + sidBytes h + cidBytes h + tsiBytes h + tsfBytes h.
Proof.
  unfold sizeInBytes, sizeInWords, sidBytes, cidBytes, tsiBytes, tsfBytes.
  repeat case_bool; lia.
Qed.

Section arbitrary.
Context (m : list Z) (o : ByteOrder) (pb : Z) (Hm : bytes_ok m) (Hpb : pb <= zlen m).

Lemma parseStreamId_spec h off b c d e f :
  0 <= off <= pb ->
  if off + sidBytes h <=? pb then
    ∃ a, parseStreamId m o pb (fill h None b c d e f) off
         = Some (Continue (fill h a b c d e f) (off + sidBytes h)) /\
         opt_ok (hasStreamId (packetType h)) 4294967296 a /\
         slice m off (Z.to_nat (sidBytes h)) = Some (enc_streamId (fill h a b c d e f) o)
  else parseStreamId m o pb (fill h None b c d e f) off
       = Some (ReturnFalse (fill h None b c d e f)).
Proof.
  intros Hoff. unfold parseStreamId, sidBytes, enc_streamId, set_streamId, fill.
  cbn [packetType]. destruct (hasStreamId (packetType h)).
  - destruct (Z.leb_spec (off + 4) pb).
    + rewrite (proj2 (Z.ltb_ge _ _)) by lia.
      destruct (readWord_total o m off) as (v & Hv & Hb); [done|lia..|].
      exists (Some v). rewrite Hv. repeat split; [lia..|]. by apply readWord_slice.
    + by rewrite (proj2 (Z.ltb_lt _ _)) by lia.
  - rewrite (proj2 (Z.leb_le _ _)) by lia. exists None. rewrite Z.add_0_r. done.
Qed.

Lemma parseClassId_spec h off a e f :
  0 <= off <= pb ->
  if off + cidBytes h <=? pb then
    ∃ b c d, parseClassId m o pb (fill h a None None None e f) off
         = Some (Continue (fill h a b c d e f) (off + cidBytes h)) /\
         opt_ok (classIdPresent h) 16777216 b /\
         opt_ok (classIdPresent h) 65536 c /\ opt_ok (classIdPresent h) 65536 d /\
         ((∀ w1, readWord m off o = Some w1 -> classIdPresent h = true -> w1 < 16777216) ->
          slice m off (Z.to_nat (cidBytes h)) = Some (enc_classId (fill h a b c d e f) o))
  else parseClassId m o pb (fill h a None None None e f) off
       = Some (ReturnFalse (fill h a None None None e f)).
Proof.
  intros Hoff. unfold parseClassId, cidBytes, enc_classId, set_classId.
  cbn [fill classIdPresent classIdOUI]. destruct (classIdPresent h) eqn:Ec.
  - destruct (Z.leb_spec (off + 8) pb).
    + rewrite (proj2 (Z.ltb_ge _ _)) by lia.
      destruct (readWord_total o m off) as (w1 & Hw1 & Hb1); [done|lia..|].
      destruct (readWord_total o m (off + 4)) as (w2 & Hw2 & Hb2); [done|lia..|].
      exists (Some (w1 mod 16777216)), (Some (w2 / 65536)), (Some (w2 mod 65536)).
      rewrite Hw1, Hw2. cbn [mbind option_bind]. autorewrite with masks.
      rewrite Z.shiftr_div_pow2 by lia. change (2 ^ 16) with 65536.
      assert (u16 (w2 / 65536 mod 65536) = w2 / 65536) as -> by (unwrap; divmod).
      assert (u16 (w2 mod 65536) = w2 mod 65536) as -> by (unwrap; divmod).
      split; [unfold fill; by rewrite Ec|]. unfold opt_ok.
      split; [split; [done|]; divmod|]. split; [split; [done|]; divmod|].
      split; [split; [done|]; divmod|]. intros Htop. specialize (Htop w1 eq_refl eq_refl).
      change (Z.to_nat 8) with (4 + 4)%nat. rewrite slice_split.
      rewrite (readWord_slice o m off w1), (readWord_slice o m _ w2) by done.
      cbn [mbind option_bind]. rewrite Z.mod_mod, Z.mod_small by lia.
      rewrite (classWord2_layout _ (w2 / 65536) (w2 mod 65536)) by (done || divmod).
      do 3 f_equal. divmod.
    + by rewrite (proj2 (Z.ltb_lt _ _)) by lia.
  - rewrite (proj2 (Z.leb_le _ _)) by lia. exists None, None, None. rewrite Z.add_0_r. done.
Qed.

Lemma parseIntegerTimestamp_spec h off a b c d f :
  0 <= off <= pb ->
  if off + tsiBytes h <=? pb then
    ∃ e, parseIntegerTimestamp m o pb (fill h a b c d None f) off
         = Some (Continue (fill h a b c d e f) (off + tsiBytes h)) /\
         opt_ok (negb (bool_decide (tsiType h = TSI_None))) 4294967296 e /\
         slice m off (Z.to_nat (tsiBytes h)) = Some (enc_tsi (fill h a b c d e f) o)
  else parseIntegerTimestamp m o pb (fill h a b c d None f) off
       = Some (ReturnFalse (fill h a b c d None f)).
Proof.
  intros Hoff. unfold parseIntegerTimestamp, tsiBytes, enc_tsi, set_integerTimestamp, fill.
  cbn [tsiType]. destruct (bool_decide (tsiType h = TSI_None)).
  - rewrite (proj2 (Z.leb_le _ _)) by lia. exists None. rewrite Z.add_0_r. done.
  - destruct (Z.leb_spec (off + 4) pb).
    + rewrite (proj2 (Z.ltb_ge _ _)) by lia.
      destruct (readWord_total o m off) as (v & Hv & Hb); [done|lia..|].
      exists (Some v). rewrite Hv. repeat split; [lia..|]. by apply readWord_slice.
    + by rewrite (proj2 (Z.ltb_lt _ _)) by lia.
Qed.

Lemma parseFractionalTimestamp_spec h off a b c d e :
  0 <= off <= pb ->
  if off + tsfBytes h <=? pb then
    ∃ f, parseFractionalTimestamp m o pb (fill h a b c d e None) off
         = Some (Continue (fill h a b c d e f) (off + tsfBytes h)) /\
         opt_ok (negb (bool_decide (tsfType h = TSF_None))) 18446744073709551616 f /\
         slice m off (Z.to_nat (tsfBytes h)) = Some (enc_tsf (fill h a b c d e f) o)
  else parseFractionalTimestamp m o pb (fill h a b c d e None) off
       = Some (ReturnFalse (fill h a b c d e None)).
Proof.
  intros Hoff. unfold parseFractionalTimestamp, tsfBytes, enc_tsf, set_fractionalTimestamp, fill.
  cbn [tsfType]. destruct (bool_decide (tsfType h = TSF_None)).
  - rewrite (proj2 (Z.leb_le _ _)) by lia. exists None. rewrite Z.add_0_r. done.
  - destruct (Z.leb_spec (off + 8) pb).
    + rewrite (proj2 (Z.ltb_ge _ _)) by lia.
      destruct (readDWord_total o m off) as (v & Hv & Hb); [done|lia..|].
      exists (Some v). rewrite Hv. repeat split; [lia..|]. by apply readDWord_slice.
    + by rewrite (proj2 (Z.ltb_lt _ _)) by lia.
Qed.
End arbitrary.

Lemma group_bytes_nonneg h :
  0 <= sidBytes h /\ 0 <= cidBytes h /\ 0 <= tsiBytes h /\ 0 <= tsfBytes h.
Proof. unfold sidBytes, cidBytes, tsiBytes, tsfBytes. repeat case_bool; lia. Qed.

Lemma slice_cat m p a b x y :
  slice m p a = Some x -> slice m (p + Z.of_nat a) b = Some y ->
  slice m p (a + b) = Some (x ++ y).
Proof. intros Hx Hy. by rewrite slice_split, Hx; cbn; rewrite Hy. Qed.

(** The top byte of the first Class ID word, masked off by [parse], is zero. *)
Definition class_reserved_zero (m : list Z) (o : ByteOrder) (h : PacketHeader) : Prop :=
  ∀ w1, readWord m (4 + sidBytes h) o = Some w1 -> classIdPresent h = true -> w1 < 16777216.

Lemma parseOptional_spec m o pb h :
  bytes_ok m -> pb <= zlen m -> 4 <= pb ->
  if sizeInBytes h <=? pb then
    ∃ a b c d e f,
      parseOptional m o pb (mandatory h)
      = Some (Continue (fill h a b c d e f) (sizeInBytes h)) /\
      (opt_ok (hasStreamId (packetType h)) 4294967296 a /\
       opt_ok (classIdPresent h) 16777216 b /\ opt_ok (classIdPresent h) 65536 c /\
       opt_ok (classIdPresent h) 65536 d /\
       opt_ok (negb (bool_decide (tsiType h = TSI_None))) 4294967296 e /\
       opt_ok (negb (bool_decide (tsfType h = TSF_None))) 18446744073709551616 f) /\
      (class_reserved_zero m o h ->
       slice m 4 (Z.to_nat (sizeInBytes h - 4)) =
         Some (enc_streamId (fill h a b c d e f) o ++ enc_classId (fill h a b c d e f) o ++
               enc_tsi (fill h a b c d e f) o ++ enc_tsf (fill h a b c d e f) o))
  else ∃ h', parseOptional m o pb (mandatory h) = Some (ReturnFalse h').
Proof.
  intros Hm Hpb H4. rewrite sizeInBytes_groups. unfold parseOptional.
  change (mandatory h) with (fill h None None None None None None).
  destruct (group_bytes_nonneg h) as (Hg1 & Hg2 & Hg3 & Hg4).
  pose proof (parseStreamId_spec m o pb Hm Hpb h 4 None None None None None ltac:(lia)) as H1.
  case_match eqn:L1; bool_prop; cycle 1.
  { rewrite H1, (proj2 (Z.leb_gt _ _)) by lia. by eexists. }
  destruct H1 as (a & -> & Ha & Sa). cbn [next mbind option_bind].
  pose proof (parseClassId_spec m o pb Hm Hpb h (4 + sidBytes h) a None None ltac:(lia)) as H2.
  case_match eqn:L2; bool_prop; cycle 1.
  { rewrite H2, (proj2 (Z.leb_gt _ _)) by lia. by eexists. }
  destruct H2 as (b & c & d & -> & Hb & Hc & Hd & Sb). cbn [next mbind option_bind].
  pose proof (parseIntegerTimestamp_spec m o pb Hm Hpb h (4 + sidBytes h + cidBytes h)
    a b c d None ltac:(lia)) as H3.
  case_match eqn:L3; bool_prop; cycle 1.
  { rewrite H3, (proj2 (Z.leb_gt _ _)) by lia. by eexists. }
  destruct H3 as (e & -> & He & Se). cbn [next mbind option_bind].
  pose proof (parseFractionalTimestamp_spec m o pb Hm Hpb h
    (4 + sidBytes h + cidBytes h + tsiBytes h) a b c d e ltac:(lia)) as H5.
  case_match eqn:L4; bool_prop; cycle 1.
  { rewrite H5. by eexists. }
  destruct H5 as (f & -> & Hf & Sf). exists a, b, c, d, e, f.
  split; [done|]. split; [done|]. intros Htop. specialize (Sb Htop).
  replace (Z.to_nat _) with (Z.to_nat (sidBytes h) + (Z.to_nat (cidBytes h) +
    (Z.to_nat (tsiBytes h) + Z.to_nat (tsfBytes h))))%nat by lia.
  repeat (apply slice_cat); rewrite ?Z2Nat.id by lia; done.
Qed.

(** ** Word 0 of an arbitrary buffer *)

(** The bits [parse] ignores are zero: bits 25-24, and bit 26 of a packet that
    is not a data packet. *)
Definition word0_reserved_zero (w : Z) : Prop :=
  w / 16777216 mod 4 = 0 /\
  (isDataPacket (packetType_of_Z (w / 268435456)) = false -> w / 67108864 mod 2 = 0).

Lemma parseWord0_arith w h :
  0 <= w < 4294967296 ->
  parseWord0 w h =
    mkPacketHeader (packetType_of_Z (w / 268435456))
      (negb (w / 134217728 mod 2 =? 0))
      (isDataPacket (packetType_of_Z (w / 268435456)) && negb (w / 67108864 mod 2 =? 0))
      (tsi_of_Z (w / 4194304 mod 4)) (tsf_of_Z (w / 1048576 mod 4))
      (w / 65536 mod 16) (w mod 65536) (streamId h) (classIdOUI h)
      (informationClassCode h) (packetClassCode h) (integerTimestamp h)
      (fractionalTimestamp h).
Proof.
  intros Hw. unfold parseWord0. autorewrite with masks. rewrite !Z.shiftr_div_pow2 by lia.
  change (2 ^ 28) with 268435456. change (2 ^ 27) with 134217728.
  change (2 ^ 26) with 67108864. change (2 ^ 22) with 4194304.
  change (2 ^ 20) with 1048576. change (2 ^ 16) with 65536.
  rewrite (Z.mod_small (w / 268435456)) by divmod.
  rewrite (u8_small (w / 65536 mod 16)) by divmod.
  by rewrite (u16_small (w mod 65536)) by divmod.
Qed.

Lemma parsed_wf w a b c d e f :
  0 <= w < 4294967296 ->
  let h := parseWord0 w defaultPacketHeader in
  opt_ok (hasStreamId (packetType h)) 4294967296 a ->
  opt_ok (classIdPresent h) 16777216 b -> opt_ok (classIdPresent h) 65536 c ->
  opt_ok (classIdPresent h) 65536 d ->
  opt_ok (negb (bool_decide (tsiType h = TSI_None))) 4294967296 e ->
  opt_ok (negb (bool_decide (tsfType h = TSF_None))) 18446744073709551616 f ->
  header_wf (fill h a b c d e f).
Proof.
  intros Hw h. unfold h. rewrite parseWord0_arith by done. unfold fill.
  intros. split; cbn -[Z.div Z.modulo] in *; try done.
  - rewrite packetType_to_of by divmod. split; [divmod|done].
  - by intros [? _]%andb_true_iff.
  - divmod.
  - divmod.
Qed.

Lemma mod2_b2z x : Z.b2z (negb (x mod 2 =? 0)) = x mod 2.
Proof.
  assert (x mod 2 = 0 \/ x mod 2 = 1) as [-> | ->] by divmod; done.
Qed.

Lemma rebuild_word0 w a b c d e f :
  0 <= w < 4294967296 -> word0_reserved_zero w ->
  header_wf (fill (parseWord0 w defaultPacketHeader) a b c d e f) ->
  buildWord0 (fill (parseWord0 w defaultPacketHeader) a b c d e f) = w.
Proof.
  intros Hw [Hr Hr'] Hwf. rewrite buildWord0_layout by done. clear Hwf.
  rewrite parseWord0_arith by done. unfold fill. cbn -[Z.div Z.modulo].
  rewrite packetType_to_of, tsi_to_of, tsf_to_of by divmod.
  assert (Z.b2z (isDataPacket (packetType_of_Z (w / 268435456)) &&
    negb (w / 67108864 mod 2 =? 0)) = w / 67108864 mod 2) as ->.
  { destruct (isDataPacket _); simpl; [apply mod2_b2z|]. by rewrite Hr'. }
  rewrite mod2_b2z. clear Hr'. unfold word0_layout. divmod.
Qed.

(** ** The outcome of [parse] on any buffer of at least [length] bytes *)

(** What the code checks before it reports success. *)
Definition parse_accepts (m : list Z) (length : Z) (o : ByteOrder) : Prop :=
  4 <= length /\
  ∃ w, readWord m 0 o = Some w /\
    let h := parseWord0 w defaultPacketHeader in
    packetSize h <> 0 /\ packetSize h * 4 <= length /\ sizeInBytes h <= packetSize h * 4.

Lemma sizeInBytes_fill h a b c d e f : sizeInBytes (fill h a b c d e f) = sizeInBytes h.
Proof. done. Qed.

Lemma parse_outcome m length o hb :
  bytes_ok m -> length <= zlen m ->
  ∃ ok h hb', parse (Some m) length o defaultPacketHeader hb = Some (ok, h, hb') /\
    (ok = true <-> parse_accepts m length o) /\
    (ok = false -> hb' = hb) /\
    (ok = true ->
       header_wf h /\ hb' = sizeInBytes h /\ sizeInBytes h <= packetSize h * 4 /\
       0 < packetSize h /\ packetSize h * 4 <= length /\
       (∀ w, readWord m 0 o = Some w -> mandatory h = mandatory (parseWord0 w defaultPacketHeader)) /\
       ((∀ w, readWord m 0 o = Some w -> word0_reserved_zero w) ->
        class_reserved_zero m o h ->
        take (Z.to_nat (sizeInBytes h)) m = header_bytes h o)).
Proof.
  intros Hm Hl. unfold parse, parse_accepts.
  destruct (Z.ltb_spec length 4) as [H4|H4].
  { eexists _, _, _. split; [done|]. split; [|done]. split; [done|]. lia. }
  destruct (readWord_total o m 0) as (w & Hw & Hb); [done|lia..|].
  rewrite Hw. cbn [mbind option_bind].
  set (h := parseWord0 w defaultPacketHeader).
  assert (0 <= packetSize h < 65536) as Hsz.
  { unfold h. rewrite parseWord0_arith by done. cbn [packetSize]. divmod. }
  unfold MAX_PACKET_SIZE_WORDS. rewrite (proj2 (Z.ltb_ge 65535 _)), orb_false_r by lia.
  destruct (Z.eqb_spec (packetSize h) 0) as [E0|E0].
  { eexists _, _, _. split; [done|]. split; [|done]. split; [done|].
    intros (_ & ? & [= <-] & ? & _). done. }
  rewrite packetBytes_small by done.
  destruct (Z.ltb_spec length (packetSize h * 4)).
  { eexists _, _, _. split; [done|]. split; [|done]. split; [done|].
    intros (_ & ? & [= <-] & _ & ? & _). unfold h in *. lia. }
  pose proof (parseOptional_spec m o (packetSize h * 4) h Hm ltac:(lia) ltac:(lia)) as Hp.
  change (mandatory h) with h in Hp.
  destruct (Z.leb_spec (sizeInBytes h) (packetSize h * 4)).
  - destruct Hp as (a & b & c & d & e & f & Hp & Hok & Hbytes). rewrite Hp.
    cbn [mbind option_bind]. eexists _, _, _. split; [done|].
    split; [|split; [done|intros _]].
    { split; [|done]. intros _. split; [done|]. exists w. split; [done|]. fold h. lia. }
    assert (header_wf (fill h a b c d e f)) as Hwf.
    { destruct Hok as (?&?&?&?&?&?). by apply parsed_wf. }
    change (packetSize (fill h a b c d e f)) with (packetSize h).
    do 3 (split; [done|]). split; [lia|]. split; [lia|].
    split; [by intros w' [= <-]|]. intros Hrsv Htop.
    specialize (Hbytes Htop). specialize (Hrsv w eq_refl). rewrite sizeInBytes_fill in *.
    pose proof (readWord_slice o m 0 w Hm Hw) as Hs0.
    assert (4 <= sizeInBytes h) by (pose proof (sizeInWords_bound h); unfold sizeInBytes; lia).
    apply (inj Some).
    rewrite <- slice_0_take by lia.
    replace (Z.to_nat (sizeInBytes h)) with (4 + Z.to_nat (sizeInBytes h - 4))%nat by lia.
    unfold header_bytes. apply slice_cat; [|exact Hbytes].
    unfold h in *. by rewrite rebuild_word0.
  - destruct Hp as (h' & Hp). rewrite Hp. eexists _, _, _. split; [done|].
    split; [|done]. split; [done|]. intros (_ & ? & [= <-] & _ & _ & ?). unfold h in *; lia.
Qed.

(** * Headers built by the encoders are well-formed *)

Lemma buildHeader_wf type trailer sid count tsi tsf intTs fracTs sz :
  hasStreamId type = true -> (trailer = true -> isDataPacket type = true) ->
  0 <= sid < 4294967296 -> 0 <= intTs < 4294967296 ->
  0 <= fracTs < 18446744073709551616 -> 0 <= sz < 65536 ->
  header_wf (set_packetSize sz (buildHeader type trailer sid count tsi tsf intTs fracTs)).
Proof.
  intros Ht Htr Hs Hi Hf Hz. split; cbn -[Z.land]; try done.
  - by destruct type.
  - rewrite land_15. divmod.
  - by case_bool.
  - by case_bool.
Qed.

Lemma sizeInWords_set_packetSize sz h : sizeInWords (set_packetSize sz h) = sizeInWords h.
Proof. done. Qed.

(** The header words of a packet with a stream ID and no class ID. *)
Definition stream_header_words (tsi : TSI) (tsf : TSF) : Z :=
  2 + (if bool_decide (tsi = TSI_None) then 0 else 1)
    + (if bool_decide (tsf = TSF_None) then 0 else 2).

Lemma buildHeader_words type trailer sid count tsi tsf intTs fracTs :
  hasStreamId type = true ->
  sizeInWords (buildHeader type trailer sid count tsi tsf intTs fracTs)
  = stream_header_words tsi tsf.
Proof.
  intros Ht. unfold sizeInWords, stream_header_words. cbn. rewrite Ht.
  repeat case_bool; lia.
Qed.

Lemma stream_header_words_bound tsi tsf : 2 <= stream_header_words tsi tsf <= 5.
Proof. unfold stream_header_words. repeat case_bool; lia. Qed.

(** * Properties *)

(** C14: serializing a well-formed header appends sizeInBytes bytes to the
    output, and parsing them in the same byte order, whatever follows, gives
    the header back. *)
Theorem header_roundtrip h o out r length hb :
  header_wf h -> bytes_ok r -> sizeInWords h <= packetSize h -> packetSize h * 4 <= length ->
  ∃ bs,
    serialize h o out = Some (out ++ bs) /\ zlen bs = sizeInBytes h /\
    parse (Some (bs ++ r)) length o defaultPacketHeader hb = Some (true, h, sizeInBytes h).
Proof.
  intros. exists (header_bytes h o). split; [apply serialize_app|].
  split; [by apply zlen_header_bytes|by apply parse_header_bytes].
Qed.

(** A header with every optional group. *)
Definition sample_header : PacketHeader :=
  mkPacketHeader ExtDataWithStreamId true true TSI_GPS TSF_RealTime 9 8
    (Some 305419896) (Some 1193046) (Some 258) (Some 772) (Some 1700000000) (Some 42).

Lemma sample_header_wf : header_wf sample_header.
Proof. split; cbn; try done; lia. Qed.

Lemma header_roundtrip_witness :
  ∃ bs,
    serialize sample_header LittleEndian [7] = Some ([7] ++ bs) /\
    zlen bs = sizeInBytes sample_header /\
    parse (Some (bs ++ [0; 0; 0; 0])) 32 LittleEndian defaultPacketHeader 0
    = Some (true, sample_header, sizeInBytes sample_header).
Proof.
  apply header_roundtrip; [apply sample_header_wf| |done|done].
  repeat constructor; unfold is_byte; lia.
Defined.

(** Parsing any buffer of at least [length] bytes never loads outside it;
    it succeeds exactly when word 0 announces a non-empty packet that fits the
    buffer and holds its own header, and the header it fills is then
    well-formed. *)
Theorem header_parse_safe m length o hb :
  bytes_ok m -> length <= zlen m ->
  ∃ ok h hb', parse (Some m) length o defaultPacketHeader hb = Some (ok, h, hb') /\
    (ok = true <-> parse_accepts m length o) /\
    (ok = false -> hb' = hb) /\
    (ok = true -> header_wf h /\ hb' = sizeInBytes h /\
       4 <= hb' <= packetSize h * 4 /\ packetSize h * 4 <= length).
Proof.
  intros Hm Hl. destruct (parse_outcome m length o hb Hm Hl) as (ok & h & hb' & E & Ha & Hf & Ht).
  exists ok, h, hb'. do 3 (split; [done|]). intros Hok.
  destruct (Ht Hok) as (? & -> & ? & ? & ? & _). pose proof (sizeInWords_bound h).
  unfold sizeInBytes in *. split; [done|]. lia.
Qed.

Lemma header_parse_safe_witness :
  ∃ ok h hb', parse (Some [16; 0; 0; 2; 0; 0; 0; 1]) 8 BigEndian defaultPacketHeader 0
    = Some (ok, h, hb') /\
    (ok = true <-> parse_accepts [16; 0; 0; 2; 0; 0; 0; 1] 8 BigEndian) /\
    (ok = false -> hb' = 0) /\
    (ok = true -> header_wf h /\ hb' = sizeInBytes h /\
       4 <= hb' <= packetSize h * 4 /\ packetSize h * 4 <= 8).
Proof.
  apply header_parse_safe; [|done]. repeat constructor; unfold is_byte; lia.
Defined.

(** On a buffer whose reserved bits are zero, serializing the parsed header
    reproduces the header bytes of the buffer. *)
Theorem header_reserialize m length o h hb w0 :
  bytes_ok m -> length <= zlen m ->
  parse (Some m) length o defaultPacketHeader 0 = Some (true, h, hb) ->
  readWord m 0 o = Some w0 -> word0_reserved_zero w0 -> class_reserved_zero m o h ->
  serialize h o [] = Some (take (Z.to_nat hb) m).
Proof.
  intros Hm Hl Hp Hw Hr Hc.
  destruct (parse_outcome m length o 0 Hm Hl) as (ok & h' & hb' & E & _ & _ & Ht).
  rewrite Hp in E. injection E as <- <- <-. destruct (Ht eq_refl) as (_ & -> & _ & _ & _ & _ & H).
  rewrite H; [apply serialize_app| |done]. intros w Hw'. congruence.
Qed.

Lemma header_reserialize_witness :
  serialize (mkPacketHeader IFDataWithStreamId false true TSI_None TSF_None 3 2 (Some 1)
    None None None None None) BigEndian [] = Some (take (Z.to_nat 8) [20; 3; 0; 2; 0; 0; 0; 1]).
Proof.
  apply (header_reserialize [20; 3; 0; 2; 0; 0; 0; 1] 8 BigEndian _ _ 335740930).
  - repeat constructor; unfold is_byte; lia.
  - done.
  - vm_compute. reflexivity.
  - vm_compute. reflexivity.
  - split; [done|]. by vm_compute.
  - intros w _ H. discriminate H.
Defined.
