(* ===== verification/ContextPacket.v ===== *)
(** IF Context packets: src/libs/Vita49_2/ContextPacket.{h,cpp}.

    Fixed-point fields are converted through IEEE doubles as in the source; a
    double whose rounded value does not fit the target integer makes the cast
    undefined, so encoding is [None] there.  [decode] returns the optional
    result and the bytesConsumed out-parameter. *)

From Stdlib Require Import SpecFloat.
From S2P Require Import Prelude ByteSwap Ieee754 FloatError FixedPoint Vita49Types PacketHeader.

(** * Append helpers *)

(** [uint8_t buf[4]; writeU32..(buf, val); out.insert(out.end(), buf, buf + 4)] *)
Definition appendWord (out : list Z) (val : Z) (order : ByteOrder) : option (list Z) :=
  buf ← writeWord (replicate 4 0) 0 val order; Some (out ++ buf).

Definition appendDWord (out : list Z) (val : Z) (order : ByteOrder) : option (list Z) :=
  buf ← writeDWord (replicate 8 0) 0 val order; Some (out ++ buf).

(** * Fixed-point conversions *)

Definition freqFromFixed (raw : Z) : double := f64_div (f64_of_Z raw) FREQ_RADIX.

Definition freqToFixed (hz : double) : option Z :=
  double_to_int64 (f64_round (f64_mul hz FREQ_RADIX)).

Definition refLevelFromFixed (raw : Z) : double :=
  let val := s16 (u16 (Z.land (Z.shiftr raw 16) 0xFFFF)) in
  f64_div (f64_of_Z val) GAIN_RADIX.

Definition refLevelToFixed (dBm : double) : option Z :=
  val ← double_to_int16 (f64_round (f64_mul dBm GAIN_RADIX));
  Some (u32 (Z.shiftl (u32 (u16 val)) 16)).

Definition gainFromFixed (raw : Z) : double :=
  let stage1 := s16 (u16 (Z.land raw 0xFFFF)) in
  f64_div (f64_of_Z stage1) GAIN_RADIX.

Definition gainToFixed (dB : double) : option Z :=
  val ← double_to_int16 (f64_round (f64_mul dB GAIN_RADIX));
  Some (u32 (u16 val)).

(** * CIF0 *)

Definition CIF0_CHANGE_INDICATOR : Z := Z.shiftl 1 31.
Definition CIF0_REF_POINT_ID : Z := Z.shiftl 1 30.
Definition CIF0_BANDWIDTH : Z := Z.shiftl 1 29.
Definition CIF0_IF_REF_FREQ : Z := Z.shiftl 1 28.
Definition CIF0_RF_REF_FREQ : Z := Z.shiftl 1 27.
Definition CIF0_RF_FREQ_OFFSET : Z := Z.shiftl 1 26.
Definition CIF0_IF_BAND_OFFSET : Z := Z.shiftl 1 25.
Definition CIF0_REF_LEVEL : Z := Z.shiftl 1 24.
Definition CIF0_GAIN : Z := Z.shiftl 1 23.
Definition CIF0_OVER_RANGE : Z := Z.shiftl 1 22.
Definition CIF0_SAMPLE_RATE : Z := Z.shiftl 1 21.

Definition cif0FieldSizeWords (bit : Z) : Z :=
  match bit with
  | 31 => 0
  | 30 => 1
  | 29 => 2
  | 28 => 2
  | 27 => 2
  | 26 => 2
  | 25 => 2
  | 24 => 1
  | 23 => 1
  | 22 => 1
  | 21 => 2
  | 20 => 2
  | 19 => 1
  | 18 => 1
  | 17 => 2
  | 16 => 1
  | 15 => 2
  | _ => -1
  end.

(** * decode *)

Section decode.
Context (data : list Z) (order : ByteOrder) (cif0 packetBytes : Z).

(** [auto raw = static_cast<int64_t>(readDWord(..)); .. = freqFromFixed(raw)] *)
Definition readFreq (offset : Z) : option double :=
  raw ← readDWord data offset order; Some (freqFromFixed (s64 raw)).

(** The [switch (bit)] of the loop body; other bits are skipped. *)
Definition decodeField (bit : Z) (f : ContextFields) (offset : Z) : option ContextFields :=
  let 'mkContextFields ci rp bw ifr rf rfo ifb rl g ov sr := f in
  match bit with
  | 30 => v ← readWord data offset order;
          Some (mkContextFields ci (Some v) bw ifr rf rfo ifb rl g ov sr)
  | 29 => v ← readFreq offset;
          Some (mkContextFields ci rp (Some v) ifr rf rfo ifb rl g ov sr)
  | 28 => v ← readFreq offset;
          Some (mkContextFields ci rp bw (Some v) rf rfo ifb rl g ov sr)
  | 27 => v ← readFreq offset;
          Some (mkContextFields ci rp bw ifr (Some v) rfo ifb rl g ov sr)
  | 26 => v ← readFreq offset;
          Some (mkContextFields ci rp bw ifr rf (Some v) ifb rl g ov sr)
  | 25 => v ← readFreq offset;
          Some (mkContextFields ci rp bw ifr rf rfo (Some v) rl g ov sr)
  | 24 => raw ← readWord data offset order;
          Some (mkContextFields ci rp bw ifr rf rfo ifb (Some (refLevelFromFixed raw)) g ov sr)
  | 23 => raw ← readWord data offset order;
          Some (mkContextFields ci rp bw ifr rf rfo ifb rl (Some (gainFromFixed raw)) ov sr)
  | 22 => v ← readWord data offset order;
          Some (mkContextFields ci rp bw ifr rf rfo ifb rl g (Some v) sr)
  | 21 => v ← readFreq offset;
          Some (mkContextFields ci rp bw ifr rf rfo ifb rl g ov (Some v))
  | _ => Some f
  end.

(** [for (int bit = 30; bit >= 15; --bit)]: n iterations are left, the next
    one is for bit 14 + n.  [Some None] is [return std::nullopt]. *)
Fixpoint decodeLoop (n : nat) (f : ContextFields) (offset : Z)
    : option (option ContextFields) :=
  match n with
  | O => Some (Some f)
  | S n' =>
      let bit := 14 + Z.of_nat n in
      let mask := u32 (Z.shiftl 1 bit) in
      if Z.land cif0 mask =? 0 then decodeLoop n' f offset
      else
        let sizeWords := cif0FieldSizeWords bit in
        if sizeWords <? 0 then Some (Some f)
        else if sizeWords =? 0 then decodeLoop n' f offset
        else
          let fieldBytes := sizeWords * 4 in
          if packetBytes <? offset + fieldBytes then Some None
          else f ← decodeField bit f offset; decodeLoop n' f (offset + fieldBytes)
  end.
End decode.

Record DecodeResult : Type := mkDecodeResult {
  result_header : PacketHeader;
  result_fields : ContextFields;
}.

Definition with_changeIndicator (b : bool) (f : ContextFields) : ContextFields :=
  mkContextFields b (referencePointId f) (bandwidth f) (ifRefFrequency f)
    (rfFrequency f) (rfFreqOffset f) (ifBandOffset f) (referenceLevel f)
    (gain f) (overRangeCount f) (sampleRate f).

Definition decode (data : option (list Z)) (length : Z) (order : ByteOrder)
    (bytesConsumed : Z) : option (option DecodeResult * Z) :=
  match data with
  | None => Some (None, bytesConsumed)
  | Some m =>
      if length <? 4 then Some (None, bytesConsumed)
      else
        '(ok, header, headerBytes) ← parse data length order defaultPacketHeader 0;
        if negb ok then Some (None, bytesConsumed)
        else if negb (isContextPacket (packetType header)) then Some (None, bytesConsumed)
        else
          let packetBytes := u64 (packetSize header * 4) in
          let offset := headerBytes in
          if packetBytes <? offset + 4 then Some (None, bytesConsumed)
          else
            cif0 ← readWord m offset order;
            let fields := with_changeIndicator
              (negb (Z.land cif0 CIF0_CHANGE_INDICATOR =? 0)) defaultContextFields in
            r ← decodeLoop m order cif0 packetBytes 16 fields (offset + 4);
            match r with
            | None => Some (None, bytesConsumed)
            | Some fields => Some (Some (mkDecodeResult header fields), packetBytes)
            end
  end.

(** * encode *)

(** [if (field.has_value()) { cif0 |= MASK; append..(fieldData, ..); }] on the
    pair of the CIF0 word and the field bytes built so far. *)
Definition putWord (mask : Z) (v : option Z) (order : ByteOrder)
    (st : Z * list Z) : option (Z * list Z) :=
  match v with
  | None => Some st
  | Some w => d ← appendWord st.2 w order; Some (Z.lor st.1 mask, d)
  end.

Definition putFreq (mask : Z) (v : option double) (order : ByteOrder)
    (st : Z * list Z) : option (Z * list Z) :=
  match v with
  | None => Some st
  | Some hz => fixed ← freqToFixed hz;
               d ← appendDWord st.2 (u64 fixed) order; Some (Z.lor st.1 mask, d)
  end.

Definition putLevel (mask : Z) (toFixed : double -> option Z) (v : option double)
    (order : ByteOrder) (st : Z * list Z) : option (Z * list Z) :=
  match v with
  | None => Some st
  | Some x => raw ← toFixed x; d ← appendWord st.2 raw order; Some (Z.lor st.1 mask, d)
  end.

Definition encodeFields (f : ContextFields) (order : ByteOrder) : option (Z * list Z) :=
  let st := (if changeIndicator f then Z.lor 0 CIF0_CHANGE_INDICATOR else 0, []) in
  st ← putWord CIF0_REF_POINT_ID (referencePointId f) order st;
  st ← putFreq CIF0_BANDWIDTH (bandwidth f) order st;
  st ← putFreq CIF0_IF_REF_FREQ (ifRefFrequency f) order st;
  st ← putFreq CIF0_RF_REF_FREQ (rfFrequency f) order st;
  st ← putFreq CIF0_RF_FREQ_OFFSET (rfFreqOffset f) order st;
  st ← putFreq CIF0_IF_BAND_OFFSET (ifBandOffset f) order st;
  st ← putLevel CIF0_REF_LEVEL refLevelToFixed (referenceLevel f) order st;
  st ← putLevel CIF0_GAIN gainToFixed (gain f) order st;
  st ← putWord CIF0_OVER_RANGE (overRangeCount f) order st;
  putFreq CIF0_SAMPLE_RATE (sampleRate f) order st.

Definition encode (sid : Z) (f : ContextFields) (count : Z) (order : ByteOrder)
    (tsi : TSI) (tsf : TSF) (intTs fracTs : Z) : option (list Z) :=
  '(cif0, fieldData) ← encodeFields f order;
  let header := buildHeader IFContext false sid count tsi tsf intTs fracTs in
  let headerWords := sizeInWords header in
  let fieldWords := zlen fieldData / 4 in
  let totalWords := headerWords + 1 + fieldWords in
  if MAX_PACKET_SIZE_WORDS <? totalWords then Some []
  else
    let header := set_packetSize (u16 totalWords) header in
    out ← serialize header order [];
    out ← appendWord out cif0 order;
    Some (out ++ fieldData).

(** * Conversions: fixed-point values survive the trip through double *)

(** A double the decoder can produce for a 64-bit field, up to 53 bits, and
    for a 16-bit one. *)
Definition freq_ok (v : double) : Prop :=
  ∃ raw, - 2 ^ 53 < raw < 2 ^ 53 /\ v = freqFromFixed raw.
Definition level_ok (v : double) : Prop :=
  ∃ raw, -32768 <= raw < 32768 /\ v = f64_div (f64_of_Z raw) GAIN_RADIX.

Lemma freqToFixed_from raw :
  - 2 ^ 53 < raw < 2 ^ 53 -> freqToFixed (freqFromFixed raw) = Some raw.
Proof.
  intros. unfold freqToFixed, freqFromFixed. rewrite FREQ_RADIX_pow2.
  apply f64_fixed_roundtrip; lia.
Qed.

Lemma level_to_int16 raw :
  -32768 <= raw < 32768 ->
  double_to_int16 (f64_round (f64_mul (f64_div (f64_of_Z raw) GAIN_RADIX) GAIN_RADIX))
  = Some raw.
Proof. intros. rewrite GAIN_RADIX_pow2. apply f64_fixed_roundtrip; lia. Qed.

Lemma refLevelToFixed_from raw :
  -32768 <= raw < 32768 ->
  refLevelToFixed (f64_div (f64_of_Z raw) GAIN_RADIX) = Some (u16 raw * 65536).
Proof.
  intros. unfold refLevelToFixed. rewrite level_to_int16 by done. cbn [mbind option_bind].
  pose proof (u16_bound raw). rewrite (u32_small (u16 raw)), Z.shiftl_mul_pow2 by lia.
  by rewrite u32_small by lia.
Qed.

Lemma gainToFixed_from raw :
  -32768 <= raw < 32768 ->
  gainToFixed (f64_div (f64_of_Z raw) GAIN_RADIX) = Some (u16 raw).
Proof.
  intros. unfold gainToFixed. rewrite level_to_int16 by done. cbn [mbind option_bind].
  pose proof (u16_bound raw). by rewrite u32_small by lia.
Qed.

Lemma refLevelFromFixed_of raw :
  -32768 <= raw < 32768 ->
  refLevelFromFixed (u16 raw * 65536) = f64_div (f64_of_Z raw) GAIN_RADIX.
Proof.
  intros. unfold refLevelFromFixed. autorewrite with masks. rewrite Z.shiftr_div_pow2 by lia.
  change (2 ^ 16) with 65536. pose proof (u16_bound raw).
  rewrite Z.div_mul by lia. unfold u16 at 1. rewrite Z.mod_mod, (Z.mod_small (u16 raw)) by lia.
  by rewrite s16_u16.
Qed.

Lemma gainFromFixed_of raw :
  -32768 <= raw < 32768 ->
  gainFromFixed (u16 raw) = f64_div (f64_of_Z raw) GAIN_RADIX.
Proof.
  intros. unfold gainFromFixed. autorewrite with masks. pose proof (u16_bound raw).
  unfold u16 at 1. rewrite Z.mod_mod, (Z.mod_small (u16 raw)) by lia. by rewrite s16_u16.
Qed.

(** What the receiver of a value gets. *)
Definition level16 (x : double) : option Z := double_to_int16 (f64_round (f64_mul x GAIN_RADIX)).

Definition received_freq (hz : double) : double :=
  match freqToFixed hz with Some n => f64_div (f64_of_Z n) FREQ_RADIX | None => hz end.
Definition received_level (x : double) : double :=
  match level16 x with Some n => f64_div (f64_of_Z n) GAIN_RADIX | None => x end.

Lemma float_to_int_bound lo hi x n : lo <= 0 < hi -> float_to_int lo hi x = Some n -> lo <= n < hi.
Proof.
  intros H0 E. destruct x; cbn [float_to_int] in E; [by injection E as <-|done..|].
  cbv zeta in E. case_match eqn:Eb; [|done]. injection E as <-. apply andb_true_iff in Eb as [?%Z.leb_le ?%Z.ltb_lt]. done.
Qed.

Lemma freqToFixed_bound hz n : freqToFixed hz = Some n -> - 2 ^ 63 <= n < 2 ^ 63.
Proof. by apply float_to_int_bound. Qed.

Lemma level16_bound x n : level16 x = Some n -> -32768 <= n < 32768.
Proof. by apply (float_to_int_bound (- 2 ^ 15) (2 ^ 15)). Qed.

Lemma refLevelToFixed_level16 x n : level16 x = Some n -> refLevelToFixed x = Some (u16 n * 65536).
Proof.
  unfold level16, refLevelToFixed. intros ->. rewrite bind_ret. pose proof (u16_bound n).
  rewrite (u32_small (u16 n)), Z.shiftl_mul_pow2 by lia. by rewrite u32_small by lia.
Qed.

Lemma gainToFixed_level16 x n : level16 x = Some n -> gainToFixed x = Some (u16 n).
Proof.
  unfold level16, gainToFixed. intros ->. rewrite bind_ret. pose proof (u16_bound n).
  by rewrite u32_small by lia.
Qed.

Lemma level_castable16 x : is_Some (refLevelToFixed x) <-> is_Some (level16 x).
Proof. unfold refLevelToFixed. fold (level16 x). destruct (level16 x); cbn; split; intros; done || by destruct H. Qed.

Lemma gain_castable16 x : is_Some (gainToFixed x) <-> is_Some (level16 x).
Proof. unfold gainToFixed. fold (level16 x). destruct (level16 x); cbn; split; intros; done || by destruct H. Qed.

(** * Appending *)

Lemma appendWord_app out v o : appendWord out v o = Some (out ++ encW o v).
Proof.
  unfold appendWord.
  assert (writeWord (replicate 4 0) 0 v o = Some (encW o v)) as ->; [|done].
  exact (pushWord_app [] v o).
Qed.

Lemma appendDWord_app out v o : appendDWord out v o = Some (out ++ encD o v).
Proof.
  unfold appendDWord.
  assert (writeDWord (replicate 8 0) 0 v o = Some (encD o v)) as ->; [|done].
  exact (pushDWord_app [] v o).
Qed.

(** * What encodeFields builds *)

Definition flag (b : bool) (mask : Z) : Z := if b then mask else 0.
Definition present {A} (v : option A) : bool := match v with Some _ => true | None => false end.

Definition cif0_of (f : ContextFields) : Z :=
  let c := flag (changeIndicator f) CIF0_CHANGE_INDICATOR in
  let c := Z.lor c (flag (present (referencePointId f)) CIF0_REF_POINT_ID) in
  let c := Z.lor c (flag (present (bandwidth f)) CIF0_BANDWIDTH) in
  let c := Z.lor c (flag (present (ifRefFrequency f)) CIF0_IF_REF_FREQ) in
  let c := Z.lor c (flag (present (rfFrequency f)) CIF0_RF_REF_FREQ) in
  let c := Z.lor c (flag (present (rfFreqOffset f)) CIF0_RF_FREQ_OFFSET) in
  let c := Z.lor c (flag (present (ifBandOffset f)) CIF0_IF_BAND_OFFSET) in
  let c := Z.lor c (flag (present (referenceLevel f)) CIF0_REF_LEVEL) in
  let c := Z.lor c (flag (present (gain f)) CIF0_GAIN) in
  let c := Z.lor c (flag (present (overRangeCount f)) CIF0_OVER_RANGE) in
  Z.lor c (flag (present (sampleRate f)) CIF0_SAMPLE_RATE).

Definition word_item (v : option Z) (o : ByteOrder) : list Z :=
  match v with Some w => encW o w | None => [] end.
Definition freq_item (v : option double) (o : ByteOrder) : list Z :=
  match v ≫= freqToFixed with Some x => encD o (u64 x) | None => [] end.
Definition level_item (toFixed : double -> option Z) (v : option double) (o : ByteOrder) : list Z :=
  match v ≫= toFixed with Some x => encW o x | None => [] end.

(** The bytes field number n contributes, n = 1 for bit 30 down to n = 10 for 21. *)
Definition item (n : nat) (f : ContextFields) (o : ByteOrder) : list Z :=
  match n with
  | 1%nat => word_item (referencePointId f) o
  | 2%nat => freq_item (bandwidth f) o
  | 3%nat => freq_item (ifRefFrequency f) o
  | 4%nat => freq_item (rfFrequency f) o
  | 5%nat => freq_item (rfFreqOffset f) o
  | 6%nat => freq_item (ifBandOffset f) o
  | 7%nat => level_item refLevelToFixed (referenceLevel f) o
  | 8%nat => level_item gainToFixed (gain f) o
  | 9%nat => word_item (overRangeCount f) o
  | 10%nat => freq_item (sampleRate f) o
  | _ => []
  end.

Definition items (f : ContextFields) (o : ByteOrder) : list Z :=
  item 1 f o ++ item 2 f o ++ item 3 f o ++ item 4 f o ++ item 5 f o ++
  item 6 f o ++ item 7 f o ++ item 8 f o ++ item 9 f o ++ item 10 f o.

(** Every cast of the encoder is defined. *)
Definition castable (toFixed : double -> option Z) (v : option double) : Prop :=
  ∀ x, v = Some x -> is_Some (toFixed x).

Record encodable (f : ContextFields) : Prop := {
  enc_bandwidth : castable freqToFixed (bandwidth f);
  enc_ifRef : castable freqToFixed (ifRefFrequency f);
  enc_rf : castable freqToFixed (rfFrequency f);
  enc_rfOff : castable freqToFixed (rfFreqOffset f);
  enc_ifBand : castable freqToFixed (ifBandOffset f);
  enc_level : castable refLevelToFixed (referenceLevel f);
  enc_gain : castable gainToFixed (gain f);
  enc_rate : castable freqToFixed (sampleRate f);
}.

Lemma putWord_ok mask v o c d :
  putWord mask v o (c, d) = Some (Z.lor c (flag (present v) mask), d ++ word_item v o).
Proof.
  unfold putWord, word_item. destruct v; cbn [present flag fst snd].
  - by rewrite appendWord_app.
  - by rewrite Z.lor_0_r, app_nil_r.
Qed.

Lemma putFreq_ok mask v o c d :
  castable freqToFixed v ->
  putFreq mask v o (c, d) = Some (Z.lor c (flag (present v) mask), d ++ freq_item v o).
Proof.
  intros Hv. unfold putFreq, freq_item. destruct v as [x|]; cbn [present flag fst snd].
  - destruct (Hv x eq_refl) as [fx E]. cbn [mbind option_bind]. rewrite E.
    cbn [mbind option_bind]. by rewrite appendDWord_app.
  - by rewrite Z.lor_0_r, app_nil_r.
Qed.

Lemma putLevel_ok mask toFixed v o c d :
  castable toFixed v ->
  putLevel mask toFixed v o (c, d)
  = Some (Z.lor c (flag (present v) mask), d ++ level_item toFixed v o).
Proof.
  intros Hv. unfold putLevel, level_item. destruct v as [x|]; cbn [present flag fst snd].
  - destruct (Hv x eq_refl) as [fx E]. cbn [mbind option_bind]. rewrite E.
    cbn [mbind option_bind]. by rewrite appendWord_app.
  - by rewrite Z.lor_0_r, app_nil_r.
Qed.

Lemma encodeFields_ok f o :
  encodable f -> encodeFields f o = Some (cif0_of f, items f o).
Proof.
  intros []. unfold encodeFields.
  change (if changeIndicator f then Z.lor 0 CIF0_CHANGE_INDICATOR else 0)
    with (flag (changeIndicator f) CIF0_CHANGE_INDICATOR).
  rewrite putWord_ok. do 5 (cbn [mbind option_bind]; rewrite putFreq_ok by done).
  do 2 (cbn [mbind option_bind]; rewrite putLevel_ok by done).
  cbn [mbind option_bind]. rewrite putWord_ok. cbn [mbind option_bind].
  rewrite putFreq_ok by done. unfold cif0_of, items, item.
  by rewrite <- !(assoc_L (++)).
Qed.

(** * CIF0 bits *)

Lemma testbit_mask k i : 0 <= k -> 0 <= i -> Z.testbit (Z.shiftl 1 k) i = (k =? i).
Proof. intros. rewrite Z.shiftl_1_l. by apply Z.pow2_bits_eqb. Qed.

Lemma testbit_flag b k i :
  0 <= k -> 0 <= i -> Z.testbit (flag b (Z.shiftl 1 k)) i = b && (k =? i).
Proof.
  intros. destruct b; simpl; [by apply testbit_mask|apply Z.bits_0].
Qed.

Lemma land_mask c b :
  0 <= b < 32 -> (Z.land c (u32 (Z.shiftl 1 b)) =? 0) = negb (Z.testbit c b).
Proof.
  intros Hb. rewrite Z.shiftl_1_l, u32_small
    by (split; [lia|]; change 4294967296 with (2 ^ 32); apply Z.pow_lt_mono_r; lia).
  destruct (Z.testbit c b) eqn:E; simpl.
  - apply Z.eqb_neq. intros H. apply (f_equal (λ z, Z.testbit z b)) in H.
    rewrite Z.land_spec, E, Z.pow2_bits_true, Z.bits_0 in H by lia. done.
  - apply Z.eqb_eq, Z.bits_inj'. intros i Hi.
    rewrite Z.land_spec, Z.bits_0, Z.pow2_bits_eqb by lia.
    destruct (Z.eqb_spec b i) as [<-|]; [by rewrite E|apply andb_false_r].
Qed.

(** Whether field number n is present (0 is the change indicator). *)
Definition item_present (n : nat) (f : ContextFields) : bool :=
  match n with
  | 0%nat => changeIndicator f
  | 1%nat => present (referencePointId f)
  | 2%nat => present (bandwidth f)
  | 3%nat => present (ifRefFrequency f)
  | 4%nat => present (rfFrequency f)
  | 5%nat => present (rfFreqOffset f)
  | 6%nat => present (ifBandOffset f)
  | 7%nat => present (referenceLevel f)
  | 8%nat => present (gain f)
  | 9%nat => present (overRangeCount f)
  | 10%nat => present (sampleRate f)
  | _ => false
  end.

Lemma cif0_testbit n f :
  (n <= 16)%nat -> Z.testbit (cif0_of f) (31 - Z.of_nat n) = item_present n f.
Proof.
  intros Hn. unfold cif0_of, CIF0_CHANGE_INDICATOR, CIF0_REF_POINT_ID, CIF0_BANDWIDTH,
    CIF0_IF_REF_FREQ, CIF0_RF_REF_FREQ, CIF0_RF_FREQ_OFFSET, CIF0_IF_BAND_OFFSET,
    CIF0_REF_LEVEL, CIF0_GAIN, CIF0_OVER_RANGE, CIF0_SAMPLE_RATE.
  rewrite !Z.lor_spec, !testbit_flag by lia.
  do 17 (destruct n as [|n];
    [cbn [Z.of_nat Pos.of_succ_nat Z.sub Z.add Z.opp Z.pos_sub Pos.succ Z.eqb Pos.eqb
          Pos.pred_double Z.double Z.succ_double Z.pred_double item_present];
     rewrite ?andb_true_r, ?andb_false_r; rewrite ?orb_false_r, ?orb_false_l; done|]).
  lia.
Qed.

Lemma cif0_bound f : 0 <= cif0_of f < 4294967296.
Proof.
  assert (∀ a b, 0 <= a < 2 ^ 32 -> 0 <= b < 2 ^ 32 -> 0 <= Z.lor a b < 2 ^ 32) as Hor.
  { intros a b Ha Hb. split; [apply Z.lor_nonneg; lia|].
    destruct (decide (Z.lor a b = 0)) as [->|]; [lia|].
    apply Z.log2_lt_pow2; [pose proof (Z.lor_nonneg a b); lia|].
    rewrite Z.log2_lor by lia.
    pose proof (Z.log2_nonneg a). pose proof (Z.log2_nonneg b).
    assert (∀ x, 0 <= x < 2 ^ 32 -> Z.log2 x < 32) as Hl.
    { intros x Hx. destruct (decide (x = 0)) as [->|]; [done|]. apply Z.log2_lt_pow2; lia. }
    pose proof (Hl a Ha). pose proof (Hl b Hb). lia. }
  change 4294967296 with (2 ^ 32). unfold cif0_of.
  repeat apply Hor; unfold flag; case_bool; done.
Qed.

(** * Decoding what was encoded *)

(** Only the first n fields filled in, as after n loop iterations. *)
Definition keep (n : nat) (f : ContextFields) : ContextFields :=
  mkContextFields (changeIndicator f)
    (if (1 <=? n)%nat then referencePointId f else None)
    (if (2 <=? n)%nat then bandwidth f else None)
    (if (3 <=? n)%nat then ifRefFrequency f else None)
    (if (4 <=? n)%nat then rfFrequency f else None)
    (if (5 <=? n)%nat then rfFreqOffset f else None)
    (if (6 <=? n)%nat then ifBandOffset f else None)
    (if (7 <=? n)%nat then referenceLevel f else None)
    (if (8 <=? n)%nat then gain f else None)
    (if (9 <=? n)%nat then overRangeCount f else None)
    (if (10 <=? n)%nat then sampleRate f else None).

Definition opt_all {A} (P : A -> Prop) (v : option A) : Prop :=
  match v with Some x => P x | None => True end.

(** The fields are values the decoder can produce. *)
Record fields_ok (f : ContextFields) : Prop := {
  ok_rp : opt_all (λ v, 0 <= v < 4294967296) (referencePointId f);
  ok_bw : opt_all freq_ok (bandwidth f);
  ok_if : opt_all freq_ok (ifRefFrequency f);
  ok_rf : opt_all freq_ok (rfFrequency f);
  ok_rfo : opt_all freq_ok (rfFreqOffset f);
  ok_ifb : opt_all freq_ok (ifBandOffset f);
  ok_rl : opt_all level_ok (referenceLevel f);
  ok_g : opt_all level_ok (gain f);
  ok_ov : opt_all (λ v, 0 <= v < 4294967296) (overRangeCount f);
  ok_sr : opt_all freq_ok (sampleRate f);
}.

Lemma castable_freq v : opt_all freq_ok v -> castable freqToFixed v.
Proof.
  intros H x ->. destruct H as (raw & ? & ->). by rewrite freqToFixed_from.
Qed.

Lemma fields_ok_encodable f : fields_ok f -> encodable f.
Proof.
  intros []. split; try (by apply castable_freq).
  - intros x E. rewrite E in *. destruct ok_rl0 as (raw & ? & ->).
    by rewrite refLevelToFixed_from.
  - intros x E. rewrite E in *. destruct ok_g0 as (raw & ? & ->).
    by rewrite gainToFixed_from.
Qed.

(** The fields a receiver gets: words as they are, the others as they round. *)
Definition received (f : ContextFields) : ContextFields :=
  mkContextFields (changeIndicator f) (referencePointId f) (received_freq <$> bandwidth f)
    (received_freq <$> ifRefFrequency f) (received_freq <$> rfFrequency f) (received_freq <$> rfFreqOffset f)
    (received_freq <$> ifBandOffset f) (received_level <$> referenceLevel f) (received_level <$> gain f)
    (overRangeCount f) (received_freq <$> sampleRate f).

Definition words_ok (f : ContextFields) : Prop :=
  opt_all (λ v, 0 <= v < 4294967296) (referencePointId f) /\ opt_all (λ v, 0 <= v < 4294967296) (overRangeCount f).

Lemma received_freq_id v : opt_all freq_ok v -> received_freq <$> v = v.
Proof. destruct v; [|done]. intros (raw & ? & ->). cbn. unfold received_freq. by rewrite freqToFixed_from. Qed.

Lemma received_level_id v : opt_all level_ok v -> received_level <$> v = v.
Proof. destruct v; [|done]. intros (raw & ? & ->). cbn. unfold received_level, level16. by rewrite level_to_int16. Qed.

Lemma received_id f : fields_ok f -> received f = f.
Proof.
  intros []. unfold received. rewrite !received_freq_id, !received_level_id by done. by destruct f.
Qed.

Lemma fields_ok_words f : fields_ok f -> words_ok f.
Proof. by intros []. Qed.

Lemma present_fmap {A B} (g : A -> B) v : present (g <$> v) = present v.
Proof. by destruct v. Qed.

Lemma cif0_of_received f : cif0_of (received f) = cif0_of f.
Proof.
  unfold cif0_of, received. cbn [changeIndicator referencePointId bandwidth ifRefFrequency rfFrequency rfFreqOffset
    ifBandOffset referenceLevel gain overRangeCount sampleRate]. by rewrite !present_fmap.
Qed.

(** Reading back one item, of each shape. *)
Section read_back.
Context (o : ByteOrder) (pre r : list Z) (Hpre : bytes_ok pre) (Hr : bytes_ok r).

Lemma readFreq_item hz :
  is_Some (freqToFixed hz) ->
  readFreq (pre ++ freq_item (Some hz) o ++ r) o (zlen pre) = Some (received_freq hz).
Proof.
  intros [n E]. pose proof (freqToFixed_bound hz n E). unfold freq_item, received_freq. cbn [mbind option_bind].
  rewrite E. unfold readFreq. rewrite readDWord_at by (done || apply u64_bound). rewrite bind_ret.
  by rewrite s64_u64.
Qed.

Lemma readLevel_item x :
  is_Some (refLevelToFixed x) ->
  (raw ← readWord (pre ++ level_item refLevelToFixed (Some x) o ++ r) (zlen pre) o;
   Some (refLevelFromFixed raw)) = Some (received_level x).
Proof.
  intros [n E]%level_castable16. pose proof (level16_bound x n E). unfold level_item, received_level. rewrite E.
  cbn [mbind option_bind]. rewrite (refLevelToFixed_level16 x n E). pose proof (u16_bound n).
  rewrite readWord_at by (done || lia). cbn [mbind option_bind]. by rewrite refLevelFromFixed_of.
Qed.

Lemma readGain_item x :
  is_Some (gainToFixed x) ->
  (raw ← readWord (pre ++ level_item gainToFixed (Some x) o ++ r) (zlen pre) o;
   Some (gainFromFixed raw)) = Some (received_level x).
Proof.
  intros [n E]%gain_castable16. pose proof (level16_bound x n E). unfold level_item, received_level. rewrite E.
  cbn [mbind option_bind]. rewrite (gainToFixed_level16 x n E). pose proof (u16_bound n).
  rewrite readWord_at by (done || lia). cbn [mbind option_bind]. by rewrite gainFromFixed_of.
Qed.
End read_back.

(** One loop iteration, by the state of the CIF0 bit. *)
Lemma loop_skip m o c pb k f off :
  (k <= 15)%nat -> Z.testbit c (15 + Z.of_nat k) = false ->
  decodeLoop m o c pb (S k) f off = decodeLoop m o c pb k f off.
Proof.
  intros Hk Hb. cbn [decodeLoop]. replace (14 + Z.of_nat (S k)) with (15 + Z.of_nat k) by lia.
  by rewrite land_mask, Hb by lia.
Qed.

Lemma fieldSize_pos b : 15 <= b <= 30 -> 1 <= cif0FieldSizeWords b <= 2.
Proof.
  intros. assert (∃ n, (n < 16)%nat /\ b = 15 + Z.of_nat n) as (n & Hn & ->).
  { exists (Z.to_nat (b - 15)). lia. }
  do 16 (destruct n as [|n]; [vm_compute; split; discriminate|]). lia.
Qed.

Lemma loop_set m o c pb k f off :
  (k <= 15)%nat -> Z.testbit c (15 + Z.of_nat k) = true ->
  let sz := cif0FieldSizeWords (15 + Z.of_nat k) * 4 in
  decodeLoop m o c pb (S k) f off =
    if pb <? off + sz then Some None
    else f ← decodeField m o (15 + Z.of_nat k) f off; decodeLoop m o c pb k f (off + sz).
Proof.
  intros Hk Hb sz. cbn [decodeLoop].
  replace (14 + Z.of_nat (S k)) with (15 + Z.of_nat k) by lia.
  rewrite land_mask, Hb by lia. cbn [negb].
  pose proof (fieldSize_pos (15 + Z.of_nat k) ltac:(lia)).
  by rewrite (proj2 (Z.ltb_ge _ 0)), (proj2 (Z.eqb_neq _ 0)) by lia.
Qed.

(** The size table agrees with what the encoder appends. *)
Lemma zlen_item n f o :
  (1 <= n <= 10)%nat -> encodable f ->
  zlen (item n f o) =
    if item_present n f then cif0FieldSizeWords (31 - Z.of_nat n) * 4 else 0.
Proof.
  intros Hn [].
  assert (∀ v, zlen (word_item v o) = if present v then 4 else 0) as Ew
    by (intros []; simpl; by autorewrite with zlen).
  assert (∀ v, castable freqToFixed v -> zlen (freq_item v o) = if present v then 8 else 0) as Ef.
  { intros [x|] H; [|done]. destruct (H x eq_refl) as [y E]. unfold freq_item. cbn [mbind option_bind].
    rewrite E. by autorewrite with zlen. }
  assert (∀ g v, castable g v -> zlen (level_item g v o) = if present v then 4 else 0) as El.
  { intros g [x|] H; [|done]. destruct (H x eq_refl) as [y E]. unfold level_item. cbn [mbind option_bind].
    rewrite E. by autorewrite with zlen. }
  destruct n as [|n]; [lia|].
  do 10 (destruct n as [|n]; [cbn [item item_present]; rewrite ?Ew, ?Ef, ?El by done; done|]). lia.
Qed.

Lemma item_bytes n f o : bytes_ok (item n f o).
Proof.
  assert (∀ v, bytes_ok (word_item v o)) as Hw by (intros []; simpl; eauto with wrapdb).
  assert (∀ v, bytes_ok (freq_item v o)) as Hf
    by (intros v; unfold freq_item; case_match; eauto with wrapdb).
  assert (∀ g v, bytes_ok (level_item g v o)) as Hl
    by (intros g v; unfold level_item; case_match; eauto with wrapdb).
  destruct n as [|n]; [done|]. do 10 (destruct n as [|n]; [cbn [item]; auto|]). done.
Qed.

Section roundtrip.
Context (f : ContextFields) (o : ByteOrder) (pb : Z) (He : encodable f) (Hw : words_ok f).
#[local] Abbreviation F := (received f).

(** The loop body stores field n and no other. *)
Lemma decodeField_item n pre r :
  (1 <= n <= 10)%nat -> bytes_ok pre -> bytes_ok r -> item_present n f = true ->
  decodeField (pre ++ item n f o ++ r) o (31 - Z.of_nat n) (keep (n - 1) F) (zlen pre)
  = Some (keep n F).
Proof.
  intros Hn Hpre Hr Hp. destruct He, Hw as [ok_rp ok_ov]. unfold received.
  destruct n as [|n]; [lia|].
  do 10 (destruct n as [|n]; [
    match goal with
    | |- context [31 - Z.of_nat ?k] =>
        let b := eval vm_compute in (31 - Z.of_nat k) in change (31 - Z.of_nat k) with b
    end;
    cbn [item item_present keep decodeField Nat.sub Nat.leb changeIndicator referencePointId bandwidth ifRefFrequency
      rfFrequency rfFreqOffset ifBandOffset referenceLevel gain overRangeCount sampleRate] in *;
    match goal with
    | H : present ?v = true |- _ =>
        destruct v as [x|] eqn:E; [|done]; rewrite ?E in *; cbn [opt_all fmap option_fmap option_map] in *
    end;
    first
      [ unfold word_item; rewrite readWord_at by done
      | rewrite readFreq_item by eauto
      | pose proof (readLevel_item o pre r Hpre Hr x ltac:(eauto)) as Hx;
        destruct (readWord _ _ _) as [raw|]; [|done];
        cbn [mbind option_bind] in *; injection Hx as ->
      | pose proof (readGain_item o pre r Hpre Hr x ltac:(eauto)) as Hx;
        destruct (readWord _ _ _) as [raw|]; [|done];
        cbn [mbind option_bind] in *; injection Hx as -> ];
    unfold keep; cbn [Nat.leb mbind option_bind]; rewrite ?E; done
    |]). lia.
Qed.

Lemma loop_step n pre r :
  (1 <= n <= 10)%nat -> bytes_ok pre -> bytes_ok r ->
  zlen pre + zlen (item n f o) <= pb ->
  decodeLoop (pre ++ item n f o ++ r) o (cif0_of f) pb (17 - n) (keep (n - 1) F) (zlen pre)
  = decodeLoop (pre ++ item n f o ++ r) o (cif0_of f) pb (16 - n) (keep n F)
      (zlen (pre ++ item n f o)).
Proof.
  intros Hn Hpre Hr Hpb.
  pose proof (zlen_item n f o Hn He) as Hz. pose proof (cif0_testbit n f ltac:(lia)) as Hb.
  replace (17 - n)%nat with (S (16 - n)) by lia.
  replace (31 - Z.of_nat n) with (15 + Z.of_nat (16 - n)) in * by lia.
  destruct (item_present n f) eqn:Ep.
  - rewrite loop_set by (done || lia). rewrite (proj2 (Z.ltb_ge _ _)) by lia.
    replace (15 + Z.of_nat (16 - n)) with (31 - Z.of_nat n) in * by lia.
    rewrite decodeField_item by done. cbn [mbind option_bind].
    by rewrite zlen_app, Hz.
  - rewrite loop_skip by (done || lia). rewrite zlen_app, Hz, Z.add_0_r. f_equal.
    destruct n as [|n]; [lia|].
    do 10 (destruct n as [|n]; [cbn [item_present Nat.sub] in *; unfold keep;
      cbn [Nat.leb received changeIndicator referencePointId bandwidth ifRefFrequency rfFrequency rfFreqOffset
        ifBandOffset referenceLevel gain overRangeCount sampleRate];
      match goal with H : present ?v = false |- _ => by destruct v end|]). lia.
Qed.

(** Bits 20-15 are clear: the rest of the loop changes nothing. *)
Lemma loop_tail m off n :
  (n <= 6)%nat -> decodeLoop m o (cif0_of f) pb n F off = Some (Some F).
Proof.
  clear He Hw. induction n as [|n IH]; intros Hn; [done|].
  rewrite loop_skip; [apply IH; lia|lia|].
  replace (15 + Z.of_nat n) with (31 - Z.of_nat (16 - n)) by lia.
  rewrite cif0_testbit by lia. do 6 (destruct n as [|n]; [done|]). lia.
Qed.

End roundtrip.

Lemma keep_10 f : keep 10 f = f.
Proof. by destruct f. Qed.

Lemma items_ok f o : bytes_ok (items f o).
Proof. unfold items. rewrite !Forall_app. repeat split; apply item_bytes. Qed.

(** The whole loop over an encoded field area. *)
Lemma loop_items f o pb pre r :
  encodable f -> words_ok f -> bytes_ok pre -> bytes_ok r -> zlen pre + zlen (items f o) <= pb ->
  decodeLoop (pre ++ items f o ++ r) o (cif0_of f) pb 16 (keep 0 (received f)) (zlen pre) = Some (Some (received f)).
Proof.
  intros He Hw Hpre Hr Hpb.
  assert (∀ n pre r, bytes_ok pre -> bytes_ok r ->
    (n <= 10)%nat ->
    zlen pre + zlen (concat (map (λ i, item i f o) (seq (11 - n) n))) <= pb ->
    decodeLoop (pre ++ concat (map (λ i, item i f o) (seq (11 - n) n)) ++ r) o (cif0_of f) pb
      (6 + n) (keep (10 - n) (received f)) (zlen pre) = Some (Some (received f))) as H.
  { clear pre r Hpre Hr Hpb. induction n as [|n IH]; intros pre r Hpre Hr Hn Hpb.
    - change (10 - 0)%nat with 10%nat. rewrite keep_10. by apply loop_tail.
    - replace (seq (11 - S n) (S n)) with ((10 - n)%nat :: seq (11 - n) n) in *
        by (replace (11 - n)%nat with (S (10 - n)) by lia;
            replace (11 - S n)%nat with (10 - n)%nat by lia; done).
      cbn [map concat] in *. rewrite zlen_app in Hpb.
      pose proof (zlen_nonneg (concat (map (λ i, item i f o) (seq (11 - n) n)))).
      rewrite <- (assoc_L (++)).
      pose proof (loop_step f o pb He Hw (10 - n) pre
        (concat (map (λ i, item i f o) (seq (11 - n) n)) ++ r) ltac:(lia) Hpre) as Hs.
      replace (17 - (10 - n))%nat with (6 + S n)%nat in Hs by lia.
      replace (16 - (10 - n))%nat with (6 + n)%nat in Hs by lia.
      replace (10 - n - 1)%nat with (10 - S n)%nat in Hs by lia.
      assert (bytes_ok (concat (map (λ i, item i f o) (seq (11 - n) n)))) as Hc.
      { generalize (seq (11 - n) n). intros l. induction l; simpl; [done|].
        apply Forall_app. split; [apply item_bytes|done]. }
      rewrite Hs; [|by apply Forall_app|lia].
      rewrite (assoc_L (++)). apply IH; [|done|lia|rewrite zlen_app; lia].
      apply Forall_app. split; [done|apply item_bytes]. }
  specialize (H 10%nat pre r Hpre Hr ltac:(lia)). cbn [map concat seq Nat.sub Nat.add] in H.
  rewrite app_nil_r in H. apply H. exact Hpb.
Qed.

Lemma items_words f o :
  encodable f -> ∃ k, zlen (items f o) = 4 * k /\ 0 <= k <= 16.
Proof.
  intros He. unfold items. autorewrite with zlen. rewrite !zlen_item by (done || lia).
  match goal with |- ∃ k, ?s = _ /\ _ => exists (s / 4) end.
  repeat match goal with
  | |- context [cif0FieldSizeWords ?b] =>
      let v := eval vm_compute in (cif0FieldSizeWords b) in
      change (cif0FieldSizeWords b) with v
  end.
  assert (∀ (b : bool) k, (if b then k * 4 else 0) = 4 * (k * Z.b2z b)) as Hb
    by (intros [] ?; simpl; lia).
  rewrite !Hb. rewrite <- !Z.mul_add_distr_l, (Z.mul_comm 4), Z.div_mul by lia.
  repeat match goal with |- context [Z.b2z ?b] =>
    lazymatch goal with H : 0 <= Z.b2z b < 2 |- _ => fail | _ => pose proof (b2z_bound b) end end.
  lia.
Qed.

(** * The encoder's output *)

Section packet.
Context (sid : Z) (f : ContextFields) (count : Z) (o : ByteOrder) (tsi : TSI) (tsf : TSF).
Context (intTs fracTs : Z).

Definition context_words : Z := stream_header_words tsi tsf + 1 + zlen (items f o) / 4.

(** The header of the produced packet. *)
Definition context_header : PacketHeader :=
  set_packetSize context_words (buildHeader IFContext false sid count tsi tsf intTs fracTs).

Lemma context_words_bound : encodable f -> 3 <= context_words <= 22.
Proof.
  intros He. destruct (items_words f o He) as (k & E & Hk). unfold context_words. rewrite E.
  pose proof (stream_header_words_bound tsi tsf). rewrite Z.mul_comm, Z.div_mul by lia. lia.
Qed.

Lemma context_encode_ok :
  encodable f ->
  encode sid f count o tsi tsf intTs fracTs
  = Some (header_bytes context_header o ++ encW o (cif0_of f) ++ items f o).
Proof.
  intros He. unfold encode. rewrite encodeFields_ok by done. cbn [mbind option_bind].
  rewrite buildHeader_words by done. fold context_words.
  pose proof (context_words_bound He). unfold MAX_PACKET_SIZE_WORDS.
  rewrite (proj2 (Z.ltb_ge _ _)), u16_small by lia. fold context_header.
  rewrite serialize_app. cbn [mbind option_bind].
  rewrite appendWord_app. cbn [mbind option_bind]. by rewrite <- (assoc_L (++)).
Qed.

Lemma encode_zlen :
  encodable f -> 0 <= sid < 4294967296 -> 0 <= intTs < 4294967296 ->
  0 <= fracTs < 18446744073709551616 ->
  header_wf context_header /\
  zlen (header_bytes context_header o ++ encW o (cif0_of f) ++ items f o) = context_words * 4.
Proof.
  intros He Hs Hi Hf. pose proof (context_words_bound He) as Hb.
  assert (header_wf context_header) as Hwf by (apply buildHeader_wf; done || lia).
  split; [done|]. autorewrite with zlen. rewrite zlen_header_bytes by done.
  destruct (items_words f o He) as (k & E & Hk). unfold context_header, sizeInBytes.
  rewrite sizeInWords_set_packetSize, buildHeader_words by done. unfold context_words.
  rewrite E, (Z.mul_comm 4), Z.div_mul by lia. lia.
Qed.
End packet.

(** * decode on what encode produced *)

Lemma initial_fields f :
  with_changeIndicator (negb (Z.land (cif0_of f) CIF0_CHANGE_INDICATOR =? 0))
    defaultContextFields = keep 0 (received f).
Proof.
  assert (CIF0_CHANGE_INDICATOR = u32 (Z.shiftl 1 31)) as -> by done.
  rewrite land_mask, negb_involutive by lia.
  assert (Z.testbit (cif0_of f) 31 = changeIndicator f) as ->; [|done].
  exact (cif0_testbit 0 f ltac:(lia)).
Qed.

(** The control flow of [decode] once the header has been accepted. *)
Lemma context_decode_steps m length o bc h hb :
  4 <= length -> parse (Some m) length o defaultPacketHeader 0 = Some (true, h, hb) ->
  0 <= packetSize h < 65536 ->
  decode (Some m) length o bc =
    if negb (isContextPacket (packetType h)) then Some (None, bc)
    else if packetSize h * 4 <? hb + 4 then Some (None, bc)
    else
      cif0 ← readWord m hb o;
      r ← decodeLoop m o cif0 (packetSize h * 4) 16
            (with_changeIndicator (negb (Z.land cif0 CIF0_CHANGE_INDICATOR =? 0))
               defaultContextFields) (hb + 4);
      match r with
      | None => Some (None, bc)
      | Some fields => Some (Some (mkDecodeResult h fields), packetSize h * 4)
      end.
Proof.
  intros Hl Hp Hs. unfold decode. rewrite (proj2 (Z.ltb_ge _ _)) by lia. rewrite Hp.
  cbn [mbind option_bind negb]. by rewrite packetBytes_small.
Qed.

(** A well-formed context header followed by CIF0 and the fields decodes. *)
Lemma context_decode_layout h f o r length bc :
  encodable f -> words_ok f -> header_wf h -> bytes_ok r -> isContextPacket (packetType h) = true ->
  let pkt := header_bytes h o ++ encW o (cif0_of f) ++ items f o in
  packetSize h * 4 = zlen pkt -> zlen pkt <= length ->
  decode (Some (pkt ++ r)) length o bc = Some (Some (mkDecodeResult h (received f)), zlen pkt).
Proof.
  intros He Hw Hwf Hr Hctx pkt Hps Hl.
  pose proof (items_ok f o) as Hio. pose proof (header_bytes_ok h o) as Hho.
  pose proof (encW_bytes o (cif0_of f)) as Hco.
  pose proof (zlen_header_bytes h o Hwf) as Hhb.
  pose proof (zlen_nonneg (items f o)). pose proof (wf_size h Hwf).
  pose proof (sizeInWords_bound h).
  assert (zlen pkt = sizeInBytes h + 4 + zlen (items f o)) as Hz.
  { unfold pkt. autorewrite with zlen. lia. }
  assert (pkt ++ r = header_bytes h o ++ encW o (cif0_of f) ++ items f o ++ r) as ->.
  { unfold pkt. by rewrite <- !(assoc_L (++)). }
  clearbody pkt. unfold sizeInBytes in *.
  rewrite (context_decode_steps _ _ _ _ h (sizeInBytes h)); [|lia| |done].
  2: { apply parse_header_bytes; [done|by rewrite !Forall_app|lia..]. }
  rewrite Hctx, Hps. cbn [negb]. rewrite (proj2 (Z.ltb_ge _ _)) by (unfold sizeInBytes; lia).
  unfold sizeInBytes. rewrite <- Hhb, readWord_at by (rewrite ?Forall_app; done || apply cif0_bound).
  rewrite bind_ret, initial_fields, (assoc_L (++) (header_bytes h o)).
  pose proof (loop_items f o (zlen pkt) (header_bytes h o ++ encW o (cif0_of f)) r He Hw) as Hloop.
  rewrite zlen_app, zlen_encW in Hloop.
  by rewrite Hloop, bind_ret by (rewrite ?Forall_app; done || lia).
Qed.

Lemma context_decode_encoded sid f count o tsi tsf intTs fracTs r length bc :
  encodable f -> words_ok f -> 0 <= sid < 4294967296 -> 0 <= intTs < 4294967296 ->
  0 <= fracTs < 18446744073709551616 -> bytes_ok r ->
  ∃ pkt,
    encode sid f count o tsi tsf intTs fracTs = Some pkt /\ bytes_ok pkt /\
    zlen pkt = context_words f o tsi tsf * 4 /\
    (zlen pkt <= length ->
     decode (Some (pkt ++ r)) length o bc
     = Some (Some (mkDecodeResult (context_header sid f count o tsi tsf intTs fracTs) (received f)),
             zlen pkt)).
Proof.
  intros He Hw Hs Hi Hfr Hr.
  destruct (encode_zlen sid f count o tsi tsf intTs fracTs He Hs Hi Hfr) as [Hwf Hz].
  eexists. split; [by apply context_encode_ok|]. split.
  { rewrite !Forall_app. auto using header_bytes_ok, encW_bytes, items_ok. }
  split; [done|]. by apply context_decode_layout.
Qed.

(** * decode on an arbitrary buffer *)

(** The words the set bits 15 .. 14 + n of a CIF0 word announce. *)
Fixpoint announcedWords (n : nat) (c : Z) : Z :=
  match n with
  | O => 0
  | S n' => (if Z.testbit c (15 + Z.of_nat n') then cif0FieldSizeWords (15 + Z.of_nat n') else 0)
            + announcedWords n' c
  end.

Lemma announcedWords_nonneg n c : (n <= 16)%nat -> 0 <= announcedWords n c.
Proof.
  induction n as [|n IH]; intros; cbn [announcedWords]; [done|].
  pose proof (fieldSize_pos (15 + Z.of_nat n)). case_bool; lia.
Qed.

(** Reading a field inside the buffer succeeds and fills exactly that field. *)
Lemma decodeField_total m o n f off :
  (1 <= n <= 16)%nat -> bytes_ok m -> 0 <= off ->
  off + cif0FieldSizeWords (31 - Z.of_nat n) * 4 <= zlen m ->
  ∃ f', decodeField m o (31 - Z.of_nat n) f off = Some f' /\
    (∀ k, (k <= 10)%nat -> item_present k f' = item_present k f || (k =? n)%nat).
Proof.
  intros Hn Hm Ho Hs. destruct f as [ci rp bw ifr rf rfo ifb rl g ov sr].
  assert (off + 4 <= zlen m -> ∃ v, readWord m off o = Some v) as Hw.
  { intros. destruct (readWord_total o m off) as (v & ? & _); eauto. }
  assert (off + 8 <= zlen m -> ∃ v, readFreq m o off = Some v) as Hd.
  { intros. unfold readFreq. destruct (readDWord_total o m off) as (v & -> & _); eauto. }
  destruct n as [|n]; [lia|].
  do 16 (destruct n as [|n]; [
    match goal with
    | |- context [31 - Z.of_nat ?k] =>
        let b := eval vm_compute in (31 - Z.of_nat k) in change (31 - Z.of_nat k) with b in *
    end; cbn [decodeField cif0FieldSizeWords] in *;
    first [ destruct (Hw ltac:(lia)) as [v ->] | destruct (Hd ltac:(lia)) as [v ->] | idtac ];
    rewrite ?bind_ret; (eexists; split; [reflexivity|]);
    intros k Hk; do 11 (destruct k as [|k]; [cbn; by rewrite ?orb_false_r, ?orb_true_r|]); lia
  |]); lia.
Qed.

Lemma decodeLoop_outcome m o c pb n f off :
  (n <= 16)%nat -> bytes_ok m -> 0 <= off -> pb <= zlen m ->
  if off + 4 * announcedWords n c <=? pb then
    ∃ f', decodeLoop m o c pb n f off = Some (Some f') /\
      (∀ k, (k <= 10)%nat ->
        item_present k f' =
          item_present k f || ((17 - n <=? k)%nat && Z.testbit c (31 - Z.of_nat k)))
  else off <= pb -> decodeLoop m o c pb n f off = Some None.
Proof.
  intros Hn Hm. revert f off. induction n as [|n IH]; intros f off Ho Hp.
  - cbn [announcedWords]. case_bool; bool_prop; [|intros; lia].
    exists f. split; [done|]. intros k Hk.
    rewrite (proj2 (Nat.leb_gt _ _)) by lia. by rewrite orb_false_r.
  - cbn [announcedWords]. pose proof (announcedWords_nonneg n c ltac:(lia)).
    assert (∀ k, (17 - S n <=? k)%nat = (17 - n <=? k)%nat || (k =? 16 - n)%nat) as Ek.
    { intros k. destruct (Nat.leb_spec (17 - S n) k), (Nat.leb_spec (17 - n) k),
        (Nat.eqb_spec k (16 - n)); simpl; lia. }
    destruct (Z.testbit c (15 + Z.of_nat n)) eqn:Eb.
    + rewrite loop_set by (done || lia). pose proof (fieldSize_pos (15 + Z.of_nat n) ltac:(lia)).
      destruct (Z.ltb_spec pb (off + cif0FieldSizeWords (15 + Z.of_nat n) * 4)).
      { case_bool; bool_prop; [lia|done]. }
      replace (15 + Z.of_nat n) with (31 - Z.of_nat (16 - n)) in * by lia.
      destruct (decodeField_total m o (16 - n) f off) as (f1 & -> & Hf1); [lia|done|lia..|].
      rewrite bind_ret.
      specialize (IH ltac:(lia) f1 (off + cif0FieldSizeWords (31 - Z.of_nat (16 - n)) * 4)
        ltac:(lia) Hp).
      replace (off + 4 * (cif0FieldSizeWords (31 - Z.of_nat (16 - n)) + announcedWords n c))
        with (off + cif0FieldSizeWords (31 - Z.of_nat (16 - n)) * 4 + 4 * announcedWords n c) by lia.
      destruct (_ <=? pb); [|intros; apply IH; lia].
      destruct IH as (f' & Hf' & Hk). exists f'. split; [done|]. intros k Hk10.
      rewrite Hk, Hf1, Ek by done. rewrite <- orb_assoc. f_equal.
      destruct (Nat.eqb_spec k (16 - n)) as [->|]; simpl; [|by rewrite orb_false_r].
      by rewrite Eb, orb_true_r.
    + rewrite loop_skip by (done || lia). rewrite Z.add_0_l. specialize (IH ltac:(lia) f off Ho Hp).
      destruct (_ <=? pb); [|done]. destruct IH as (f' & Hf' & Hk). exists f'. split; [done|].
      intros k Hk10. rewrite Hk, Ek by done. f_equal.
      destruct (Nat.eqb_spec k (16 - n)) as [->|]; simpl; [|by rewrite orb_false_r].
      replace (31 - Z.of_nat (16 - n)) with (15 + Z.of_nat n) by lia.
      by rewrite Eb, !andb_false_r.
Qed.

(** ** The layout of a context packet

    The fields of bits 30 to 15, in the order they follow CIF0, with their
    lengths in words: bits 30 to 21 as ContextPacket.h lists them, 20 to 15 as
    VITA 49.2 has them (timestamp adjustment and calibration time, temperature,
    device identifier, state and event indicators, payload format). *)
Definition layout : list (Z * Z) :=
  [(30, 1); (29, 2); (28, 2); (27, 2); (26, 2); (25, 2); (24, 1); (23, 1);
   (22, 1); (21, 2); (20, 2); (19, 1); (18, 1); (17, 2); (16, 1); (15, 2)].

(** The words of the fields present whose bits are above [b]. *)
Definition wordsAbove (c b : Z) : Z :=
  foldr (λ kw n, (if (b <? kw.1) && Z.testbit c kw.1 then kw.2 else 0) + n) 0 layout.

(** The values at their places behind CIF0: frequencies in 2^-20 Hz, the reference
    level in the upper half of its word and the gain in the lower half of its
    own, both in 2^-7 dB. *)
Definition fieldsAt (m : list Z) (o : ByteOrder) (c base : Z) : ContextFields :=
  let place b := base + 4 * wordsAbove c b in
  let word b := if Z.testbit c b then readWord m (place b) o else None in
  let freq b := if Z.testbit c b
    then (λ raw, f64_div (f64_of_Z (s64 raw)) (f64_of_Z (2 ^ 20))) <$> readDWord m (place b) o else None in
  let level b (half : Z -> Z) := if Z.testbit c b
    then (λ raw, f64_div (f64_of_Z (s16 (half raw))) (f64_of_Z (2 ^ 7))) <$> readWord m (place b) o else None in
  mkContextFields (Z.testbit c 31) (word 30) (freq 29) (freq 28) (freq 27) (freq 26) (freq 25)
    (level 24 (λ raw, raw / 2 ^ 16)) (level 23 (λ raw, raw mod 2 ^ 16)) (word 22) (freq 21).

Lemma wordsAbove_step c k :
  (k <= 15)%nat ->
  wordsAbove c (14 + Z.of_nat k)
  = wordsAbove c (15 + Z.of_nat k) + (if Z.testbit c (15 + Z.of_nat k) then cif0FieldSizeWords (15 + Z.of_nat k) else 0).
Proof.
  intros Hk. unfold wordsAbove, layout. generalize (Z.testbit c). intros t.
  do 16 (destruct k as [|k]; [
    repeat match goal with |- context [?a + Z.of_nat ?i] =>
      let v := eval vm_compute in (a + Z.of_nat i) in change (a + Z.of_nat i) with v end;
    cbv -[Z.add]; lia|]). lia.
Qed.

Lemma wordsAbove_nonneg c b : 0 <= wordsAbove c b.
Proof.
  unfold wordsAbove. assert (Forall (λ kw : Z * Z, 0 <= kw.2) layout) as H by (repeat constructor; done).
  induction H as [|kw l Hkw _ IH]; cbn [foldr]; [done|]. case_bool; lia.
Qed.

Lemma wordsAbove_30 c : wordsAbove c 30 = 0.
Proof. done. Qed.

Lemma announced_above n c :
  (n <= 16)%nat -> wordsAbove c (14 + Z.of_nat n) + announcedWords n c = wordsAbove c 14.
Proof.
  induction n as [|n IH]; intros Hn; cbn [announcedWords]; [by rewrite !Z.add_0_r|].
  rewrite <- IH, (wordsAbove_step c n) by lia. replace (14 + Z.of_nat (S n)) with (15 + Z.of_nat n) by lia. lia.
Qed.

Lemma announced_layout c : announcedWords 16 c = wordsAbove c 14.
Proof. rewrite <- (announced_above 16) by lia. by rewrite wordsAbove_30. Qed.

Lemma refLevelFromFixed_half raw :
  0 <= raw < 4294967296 -> refLevelFromFixed raw = f64_div (f64_of_Z (s16 (raw / 2 ^ 16))) (f64_of_Z (2 ^ 7)).
Proof.
  intros. unfold refLevelFromFixed. autorewrite with masks. rewrite Z.shiftr_div_pow2 by lia.
  change (2 ^ 16) with 65536. rewrite (Z.mod_small (raw / 65536)), u16_small; [done|divmod..].
Qed.

Lemma gainFromFixed_half raw :
  gainFromFixed raw = f64_div (f64_of_Z (s16 (raw mod 2 ^ 16))) (f64_of_Z (2 ^ 7)).
Proof.
  unfold gainFromFixed. autorewrite with masks. change (2 ^ 16) with 65536. by rewrite u16_small by divmod.
Qed.

Section fields_at.
Context (m : list Z) (o : ByteOrder) (c base pb : Z) (Hm : bytes_ok m) (Hbase : 0 <= base) (Hpb : pb <= zlen m).
#[local] Abbreviation F := (fieldsAt m o c base).
#[local] Abbreviation place b := (base + 4 * wordsAbove c b).

(** The loop body reads the field at its place. *)
Lemma decodeField_exact n :
  (1 <= n <= 16)%nat -> Z.testbit c (31 - Z.of_nat n) = true -> 0 <= place (31 - Z.of_nat n) ->
  place (31 - Z.of_nat n) + cif0FieldSizeWords (31 - Z.of_nat n) * 4 <= zlen m ->
  decodeField m o (31 - Z.of_nat n) (keep (n - 1) F) (place (31 - Z.of_nat n)) = Some (keep n F).
Proof.
  intros Hn Hb H0 Hz.
  assert (∀ b, Z.testbit c b = true -> 0 <= place b -> place b + 4 <= zlen m ->
    ∃ v, readWord m (place b) o = Some v /\ 0 <= v < 4294967296) as Hw by (intros; by apply readWord_total).
  assert (∀ b, Z.testbit c b = true -> 0 <= place b -> place b + 8 <= zlen m ->
    ∃ v, readDWord m (place b) o = Some v) as Hd.
  { intros b Eb ? ?. destruct (readDWord_total o m (place b)) as (v & ? & _); eauto. }
  destruct n as [|n]; [lia|]. unfold keep, fieldsAt.
  do 16 (destruct n as [|n]; [
    match goal with
    | |- context [31 - Z.of_nat ?k] =>
        let b := eval vm_compute in (31 - Z.of_nat k) in change (31 - Z.of_nat k) with b in *
    end; cbn [decodeField cif0FieldSizeWords Nat.sub Nat.leb changeIndicator referencePointId bandwidth ifRefFrequency
      rfFrequency rfFreqOffset ifBandOffset referenceLevel gain overRangeCount sampleRate] in *;
    rewrite ?Hb; unfold readFreq;
    first
      [ destruct (Hw _ Hb H0 ltac:(lia)) as (v & Ev & Hv); rewrite ?Ev, ?bind_ret; cbn [fmap option_fmap option_map];
        rewrite <- ?refLevelFromFixed_half, <- ?gainFromFixed_half by done; done
      | destruct (Hd _ Hb H0 ltac:(lia)) as (v & Ev); rewrite ?Ev, ?bind_ret; done
      | done ]
  |]); lia.
Qed.

Lemma keep_absent n :
  (1 <= n <= 16)%nat -> Z.testbit c (31 - Z.of_nat n) = false -> keep n F = keep (n - 1) F.
Proof.
  intros Hn Hb. destruct n as [|n]; [lia|]. unfold keep, fieldsAt.
  do 16 (destruct n as [|n]; [
    match type of Hb with Z.testbit c (?a - Z.of_nat ?i) = _ =>
      let v := eval vm_compute in (a - Z.of_nat i) in change (a - Z.of_nat i) with v in Hb end;
    cbn [Nat.sub Nat.leb changeIndicator referencePointId bandwidth ifRefFrequency
      rfFrequency rfFreqOffset ifBandOffset referenceLevel gain overRangeCount sampleRate];
    rewrite ?Hb; done|]). lia.
Qed.

Lemma decodeLoop_exact n :
  (n <= 16)%nat -> place 14 <= pb ->
  decodeLoop m o c pb n (keep (16 - n) F) (place (14 + Z.of_nat n)) = Some (Some F).
Proof.
  intros Hn Hfit. induction n as [|n IH].
  { cbn [decodeLoop]. done. }
  pose proof (announced_above n c ltac:(lia)) as Ha. pose proof (announcedWords_nonneg n c ltac:(lia)).
  pose proof (announced_above (S n) c ltac:(lia)) as Ha'.
  pose proof (wordsAbove_step c n ltac:(lia)) as Hs.
  replace (14 + Z.of_nat (S n)) with (15 + Z.of_nat n) in * by lia.
  pose proof (wordsAbove_nonneg c (15 + Z.of_nat n)) as H0.
  specialize (IH ltac:(lia)).
  destruct (Z.testbit c (15 + Z.of_nat n)) eqn:Eb.
  - rewrite loop_set by (done || lia). pose proof (fieldSize_pos (15 + Z.of_nat n) ltac:(lia)).
    rewrite (proj2 (Z.ltb_ge _ _)) by lia.
    replace (15 + Z.of_nat n) with (31 - Z.of_nat (16 - n)) in * by lia.
    replace (16 - S n)%nat with (16 - n - 1)%nat by lia.
    rewrite decodeField_exact by (done || lia). rewrite bind_ret, <- IH. f_equal. lia.
  - rewrite loop_skip by (done || lia).
    replace (15 + Z.of_nat n) with (31 - Z.of_nat (16 - n)) in * by lia.
    replace (16 - S n)%nat with (16 - n - 1)%nat by lia.
    rewrite <- (keep_absent (16 - n)) by (done || lia). rewrite <- IH. f_equal. lia.
Qed.
End fields_at.

(** The accepted packets: a context header, room for CIF0, room for every field
    of bits 30 to 15 that CIF0 announces. *)
Definition decode_accepts (m : list Z) (length : Z) (o : ByteOrder) (h : PacketHeader)
    (cif0 : Z) : Prop :=
  isContextPacket (packetType h) = true /\
  sizeInBytes h + 4 <= packetSize h * 4 /\
  readWord m (sizeInBytes h) o = Some cif0 /\
  sizeInBytes h + 4 + 4 * wordsAbove cif0 14 <= packetSize h * 4.

Lemma context_decode_outcome m length o bc :
  bytes_ok m -> length <= zlen m ->
  ∃ res bc', decode (Some m) length o bc = Some (res, bc') /\
    match res with
    | None => bc' = bc
    | Some (mkDecodeResult h f) =>
        parse (Some m) length o defaultPacketHeader 0 = Some (true, h, sizeInBytes h) /\
        header_wf h /\ 0 < packetSize h /\
        bc' = packetSize h * 4 /\ packetSize h * 4 <= length /\
        ∃ cif0, decode_accepts m length o h cif0 /\ f = fieldsAt m o cif0 (sizeInBytes h + 4) /\
          ∀ k, (k <= 10)%nat -> item_present k f = Z.testbit cif0 (31 - Z.of_nat k)
    end /\
    (∀ h cif0, parse (Some m) length o defaultPacketHeader 0 = Some (true, h, sizeInBytes h) ->
       decode_accepts m length o h cif0 -> is_Some res).
Proof.
  intros Hm Hl.
  destruct (parse_outcome m length o 0 Hm Hl) as (ok & h & hb & Hp & Hacc & _ & Hok).
  destruct ok.
  - destruct Hok as (Hwf & -> & Hsz & Hps & Hlen & _); [done|].
    pose proof (proj1 Hacc eq_refl) as [H4 _]. pose proof (wf_size h Hwf).
    pose proof (sizeInWords_bound h) as Hsw.
    rewrite (context_decode_steps _ _ _ _ h (sizeInBytes h)) by done.
    destruct (isContextPacket (packetType h)) eqn:Hc; cbn [negb]; cycle 1.
    { eexists _, _. split; [done|]. split; [done|]. rewrite Hp. intros h' c [= <-] [? _]. congruence. }
    destruct (Z.ltb_spec (packetSize h * 4) (sizeInBytes h + 4)).
    { eexists _, _. split; [done|]. split; [done|]. rewrite Hp. intros h' c [= <-] (_ & ? & _). lia. }
    destruct (readWord_total o m (sizeInBytes h)) as (cif0 & Hr & _);
      [done|unfold sizeInBytes; lia|lia|].
    rewrite Hr, bind_ret.
    pose proof (decodeLoop_outcome m o cif0 (packetSize h * 4) 16
      (with_changeIndicator (negb (Z.land cif0 CIF0_CHANGE_INDICATOR =? 0)) defaultContextFields)
      (sizeInBytes h + 4) ltac:(lia) Hm ltac:(unfold sizeInBytes; lia) ltac:(lia)) as Hloop.
    rewrite announced_layout in Hloop.
    destruct (Z.leb_spec (sizeInBytes h + 4 + 4 * wordsAbove cif0 14) (packetSize h * 4)).
    + destruct Hloop as (f & Hlf & Hf). pose proof Hlf as Hl'. rewrite Hlf, bind_ret. eexists _, _. split; [done|].
      split; [|by intros]. do 5 (split; [done|]). exists cif0. split; [done|]. split.
      { assert (with_changeIndicator (negb (Z.land cif0 CIF0_CHANGE_INDICATOR =? 0)) defaultContextFields
          = keep 0 (fieldsAt m o cif0 (sizeInBytes h + 4))) as Ei.
        { change CIF0_CHANGE_INDICATOR with (u32 (Z.shiftl 1 31)). by rewrite land_mask, negb_involutive by lia. }
        pose proof (decodeLoop_exact m o cif0 (sizeInBytes h + 4) (packetSize h * 4) Hm ltac:(unfold sizeInBytes; lia)
          ltac:(lia) 16 ltac:(lia) ltac:(lia)) as Hx.
        change (14 + Z.of_nat 16) with 30 in Hx. rewrite wordsAbove_30, Z.mul_0_r, Z.add_0_r in Hx.
        change (16 - 16)%nat with 0%nat in Hx. rewrite <- Ei, Hl' in Hx. by injection Hx. }
      intros k Hk. rewrite Hf by done. destruct k as [|k].
      * assert (CIF0_CHANGE_INDICATOR = u32 (Z.shiftl 1 31)) as -> by done.
        rewrite land_mask, negb_involutive by lia. cbn [item_present with_changeIndicator changeIndicator].
        by rewrite orb_false_r.
      * do 10 (destruct k as [|k]; [done|]). lia.
    + rewrite Hloop by lia. rewrite bind_ret. eexists _, _. split; [done|]. split; [done|].
      rewrite Hp. intros h' c [= <-] (_ & _ & Hr' & ?). rewrite Hr in Hr'. injection Hr' as <-. lia.
  - unfold decode. destruct (Z.ltb_spec length 4).
    + eexists _, _. split; [done|]. split; [done|]. rewrite Hp. by intros.
    + rewrite Hp, bind_ret. eexists _, _. split; [done|]. split; [done|]. by intros.
Qed.

(** * decode on any packet of the encoder *)

Lemma announced_encoded f o :
  encodable f -> 4 * announcedWords 16 (cif0_of f) = zlen (items f o).
Proof.
  intros He. unfold items. autorewrite with zlen. rewrite !zlen_item by (done || lia).
  cbn [announcedWords].
  repeat match goal with |- context [Z.testbit (cif0_of f) ?b] =>
    let n := eval vm_compute in (Z.to_nat (31 - b)) in
    change (Z.testbit (cif0_of f) b) with (Z.testbit (cif0_of f) (31 - Z.of_nat n));
    rewrite (cif0_testbit n) by lia
  end.
  repeat match goal with
  | |- context [cif0FieldSizeWords ?b] =>
      let v := eval vm_compute in (cif0FieldSizeWords b) in
      change (cif0FieldSizeWords b) with v
  end.
  cbn [item_present]. repeat case_bool; lia.
Qed.

(** What the encoder accepts, exact or not, decodes as a context packet with the
    header it wrote. *)
Lemma context_decode_encodable sid f count o tsi tsf intTs fracTs r length bc pkt :
  encodable f -> 0 <= sid < 4294967296 -> 0 <= intTs < 4294967296 ->
  0 <= fracTs < 18446744073709551616 -> bytes_ok r ->
  encode sid f count o tsi tsf intTs fracTs = Some pkt ->
  zlen pkt <= length <= zlen (pkt ++ r) ->
  bytes_ok pkt /\ 12 <= zlen pkt /\
  ∃ f', decode (Some (pkt ++ r)) length o bc
    = Some (Some (mkDecodeResult (context_header sid f count o tsi tsf intTs fracTs) f'), zlen pkt).
Proof.
  intros He Hs Hi Hf Hr Henc Hl. rewrite context_encode_ok in Henc by done. injection Henc as <-.
  set (h := context_header sid f count o tsi tsf intTs fracTs).
  pose proof (context_words_bound f o tsi tsf He) as Hcw.
  destruct (encode_zlen sid f count o tsi tsf intTs fracTs He Hs Hi Hf) as [Hwf Hz]. fold h in Hwf, Hz, Hl.
  assert (bytes_ok (header_bytes h o ++ encW o (cif0_of f) ++ items f o)) as Hb.
  { rewrite !Forall_app. auto using header_bytes_ok, encW_bytes, items_ok. }
  split; [done|]. split; [lia|].
  pose proof (zlen_header_bytes h o Hwf) as Hhb. pose proof (sizeInWords_bound h).
  assert (packetSize h = context_words f o tsi tsf) as Hps by done.
  pose proof (announced_encoded f o He) as Ha. pose proof (announcedWords_nonneg 16 (cif0_of f) ltac:(lia)).
  rewrite announced_layout in *.
  autorewrite with zlen in Hz. unfold sizeInBytes in Hhb.
  set (pkt := header_bytes h o ++ _) in *.
  assert (parse (Some (pkt ++ r)) length o defaultPacketHeader 0 = Some (true, h, sizeInBytes h)) as Hp.
  { unfold pkt. rewrite <- (assoc_L (++)). apply parse_header_bytes; [done| |lia|].
    - rewrite !Forall_app. auto using encW_bytes, items_ok.
    - rewrite Hps. unfold pkt in Hl. autorewrite with zlen in Hl. lia. }
  destruct (context_decode_outcome (pkt ++ r) length o bc) as (res & bc' & -> & Hres & Hacc);
    [by apply Forall_app|lia|].
  assert (is_Some res) as [[h' f'] ->].
  { apply (Hacc h (cif0_of f) Hp). split; [done|]. unfold sizeInBytes. split; [lia|]. split; [|lia].
    unfold pkt. rewrite <- !(assoc_L (++)), <- Hhb. apply readWord_at; [apply header_bytes_ok| |apply cif0_bound].
    rewrite !Forall_app. auto using items_ok. }
  destruct Hres as (Hp' & _ & _ & -> & _). rewrite Hp in Hp'. injection Hp' as <-.
  exists f'. f_equal. f_equal. rewrite Hps. unfold pkt. autorewrite with zlen. lia.
Qed.

(** * When the encoder's casts are undefined *)

Lemma putFreq_castable mask v o st st' :
  putFreq mask v o st = Some st' -> castable freqToFixed v.
Proof.
  unfold putFreq. intros H x ->. by destruct (freqToFixed x).
Qed.

Lemma putLevel_castable mask g v o st st' :
  putLevel mask g v o st = Some st' -> castable g v.
Proof. unfold putLevel. intros H x ->. by destruct (g x). Qed.

Lemma encodeFields_encodable f o st : encodeFields f o = Some st -> encodable f.
Proof.
  unfold encodeFields. rewrite putWord_ok, bind_ret.
  repeat (intros (? & ?%putFreq_castable & H)%bind_Some; revert H).
  repeat (intros (? & ?%putLevel_castable & H)%bind_Some; revert H).
  intros (? & _ & ?%putFreq_castable)%bind_Some. done.
Qed.

(** * Values and ranges *)

#[local] Abbreviation is_double x := (valid_binary f64_prec f64_emax x = true).

(** The values C++ types admit: 32-bit words and doubles. *)
Record fields_typed (f : ContextFields) : Prop := {
  ty_rp : opt_all (λ v, 0 <= v < 4294967296) (referencePointId f);
  ty_bw : opt_all (λ x, is_double x) (bandwidth f);
  ty_if : opt_all (λ x, is_double x) (ifRefFrequency f);
  ty_rf : opt_all (λ x, is_double x) (rfFrequency f);
  ty_rfo : opt_all (λ x, is_double x) (rfFreqOffset f);
  ty_ifb : opt_all (λ x, is_double x) (ifBandOffset f);
  ty_rl : opt_all (λ x, is_double x) (referenceLevel f);
  ty_g : opt_all (λ x, is_double x) (gain f);
  ty_ov : opt_all (λ v, 0 <= v < 4294967296) (overRangeCount f);
  ty_sr : opt_all (λ x, is_double x) (sampleRate f);
}.

(** Every frequency from -2^43 Hz up to 2^43 Hz, both levels between -65537/256 dB
    and 65535/256 dB. *)
Record fields_in_range (f : ContextFields) : Prop := {
  rg_bw : opt_all (λ x, freq_in_range x = true) (bandwidth f);
  rg_if : opt_all (λ x, freq_in_range x = true) (ifRefFrequency f);
  rg_rf : opt_all (λ x, freq_in_range x = true) (rfFrequency f);
  rg_rfo : opt_all (λ x, freq_in_range x = true) (rfFreqOffset f);
  rg_ifb : opt_all (λ x, freq_in_range x = true) (ifBandOffset f);
  rg_rl : opt_all (λ x, level_in_range x = true) (referenceLevel f);
  rg_g : opt_all (λ x, level_in_range x = true) (gain f);
  rg_sr : opt_all (λ x, freq_in_range x = true) (sampleRate f);
}.

(** y is x rounded to the nearest multiple of 2^-k. *)
Definition carried_fixed (k : Z) (x y : double) : Prop :=
  ∃ n, nearest x k n /\ y = f64_div (f64_of_Z n) (f64_of_Z (2 ^ k)).

Record carried_fields (f f' : ContextFields) : Prop := {
  cr_ci : changeIndicator f' = changeIndicator f;
  cr_rp : referencePointId f' = referencePointId f;
  cr_bw : option_Forall2 (carried_fixed 20) (bandwidth f) (bandwidth f');
  cr_if : option_Forall2 (carried_fixed 20) (ifRefFrequency f) (ifRefFrequency f');
  cr_rf : option_Forall2 (carried_fixed 20) (rfFrequency f) (rfFrequency f');
  cr_rfo : option_Forall2 (carried_fixed 20) (rfFreqOffset f) (rfFreqOffset f');
  cr_ifb : option_Forall2 (carried_fixed 20) (ifBandOffset f) (ifBandOffset f');
  cr_rl : option_Forall2 (carried_fixed 7) (referenceLevel f) (referenceLevel f');
  cr_g : option_Forall2 (carried_fixed 7) (gain f) (gain f');
  cr_ov : overRangeCount f' = overRangeCount f;
  cr_sr : option_Forall2 (carried_fixed 20) (sampleRate f) (sampleRate f');
}.

Lemma freqToFixed_rounded x : is_double x -> freqToFixed x = to_range (- 2 ^ 63) (2 ^ 63) (rounded x 20).
Proof. intros. unfold freqToFixed. rewrite FREQ_RADIX_pow2. by apply fixed_of_double. Qed.

Lemma level16_rounded x : is_double x -> level16 x = to_range (- 2 ^ 15) (2 ^ 15) (rounded x 7).
Proof. intros. unfold level16. rewrite GAIN_RADIX_pow2. by apply fixed_of_double. Qed.

Lemma to_range_inv lo hi v n : to_range lo hi v = Some n -> v = Some n.
Proof. destruct v as [n'|]; [|done]. cbn. by case_match; intros [= <-]. Qed.

Lemma freq_castable v :
  opt_all (λ x, is_double x) v -> castable freqToFixed v <-> opt_all (λ x, freq_in_range x = true) v.
Proof.
  unfold castable. destruct v as [x|]; cbn [opt_all]; [|by split]. intros Hx.
  rewrite <- freq_range, <- freqToFixed_rounded by done. split; [by intros H; apply H|by intros H ? [= <-]].
Qed.

Lemma level_castable toFixed v :
  (∀ x, is_Some (toFixed x) <-> is_Some (level16 x)) ->
  opt_all (λ x, is_double x) v -> castable toFixed v <-> opt_all (λ x, level_in_range x = true) v.
Proof.
  unfold castable. intros Ht. destruct v as [x|]; cbn [opt_all]; [|by split]. intros Hx.
  rewrite <- level_range, <- level16_rounded, <- Ht by done. split; [by intros H; apply H|by intros H ? [= <-]].
Qed.

Lemma encodable_in_range f : fields_typed f -> encodable f <-> fields_in_range f.
Proof.
  intros []. pose proof (level_castable refLevelToFixed _ level_castable16 ty_rl0).
  pose proof (level_castable gainToFixed _ gain_castable16 ty_g0).
  split; intros []; split; by (apply freq_castable || tauto).
Qed.

Lemma received_freq_carried v :
  opt_all (λ x, is_double x) v -> castable freqToFixed v -> option_Forall2 (carried_fixed 20) v (received_freq <$> v).
Proof.
  unfold castable. destruct v as [x|]; [|constructor]. intros Hx Hc. constructor. destruct (Hc x eq_refl) as [n E].
  exists n. unfold received_freq. rewrite E. split; [|done].
  apply rounded_nearest. rewrite freqToFixed_rounded in E by done. by eapply to_range_inv.
Qed.

Lemma received_level_carried toFixed v :
  (∀ x, is_Some (toFixed x) <-> is_Some (level16 x)) ->
  opt_all (λ x, is_double x) v -> castable toFixed v -> option_Forall2 (carried_fixed 7) v (received_level <$> v).
Proof.
  unfold castable. intros Ht. destruct v as [x|]; [|constructor]. intros Hx Hc. constructor.
  destruct (proj1 (Ht x) (Hc x eq_refl)) as [n E]. exists n. unfold received_level. rewrite E. split; [|done].
  apply rounded_nearest. rewrite level16_rounded in E by done. by eapply to_range_inv.
Qed.

Lemma received_carried f : fields_typed f -> encodable f -> carried_fields f (received f).
Proof.
  intros [] []. split; try done; try (by apply received_freq_carried).
  - by apply (received_level_carried refLevelToFixed); [apply level_castable16|..].
  - by apply (received_level_carried gainToFixed); [apply gain_castable16|..].
Qed.

Lemma fields_typed_words f : fields_typed f -> words_ok f.
Proof. by intros []. Qed.

(** * Properties *)

(** C12: context fields through encoding and decoding.  When every value is in
    range the packet is encoded; decoding it, with any bytes behind it, gives the
    header back, consumes the packet, and fills exactly the fields given: words as
    they were, frequencies rounded to the nearest 2^-20 Hz, levels to the nearest
    2^-7 dB.  Values that are such multiples already come back unchanged. *)
Theorem context_roundtrip sid f count o tsi tsf intTs fracTs r length bc :
  fields_typed f -> fields_in_range f -> 0 <= sid < 4294967296 -> 0 <= intTs < 4294967296 ->
  0 <= fracTs < 18446744073709551616 -> bytes_ok r ->
  ∃ pkt f',
    encode sid f count o tsi tsf intTs fracTs = Some pkt /\
    12 <= zlen pkt <= 88 /\
    carried_fields f f' /\ (fields_ok f -> f' = f) /\
    (zlen pkt <= length ->
     decode (Some (pkt ++ r)) length o bc
     = Some (Some (mkDecodeResult
          (set_packetSize (zlen pkt / 4)
             (buildHeader IFContext false sid count tsi tsf intTs fracTs)) f'), zlen pkt)).
Proof.
  intros Ht He%encodable_in_range Hs Hi Hfr Hr; [|done].
  destruct (context_decode_encoded sid f count o tsi tsf intTs fracTs r length bc He (fields_typed_words f Ht) Hs Hi Hfr Hr)
    as (pkt & Hp & _ & Hz & Hd).
  pose proof (context_words_bound f o tsi tsf He).
  exists pkt, (received f). split; [done|]. split; [lia|]. split; [by apply received_carried|].
  split; [apply received_id|]. by rewrite Hz, Z.div_mul, <- Hz by lia.
Qed.

(** 0.1 Hz and 0.1 dB are between two multiples. *)
Definition tenth : double := S754_finite false 7205759403792794 (-56).

Definition rough_fields : ContextFields :=
  mkContextFields true (Some 7) (Some tenth) None (Some (f64_of_Z 2400000000)) None (Some (SFopp tenth))
    (Some (f64_of_Z (-256))) (Some tenth) (Some 3) None.

Lemma rough_fields_typed : fields_typed rough_fields.
Proof. by split; cbn [opt_all rough_fields]. Qed.

Lemma rough_fields_in_range : fields_in_range rough_fields.
Proof. split; by vm_compute. Qed.

Lemma context_roundtrip_witness :
  ∃ pkt f',
    encode 5 rough_fields 3 BigEndian TSI_UTC TSF_None 1000 0 = Some pkt /\
    12 <= zlen pkt <= 88 /\
    carried_fields rough_fields f' /\ (fields_ok rough_fields -> f' = rough_fields) /\
    (zlen pkt <= 100 ->
     decode (Some (pkt ++ [1; 2])) 100 BigEndian 0
     = Some (Some (mkDecodeResult
          (set_packetSize (zlen pkt / 4)
             (buildHeader IFContext false 5 3 TSI_UTC TSF_None 1000 0)) f'),
             zlen pkt)).
Proof.
  apply context_roundtrip; [apply rough_fields_typed|apply rough_fields_in_range|lia..|].
  repeat constructor; unfold is_byte; lia.
Defined.

(** C13: decoding any buffer of at least [length] bytes is defined; it succeeds
    exactly on a context packet with room for CIF0 and for the fields of bits 30
    to 15 that CIF0 announces, at the lengths of [layout], and otherwise leaves
    bytesConsumed untouched.  Each field is then the value at its place: present
    exactly when announced, behind the fields of all higher bits.  Bits 14 to 8
    take no part, whether announced or not. *)
Theorem context_decode_safe m length o bc :
  bytes_ok m -> length <= zlen m ->
  ∃ res bc', decode (Some m) length o bc = Some (res, bc') /\
    match res with
    | None => bc' = bc
    | Some (mkDecodeResult h f) =>
        parse (Some m) length o defaultPacketHeader 0 = Some (true, h, sizeInBytes h) /\
        bc' = packetSize h * 4 /\ 0 < bc' <= length /\
        ∃ cif0, decode_accepts m length o h cif0 /\ f = fieldsAt m o cif0 (sizeInBytes h + 4) /\
          ∀ k, (k <= 10)%nat -> item_present k f = Z.testbit cif0 (31 - Z.of_nat k)
    end /\
    (∀ h cif0, parse (Some m) length o defaultPacketHeader 0 = Some (true, h, sizeInBytes h) ->
       decode_accepts m length o h cif0 -> is_Some res).
Proof.
  intros Hm Hl. destruct (context_decode_outcome m length o bc Hm Hl) as (res & bc' & E & H & Hc).
  exists res, bc'. split; [done|]. split; [|done].
  destruct res as [[h f]|]; [|done]. destruct H as (? & _ & ? & ? & ? & ?).
  do 2 (split; [done|]). split; [lia|done].
Qed.

(** A sample rate, and the unsupported field of bit 20 behind it. *)
Definition sample_packet : list Z :=
  [64; 0; 0; 7; 0; 0; 0; 5; 0; 48; 0; 0; 0; 0; 0; 0; 0; 16; 0; 0; 1; 2; 3; 4; 5; 6; 7; 8].

Lemma context_decode_safe_witness :
  ∃ res bc', decode (Some sample_packet) 28 BigEndian 9 = Some (res, bc') /\
    match res with
    | None => bc' = 9
    | Some (mkDecodeResult h f) =>
        parse (Some sample_packet) 28 BigEndian defaultPacketHeader 0 = Some (true, h, sizeInBytes h) /\
        bc' = packetSize h * 4 /\ 0 < bc' <= 28 /\
        ∃ cif0, decode_accepts sample_packet 28 BigEndian h cif0 /\
          f = fieldsAt sample_packet BigEndian cif0 (sizeInBytes h + 4) /\
          ∀ k, (k <= 10)%nat -> item_present k f = Z.testbit cif0 (31 - Z.of_nat k)
    end /\
    (∀ h cif0, parse (Some sample_packet) 28 BigEndian
         defaultPacketHeader 0 = Some (true, h, sizeInBytes h) ->
       decode_accepts sample_packet 28 BigEndian h cif0 -> is_Some res).
Proof.
  apply context_decode_safe; [|done]. repeat constructor; unfold is_byte; lia.
Defined.

(** One hertz, and the other field is stepped over. *)
Example sample_packet_decodes :
  ('(r, _) ← decode (Some sample_packet) 28 BigEndian 0; Some (option_map result_fields r))
  = Some (Some (mkContextFields false None None None None None None None None None (Some (f64_of_Z 1)))).
Proof. vm_compute. reflexivity. Qed.

(** C33: encoding is defined exactly when every frequency is at least -2^43 Hz
    and below 2^43 Hz and both levels are between -65537/256 dB and 65535/256 dB;
    outside, and for infinities and NaNs, the float-to-integer cast is undefined,
    which no check prevents. *)
Theorem context_encode_defined sid f count o tsi tsf intTs fracTs :
  fields_typed f ->
  is_Some (encode sid f count o tsi tsf intTs fracTs) <-> fields_in_range f.
Proof.
  intros Ht. rewrite <- encodable_in_range by done.
  split; [|intros He; rewrite context_encode_ok by done; done].
  intros [out H]. unfold encode in H. apply bind_Some in H as ([c d] & H & _).
  by eapply encodeFields_encodable.
Qed.

Lemma context_encode_defined_witness :
  is_Some (encode 5 rough_fields 3 BigEndian TSI_UTC TSF_None 1000 0) <-> fields_in_range rough_fields.
Proof. apply context_encode_defined, rough_fields_typed. Defined.

(** 300 dB of gain is a value the encoder cannot convert. *)
Example gain_300_undefined : gainToFixed (f64_of_Z 300) = None.
Proof. vm_compute. reflexivity. Qed.
