(* ===== verification/SignalDataPacket.v ===== *)
(** IF Data packets with 16-bit I/Q samples: src/libs/Vita49_2/SignalDataPacket.{h,cpp}.

    [decode] returns the optional result and the bytesConsumed out-parameter,
    [encode] the packet bytes; [None] is undefined behaviour.  The value
    [std::lroundf] returns when the rounded value does not fit a long, or the
    argument is not finite, is unspecified: a parameter of the encoder. *)

From Stdlib Require Import SpecFloat.
From S2P Require Import Prelude ByteSwap Ieee754 FloatError Vita49Types PacketHeader.

(** * decode *)

Record DecodeResult : Type := mkDecodeResult {
  result_header : PacketHeader;
  result_samples : IQSamples;
}.

(** The two arms of [if (order == ByteOrder::BigEndian)] in the loops. *)
Definition readI16 (m : list Z) (p : Z) (order : ByteOrder) : option Z :=
  match order with BigEndian => readI16BE m p | LittleEndian => readI16LE m p end.

Definition writeI16 (m : list Z) (p val : Z) (order : ByteOrder) : option (list Z) :=
  match order with BigEndian => writeI16BE m p val | LittleEndian => writeI16LE m p val end.

(** [for (size_t i = ..; i < numSamples; ++i)] with n iterations left. *)
Fixpoint decodeSamples (data : list Z) (order : ByteOrder) (headerBytes : Z)
    (invScale : float) (n : nat) (i : Z) : option IQSamples :=
  match n with
  | O => Some []
  | S n =>
      let word := headerBytes + i * 4 in
      iVal ← readI16 data word order;
      qVal ← readI16 data (word + 2) order;
      rest ← decodeSamples data order headerBytes invScale n (i + 1);
      Some ((f32_mul (f32_of_Z iVal) invScale, f32_mul (f32_of_Z qVal) invScale) :: rest)
  end.

Definition decode (data : option (list Z)) (length : Z) (order : ByteOrder)
    (scaleFactor : float) (bytesConsumed : Z) : option (option DecodeResult * Z) :=
  match data with
  | None => Some (None, bytesConsumed)
  | Some m =>
      if (length <? 4) || SFeqb scaleFactor (S754_zero false) then Some (None, bytesConsumed)
      else
        '(ok, header, headerBytes) ← parse data length order defaultPacketHeader 0;
        if negb ok then Some (None, bytesConsumed)
        else if negb (isDataPacket (packetType header)) then Some (None, bytesConsumed)
        else
          let packetBytes := u64 (packetSize header * 4) in
          let trailerBytes := if trailerPresent header then 4 else 0 in
          if packetBytes <? headerBytes + trailerBytes then Some (None, bytesConsumed)
          else
            let payloadBytes := packetBytes - headerBytes - trailerBytes in
            let numSamples := payloadBytes / 4 in
            let invScale := f32_div (f32_of_Z 1) scaleFactor in
            samples ← decodeSamples m order headerBytes invScale (Z.to_nat numSamples) 0;
            Some (Some (mkDecodeResult header samples), packetBytes)
  end.

(** * encode *)

(** [std::clamp(raw, -32768, 32767)] *)
Definition clamp (v lo hi : Z) : Z := if v <? lo then lo else if hi <? v then hi else v.

Section encode.
Context (lround_unspecified : float -> Z).

Definition std_lroundf (x : float) : Z :=
  match lroundf x with Some v => v | None => lround_unspecified x end.

(** [static_cast<int16_t>(std::clamp(static_cast<int>(std::lroundf(x * scale)), ..))] *)
Definition quantize (x scaleFactor : float) : Z :=
  let raw := s32 (std_lroundf (f32_mul x scaleFactor)) in
  s16 (clamp raw (-32768) 32767).

(** One iteration of the payload loop. *)
Definition encodeSample (order : ByteOrder) (scaleFactor : float) (out : list Z)
    (sample : IQSample) : option (list Z) :=
  let i16 := quantize sample.1 scaleFactor in
  let q16 := quantize sample.2 scaleFactor in
  word ← writeI16 (replicate 4 0) 0 i16 order;
  word ← writeI16 word 2 q16 order;
  Some (out ++ word).

Fixpoint encodeSamples (order : ByteOrder) (scaleFactor : float) (out : list Z)
    (samples : IQSamples) : option (list Z) :=
  match samples with
  | [] => Some out
  | s :: rest => out ← encodeSample order scaleFactor out s; encodeSamples order scaleFactor out rest
  end.

Definition encode (sid : Z) (samples : IQSamples) (count : Z) (order : ByteOrder)
    (scaleFactor : float) (tsi : TSI) (tsf : TSF) (intTs fracTs : Z)
    (includeTrailer : bool) : option (list Z) :=
  let header := buildHeader IFDataWithStreamId includeTrailer sid count tsi tsf intTs fracTs in
  let headerWords := sizeInWords header in
  let trailerWords := if includeTrailer then 1 else 0 in
  let payloadWords := zlen samples in
  let totalWords := u64 (headerWords + payloadWords + trailerWords) in
  if MAX_PACKET_SIZE_WORDS <? totalWords then Some []
  else
    let header := set_packetSize (u16 totalWords) header in
    out ← serialize header order [];
    out ← encodeSamples order scaleFactor out samples;
    Some (if includeTrailer then out ++ [0] ++ [0] ++ [0] ++ [0] else out).

(** * The payload bytes *)

Definition enc16 (order : ByteOrder) (v : Z) : list Z :=
  match order with BigEndian => be_bytes 2 (u16 v) | LittleEndian => le_bytes 2 (u16 v) end.

Definition sample_bytes (order : ByteOrder) (scaleFactor : float) (s : IQSample) : list Z :=
  enc16 order (quantize s.1 scaleFactor) ++ enc16 order (quantize s.2 scaleFactor).

Definition payload_bytes (order : ByteOrder) (scaleFactor : float) (samples : IQSamples) : list Z :=
  concat (sample_bytes order scaleFactor <$> samples).
End encode.

(** * maxSamplesPerPacket *)

Definition maxSamplesPerPacket (tsi : TSI) (tsf : TSF) (classIdPresent includeTrailer : bool) : Z :=
  let headerWords := 2 in
  let headerWords := if classIdPresent then headerWords + 2 else headerWords in
  let headerWords := if bool_decide (tsi = TSI_None) then headerWords else headerWords + 1 in
  let headerWords := if bool_decide (tsf = TSF_None) then headerWords else headerWords + 2 in
  let trailerWords := if includeTrailer then 1 else 0 in
  let overhead := headerWords + trailerWords in
  if MAX_PACKET_SIZE_WORDS <=? overhead then 0 else MAX_PACKET_SIZE_WORDS - overhead.

(** * 16-bit accesses through the codec interface *)

Lemma length_enc16 o v : length (enc16 o v) = 2%nat.
Proof. by destruct o. Qed.

Lemma zlen_enc16 o v : zlen (enc16 o v) = 2.
Proof. unfold zlen. by rewrite length_enc16. Qed.

#[export] Hint Rewrite zlen_enc16 : zlen.

Lemma enc16_bytes o v : bytes_ok (enc16 o v).
Proof. destruct o; unfold enc16; [apply (codec_bytes (rd:=readU16BE))|apply (codec_bytes (rd:=readU16LE))]. Qed.

#[export] Hint Resolve enc16_bytes : wrapdb.

Lemma writeI16_bytes m p v o : writeI16 m p v o = write_bytes m p (enc16 o v).
Proof.
  destruct o; unfold enc16, writeI16, writeI16BE, writeI16LE;
    [apply (codec_wr (rd:=readU16BE))|apply (codec_wr (rd:=readU16LE))].
Qed.

Lemma readI16_at o l v r :
  bytes_ok l -> bytes_ok r -> -32768 <= v < 32768 ->
  readI16 (l ++ enc16 o v ++ r) (zlen l) o = Some v.
Proof. intros. destruct o; [by apply readI16BE_at|by apply readI16LE_at]. Qed.

Lemma readI16_total o m p :
  bytes_ok m -> 0 <= p -> p + 2 <= zlen m ->
  ∃ v, readI16 m p o = Some v /\ -32768 <= v < 32768 /\ slice m p 2 = Some (enc16 o v).
Proof.
  intros Hm Hp Hl.
  assert (∀ w, 0 <= w < 256 ^ Z.of_nat 2 -> u16 (s16 w) = w) as Hw.
  { intros w Hw. rewrite u16_s16. by apply u16_small. }
  destruct o; unfold readI16, readI16BE, readI16LE, enc16.
  - destruct (codec_read_total (n:=2%nat) (rd:=readU16BE) m p) as (w & E & Hb); [done..|].
    rewrite E. cbn [mbind option_bind fmap option_fmap option_map].
    exists (s16 w). split; [done|]. split; [apply s16_bound|].
    rewrite Hw by done. by apply (codec_read_slice (rd:=readU16BE)).
  - destruct (codec_read_total (n:=2%nat) (rd:=readU16LE) m p) as (w & E & Hb); [done..|].
    rewrite E. cbn [mbind option_bind fmap option_fmap option_map].
    exists (s16 w). split; [done|]. split; [apply s16_bound|].
    rewrite Hw by done. by apply (codec_read_slice (rd:=readU16LE)).
Qed.

(** * Raw samples

    The int16 pairs a payload holds, and the complex float each stands for. *)

Definition raw_ok (rw : Z * Z) : Prop :=
  (-32768 <= rw.1 < 32768) /\ (-32768 <= rw.2 < 32768).

Definition raw_bytes (o : ByteOrder) (rw : Z * Z) : list Z := enc16 o rw.1 ++ enc16 o rw.2.

Definition raw_payload (o : ByteOrder) (raws : list (Z * Z)) : list Z :=
  concat (raw_bytes o <$> raws).

Definition to_sample (invScale : float) (rw : Z * Z) : IQSample :=
  (f32_mul (f32_of_Z rw.1) invScale, f32_mul (f32_of_Z rw.2) invScale).

Lemma zlen_raw_bytes o rw : zlen (raw_bytes o rw) = 4.
Proof. unfold raw_bytes. by autorewrite with zlen. Qed.

Lemma zlen_raw_payload o raws : zlen (raw_payload o raws) = 4 * zlen raws.
Proof.
  induction raws as [|rw raws IH]; [done|]. unfold raw_payload in *. cbn [fmap list_fmap concat].
  autorewrite with zlen. rewrite zlen_raw_bytes, IH. lia.
Qed.

Lemma raw_payload_ok o raws : bytes_ok (raw_payload o raws).
Proof.
  induction raws as [|rw raws IH]; [done|]. unfold raw_payload in *. cbn [fmap list_fmap concat].
  unfold raw_bytes. rewrite !Forall_app. auto with wrapdb.
Qed.

(** Decoding a laid-out payload. *)
Lemma decodeSamples_at o inv raws hb pre r i :
  Forall raw_ok raws -> bytes_ok pre -> bytes_ok r -> zlen pre = hb + i * 4 ->
  decodeSamples (pre ++ raw_payload o raws ++ r) o hb inv (length raws) i
  = Some (to_sample inv <$> raws).
Proof.
  intros Hraws Hpre Hr. revert pre i Hpre. induction Hraws as [|rw raws Hrw Hraws IH];
    intros pre i Hpre Hz; [done|].
  destruct Hrw as [Hi Hq]. cbn [length decodeSamples]. rewrite <- Hz.
  assert (pre ++ raw_payload o (rw :: raws) ++ r =
    pre ++ enc16 o rw.1 ++ enc16 o rw.2 ++ raw_payload o raws ++ r) as E.
  { unfold raw_payload, raw_bytes. cbn [fmap list_fmap concat]. by rewrite <- !(assoc_L (++)). }
  pose proof (raw_payload_ok o raws). pose proof (enc16_bytes o rw.1). pose proof (enc16_bytes o rw.2).
  rewrite E, readI16_at by (rewrite ?Forall_app; done). rewrite bind_ret.
  rewrite (assoc_L (++) pre).
  replace (zlen pre + 2) with (zlen (pre ++ enc16 o rw.1)) by (by autorewrite with zlen).
  rewrite readI16_at by (rewrite ?Forall_app; done). rewrite bind_ret.
  rewrite (assoc_L (++) (pre ++ enc16 o rw.1)).
  rewrite IH; [done|by rewrite !Forall_app|autorewrite with zlen; lia].
Qed.

(** Decoding any payload inside the buffer. *)
Lemma decodeSamples_total m o hb inv n i :
  bytes_ok m -> 0 <= hb + i * 4 -> hb + (i + Z.of_nat n) * 4 <= zlen m ->
  ∃ raws, decodeSamples m o hb inv n i = Some (to_sample inv <$> raws) /\
    length raws = n /\ Forall raw_ok raws /\
    slice m (hb + i * 4) (4 * n) = Some (raw_payload o raws).
Proof.
  intros Hm. revert i. induction n as [|n IH]; intros i H0 H1.
  - by exists [].
  - cbn [decodeSamples].
    destruct (readI16_total o m (hb + i * 4)) as (a & -> & Ha & Sa); [done|lia..|].
    destruct (readI16_total o m (hb + i * 4 + 2)) as (b & -> & Hb & Sb); [done|lia..|].
    destruct (IH (i + 1)) as (raws & -> & Hl & Hok & Hs); [lia..|].
    exists ((a, b) :: raws). rewrite !bind_ret. split; [done|]. split; [by cbn; rewrite Hl|].
    split; [by constructor|].
    replace (4 * S n)%nat with (2 + (2 + 4 * n))%nat by lia.
    unfold raw_payload, raw_bytes. cbn [fmap list_fmap concat fst snd]. rewrite <- (assoc_L (++)).
    apply slice_cat; [done|]. apply slice_cat; [done|].
    replace (hb + i * 4 + Z.of_nat 2 + Z.of_nat 2) with (hb + (i + 1) * 4) by lia. done.
Qed.

(** * Quantization *)

Lemma clamp_bound v lo hi : lo <= hi -> lo <= clamp v lo hi <= hi.
Proof. intros. unfold clamp. repeat case_bool; bool_prop; lia. Qed.

Section quantize.
Context (unspec : float -> Z).
#[local] Abbreviation quantize := (quantize unspec).

Lemma quantize_bound x s : -32768 <= quantize x s < 32768.
Proof. apply s16_bound. Qed.

(** The int16 of a sample whose scaled value rounds to v. *)
Lemma quantize_rounded x s v :
  lroundf (f32_mul x s) = Some v -> - 2 ^ 31 <= v < 2 ^ 31 ->
  quantize x s = Z.max (-32768) (Z.min v 32767).
Proof.
  change (2 ^ 31) with 2147483648. intros E Hv. unfold SignalDataPacket.quantize, std_lroundf. rewrite E.
  unfold s32. rewrite Z.mod_small by lia. replace (v + _ - _) with v by lia.
  unfold clamp, s16. repeat case_bool; bool_prop; rewrite Z.mod_small by lia; lia.
Qed.

(** A decoded sample quantizes to the integer it came from. *)
Lemma quantize_decoded i scale :
  -32768 <= i < 32768 -> usable_scale scale = true ->
  quantize (f32_mul (f32_of_Z i) (f32_div (f32_of_Z 1) scale)) scale = i.
Proof.
  intros Hi Hs. rewrite (quantize_rounded _ _ i); [lia| |lia]. by apply scale_roundtrip.
Qed.

Lemma sample_bytes_decoded o scale rw :
  raw_ok rw -> usable_scale scale = true ->
  sample_bytes unspec o scale (to_sample (f32_div (f32_of_Z 1) scale) rw) = raw_bytes o rw.
Proof.
  intros [? ?] Hs. unfold sample_bytes, raw_bytes, to_sample. cbn [fst snd].
  by rewrite !quantize_decoded.
Qed.

Lemma payload_bytes_decoded o scale raws :
  Forall raw_ok raws -> usable_scale scale = true ->
  payload_bytes unspec o scale (to_sample (f32_div (f32_of_Z 1) scale) <$> raws) = raw_payload o raws.
Proof.
  intros H Hs. induction H as [|rw raws Hrw _ IH]; [done|].
  unfold payload_bytes, raw_payload in *. cbn [fmap list_fmap concat] in *.
  by rewrite sample_bytes_decoded, IH.
Qed.
End quantize.

(** * The encoder's output *)

Section packet.
Context (unspec : float -> Z) (sid : Z) (samples : IQSamples) (count : Z) (o : ByteOrder).
Context (scale : float) (tsi : TSI) (tsf : TSF) (intTs fracTs : Z) (trailer : bool).

Definition trailer_bytes : list Z := if trailer then [0; 0; 0; 0] else [].

Definition data_words (n : Z) : Z :=
  stream_header_words tsi tsf + n + (if trailer then 1 else 0).

Definition data_header : PacketHeader :=
  set_packetSize (data_words (zlen samples))
    (buildHeader IFDataWithStreamId trailer sid count tsi tsf intTs fracTs).

Lemma encodeSample_app out s :
  encodeSample unspec o scale out s = Some (out ++ sample_bytes unspec o scale s).
Proof.
  unfold encodeSample, sample_bytes. rewrite writeI16_bytes.
  generalize (quantize unspec s.1 scale) (quantize unspec s.2 scale). intros a b.
  pose proof (write_bytes_app [] [0; 0] [0; 0] (enc16 o a)) as E.
  rewrite length_enc16 in E. specialize (E eq_refl). cbn [app] in E.
  change (replicate 4 0) with [0; 0; 0; 0]. change (zlen []) with 0 in E. rewrite E, bind_ret.
  rewrite writeI16_bytes. pose proof (write_bytes_app (enc16 o a) [0; 0] [] (enc16 o b)) as E'.
  rewrite length_enc16, zlen_enc16, !app_nil_r in E'. by rewrite E', bind_ret.
Qed.

Lemma encodeSamples_app out :
  encodeSamples unspec o scale out samples = Some (out ++ payload_bytes unspec o scale samples).
Proof.
  revert out. induction samples as [|s rest IH]; intros out; cbn [encodeSamples].
  - by rewrite app_nil_r.
  - rewrite encodeSample_app, bind_ret, IH. unfold payload_bytes.
    cbn [fmap list_fmap concat]. by rewrite <- (assoc_L (++)).
Qed.

Lemma zlen_sample_bytes s : zlen (sample_bytes unspec o scale s) = 4.
Proof. unfold sample_bytes. by autorewrite with zlen. Qed.

Lemma zlen_payload_bytes : zlen (payload_bytes unspec o scale samples) = 4 * zlen samples.
Proof.
  induction samples as [|s rest IH]; [done|]. unfold payload_bytes in *.
  cbn [fmap list_fmap concat]. autorewrite with zlen. rewrite zlen_sample_bytes, IH. lia.
Qed.

Lemma payload_bytes_ok : bytes_ok (payload_bytes unspec o scale samples).
Proof.
  induction samples as [|s rest IH]; [done|]. unfold payload_bytes, sample_bytes in *.
  cbn [fmap list_fmap concat]. rewrite !Forall_app. auto with wrapdb.
Qed.

Lemma trailer_bytes_ok : bytes_ok trailer_bytes.
Proof. unfold trailer_bytes. case_bool; repeat constructor; unfold is_byte; lia. Qed.

Lemma zlen_trailer_bytes : zlen trailer_bytes = if trailer then 4 else 0.
Proof. unfold trailer_bytes. by case_bool. Qed.

Definition packet_bytes : list Z :=
  header_bytes data_header o ++ payload_bytes unspec o scale samples ++ trailer_bytes.

Lemma signal_encode_ok :
  data_words (zlen samples) <= 65535 ->
  encode unspec sid samples count o scale tsi tsf intTs fracTs trailer = Some packet_bytes.
Proof.
  intros Hw. pose proof (zlen_nonneg samples). pose proof (stream_header_words_bound tsi tsf).
  assert (0 <= data_words (zlen samples)) by (unfold data_words; case_bool; lia).
  unfold encode. rewrite buildHeader_words by done. fold (data_words (zlen samples)).
  rewrite u64_small by lia. unfold MAX_PACKET_SIZE_WORDS. rewrite (proj2 (Z.ltb_ge _ _)) by lia.
  rewrite u16_small by lia. fold data_header. rewrite serialize_app, bind_ret.
  rewrite encodeSamples_app, bind_ret. unfold packet_bytes, trailer_bytes. f_equal.
  destruct trailer; [by rewrite <- !(assoc_L (++))|by rewrite app_nil_r].
Qed.

Lemma encode_too_large :
  65535 < data_words (zlen samples) < 2 ^ 64 ->
  encode unspec sid samples count o scale tsi tsf intTs fracTs trailer = Some [].
Proof.
  intros Hw. unfold encode. rewrite buildHeader_words by done. fold (data_words (zlen samples)).
  rewrite u64_small by (change (2 ^ 64) with 18446744073709551616 in Hw; lia).
  unfold MAX_PACKET_SIZE_WORDS. by rewrite (proj2 (Z.ltb_lt _ _)) by lia.
Qed.

Lemma packet_bytes_zlen :
  data_words (zlen samples) <= 65535 ->
  0 <= sid < 4294967296 -> 0 <= intTs < 4294967296 -> 0 <= fracTs < 18446744073709551616 ->
  header_wf data_header /\ zlen packet_bytes = data_words (zlen samples) * 4.
Proof.
  intros Hw Hs Hi Hf. pose proof (zlen_nonneg samples).
  pose proof (stream_header_words_bound tsi tsf).
  assert (0 <= data_words (zlen samples)) by (unfold data_words; case_bool; lia).
  assert (header_wf data_header) as Hwf by (apply buildHeader_wf; done || lia).
  split; [done|]. unfold packet_bytes. autorewrite with zlen.
  rewrite zlen_header_bytes, zlen_payload_bytes, zlen_trailer_bytes by done.
  unfold data_header, sizeInBytes. rewrite sizeInWords_set_packetSize, buildHeader_words by done.
  unfold data_words. case_bool; lia.
Qed.

Lemma packet_bytes_ok : bytes_ok packet_bytes.
Proof.
  unfold packet_bytes. rewrite !Forall_app. split_and!;
    auto using header_bytes_ok, payload_bytes_ok, trailer_bytes_ok.
Qed.

Lemma maxSamplesPerPacket_words : maxSamplesPerPacket tsi tsf false trailer = 65535 - data_words 0.
Proof.
  unfold maxSamplesPerPacket, data_words, stream_header_words, MAX_PACKET_SIZE_WORDS.
  repeat (case_bool; bool_prop); done || lia.
Qed.
End packet.

Lemma data_words_add tsi tsf t n : data_words tsi tsf t n = data_words tsi tsf t 0 + n.
Proof. unfold data_words. lia. Qed.

Lemma data_words_0_bound tsi tsf t : 2 <= data_words tsi tsf t 0 <= 6.
Proof. unfold data_words. pose proof (stream_header_words_bound tsi tsf). case_bool; lia. Qed.

(** * decode, step by step *)

Lemma signal_decode_steps m length o scale bc h hb :
  4 <= length -> SFeqb scale (S754_zero false) = false ->
  parse (Some m) length o defaultPacketHeader 0 = Some (true, h, hb) ->
  0 <= packetSize h < 65536 ->
  decode (Some m) length o scale bc =
    if negb (isDataPacket (packetType h)) then Some (None, bc)
    else if packetSize h * 4 <? hb + (if trailerPresent h then 4 else 0) then Some (None, bc)
    else
      samples ← decodeSamples m o hb (f32_div (f32_of_Z 1) scale)
        (Z.to_nat ((packetSize h * 4 - hb - (if trailerPresent h then 4 else 0)) / 4)) 0;
      Some (Some (mkDecodeResult h samples), packetSize h * 4).
Proof.
  intros Hl Hs Hp Hz. unfold decode. rewrite (proj2 (Z.ltb_ge _ _)), Hs by lia.
  cbn [orb]. rewrite Hp, bind_ret. cbn [negb]. by rewrite packetBytes_small.
Qed.

(** A well-formed data header followed by raw samples and the trailer decodes. *)
Lemma signal_decode_layout h raws o scale r length bc :
  header_wf h -> isDataPacket (packetType h) = true -> Forall raw_ok raws -> bytes_ok r ->
  SFeqb scale (S754_zero false) = false ->
  let pkt := header_bytes h o ++ raw_payload o raws ++ trailer_bytes (trailerPresent h) in
  packetSize h * 4 = zlen pkt -> zlen pkt <= length ->
  decode (Some (pkt ++ r)) length o scale bc
  = Some (Some (mkDecodeResult h (to_sample (f32_div (f32_of_Z 1) scale) <$> raws)), zlen pkt).
Proof.
  intros Hwf Hd Hraws Hr Hsc pkt Hps Hl.
  pose proof (header_bytes_ok h o). pose proof (raw_payload_ok o raws).
  pose proof (trailer_bytes_ok (trailerPresent h)) as Ht. pose proof (wf_size h Hwf).
  pose proof (zlen_header_bytes h o Hwf) as Hhb. pose proof (sizeInWords_bound h).
  assert (zlen pkt = sizeInBytes h + 4 * zlen raws + (if trailerPresent h then 4 else 0)) as Hz.
  { unfold pkt. autorewrite with zlen. rewrite zlen_raw_payload, zlen_trailer_bytes. lia. }
  assert (pkt ++ r = header_bytes h o ++ raw_payload o raws ++ trailer_bytes (trailerPresent h) ++ r)
    as ->. { unfold pkt. by rewrite <- !(assoc_L (++)). }
  clearbody pkt. pose proof (zlen_nonneg raws). unfold sizeInBytes in *.
  assert (0 <= (if trailerPresent h then 4 else 0)) by (case_bool; lia).
  rewrite (signal_decode_steps _ _ _ _ _ h (sizeInWords h * 4)); [|lia|done| |done].
  2: { apply parse_header_bytes; [done|by rewrite !Forall_app|lia..]. }
  rewrite Hd, Hps. cbn [negb]. rewrite (proj2 (Z.ltb_ge _ _)) by lia. rewrite Hz.
  replace (Z.to_nat _) with (List.length raws); cycle 1.
  { replace (_ - _ - _) with (zlen raws * 4) by lia. rewrite Z.div_mul by lia. unfold zlen. lia. }
  rewrite decodeSamples_at; [done|done|done|by rewrite Forall_app|lia].
Qed.

(** * decode on an arbitrary buffer *)

Definition trailer_size (h : PacketHeader) : Z := if trailerPresent h then 4 else 0.

Definition decode_accepts (h : PacketHeader) : Prop :=
  isDataPacket (packetType h) = true /\ sizeInBytes h + trailer_size h <= packetSize h * 4.

Lemma signal_decode_outcome m length o scale bc :
  bytes_ok m -> length <= zlen m -> SFeqb scale (S754_zero false) = false ->
  ∃ res bc', decode (Some m) length o scale bc = Some (res, bc') /\
    match res with
    | None => bc' = bc
    | Some (mkDecodeResult h samples) =>
        parse (Some m) length o defaultPacketHeader 0 = Some (true, h, sizeInBytes h) /\
        header_wf h /\ 0 < packetSize h /\
        bc' = packetSize h * 4 /\ packetSize h * 4 <= length /\ decode_accepts h /\
        ∃ raws, Forall raw_ok raws /\
          samples = to_sample (f32_div (f32_of_Z 1) scale) <$> raws /\
          4 * zlen raws = packetSize h * 4 - sizeInBytes h - trailer_size h /\
          slice m (sizeInBytes h) (4 * List.length raws) = Some (raw_payload o raws)
    end /\
    (∀ h, parse (Some m) length o defaultPacketHeader 0 = Some (true, h, sizeInBytes h) ->
       decode_accepts h -> is_Some res).
Proof.
  intros Hm Hl Hsc.
  destruct (parse_outcome m length o 0 Hm Hl) as (ok & h & hb & Hp & Hacc & _ & Hok).
  destruct ok.
  - destruct Hok as (Hwf & -> & Hsz & Hps & Hlen & _); [done|].
    pose proof (proj1 Hacc eq_refl) as [H4 _]. pose proof (wf_size h Hwf).
    pose proof (sizeInWords_bound h) as Hsw.
    rewrite (signal_decode_steps _ _ _ _ _ h (sizeInBytes h)) by done. fold (trailer_size h).
    destruct (isDataPacket (packetType h)) eqn:Hc; cbn [negb]; cycle 1.
    { eexists _, _. split; [done|]. split; [done|]. rewrite Hp. intros h' [= <-] [? _]. congruence. }
    destruct (Z.ltb_spec (packetSize h * 4) (sizeInBytes h + trailer_size h)).
    { eexists _, _. split; [done|]. split; [done|]. rewrite Hp. intros h' [= <-] (_ & ?). lia. }
    assert (∃ n, packetSize h * 4 - sizeInBytes h - trailer_size h = n * 4) as [n Hn].
    { unfold sizeInBytes, trailer_size. case_bool; [exists (packetSize h - sizeInWords h - 1)
        |exists (packetSize h - sizeInWords h)]; lia. }
    assert (0 <= trailer_size h) by (unfold trailer_size; case_bool; lia).
    rewrite Hn, Z.div_mul by lia. unfold sizeInBytes in *.
    destruct (decodeSamples_total m o (sizeInWords h * 4) (f32_div (f32_of_Z 1) scale) (Z.to_nat n) 0)
      as (raws & -> & Hrl & Hrok & Hs); [done|lia|lia|].
    rewrite bind_ret. eexists _, _. split; [done|]. split; [|by intros].
    do 6 (split; [done|]). exists raws. split; [done|]. split; [done|].
    unfold zlen. rewrite Hrl. split; [lia|]. by rewrite Z.add_0_r in Hs.
  - unfold decode. rewrite Hsc, orb_false_r. destruct (Z.ltb_spec length 4).
    + eexists _, _. split; [done|]. split; [done|]. rewrite Hp. by intros.
    + rewrite Hp, bind_ret. eexists _, _. split; [done|]. split; [done|]. by intros.
Qed.

(** * decode on what encode produced *)

(** The samples an int16 pair can produce at this scale. *)
Definition sample_ok (scale : float) (s : IQSample) : Prop :=
  ∃ rw, raw_ok rw /\ s = to_sample (f32_div (f32_of_Z 1) scale) rw.

Lemma usable_nonzero scale : usable_scale scale = true -> SFeqb scale (S754_zero false) = false.
Proof. by destruct scale as [| | |[]]. Qed.

(** What the receiver of a sample gets. *)
Definition requantize (unspec : float -> Z) (scale : float) (s : IQSample) : IQSample :=
  to_sample (f32_div (f32_of_Z 1) scale) (quantize unspec s.1 scale, quantize unspec s.2 scale).

Lemma requantize_ok unspec scale s : sample_ok scale (requantize unspec scale s).
Proof. eexists. split; [|done]. split; apply quantize_bound. Qed.

(** A sample the decoder can produce is received as it is. *)
Lemma requantize_id unspec scale samples :
  usable_scale scale = true -> Forall (sample_ok scale) samples -> requantize unspec scale <$> samples = samples.
Proof.
  intros Hs. induction 1 as [|s samples (rw & [H1 H2] & ->) _ IH]; [done|].
  cbn [fmap list_fmap]. rewrite IH. f_equal. unfold requantize, to_sample at 2 3. cbn [fst snd].
  by rewrite !quantize_decoded by done.
Qed.

(** What a receiver may get for one float: an int16 over the scale, the product
    with the scale rounded and clamped when that fits an int. *)
Definition carried (scale x y : float) : Prop :=
  ∃ v, -32768 <= v <= 32767 /\ y = f32_mul (f32_of_Z v) (f32_div (f32_of_Z 1) scale) /\
    ∀ n, lroundf (f32_mul x scale) = Some n -> - 2 ^ 31 <= n < 2 ^ 31 -> v = Z.max (-32768) (Z.min n 32767).

Definition carried_sample (scale : float) (s t : IQSample) : Prop :=
  carried scale s.1 t.1 /\ carried scale s.2 t.2.

Lemma requantize_carried unspec scale samples :
  Forall2 (carried_sample scale) samples (requantize unspec scale <$> samples).
Proof.
  apply Forall2_fmap_r, Forall_Forall2_diag, Forall_true. intros s.
  assert (∀ x, carried scale x (f32_mul (f32_of_Z (quantize unspec x scale)) (f32_div (f32_of_Z 1) scale))) as H.
  { intros x. exists (quantize unspec x scale). pose proof (quantize_bound unspec x scale).
    split; [lia|]. split; [done|]. apply quantize_rounded. }
  split; apply H.
Qed.

Lemma payload_bytes_raw unspec o scale samples :
  let raws := (λ s : IQSample, (quantize unspec s.1 scale, quantize unspec s.2 scale)) <$> samples in
  Forall raw_ok raws /\ payload_bytes unspec o scale samples = raw_payload o raws /\
  to_sample (f32_div (f32_of_Z 1) scale) <$> raws = requantize unspec scale <$> samples.
Proof.
  cbn zeta. split; [|split].
  - apply Forall_fmap, Forall_true. intros s. split; apply quantize_bound.
  - unfold payload_bytes, raw_payload. by rewrite <- list_fmap_compose.
  - by rewrite <- list_fmap_compose.
Qed.

Lemma signal_decode_encoded unspec sid samples count o scale tsi tsf intTs fracTs trailer r length bc :
  SFeqb scale (S754_zero false) = false ->
  data_words tsi tsf trailer (zlen samples) <= 65535 ->
  0 <= sid < 4294967296 -> 0 <= intTs < 4294967296 -> 0 <= fracTs < 18446744073709551616 ->
  bytes_ok r ->
  ∃ pkt,
    encode unspec sid samples count o scale tsi tsf intTs fracTs trailer = Some pkt /\
    bytes_ok pkt /\ zlen pkt = data_words tsi tsf trailer (zlen samples) * 4 /\
    (zlen pkt <= length ->
     decode (Some (pkt ++ r)) length o scale bc
     = Some (Some (mkDecodeResult
          (data_header sid samples count tsi tsf intTs fracTs trailer) (requantize unspec scale <$> samples)),
          zlen pkt)).
Proof.
  intros Hnz Hw Hs Hi Hf Hr.
  destruct (payload_bytes_raw unspec o scale samples) as (Hraws & Epay & Es).
  set (raws := _ <$> samples) in *.
  destruct (packet_bytes_zlen unspec sid samples count o scale tsi tsf intTs fracTs trailer Hw Hs Hi Hf)
    as [Hwf Hz].
  eexists. split; [by apply signal_encode_ok|]. split; [apply packet_bytes_ok|]. split; [done|].
  intros Hl.
  assert (packet_bytes unspec sid samples count o scale tsi tsf intTs fracTs trailer
    = header_bytes (data_header sid samples count tsi tsf intTs fracTs trailer) o ++
      raw_payload o raws ++ trailer_bytes trailer) as Ep by (unfold packet_bytes; by rewrite Epay).
  rewrite Ep in *. rewrite <- Es.
  by apply (signal_decode_layout (data_header sid samples count tsi tsf intTs fracTs trailer) raws o
    scale r length bc).
Qed.

(** * Properties *)

(** C9: samples through encoding and decoding, at any non-zero scale.  A packet
    of at most the capacity encodes; decoding it, whatever follows it, gives the
    header back, consumes exactly the packet, and each float is received as the
    int16 its scaled value rounds to, clamped, over the scale; as some int16 over
    the scale when the rounded value does not fit an int.  Samples that are such
    values already are received unchanged at every scale from 2^-103 up to
    2^124, powers of two or not. *)
Theorem signal_roundtrip unspec sid samples count o scale tsi tsf intTs fracTs trailer r length bc :
  SFeqb scale (S754_zero false) = false ->
  zlen samples <= maxSamplesPerPacket tsi tsf false trailer ->
  0 <= sid < 4294967296 -> 0 <= intTs < 4294967296 -> 0 <= fracTs < 18446744073709551616 ->
  bytes_ok r ->
  ∃ pkt received,
    encode unspec sid samples count o scale tsi tsf intTs fracTs trailer = Some pkt /\
    Forall2 (carried_sample scale) samples received /\
    (usable_scale scale = true -> Forall (sample_ok scale) samples -> received = samples) /\
    (zlen pkt <= length ->
     decode (Some (pkt ++ r)) length o scale bc
     = Some (Some (mkDecodeResult
          (set_packetSize (zlen pkt / 4)
             (buildHeader IFDataWithStreamId trailer sid count tsi tsf intTs fracTs)) received),
          zlen pkt)).
Proof.
  intros Hp Hn Hs Hi Hf Hr. rewrite maxSamplesPerPacket_words in Hn.
  destruct (signal_decode_encoded unspec sid samples count o scale tsi tsf intTs fracTs trailer r length bc)
    as (pkt & He & _ & Hz & Hd); try done.
  { rewrite data_words_add. lia. }
  exists pkt, (requantize unspec scale <$> samples). split; [done|]. split; [apply requantize_carried|].
  split; [apply requantize_id|]. by rewrite Hz, Z.div_mul, <- Hz by lia.
Qed.

Definition sample_iq : IQSamples :=
  to_sample (f32_div (f32_of_Z 1) (pow2_32 15)) <$> [(16384, -32768); (-1, 32767)].

(** 0.3 is rounded, 50 clamped, -1 exact, at scale 1000. *)
Definition odd_iq : IQSamples := [(S754_finite false 10066330 (-25), f32_of_Z (-1)); (f32_of_Z 50, f32_of_Z 0)].

Lemma signal_roundtrip_witness :
  ∃ pkt received,
    encode (λ _, 0) 5 odd_iq 3 LittleEndian (f32_of_Z 1000) TSI_None TSF_RealTime 0 77 true = Some pkt /\
    Forall2 (carried_sample (f32_of_Z 1000)) odd_iq received /\
    (usable_scale (f32_of_Z 1000) = true -> Forall (sample_ok (f32_of_Z 1000)) odd_iq -> received = odd_iq) /\
    (zlen pkt <= 40 ->
     decode (Some (pkt ++ [1; 2])) 40 LittleEndian (f32_of_Z 1000) 0
     = Some (Some (mkDecodeResult
          (set_packetSize (zlen pkt / 4)
             (buildHeader IFDataWithStreamId true 5 3 TSI_None TSF_RealTime 0 77)) received),
          zlen pkt)).
Proof.
  apply signal_roundtrip; try lia.
  - by vm_compute.
  - vm_compute. discriminate.
  - repeat constructor; unfold is_byte; lia.
Defined.

(** C11: decoding any buffer with a non-zero scale never loads outside it; it
    succeeds exactly on a data packet that holds its header and trailer, and
    the samples are the payload's int16 pairs times 1/scale, in order: each pair
    is in the range of int16 and its two's complement bytes are the payload's. *)
Theorem signal_decode_safe m length o scale bc :
  bytes_ok m -> length <= zlen m -> SFeqb scale (S754_zero false) = false ->
  ∃ res bc', decode (Some m) length o scale bc = Some (res, bc') /\
    match res with
    | None => bc' = bc
    | Some (mkDecodeResult h samples) =>
        parse (Some m) length o defaultPacketHeader 0 = Some (true, h, sizeInBytes h) /\
        bc' = packetSize h * 4 /\ 0 < bc' <= length /\ decode_accepts h /\
        ∃ raws, Forall raw_ok raws /\ samples = to_sample (f32_div (f32_of_Z 1) scale) <$> raws /\
          4 * zlen raws = packetSize h * 4 - sizeInBytes h - trailer_size h /\
          slice m (sizeInBytes h) (4 * List.length raws) = Some (raw_payload o raws)
    end /\
    (∀ h, parse (Some m) length o defaultPacketHeader 0 = Some (true, h, sizeInBytes h) ->
       decode_accepts h -> is_Some res).
Proof.
  intros Hm Hl Hs. destruct (signal_decode_outcome m length o scale bc Hm Hl Hs) as (res & bc' & E & H & Hc).
  exists res, bc'. split; [done|]. split; [|done]. destruct res as [[h samples]|]; [|done].
  destruct H as (? & _ & ? & ? & ? & ? & raws & ?).
  do 2 (split; [done|]). split; [lia|]. split; [done|]. by exists raws.
Qed.

Lemma signal_decode_safe_witness :
  let m := [16; 0; 0; 3; 0; 0; 0; 1; 127; 255; 128; 0] in
  ∃ res bc', decode (Some m) 12 BigEndian DEFAULT_SCALE_FACTOR 9 = Some (res, bc') /\
    match res with
    | None => bc' = 9
    | Some (mkDecodeResult h samples) =>
        parse (Some m) 12 BigEndian defaultPacketHeader 0 = Some (true, h, sizeInBytes h) /\
        bc' = packetSize h * 4 /\ 0 < bc' <= 12 /\ decode_accepts h /\
        ∃ raws, Forall raw_ok raws /\ samples = to_sample (f32_div (f32_of_Z 1) DEFAULT_SCALE_FACTOR) <$> raws /\
          4 * zlen raws = packetSize h * 4 - sizeInBytes h - trailer_size h /\
          slice m (sizeInBytes h) (4 * List.length raws) = Some (raw_payload BigEndian raws)
    end /\
    (∀ h, parse (Some m) 12 BigEndian defaultPacketHeader 0 = Some (true, h, sizeInBytes h) ->
       decode_accepts h -> is_Some res).
Proof.
  apply signal_decode_safe; [|done|by vm_compute]. repeat constructor; unfold is_byte; lia.
Defined.

(** C10: transcoding.  At any scale of magnitude from 2^-103 up to 2^124, the
    default and the 1000 of the tests among them, re-encoding the samples decoded
    from any data packet reproduces its payload bytes. *)
Theorem signal_transcode unspec m length o scale bc h samples bc' :
  bytes_ok m -> length <= zlen m -> usable_scale scale = true ->
  decode (Some m) length o scale bc = Some (Some (mkDecodeResult h samples), bc') ->
  ∃ payload,
    slice m (sizeInBytes h) (4 * List.length samples) = Some payload /\
    encodeSamples unspec o scale [] samples = Some payload /\
    bc' = sizeInBytes h + zlen payload + trailer_size h.
Proof.
  intros Hm Hl Hk Hd.
  destruct (signal_decode_outcome m length o scale bc Hm Hl (usable_nonzero scale Hk))
    as (res & bc2 & E & H & _).
  rewrite Hd in E. injection E as <- <-.
  destruct H as (_ & _ & _ & -> & _ & _ & raws & Hok & -> & Hz & Hs).
  exists (raw_payload o raws). rewrite length_fmap, encodeSamples_app, payload_bytes_decoded by done.
  do 2 (split; [done|]). rewrite zlen_raw_payload. lia.
Qed.

Lemma signal_transcode_witness :
  ∃ payload,
    slice [16; 0; 0; 3; 0; 0; 0; 1; 127; 255; 128; 0]
      (sizeInBytes (mkPacketHeader IFDataWithStreamId false false TSI_None TSF_None 0 3 (Some 1)
         None None None None None)) (4 * 1) = Some payload /\
    encodeSamples (λ _, 0) BigEndian (f32_of_Z 1000) []
      [to_sample (f32_div (f32_of_Z 1) (f32_of_Z 1000)) (32767, -32768)] = Some payload /\
    12 = sizeInBytes (mkPacketHeader IFDataWithStreamId false false TSI_None TSF_None 0 3 (Some 1)
         None None None None None) + zlen payload + 0.
Proof.
  apply (signal_transcode (λ _, 0) [16; 0; 0; 3; 0; 0; 0; 1; 127; 255; 128; 0] 12 BigEndian (f32_of_Z 1000) 0
    (mkPacketHeader IFDataWithStreamId false false TSI_None TSF_None 0 3 (Some 1)
         None None None None None) [to_sample (f32_div (f32_of_Z 1) (f32_of_Z 1000)) (32767, -32768)] 12).
  - repeat constructor; unfold is_byte; lia.
  - done.
  - by vm_compute.
  - vm_compute. reflexivity.
Defined.

(** [maxSamplesPerPacket] is the exact capacity: encoding gives a packet of
    (header + samples + trailer) words when the samples fit, at most 65535
    words, and an empty vector when there is one more. *)
Theorem signal_capacity unspec sid samples count o scale tsi tsf intTs fracTs trailer :
  0 <= sid < 4294967296 -> 0 <= intTs < 4294967296 -> 0 <= fracTs < 18446744073709551616 ->
  zlen samples < 2 ^ 63 ->
  ∃ out,
    encode unspec sid samples count o scale tsi tsf intTs fracTs trailer = Some out /\
    if zlen samples <=? maxSamplesPerPacket tsi tsf false trailer
    then zlen out = (65535 - maxSamplesPerPacket tsi tsf false trailer + zlen samples) * 4 /\
         8 <= zlen out <= MAX_PACKET_SIZE_BYTES
    else out = [].
Proof.
  intros Hs Hi Hf Hn. rewrite maxSamplesPerPacket_words.
  pose proof (data_words_0_bound tsi tsf trailer). pose proof (zlen_nonneg samples).
  change (2 ^ 63) with 9223372036854775808 in Hn. pose proof (data_words_add tsi tsf trailer (zlen samples)).
  destruct (Z.leb_spec (zlen samples) (65535 - data_words tsi tsf trailer 0)).
  - eexists. split; [apply signal_encode_ok; lia|].
    destruct (packet_bytes_zlen unspec sid samples count o scale tsi tsf intTs fracTs trailer)
      as [_ ->]; [lia..|].
    change MAX_PACKET_SIZE_BYTES with 262140. lia.
  - exists []. split; [|done]. apply encode_too_large.
    change (2 ^ 64) with 18446744073709551616. lia.
Qed.

Lemma signal_capacity_witness :
  ∃ out,
    encode (λ _, 0) 5 sample_iq 3 BigEndian DEFAULT_SCALE_FACTOR TSI_UTC TSF_None 9 0 false = Some out /\
    if zlen sample_iq <=? maxSamplesPerPacket TSI_UTC TSF_None false false
    then zlen out = (65535 - maxSamplesPerPacket TSI_UTC TSF_None false false + zlen sample_iq) * 4 /\
         8 <= zlen out <= MAX_PACKET_SIZE_BYTES
    else out = [].
Proof. apply signal_capacity; try lia. vm_compute. reflexivity. Defined.

(** A sample whose scaled value rounds into the range of int is stored as
    that value saturated to int16. *)
Theorem signal_saturates unspec x scale v :
  lroundf (f32_mul x scale) = Some v -> - 2 ^ 31 <= v < 2 ^ 31 ->
  quantize unspec x scale = Z.max (-32768) (Z.min v 32767).
Proof. apply quantize_rounded. Qed.

Lemma signal_saturates_witness :
  lroundf (f32_mul (f32_of_Z 2) DEFAULT_SCALE_FACTOR) = Some 65536 /\
  quantize (λ _, 0) (f32_of_Z 2) DEFAULT_SCALE_FACTOR = Z.max (-32768) (Z.min 65536 32767).
Proof.
  split; [vm_compute; reflexivity|].
  apply signal_saturates; [vm_compute; reflexivity|lia].
Defined.

(** Beyond the range of int the value wraps before it is clamped, so it does
    not saturate: at the default scale 65536.0 is stored as -32768 and 131072.0
    as 0. *)
Theorem signal_overflow_wraps unspec :
  lroundf (f32_mul (f32_of_Z 65536) DEFAULT_SCALE_FACTOR) = Some (2 ^ 31) /\
  quantize unspec (f32_of_Z 65536) DEFAULT_SCALE_FACTOR = -32768 /\
  quantize unspec (f32_of_Z 131072) DEFAULT_SCALE_FACTOR = 0.
Proof. vm_compute. auto. Qed.
