(* ===== verification/Vita49Codec.v ===== *)
(** The stream codec: src/libs/Vita49_2/Vita49Codec.{h,cpp}.

    [parsePacket] dispatches on the packet type of word 0 to the two packet
    decoders, [parseStream] iterates it over a buffer, [encodeSignalData] splits
    a sample vector over several packets.  The two [while] loops take fuel;
    their callers supply one more than the number of iterations possible. *)

From Stdlib Require Import SpecFloat.
From S2P Require Import Prelude ByteSwap Ieee754 FloatError Vita49Types PacketHeader.
From S2P Require ContextPacket SignalDataPacket.

(** * Data *)

Inductive PacketKind : Type := SignalData | Context_ | Unknown.

Record ParsedPacket : Type := mkParsedPacket {
  type : PacketKind;
  header : PacketHeader;
  samples : IQSamples;
  contextFields : ContextFields;
}.

(** [ParsedPacket result;] *)
Definition defaultParsedPacket : ParsedPacket :=
  mkParsedPacket Unknown defaultPacketHeader [] defaultContextFields.

Record Vita49Codec : Type := mkVita49Codec {
  _byteOrder : ByteOrder;
  _scaleFactor : float;
}.

(** * Configuration *)

Definition setByteOrder (order : ByteOrder) (c : Vita49Codec) : Vita49Codec :=
  mkVita49Codec order (_scaleFactor c).

Definition byteOrder (c : Vita49Codec) : ByteOrder := _byteOrder c.

Definition setScaleFactor (factor : float) (c : Vita49Codec) : Vita49Codec :=
  mkVita49Codec (_byteOrder c) factor.

Definition scaleFactor (c : Vita49Codec) : float := _scaleFactor c.

(** * Decoding *)

(** The peek at word 0, open-coded in the source. *)
Definition peekWord0 (c : Vita49Codec) (m : list Z) : option Z :=
  d0 ← ptr_read m 0; d1 ← ptr_read m 1; d2 ← ptr_read m 2; d3 ← ptr_read m 3;
  Some (match _byteOrder c with
        | BigEndian =>
            Z.lor (Z.lor (Z.lor (u32 (Z.shiftl (u32 d0) 24)) (u32 (Z.shiftl (u32 d1) 16)))
                     (u32 (Z.shiftl (u32 d2) 8))) (u32 d3)
        | LittleEndian =>
            Z.lor (Z.lor (Z.lor (u32 d0) (u32 (Z.shiftl (u32 d1) 8)))
                     (u32 (Z.shiftl (u32 d2) 16))) (u32 (Z.shiftl (u32 d3) 24))
        end).

Definition parsePacket (c : Vita49Codec) (data : option (list Z)) (length : Z)
    (bytesConsumed : Z) : option (option ParsedPacket * Z) :=
  match data with
  | None => Some (None, bytesConsumed)
  | Some m =>
      if length <? 4 then Some (None, bytesConsumed)
      else
        word0 ← peekWord0 c m;
        let packetType := packetType_of_Z (Z.land (Z.shiftr word0 28) 0xF) in
        if isDataPacket packetType then
          '(decoded, bytesConsumed) ←
            SignalDataPacket.decode data length (_byteOrder c) (_scaleFactor c) bytesConsumed;
          match decoded with
          | None => Some (None, bytesConsumed)
          | Some d =>
              Some (Some (mkParsedPacket SignalData (SignalDataPacket.result_header d)
                            (SignalDataPacket.result_samples d) defaultContextFields),
                    bytesConsumed)
          end
        else if isContextPacket packetType then
          '(decoded, bytesConsumed) ←
            ContextPacket.decode data length (_byteOrder c) bytesConsumed;
          match decoded with
          | None => Some (None, bytesConsumed)
          | Some d =>
              Some (Some (mkParsedPacket Context_ (ContextPacket.result_header d)
                            [] (ContextPacket.result_fields d)), bytesConsumed)
          end
        else
          let packetSize := u16 (Z.land word0 0xFFFF) in
          let packetBytes := u64 (packetSize * 4) in
          if (packetSize =? 0) || (length <? packetBytes) then Some (None, bytesConsumed)
          else Some (Some defaultParsedPacket, packetBytes)
  end.

(** [while (offset < length)]; [None] is undefined behaviour or no fuel. *)
Fixpoint parseLoop (fuel : nat) (c : Vita49Codec) (m : list Z) (length offset : Z)
    (results : list ParsedPacket) : option (list ParsedPacket) :=
  match fuel with
  | O => None
  | S fuel =>
      if negb (offset <? length) then Some results
      else
        let remaining := length - offset in
        if remaining <? 4 then Some results
        else
          '(packet, consumed) ← parsePacket c (Some (ptr_add m offset)) remaining 0;
          match packet with
          | None => Some results
          | Some p =>
              if consumed =? 0 then Some results
              else parseLoop fuel c m length (offset + consumed) (results ++ [p])
          end
  end.

Definition parseStream_fuel (length : Z) : nat := S (Z.to_nat length).

Definition parseStream (c : Vita49Codec) (data : option (list Z)) (length : Z)
    : option (list ParsedPacket) :=
  match data with
  | None => Some []
  | Some m =>
      if length =? 0 then Some []
      else parseLoop (parseStream_fuel length) c m length 0 []
  end.

(** * Encoding *)

Section encode.
Context (lround_unspecified : float -> Z).
Context (c : Vita49Codec) (sid : Z) (tsi : TSI) (tsf : TSF) (intTs fracTs : Z) (trailer : bool).

Definition encodeChunk (chunk : IQSamples) (pktCount : Z) : option (list Z) :=
  SignalDataPacket.encode lround_unspecified sid chunk pktCount (_byteOrder c) (_scaleFactor c)
    tsi tsf intTs fracTs trailer.

(** [while (offset < samples.size())] *)
Fixpoint encodeLoop (fuel : nat) (maxPerPacket : Z) (samples : IQSamples)
    (offset pktCount : Z) (result : list Z) : option (list Z) :=
  match fuel with
  | O => None
  | S fuel =>
      if negb (offset <? zlen samples) then Some result
      else
        let count := Z.min maxPerPacket (zlen samples - offset) in
        let chunk := take (Z.to_nat count) (drop (Z.to_nat offset) samples) in
        packet ← encodeChunk chunk pktCount;
        match packet with
        | [] => Some result
        | _ => encodeLoop fuel maxPerPacket samples (offset + count)
                 (u8 (Z.land (pktCount + 1) 0xF)) (result ++ packet)
        end
  end.

Definition encodeSignalData (samples : IQSamples) (startPacketCount : Z) : option (list Z) :=
  let maxPerPacket := SignalDataPacket.maxSamplesPerPacket tsi tsf false trailer in
  if maxPerPacket =? 0 then Some []
  else
    result ← encodeLoop (S (length samples)) maxPerPacket samples 0 startPacketCount [];
    match samples with
    | [] => encodeChunk samples startPacketCount
    | _ => Some result
    end.

Definition encodeContext (fields : ContextFields) (packetCount : Z) : option (list Z) :=
  ContextPacket.encode sid fields packetCount (_byteOrder c) tsi tsf intTs fracTs.
End encode.

(** * parsePacket *)

Lemma peekWord0_readWord c m : peekWord0 c m = readWord m 0 (_byteOrder c).
Proof. unfold peekWord0. by destruct (_byteOrder c). Qed.

(** Word 0 of a buffer decides the type [parse] reports. *)
Lemma parse_packetType m length o h hb w :
  bytes_ok m -> length <= zlen m -> readWord m 0 o = Some w ->
  parse (Some m) length o defaultPacketHeader 0 = Some (true, h, hb) ->
  packetType_of_Z (Z.land (Z.shiftr w 28) 0xF) = packetType h.
Proof.
  intros Hm Hl Hw Hp. destruct (parse_outcome m length o 0 Hm Hl) as (ok & h' & hb' & E & _ & _ & Ht).
  rewrite Hp in E. injection E as <- <- <-.
  destruct (Ht eq_refl) as (_ & _ & _ & _ & _ & Hmand & _).
  specialize (Hmand w Hw). by apply (f_equal packetType) in Hmand.
Qed.

(** A packet the two decoders accept is what [parsePacket] returns. *)
Lemma parsePacket_data c m length bc h s n :
  bytes_ok m -> 4 <= length <= zlen m ->
  SignalDataPacket.decode (Some m) length (_byteOrder c) (_scaleFactor c) bc
    = Some (Some (SignalDataPacket.mkDecodeResult h s), n) ->
  SFeqb (_scaleFactor c) (S754_zero false) = false ->
  parsePacket c (Some m) length bc = Some (Some (mkParsedPacket SignalData h s defaultContextFields), n).
Proof.
  intros Hm Hl Hd Hsc.
  destruct (SignalDataPacket.signal_decode_outcome m length (_byteOrder c) (_scaleFactor c) bc)
    as (res & bc' & E & H & _); [done|lia|done|].
  rewrite Hd in E. injection E as <- <-. destruct H as (Hp & _ & _ & _ & _ & [Hk _] & _).
  destruct (readWord_total (_byteOrder c) m 0) as (w & Hw & _); [done|lia..|].
  unfold parsePacket. rewrite (proj2 (Z.ltb_ge _ _)) by lia. rewrite peekWord0_readWord, Hw, bind_ret.
  rewrite (parse_packetType m length (_byteOrder c) h _ w) by (done || lia).
  by rewrite Hk, Hd, bind_ret.
Qed.

Lemma parsePacket_context c m length bc h f n :
  bytes_ok m -> 4 <= length <= zlen m ->
  ContextPacket.decode (Some m) length (_byteOrder c) bc
    = Some (Some (ContextPacket.mkDecodeResult h f), n) ->
  parsePacket c (Some m) length bc = Some (Some (mkParsedPacket Context_ h [] f), n).
Proof.
  intros Hm Hl Hd.
  destruct (ContextPacket.context_decode_outcome m length (_byteOrder c) bc)
    as (res & bc' & E & H & _); [done|lia|].
  rewrite Hd in E. injection E as <- <-. destruct H as (Hp & _ & _ & _ & _ & cif0 & [Hk _] & _).
  destruct (readWord_total (_byteOrder c) m 0) as (w & Hw & _); [done|lia..|].
  unfold parsePacket. rewrite (proj2 (Z.ltb_ge _ _)) by lia. rewrite peekWord0_readWord, Hw, bind_ret.
  rewrite (parse_packetType m length (_byteOrder c) h _ w) by (done || lia).
  assert (isDataPacket (packetType h) = false) as ->.
  { destruct (packet_kinds (packetType h)) as [[? ?]|[[? ?]|[? ?]]]; congruence. }
  by rewrite Hk, Hd, bind_ret.
Qed.

(** On any buffer: defined; a packet it returns has progressed by at least a
    word and stays inside the buffer. *)
Lemma parsePacket_outcome c m length bc :
  bytes_ok m -> length <= zlen m ->
  ∃ res bc', parsePacket c (Some m) length bc = Some (res, bc') /\
    match res with
    | None => bc' = bc
    | Some _ => 4 <= bc' <= length /\ bc' mod 4 = 0
    end.
Proof.
  intros Hm Hl. unfold parsePacket. destruct (Z.ltb_spec length 4); [by eexists _, _|].
  destruct (readWord_total (_byteOrder c) m 0) as (w & Hw & Hwb); [done|lia..|].
  rewrite peekWord0_readWord, Hw, bind_ret.
  assert (∀ k : Z, (4 * k) mod 4 = 0) as H4 by (intros; rewrite Z.mul_comm; apply Z.mod_mul; lia).
  destruct (isDataPacket _).
  { destruct (SFeqb (_scaleFactor c) (S754_zero false)) eqn:Hsc.
    { unfold SignalDataPacket.decode. rewrite Hsc, orb_true_r, bind_ret. by eexists _, _. }
    destruct (SignalDataPacket.signal_decode_outcome m length (_byteOrder c) (_scaleFactor c) bc)
      as (res & bc' & -> & H' & _); [done..|]. rewrite bind_ret.
    destruct res as [[h s]|]; [|by eexists _, _]. destruct H' as (_ & _ & ? & -> & ? & _).
    eexists _, _. split; [done|]. rewrite Z.mul_comm, H4. lia. }
  destruct (isContextPacket _).
  { destruct (ContextPacket.context_decode_outcome m length (_byteOrder c) bc)
      as (res & bc' & -> & H' & _); [done..|]. rewrite bind_ret.
    destruct res as [[h f]|]; [|by eexists _, _]. destruct H' as (_ & _ & ? & -> & ? & _).
    eexists _, _. split; [done|]. rewrite Z.mul_comm, H4. lia. }
  set (sz := u16 (Z.land w 0xFFFF)). pose proof (u16_bound (Z.land w 0xFFFF)). fold sz in H0.
  rewrite u64_small by lia. case_bool; [by eexists _, _|]. bool_prop.
  eexists _, _. split; [done|]. rewrite Z.mul_comm, H4. lia.
Qed.

(** * parseStream against its specification

    The packets of a buffer: parse one, step over the bytes it consumed, go on
    with the rest; stop at the first position where no packet parses. *)

Inductive Parses (c : Vita49Codec) : list Z -> Z -> list ParsedPacket -> Prop :=
  | Parses_stop m length :
      (∃ bc, parsePacket c (Some m) length 0 = Some (None, bc)) -> Parses c m length []
  | Parses_step m length p n ps :
      parsePacket c (Some m) length 0 = Some (Some p, n) ->
      Parses c (ptr_add m n) (length - n) ps -> Parses c m length (p :: ps).

Lemma Parses_det c m length ps qs : Parses c m length ps -> Parses c m length qs -> ps = qs.
Proof.
  intros H. revert qs. induction H as [m length [bc E]|m length p n ps E _ IH];
    intros qs H; inversion H; subst; try done; simplify_eq; f_equal; auto.
  by destruct H0; simplify_eq.
Qed.

Lemma parsePacket_short c m length bc :
  length < 4 -> parsePacket c (Some m) length bc = Some (None, bc).
Proof. intros. unfold parsePacket. by rewrite (proj2 (Z.ltb_lt _ _)). Qed.

Lemma parseLoop_spec fuel c m length offset acc :
  bytes_ok m -> 0 <= offset <= length -> length <= zlen m ->
  (Z.to_nat (length - offset) < fuel)%nat ->
  ∃ ps, parseLoop fuel c m length offset acc = Some (acc ++ ps) /\
    Parses c (ptr_add m offset) (length - offset) ps.
Proof.
  intros Hm. revert offset acc. induction fuel as [|fuel IH]; intros offset acc Ho Hl Hf; [lia|].
  cbn [parseLoop]. destruct (Z.ltb_spec offset length) as [Hlt|Hge]; cbn [negb]; cycle 1.
  { exists []. rewrite app_nil_r. split; [done|]. constructor. exists 0. apply parsePacket_short. lia. }
  destruct (Z.ltb_spec (length - offset) 4).
  { exists []. rewrite app_nil_r. split; [done|]. constructor. exists 0. apply parsePacket_short. lia. }
  destruct (parsePacket_outcome c (ptr_add m offset) (length - offset) 0) as (res & n & E & Hr).
  { by apply bytes_ok_ptr_add. }
  { rewrite zlen_ptr_add by lia. lia. }
  rewrite E, bind_ret. destruct res as [p|].
  - destruct Hr as [Hr _]. rewrite (proj2 (Z.eqb_neq _ _)) by lia.
    destruct (IH (offset + n) (acc ++ [p])) as (ps & -> & Hps); [lia..|].
    exists (p :: ps). rewrite <- (assoc_L (++)). split; [done|].
    eapply Parses_step; [done|]. rewrite ptr_add_add by lia.
    by replace (length - offset - n) with (length - (offset + n)) by lia.
  - exists []. rewrite app_nil_r. split; [done|]. constructor. eauto.
Qed.

Lemma parseStream_spec c m length :
  bytes_ok m -> 0 <= length <= zlen m ->
  ∃ ps, parseStream c (Some m) length = Some ps /\ Parses c m length ps.
Proof.
  intros Hm Hl. unfold parseStream. destruct (Z.eqb_spec length 0) as [->|].
  - exists []. split; [done|]. constructor. exists 0. by apply parsePacket_short.
  - destruct (parseLoop_spec (parseStream_fuel length) c m length 0 []) as (ps & -> & Hps);
      [done|lia|lia|unfold parseStream_fuel; lia|].
    exists ps. split; [done|]. by rewrite Z.sub_0_r in Hps.
Qed.

Lemma parseStream_iff c m length ps :
  bytes_ok m -> 0 <= length <= zlen m ->
  parseStream c (Some m) length = Some ps <-> Parses c m length ps.
Proof.
  intros Hm Hl. destruct (parseStream_spec c m length Hm Hl) as (qs & E & H). rewrite E.
  split; [by intros [= <-]|]. intros H'. f_equal. by eapply Parses_det.
Qed.

(** * Framed packets

    A byte string that parses as one packet, whatever bytes follow it. *)

Definition framed (c : Vita49Codec) (pkt : list Z) (p : ParsedPacket) : Prop :=
  bytes_ok pkt /\ 4 <= zlen pkt /\
  ∀ r length bc, bytes_ok r -> zlen pkt <= length <= zlen (pkt ++ r) ->
    parsePacket c (Some (pkt ++ r)) length bc = Some (Some p, zlen pkt).

Lemma Parses_framed c pkt p r length ps :
  framed c pkt p -> bytes_ok r -> 0 <= length <= zlen r ->
  Parses c r length ps -> Parses c (pkt ++ r) (zlen pkt + length) (p :: ps).
Proof.
  intros (Hb & H4 & Hp) Hr Hl H. eapply Parses_step.
  - apply Hp; [done|]. autorewrite with zlen. lia.
  - rewrite ptr_add_app. by replace (zlen pkt + length - zlen pkt) with length by lia.
Qed.

Lemma framed_concat_bytes c pkts ps : Forall2 (framed c) pkts ps -> bytes_ok (concat pkts).
Proof.
  induction 1 as [|pkt p pkts ps (Hb & _) _ IH]; cbn [concat]; [done|]. by apply Forall_app.
Qed.

Lemma Parses_concat c pkts ps r length qs :
  Forall2 (framed c) pkts ps -> bytes_ok r -> 0 <= length <= zlen r ->
  Parses c r length qs ->
  Parses c (concat pkts ++ r) (zlen (concat pkts) + length) (ps ++ qs).
Proof.
  intros H Hr Hl Hq. induction H as [|pkt p pkts ps Hp H IH]; [done|].
  cbn [concat app]. rewrite <- (assoc_L (++)), zlen_app, <- Z.add_assoc.
  pose proof (framed_concat_bytes _ _ _ H). pose proof (zlen_nonneg (concat pkts)).
  apply Parses_framed; [done|by apply Forall_app|autorewrite with zlen; lia|done].
Qed.

Lemma parseStream_concat c pkts ps r length qs :
  Forall2 (framed c) pkts ps -> bytes_ok r -> 0 <= length <= zlen r ->
  parseStream c (Some r) length = Some qs ->
  parseStream c (Some (concat pkts ++ r)) (zlen (concat pkts) + length) = Some (ps ++ qs).
Proof.
  intros H Hr Hl Hq. pose proof (framed_concat_bytes _ _ _ H).
  pose proof (zlen_nonneg (concat pkts)). apply parseStream_iff.
  - by apply Forall_app.
  - autorewrite with zlen. lia.
  - apply Parses_concat; [done..|]. by apply parseStream_iff.
Qed.

(** ** Encoded packets are framed *)

Section encoded.
Context (unspec : float -> Z) (c : Vita49Codec) (sid : Z) (tsi : TSI) (tsf : TSF).
Context (intTs fracTs : Z) (trailer : bool).
Context (Hsid : 0 <= sid < 4294967296) (Hint : 0 <= intTs < 4294967296)
  (Hfrac : 0 <= fracTs < 18446744073709551616).

Definition data_packet (chunk : IQSamples) (count : Z) : ParsedPacket :=
  mkParsedPacket SignalData
    (SignalDataPacket.data_header sid chunk count tsi tsf intTs fracTs trailer) chunk
    defaultContextFields.

Lemma encodeChunk_framed chunk count :
  SFeqb (_scaleFactor c) (S754_zero false) = false ->
  SignalDataPacket.data_words tsi tsf trailer (zlen chunk) <= 65535 ->
  ∃ pkt, encodeChunk unspec c sid tsi tsf intTs fracTs trailer chunk count = Some pkt /\
    framed c pkt (data_packet (SignalDataPacket.requantize unspec (_scaleFactor c) <$> chunk) count) /\
    zlen pkt = SignalDataPacket.data_words tsi tsf trailer (zlen chunk) * 4.
Proof.
  intros Hnz Hw.
  pose proof (SignalDataPacket.signal_decode_encoded unspec sid chunk count (_byteOrder c)
    (_scaleFactor c) tsi tsf intTs fracTs trailer [] 0 0 Hnz Hw Hsid Hint Hfrac ltac:(done))
    as (pkt & He & Hb & Hz & _).
  pose proof (zlen_nonneg chunk).
  pose proof (SignalDataPacket.data_words_0_bound tsi tsf trailer).
  pose proof (SignalDataPacket.data_words_add tsi tsf trailer (zlen chunk)).
  exists pkt. split; [done|]. split; [|done]. split; [done|]. split; [lia|].
  intros r length bc Hr Hl.
  destruct (SignalDataPacket.signal_decode_encoded unspec sid chunk count (_byteOrder c)
    (_scaleFactor c) tsi tsf intTs fracTs trailer r length bc Hnz Hw Hsid Hint Hfrac Hr)
    as (pkt' & He' & _ & _ & Hd).
  rewrite He in He'. injection He' as <-.
  apply parsePacket_data; [by apply Forall_app|lia| |done].
  unfold SignalDataPacket.data_header, zlen. rewrite length_fmap. apply Hd. lia.
Qed.

(** A packet that announces [fields] and gives its receiver [fields']. *)
Definition context_packet (fields fields' : ContextFields) (count : Z) : ParsedPacket :=
  mkParsedPacket Context_
    (ContextPacket.context_header sid fields count (_byteOrder c) tsi tsf intTs fracTs) [] fields'.

Lemma encodeContext_framed fields count :
  ContextPacket.encodable fields -> ContextPacket.words_ok fields ->
  ∃ pkt, encodeContext c sid tsi tsf intTs fracTs fields count = Some pkt /\
    framed c pkt (context_packet fields (ContextPacket.received fields) count).
Proof.
  intros He Hw.
  pose proof (ContextPacket.context_decode_encoded sid fields count (_byteOrder c) tsi tsf intTs fracTs
    [] 0 0 He Hw Hsid Hint Hfrac ltac:(done)) as (pkt & Hp & Hb & Hz & _).
  pose proof (ContextPacket.context_words_bound fields (_byteOrder c) tsi tsf He).
  exists pkt. split; [done|]. split; [done|]. split; [lia|].
  intros r length bc Hr Hl.
  destruct (ContextPacket.context_decode_encoded sid fields count (_byteOrder c) tsi tsf intTs fracTs
    r length bc He Hw Hsid Hint Hfrac Hr) as (pkt' & Hp' & _ & _ & Hd).
  rewrite Hp in Hp'. injection Hp' as <-.
  apply parsePacket_context; [by apply Forall_app|lia|]. apply Hd. lia.
Qed.
End encoded.

(** * Splitting a sample vector *)

Section split.
Context (sid : Z) (tsi : TSI) (tsf : TSF) (intTs fracTs : Z) (trailer : bool).
Context (smp : IQSamples).
#[local] Abbreviation data_packet := (data_packet sid tsi tsf intTs fracTs trailer).
#[local] Abbreviation maxPer := (SignalDataPacket.maxSamplesPerPacket tsi tsf false trailer).

Lemma maxPer_bound : 65529 <= maxPer <= 65533.
Proof.
  rewrite SignalDataPacket.maxSamplesPerPacket_words.
  pose proof (SignalDataPacket.data_words_0_bound tsi tsf trailer). lia.
Qed.

Lemma data_packet_mod chunk a b : a mod 16 = b mod 16 -> data_packet chunk a = data_packet chunk b.
Proof.
  intros E. unfold Vita49Codec.data_packet, SignalDataPacket.data_header, buildHeader.
  by rewrite !land_15, E.
Qed.

(** Packet number i of the vector from [offset] on. *)
Definition split_packet (offset start i : Z) : ParsedPacket :=
  data_packet (take (Z.to_nat maxPer) (drop (Z.to_nat (offset + i * maxPer)) smp)) (start + i).

Definition split_count (n : Z) : Z := (n + maxPer - 1) / maxPer.

Lemma split_count_step n : 0 < n -> split_count n = 1 + split_count (Z.max 0 (n - maxPer)).
Proof.
  pose proof maxPer_bound. unfold split_count. intros. 
  destruct (Z.le_gt_cases maxPer n).
  - rewrite Z.max_r by lia.
    replace (n + maxPer - 1) with (1 * maxPer + (n - maxPer + maxPer - 1)) by lia.
    by rewrite Z.div_add_l by lia.
  - rewrite Z.max_l by lia. rewrite (Z.div_small (0 + maxPer - 1)) by lia.
    replace (n + maxPer - 1) with (1 * maxPer + (n - 1)) by lia.
    rewrite Z.div_add_l, Z.div_small by lia. lia.
Qed.

Lemma split_count_0 : split_count 0 = 0.
Proof. pose proof maxPer_bound. unfold split_count. apply Z.div_small. lia. Qed.

Definition split_packets (offset start : Z) : list ParsedPacket :=
  (λ i, split_packet offset start (Z.of_nat i)) <$>
    seq 0 (Z.to_nat (split_count (Z.max 0 (zlen smp - offset)))).

Lemma split_packets_nil offset start : zlen smp <= offset -> split_packets offset start = [].
Proof.
  intros. unfold split_packets. rewrite Z.max_l by lia. by rewrite split_count_0.
Qed.

Lemma split_count_nonneg n : 0 <= n -> 0 <= split_count n.
Proof. pose proof maxPer_bound. intros. apply Z.div_pos; lia. Qed.

Lemma split_packets_step offset start :
  0 <= offset < zlen smp ->
  split_packets offset start =
    data_packet (take (Z.to_nat maxPer) (drop (Z.to_nat offset) smp)) start
    :: split_packets (offset + maxPer) ((start + 1) mod 16).
Proof.
  intros Ho. pose proof maxPer_bound. unfold split_packets at 1.
  rewrite split_count_step by lia.
  pose proof (split_count_nonneg (Z.max 0 (Z.max 0 (zlen smp - offset) - maxPer)) ltac:(lia)).
  replace (Z.to_nat (1 + _)) with (S (Z.to_nat (split_count (Z.max 0 (zlen smp - (offset + maxPer))))))
    by (replace (Z.max 0 (Z.max 0 (zlen smp - offset) - maxPer))
          with (Z.max 0 (zlen smp - (offset + maxPer))) in * by lia; lia).
  cbn [seq fmap list_fmap]. f_equal.
  - unfold split_packet. by rewrite Z.mul_0_l, !Z.add_0_r.
  - rewrite <- seq_shift. unfold split_packets. rewrite <- list_fmap_compose.
    apply list_fmap_ext. intros _ i _. cbn [compose]. unfold split_packet.
    replace (offset + Z.of_nat (S i) * maxPer) with (offset + maxPer + Z.of_nat i * maxPer) by lia.
    apply data_packet_mod. rewrite Zplus_mod_idemp_l. f_equal. lia.
Qed.

(** The packets carry the samples, in order and without loss. *)
Lemma split_packets_samples n offset start :
  (Z.to_nat (zlen smp - offset) <= n)%nat -> 0 <= offset ->
  concat (samples <$> split_packets offset start) = drop (Z.to_nat offset) smp.
Proof.
  pose proof maxPer_bound. revert offset start. induction n as [|n IH]; intros offset start Hn Ho.
  - rewrite split_packets_nil by lia. cbn. symmetry. apply drop_ge. unfold zlen in *. lia.
  - destruct (Z.le_gt_cases (zlen smp) offset).
    + rewrite split_packets_nil by lia. cbn. symmetry. apply drop_ge. unfold zlen in *. lia.
    + rewrite split_packets_step by lia. cbn [fmap list_fmap concat].
      fold (samples <$> split_packets (offset + maxPer) ((start + 1) mod 16)).
      rewrite IH by lia. cbn [samples Vita49Codec.data_packet].
      replace (Z.to_nat (offset + maxPer)) with (Z.to_nat offset + Z.to_nat maxPer)%nat by lia.
      rewrite <- drop_drop. apply take_drop.
Qed.

(** A non-empty vector becomes the packets of [split_packets]; an empty one
    becomes a single packet without payload. *)
Definition signal_packets (start : Z) : list ParsedPacket :=
  match smp with [] => [data_packet [] start] | _ => split_packets 0 start end.
End split.

(** Encoding any samples gives the packets of the samples their receiver gets. *)
Section encode_split.
Context (unspec : float -> Z) (c : Vita49Codec) (sid : Z) (tsi : TSI) (tsf : TSF).
Context (intTs fracTs : Z) (trailer : bool).
Context (Hsid : 0 <= sid < 4294967296) (Hint : 0 <= intTs < 4294967296)
  (Hfrac : 0 <= fracTs < 18446744073709551616).
Context (Hscale : SFeqb (_scaleFactor c) (S754_zero false) = false).
Context (smp : IQSamples).
#[local] Abbreviation maxPer := (SignalDataPacket.maxSamplesPerPacket tsi tsf false trailer).
#[local] Abbreviation received := (SignalDataPacket.requantize unspec (_scaleFactor c) <$> smp).
#[local] Abbreviation split_packets := (split_packets sid tsi tsf intTs fracTs trailer received).

Lemma zlen_received : zlen received = zlen smp.
Proof. unfold zlen. by rewrite length_fmap. Qed.

Lemma chunk_framed offset count :
  0 <= offset < zlen smp ->
  let chunk := take (Z.to_nat maxPer) (drop (Z.to_nat offset) smp) in
  ∃ pkt, encodeChunk unspec c sid tsi tsf intTs fracTs trailer chunk count = Some pkt /\
    framed c pkt (data_packet sid tsi tsf intTs fracTs trailer
                    (take (Z.to_nat maxPer) (drop (Z.to_nat offset) received)) count) /\ pkt <> [].
Proof.
  intros Ho chunk. pose proof (maxPer_bound tsi tsf trailer).
  destruct (encodeChunk_framed unspec c sid tsi tsf intTs fracTs trailer Hsid Hint Hfrac chunk count)
    as (pkt & He & Hp & _).
  - done.
  - rewrite SignalDataPacket.data_words_add.
    pose proof (SignalDataPacket.maxSamplesPerPacket_words tsi tsf trailer).
    unfold chunk, zlen. rewrite length_take. lia.
  - exists pkt. split; [done|]. rewrite <- fmap_drop, <- fmap_take. split; [done|].
    destruct Hp as (_ & ? & _). intros ->. change (zlen []) with 0 in *. lia.
Qed.

Lemma encodeLoop_spec fuel offset count result :
  0 <= offset -> 0 <= count -> (Z.to_nat (zlen smp - offset) < fuel)%nat ->
  ∃ pkts,
    encodeLoop unspec c sid tsi tsf intTs fracTs trailer fuel maxPer smp offset count result
    = Some (result ++ concat pkts) /\
    Forall2 (framed c) pkts (split_packets offset count).
Proof.
  revert offset count result. induction fuel as [|fuel IH]; intros offset count result Ho Hc Hf; [lia|].
  pose proof (maxPer_bound tsi tsf trailer). pose proof zlen_received as Hz. cbn [encodeLoop].
  destruct (Z.ltb_spec offset (zlen smp)); cbn [negb]; cycle 1.
  { exists []. rewrite split_packets_nil by lia. split; [by rewrite app_nil_r|constructor]. }
  destruct (chunk_framed offset count ltac:(lia)) as (pkt & He & Hp & Hne).
  assert (take (Z.to_nat (Z.min maxPer (zlen smp - offset))) (drop (Z.to_nat offset) smp)
    = take (Z.to_nat maxPer) (drop (Z.to_nat offset) smp)) as ->.
  { destruct (Z.le_gt_cases maxPer (zlen smp - offset)); [by rewrite Z.min_l|].
    rewrite !take_ge; [done| |]; rewrite length_drop; unfold zlen in *; lia. }
  rewrite He, bind_ret. destruct pkt as [|b pkt]; [done|].
  assert (u8 (Z.land (count + 1) 0xF) = (count + 1) mod 16) as ->.
  { rewrite land_15. apply u8_small. divmod. }
  destruct (Z.le_gt_cases maxPer (zlen smp - offset)).
  - rewrite Z.min_l by lia.
    destruct (IH (offset + maxPer) ((count + 1) mod 16) (result ++ b :: pkt)) as (pkts & -> & Hpk);
      [lia|divmod|lia|].
    exists ((b :: pkt) :: pkts). cbn [concat]. rewrite <- (assoc_L (++)). split; [done|].
    rewrite split_packets_step by lia. by constructor.
  - rewrite Z.min_r by lia.
    destruct (IH (offset + (zlen smp - offset)) ((count + 1) mod 16) (result ++ b :: pkt))
      as (pkts & -> & Hpk); [lia|divmod|lia|].
    exists ((b :: pkt) :: pkts). cbn [concat]. rewrite <- (assoc_L (++)). split; [done|].
    rewrite split_packets_step, split_packets_nil by lia.
    rewrite split_packets_nil in Hpk by lia. by constructor.
Qed.

Lemma encodeSignalData_received start :
  0 <= start ->
  ∃ pkts, encodeSignalData unspec c sid tsi tsf intTs fracTs trailer smp start = Some (concat pkts) /\
    Forall2 (framed c) pkts (signal_packets sid tsi tsf intTs fracTs trailer received start).
Proof.
  intros Hs. pose proof (maxPer_bound tsi tsf trailer) as Hmax. unfold encodeSignalData, signal_packets.
  rewrite (proj2 (Z.eqb_neq _ _)) by lia.
  destruct (encodeLoop_spec (S (length smp)) 0 start []) as (pkts & Hl & Hpk); [lia..|unfold zlen; lia|].
  rewrite Hl, bind_ret. destruct smp as [|s rest] eqn:E; [|by exists pkts].
  destruct (encodeChunk_framed unspec c sid tsi tsf intTs fracTs trailer Hsid Hint Hfrac [] start)
    as (pkt & -> & Hp & _); [done..| |].
  { pose proof (SignalDataPacket.data_words_0_bound tsi tsf trailer). change (zlen []) with 0. lia. }
  exists [pkt]. cbn [concat]. rewrite app_nil_r. split; [done|]. constructor; [done|constructor].
Qed.
End encode_split.

Lemma encodeSignalData_spec unspec c sid tsi tsf intTs fracTs trailer :
  0 <= sid < 4294967296 -> 0 <= intTs < 4294967296 -> 0 <= fracTs < 18446744073709551616 ->
  usable_scale (_scaleFactor c) = true ->
  ∀ smp, Forall (SignalDataPacket.sample_ok (_scaleFactor c)) smp -> ∀ start, 0 <= start ->
  ∃ pkts, encodeSignalData unspec c sid tsi tsf intTs fracTs trailer smp start = Some (concat pkts) /\
    Forall2 (framed c) pkts (signal_packets sid tsi tsf intTs fracTs trailer smp start).
Proof.
  intros ??? Hp smp Hsmp start Hst.
  destruct (encodeSignalData_received unspec c sid tsi tsf intTs fracTs trailer) with (smp := smp) (start := start)
    as (pkts & E & Hf); try done; [by apply SignalDataPacket.usable_nonzero|].
  rewrite SignalDataPacket.requantize_id in Hf by done. by exists pkts.
Qed.

(** * What parseStream returns *)

Definition packet_ok (c : Vita49Codec) (p : ParsedPacket) : Prop :=
  match type p with
  | SignalData => header_wf (header p) /\ Forall (SignalDataPacket.sample_ok (_scaleFactor c)) (samples p)
  | Context_ => header_wf (header p) /\ samples p = []
  | Unknown => samples p = []
  end.

Lemma parsePacket_ok c m length bc p n :
  bytes_ok m -> length <= zlen m -> parsePacket c (Some m) length bc = Some (Some p, n) -> packet_ok c p.
Proof.
  intros Hm Hl. unfold parsePacket. destruct (length <? 4); [done|].
  intros (w & _ & H)%bind_Some. revert H. destruct (isDataPacket _).
  { intros ([d bc'] & Hd & H)%bind_Some. destruct d as [d|]; [|done]. injection H as <- <-.
    destruct (SFeqb (_scaleFactor c) (S754_zero false)) eqn:Hsc.
    { unfold SignalDataPacket.decode in Hd. by rewrite Hsc, orb_true_r in Hd. }
    destruct (SignalDataPacket.signal_decode_outcome m length (_byteOrder c) (_scaleFactor c) bc)
      as (res & bc'' & E & H' & _); [done..|]. rewrite Hd in E. injection E as <- <-.
    destruct d as [h s]. destruct H' as (_ & Hwf & _ & _ & _ & _ & raws & Hraws & -> & _).
    split; [done|]. cbn [samples SignalDataPacket.result_samples]. apply Forall_fmap.
    eapply Forall_impl; [|exact Hraws]. intros rw Hrw. by exists rw. }
  destruct (isContextPacket _).
  { intros ([d bc'] & Hd & H)%bind_Some. destruct d as [d|]; [|done]. injection H as <- <-.
    destruct (ContextPacket.context_decode_outcome m length (_byteOrder c) bc)
      as (res & bc'' & E & H' & _); [done..|]. rewrite Hd in E. injection E as <- <-.
    destruct d as [h f]. destruct H' as (_ & Hwf & _). by split. }
  case_bool; [done|]. by intros [= <- <-].
Qed.

Lemma Parses_ok c m length ps :
  bytes_ok m -> length <= zlen m -> Parses c m length ps -> Forall (packet_ok c) ps.
Proof.
  intros Hm Hl H. induction H as [m length _|m length p n ps E _ IH]; [done|].
  destruct (parsePacket_outcome c m length 0 Hm Hl) as (res & n' & E' & Hr).
  rewrite E in E'. injection E' as <- <-. constructor; [by eapply parsePacket_ok|].
  apply IH; [by apply bytes_ok_ptr_add|]. rewrite zlen_ptr_add; lia.
Qed.

(** A byte string that parses as one packet with property [P]. *)
Definition parses_as (c : Vita49Codec) (pkt : list Z) (P : ParsedPacket -> Prop) : Prop :=
  bytes_ok pkt /\ 4 <= zlen pkt /\
  ∀ r length bc, bytes_ok r -> zlen pkt <= length <= zlen (pkt ++ r) ->
    ∃ p, parsePacket c (Some (pkt ++ r)) length bc = Some (Some p, zlen pkt) /\ P p.

Lemma framed_parses_as c pkt p : framed c pkt p -> parses_as c pkt (eq p).
Proof. intros (? & ? & H). split; [done|]. split; [done|]. intros r length bc Hr Hl. exists p. by rewrite H. Qed.

Lemma parses_as_bytes c pkts Ps : Forall2 (parses_as c) pkts Ps -> bytes_ok (concat pkts).
Proof. induction 1 as [|pkt P pkts Ps (Hb & _) _ IH]; cbn [concat]; [done|]. by apply Forall_app. Qed.

Lemma parseStream_as c pkts Ps :
  Forall2 (parses_as c) pkts Ps ->
  ∃ ps, parseStream c (Some (concat pkts)) (zlen (concat pkts)) = Some ps /\ Forall2 (λ (P : _ -> Prop) p, P p) Ps ps.
Proof.
  intros H. assert (∃ ps, Parses c (concat pkts) (zlen (concat pkts)) ps /\ Forall2 (λ (P : _ -> Prop) p, P p) Ps ps)
    as (ps & Hp & HP).
  { induction H as [|pkt P pkts Ps (Hb & H4 & Hp) H (ps & IH & HP)].
    { exists []. split; [|done]. constructor. exists 0. by apply parsePacket_short. }
    cbn [concat]. destruct (Hp (concat pkts) (zlen (pkt ++ concat pkts)) 0) as (p & E & Hpp).
    { by eapply parses_as_bytes. }
    { rewrite zlen_app. pose proof (zlen_nonneg (concat pkts)). lia. }
    exists (p :: ps). split; [|by constructor]. eapply Parses_step; [exact E|].
    rewrite ptr_add_app, zlen_app. by replace (_ + _ - _) with (zlen (concat pkts)) by lia. }
  exists ps. split; [|done]. apply parseStream_iff; [by eapply parses_as_bytes| |done].
  pose proof (zlen_nonneg (concat pkts)). lia.
Qed.

Lemma encodeContext_parses_as c sid tsi tsf intTs fracTs fields count pkt :
  ContextPacket.encodable fields -> 0 <= sid < 4294967296 -> 0 <= intTs < 4294967296 ->
  0 <= fracTs < 18446744073709551616 ->
  encodeContext c sid tsi tsf intTs fracTs fields count = Some pkt ->
  parses_as c pkt (λ p, type p = Context_).
Proof.
  intros He Hs Hi Hf E.
  destruct (ContextPacket.context_decode_encodable sid fields count (_byteOrder c) tsi tsf intTs fracTs
    [] (zlen pkt) 0 pkt) as (Hb & H12 & _); [done..|rewrite app_nil_r; lia|].
  split; [done|]. split; [lia|]. intros r length bc Hr Hl.
  destruct (ContextPacket.context_decode_encodable sid fields count (_byteOrder c) tsi tsf intTs fracTs
    r length bc pkt) as (_ & _ & f' & Hd); [done..|].
  eexists. split; [eapply parsePacket_context; [by apply Forall_app|lia|exact Hd]|done].
Qed.

(** The packets of a split vector hold its samples. *)
Lemma signal_packets_samples sid tsi tsf intTs fracTs trailer smp start :
  Forall (λ p, type p = SignalData) (signal_packets sid tsi tsf intTs fracTs trailer smp start) /\
  concat (samples <$> signal_packets sid tsi tsf intTs fracTs trailer smp start) = smp.
Proof.
  unfold signal_packets. destruct smp as [|s rest] eqn:E; [by repeat constructor|]. rewrite <- E. split.
  - apply Forall_fmap. by apply Forall_true.
  - apply (split_packets_samples sid tsi tsf intTs fracTs trailer smp) with (n := length smp); unfold zlen; lia.
Qed.

Lemma signal_packets_length sid tsi tsf intTs fracTs trailer smp start :
  let maxPer := SignalDataPacket.maxSamplesPerPacket tsi tsf false trailer in
  zlen (signal_packets sid tsi tsf intTs fracTs trailer smp start)
  = Z.max 1 ((zlen smp + maxPer - 1) / maxPer).
Proof.
  intros maxPer. pose proof (maxPer_bound tsi tsf trailer) as Hm. fold maxPer in Hm.
  unfold signal_packets. destruct smp as [|s rest] eqn:E.
  { change (zlen []) with 0. by rewrite Z.div_small by lia. }
  rewrite <- E in *. assert (0 < zlen smp) by (rewrite E; unfold zlen; cbn; lia).
  assert (1 <= (zlen smp + maxPer - 1) / maxPer) by (apply Z.div_le_lower_bound; lia).
  unfold split_packets. unfold zlen at 1. rewrite length_fmap, length_seq.
  unfold split_count. fold maxPer. rewrite Z.sub_0_r, (Z.max_r 0) by lia. lia.
Qed.

(** * Streams of encoder calls *)

(** One call of an encoder of the codec, with its arguments. *)
Inductive StreamItem : Type :=
  | SignalItem (sid : Z) (smp : IQSamples) (start : Z) (tsi : TSI) (tsf : TSF) (intTs fracTs : Z) (trailer : bool)
  | ContextItem (sid : Z) (fields : ContextFields) (count : Z) (tsi : TSI) (tsf : TSF) (intTs fracTs : Z).

Section stream.
Context (unspec : float -> Z) (c : Vita49Codec).

Definition encodeItem (it : StreamItem) : option (list Z) :=
  match it with
  | SignalItem sid smp start tsi tsf intTs fracTs trailer =>
      encodeSignalData unspec c sid tsi tsf intTs fracTs trailer smp start
  | ContextItem sid fields count tsi tsf intTs fracTs => encodeContext c sid tsi tsf intTs fracTs fields count
  end.

(** The packets a receiver of the call may get: the samples as int16 over the
    scale, the fields as fixed-point values. *)
Definition item_parses (it : StreamItem) (ps : list ParsedPacket) : Prop :=
  match it with
  | SignalItem sid smp start tsi tsf intTs fracTs trailer =>
      ∃ received, ps = signal_packets sid tsi tsf intTs fracTs trailer received start /\
        Forall2 (SignalDataPacket.carried_sample (_scaleFactor c)) smp received /\
        (usable_scale (_scaleFactor c) = true -> Forall (SignalDataPacket.sample_ok (_scaleFactor c)) smp ->
         received = smp)
  | ContextItem sid fields count tsi tsf intTs fracTs =>
      ∃ fields', ps = [context_packet c sid tsi tsf intTs fracTs fields fields' count] /\
        ContextPacket.carried_fields fields fields' /\ (ContextPacket.fields_ok fields -> fields' = fields)
  end.

(** Arguments of the C++ types, and no context value out of range. *)
Definition item_ok (it : StreamItem) : Prop :=
  match it with
  | SignalItem sid _ start _ _ intTs fracTs _ =>
      0 <= sid < 4294967296 /\ 0 <= start /\ 0 <= intTs < 4294967296 /\ 0 <= fracTs < 18446744073709551616
  | ContextItem sid fields _ _ _ intTs fracTs =>
      0 <= sid < 4294967296 /\ 0 <= intTs < 4294967296 /\ 0 <= fracTs < 18446744073709551616 /\
      ContextPacket.fields_typed fields /\ ContextPacket.fields_in_range fields
  end.

(** Concatenated outputs of the calls. *)
Fixpoint encodeItems (its : list StreamItem) : option (list Z) :=
  match its with
  | [] => Some []
  | it :: its => out ← encodeItem it; rest ← encodeItems its; Some (out ++ rest)
  end.

Lemma encodeItem_framed it :
  SFeqb (_scaleFactor c) (S754_zero false) = false -> item_ok it ->
  ∃ pkts ps, encodeItem it = Some (concat pkts) /\ Forall2 (framed c) pkts ps /\ item_parses it ps.
Proof.
  intros Hsc. destruct it as [sid smp start tsi tsf intTs fracTs trailer|sid fields count tsi tsf intTs fracTs];
    cbn [item_ok].
  - intros (Hs & Hst & Hi & Hf).
    destruct (encodeSignalData_received unspec c sid tsi tsf intTs fracTs trailer Hs Hi Hf Hsc smp start Hst)
      as (pkts & He & Hp).
    eexists pkts, _. split; [exact He|]. split; [exact Hp|].
    exists (SignalDataPacket.requantize unspec (_scaleFactor c) <$> smp). split; [done|].
    split; [apply SignalDataPacket.requantize_carried|apply SignalDataPacket.requantize_id].
  - intros (Hs & Hi & Hf & Ht & Hr%ContextPacket.encodable_in_range); [|done].
    destruct (encodeContext_framed c sid tsi tsf intTs fracTs Hs Hi Hf fields count Hr
      (ContextPacket.fields_typed_words _ Ht)) as (pkt & He & Hp).
    eexists [pkt], [_]. cbn [concat]. rewrite app_nil_r. split; [done|].
    split; [constructor; [exact Hp|constructor]|].
    exists (ContextPacket.received fields). split; [done|].
    split; [by apply ContextPacket.received_carried|apply ContextPacket.received_id].
Qed.

Lemma encodeItems_framed its :
  SFeqb (_scaleFactor c) (S754_zero false) = false -> Forall item_ok its ->
  ∃ pkts pss, encodeItems its = Some (concat pkts) /\ Forall2 (framed c) pkts (concat pss) /\
    Forall2 item_parses its pss.
Proof.
  intros Hsc H. induction H as [|it its Hit _ (pkts & pss & IH & Hp & Hps)]; [by exists [], []|].
  destruct (encodeItem_framed it Hsc Hit) as (pk & ps & He & Hpk & Hpi).
  exists (pk ++ pkts), (ps :: pss). cbn [encodeItems concat]. rewrite He, bind_ret, IH, bind_ret.
  rewrite concat_app. split; [done|]. split; [by apply Forall2_app|by constructor].
Qed.
End stream.

(** * Properties *)

(** C2: any sequence of encodeSignalData and encodeContext calls, each with its
    own arguments, at any non-zero scale; their outputs, concatenated and followed
    by arbitrary bytes, parse back to exactly the packets of the calls, followed
    by whatever the tail parses to.  Samples are received as the int16 their scaled
    values round to, clamped (some int16 when that does not fit an int), over the
    scale; context values rounded to their fixed-point formats; both unchanged when
    they are such values already (samples: at scales from 2^-103 up to 2^124). *)
Theorem codec_stream_roundtrip unspec c its r qs :
  SFeqb (_scaleFactor c) (S754_zero false) = false -> Forall item_ok its -> bytes_ok r ->
  parseStream c (Some r) (zlen r) = Some qs ->
  ∃ out pss, encodeItems unspec c its = Some out /\ Forall2 (item_parses c) its pss /\
    parseStream c (Some (out ++ r)) (zlen (out ++ r)) = Some (concat pss ++ qs).
Proof.
  intros Hsc Hits Hr Hq.
  destruct (encodeItems_framed unspec c its Hsc Hits) as (pkts & pss & He & Hp & Hps).
  exists (concat pkts), pss. split; [done|]. split; [done|]. rewrite zlen_app.
  apply parseStream_concat; [done..| |done]. pose proof (zlen_nonneg r). lia.
Qed.

Definition default_codec : Vita49Codec := mkVita49Codec BigEndian DEFAULT_SCALE_FACTOR.

(** The scale of a test, and samples and fields off the grid. *)
Definition test_codec : Vita49Codec := mkVita49Codec LittleEndian (f32_of_Z 1000).

Definition test_items : list StreamItem :=
  [ContextItem 5 ContextPacket.rough_fields 0 TSI_UTC TSF_None 7 0;
   SignalItem 6 SignalDataPacket.odd_iq 1 TSI_None TSF_RealTime 0 9 true].

Lemma codec_stream_roundtrip_witness :
  ∃ out pss, encodeItems (λ _, 0) test_codec test_items = Some out /\
    Forall2 (item_parses test_codec) test_items pss /\
    parseStream test_codec (Some (out ++ [1; 2; 3])) (zlen (out ++ [1; 2; 3])) = Some (concat pss ++ []).
Proof.
  apply codec_stream_roundtrip.
  - by vm_compute.
  - constructor; [|constructor; [|constructor]]; cbn [item_ok]; split_and!; try lia;
      [apply ContextPacket.rough_fields_typed|apply ContextPacket.rough_fields_in_range].
  - repeat constructor; unfold is_byte; lia.
  - vm_compute. reflexivity.
Defined.

(** C6: automatic splitting loses nothing, at any non-zero scale: the packets of
    a sample vector carry its samples in order, each as the int16 its scaled value
    rounds to, clamped (some int16 when that does not fit an int), over the scale,
    unchanged when it is such a value and the scale is from 2^-103 up to 2^124; each packet but the last is full, their number is the quotient
    rounded up (one for an empty vector), packet i has sequence counter
    (start + i) mod 16, and all of them carry the stream ID and the timestamps
    that the call was given, which Vita49Codec.h announces for the first only. *)
Theorem codec_split_lossless unspec c sid tsi tsf intTs fracTs trailer smp start :
  0 <= sid < 4294967296 -> 0 <= intTs < 4294967296 -> 0 <= fracTs < 18446744073709551616 ->
  SFeqb (_scaleFactor c) (S754_zero false) = false -> 0 <= start ->
  let maxPer := SignalDataPacket.maxSamplesPerPacket tsi tsf false trailer in
  ∃ out ps received,
    encodeSignalData unspec c sid tsi tsf intTs fracTs trailer smp start = Some out /\
    parseStream c (Some out) (zlen out) = Some ps /\
    concat (samples <$> ps) = received /\
    Forall2 (SignalDataPacket.carried_sample (_scaleFactor c)) smp received /\
    (usable_scale (_scaleFactor c) = true -> Forall (SignalDataPacket.sample_ok (_scaleFactor c)) smp ->
     received = smp) /\
    zlen ps = Z.max 1 ((zlen smp + maxPer - 1) / maxPer) /\
    ∀ i p, ps !! i = Some p ->
      type p = SignalData /\ streamId (header p) = Some sid /\
      packetCount (header p) = (start + Z.of_nat i) mod 16 /\
      samples p = take (Z.to_nat maxPer) (drop (Z.to_nat (Z.of_nat i * maxPer)) received) /\
      (tsi <> TSI_None -> integerTimestamp (header p) = Some intTs) /\
      (tsf <> TSF_None -> fractionalTimestamp (header p) = Some fracTs).
Proof.
  intros Hs Hi Hf Hsc Hst maxPer.
  pose proof (maxPer_bound tsi tsf trailer) as Hm. fold maxPer in Hm.
  destruct (encodeSignalData_received unspec c sid tsi tsf intTs fracTs trailer Hs Hi Hf Hsc smp
    start Hst) as (pkts & He & Hp).
  set (received := SignalDataPacket.requantize unspec (_scaleFactor c) <$> smp) in *.
  exists (concat pkts), (signal_packets sid tsi tsf intTs fracTs trailer received start), received.
  split; [done|]. split.
  { pose proof (parseStream_concat c pkts _ [] 0 [] Hp ltac:(done) ltac:(done) eq_refl) as Hc.
    by rewrite !app_nil_r, Z.add_0_r in Hc. }
  assert (∀ i chunk, let p := data_packet sid tsi tsf intTs fracTs trailer chunk (start + i) in
    type p = SignalData /\ streamId (header p) = Some sid /\
    packetCount (header p) = (start + i) mod 16 /\ samples p = chunk /\
    (tsi <> TSI_None -> integerTimestamp (header p) = Some intTs) /\
    (tsf <> TSF_None -> fractionalTimestamp (header p) = Some fracTs)) as Hpkt.
  { intros i chunk. cbn -[Z.land]. rewrite land_15. split_and!; try done;
      intros; by rewrite bool_decide_false. }
  assert (zlen received = zlen smp) as Hz by apply zlen_received.
  split; [apply signal_packets_samples|]. split; [apply SignalDataPacket.requantize_carried|].
  split; [apply SignalDataPacket.requantize_id|]. split; [rewrite <- Hz; apply signal_packets_length|].
  clearbody received. unfold signal_packets. destruct received as [|s rest].
  - intros [|i] p; [|done]. intros [= <-]. destruct (Hpkt 0 []) as (?&?&?&?&?&?).
    rewrite Z.add_0_r in *. by rewrite drop_nil, take_nil.
  - intros i p Hip. unfold split_packets in Hip. apply list_lookup_fmap_Some in Hip as (j & -> & Hj).
    apply lookup_seq in Hj as [-> _]. unfold split_packet. apply Hpkt.
Qed.

Lemma codec_split_lossless_witness :
  let maxPer := SignalDataPacket.maxSamplesPerPacket TSI_None TSF_RealTime false false in
  ∃ out ps received,
    encodeSignalData (λ _, 0) test_codec 5 TSI_None TSF_RealTime 0 9 false SignalDataPacket.odd_iq 15 = Some out /\
    parseStream test_codec (Some out) (zlen out) = Some ps /\
    concat (samples <$> ps) = received /\
    Forall2 (SignalDataPacket.carried_sample (_scaleFactor test_codec)) SignalDataPacket.odd_iq received /\
    (usable_scale (_scaleFactor test_codec) = true ->
     Forall (SignalDataPacket.sample_ok (_scaleFactor test_codec)) SignalDataPacket.odd_iq ->
     received = SignalDataPacket.odd_iq) /\
    zlen ps = Z.max 1 ((zlen SignalDataPacket.odd_iq + maxPer - 1) / maxPer) /\
    ∀ i p, ps !! i = Some p ->
      type p = SignalData /\ streamId (header p) = Some 5 /\
      packetCount (header p) = (15 + Z.of_nat i) mod 16 /\
      samples p = take (Z.to_nat maxPer) (drop (Z.to_nat (Z.of_nat i * maxPer)) received) /\
      (TSI_None <> TSI_None -> integerTimestamp (header p) = Some 0) /\
      (TSF_RealTime <> TSF_None -> fractionalTimestamp (header p) = Some 9).
Proof. apply codec_split_lossless; try lia. by vm_compute. Defined.

(** C3: parseStream always terminates without leaving the buffer, whatever the
    bytes: it returns the packets of the specification [Parses], at most one
    per four bytes. *)
Theorem codec_parseStream_refines c m length :
  bytes_ok m -> 0 <= length <= zlen m ->
  ∃ ps, parseStream c (Some m) length = Some ps /\
    (∀ qs, Parses c m length qs <-> qs = ps) /\ 4 * zlen ps <= length.
Proof.
  intros Hm Hl. destruct (parseStream_spec c m length Hm Hl) as (ps & E & H).
  exists ps. split; [done|]. split.
  - intros qs. split; [intros; by eapply Parses_det|by intros ->].
  - clear E. induction H as [m length [bc E]|m length p n ps E H IH]; [change (zlen []) with 0; lia|].
    destruct (parsePacket_outcome c m length 0 Hm ltac:(lia)) as (res & n' & E' & Hr).
    rewrite E in E'. injection E' as <- <-. rewrite zlen_cons.
    assert (4 * zlen ps <= length - n); [apply IH|lia].
    { by apply bytes_ok_ptr_add. }
    { rewrite zlen_ptr_add by lia. lia. }
Qed.

Lemma codec_parseStream_refines_witness :
  ∃ ps, parseStream default_codec (Some [96; 0; 0; 1; 96; 0; 0; 0; 5]) 9 = Some ps /\
    (∀ qs, Parses default_codec [96; 0; 0; 1; 96; 0; 0; 0; 5] 9 qs <-> qs = ps) /\ 4 * zlen ps <= 9.
Proof.
  apply codec_parseStream_refines; [|done]. repeat constructor; unfold is_byte; lia.
Defined.

(** Packets of a reserved type are stepped over by their announced size. *)
Example codec_skips_reserved :
  parseStream default_codec (Some [96; 0; 0; 1; 96; 0; 0; 2; 9; 9; 9; 9]) 12
  = Some [defaultParsedPacket; defaultParsedPacket].
Proof. vm_compute. reflexivity. Qed.

(** C15: values stay in their types.  Parsing any bytes yields headers whose fields
    fit their bit fields, samples the wire format can hold and optional fields
    present as the header says.  Encoding any samples yields bytes that parse as
    signal packets and nothing else, at least one, with as many samples; encoding
    any context values in range yields bytes that are one context packet. *)
Theorem codec_values_typed unspec c m smp fields sid tsi tsf intTs fracTs trailer count :
  bytes_ok m -> SFeqb (_scaleFactor c) (S754_zero false) = false ->
  ContextPacket.fields_typed fields -> ContextPacket.fields_in_range fields ->
  0 <= sid < 4294967296 -> 0 <= intTs < 4294967296 -> 0 <= fracTs < 18446744073709551616 -> 0 <= count ->
  (∃ ps, parseStream c (Some m) (zlen m) = Some ps /\ Forall (packet_ok c) ps) /\
  (∃ out ps, encodeSignalData unspec c sid tsi tsf intTs fracTs trailer smp count = Some out /\ bytes_ok out /\
     parseStream c (Some out) (zlen out) = Some ps /\ ps <> [] /\
     Forall (λ p, type p = SignalData /\ packet_ok c p) ps /\
     List.length (concat (samples <$> ps)) = List.length smp) /\
  (∃ out p, encodeContext c sid tsi tsf intTs fracTs fields count = Some out /\ bytes_ok out /\
     parseStream c (Some out) (zlen out) = Some [p] /\ type p = Context_ /\ packet_ok c p).
Proof.
  intros Hm Hc Ht He%ContextPacket.encodable_in_range Hs Hi Hf Hn; [|done].
  assert (∀ b ps, bytes_ok b -> parseStream c (Some b) (zlen b) = Some ps -> Forall (packet_ok c) ps) as Hok.
  { intros b ps Hb E. pose proof (zlen_nonneg b). apply (Parses_ok c b (zlen b)); [done|lia|].
    apply parseStream_iff; [done|lia|done]. }
  assert (∀ pkts ps, Forall2 (framed c) pkts ps ->
    bytes_ok (concat pkts) /\ parseStream c (Some (concat pkts)) (zlen (concat pkts)) = Some ps) as Hfr.
  { intros pkts ps HF. split; [by eapply framed_concat_bytes|].
    pose proof (parseStream_concat c pkts ps [] 0 [] HF ltac:(done) ltac:(done) eq_refl) as E.
    by rewrite !app_nil_r, Z.add_0_r in E. }
  split; [|split].
  - pose proof (zlen_nonneg m). destruct (parseStream_spec c m (zlen m) Hm) as (ps & E & HP); [lia|].
    exists ps. split; [done|]. by eapply Hok.
  - destruct (encodeSignalData_received unspec c sid tsi tsf intTs fracTs trailer Hs Hi Hf Hc smp count Hn)
      as (pkts & E & HF). destruct (Hfr _ _ HF) as [Hb Hp]. eexists _, _. split; [exact E|].
    split; [done|]. split; [exact Hp|].
    pose proof (Hok _ _ Hb Hp) as Hpk.
    set (received := SignalDataPacket.requantize unspec (_scaleFactor c) <$> smp) in *.
    destruct (signal_packets_samples sid tsi tsf intTs fracTs trailer received count) as [H1 H2].
    split; [|split].
    + intros E0. pose proof (signal_packets_length sid tsi tsf intTs fracTs trailer received count) as Hl.
      cbv zeta in Hl. rewrite E0 in Hl. unfold zlen in Hl at 1. cbn [length Z.of_nat] in Hl. lia.
    + rewrite Forall_forall in H1, Hpk |- *. auto.
    + rewrite H2. unfold received. by rewrite length_fmap.
  - destruct (encodeContext_framed c sid tsi tsf intTs fracTs Hs Hi Hf fields count He
      (ContextPacket.fields_typed_words _ Ht)) as (pkt & E & HF).
    destruct (Hfr [pkt] [_] ltac:(constructor; [exact HF|constructor])) as [Hb Hp].
    cbn [concat] in Hb, Hp. rewrite app_nil_r in Hb, Hp.
    eexists _, _. split; [exact E|]. split; [done|]. split; [exact Hp|]. split; [done|].
    pose proof (Hok _ _ Hb Hp) as Hpk. by inversion Hpk.
Qed.

Lemma codec_values_typed_witness :
  (∃ ps, parseStream test_codec (Some [255; 0; 17; 3; 9]) 5 = Some ps /\ Forall (packet_ok test_codec) ps) /\
  (∃ out ps, encodeSignalData (λ _, 0) test_codec 9 TSI_UTC TSF_None 0 0 true [(S754_nan, S754_infinity true)] 3 = Some out /\
     bytes_ok out /\ parseStream test_codec (Some out) (zlen out) = Some ps /\ ps <> [] /\
     Forall (λ p, type p = SignalData /\ packet_ok test_codec p) ps /\
     List.length (concat (samples <$> ps)) = 1%nat) /\
  (∃ out p, encodeContext test_codec 9 TSI_UTC TSF_None 0 0 ContextPacket.rough_fields 3 = Some out /\ bytes_ok out /\
     parseStream test_codec (Some out) (zlen out) = Some [p] /\ type p = Context_ /\ packet_ok test_codec p).
Proof.
  apply (codec_values_typed (λ _, 0) test_codec [255; 0; 17; 3; 9] [(S754_nan, S754_infinity true)]
    ContextPacket.rough_fields 9 TSI_UTC TSF_None 0 0 true 3).
  - repeat constructor; lia.
  - by vm_compute.
  - apply ContextPacket.rough_fields_typed.
  - apply ContextPacket.rough_fields_in_range.
  - lia.
  - lia.
  - lia.
  - lia.
Defined.
