(* ===== verification/GeneralLogger.v ===== *)
(** Logging: src/libs/CommonUtils/GeneralLogger.{h,cpp}.

    A line logged is its level, the format string of the call and its
    arguments; formatting and output are spdlog's.  The two loggers are static
    members, the names registered with spdlog global: they are the state
    [Logging] that all objects share. *)

From Stdlib Require Import String SpecFloat.
From S2P Require Import Prelude Ieee754.

Inductive Level : Type := CRITICAL | ERROR | WARN | INFO | DEBUG | TRACE.

Inductive Arg : Type :=
  | AStr (s : string)
  | AInt (z : Z)
  | AFloat (x : float)
  | ADouble (x : double).

Record LogLine : Type := mkLine { level : Level; format : string; args : list Arg }.

Definition GPINFO (f : string) (a : list Arg) : LogLine := mkLine INFO f a.
Definition GPWARN (f : string) (a : list Arg) : LogLine := mkLine WARN f a.
Definition GPERROR (f : string) (a : list Arg) : LogLine := mkLine ERROR f a.
Definition GPDEBUG (f : string) (a : list Arg) : LogLine := mkLine DEBUG f a.

Definition RULER : LogLine := GPINFO "==========================================================" [].

(** * The loggers *)

Inductive Sink : Type := StdOut (l : option Level) | RotatingFile (name : string) (size files : Z) (l : option Level).

(** A spdlog::async_logger as it is configured. *)
Record Logger : Type := mkLogger {
  logger_name : string;
  sinks : list Sink;
  logger_level : Level;
  backtrace : nat;
}.

Record Logging : Type := mkLogging {
  s_generalLogger : option Logger;
  s_traceLogger : option Logger;
  registered : gset string;
}.

Definition GENERALLOGGER_NAME : string := "generalLogger".
Definition TRACELOGGER_NAME : string := "traceLogger".

Definition generalLogger (logNameBase : string) : Logger :=
  mkLogger GENERALLOGGER_NAME
    [StdOut (Some DEBUG); RotatingFile (logNameBase ++ ".log") (1024 * 1024 * 5) 3 (Some INFO)] DEBUG 0.

Definition traceLogger (logNameBase : string) : Logger :=
  mkLogger TRACELOGGER_NAME
    [StdOut None; RotatingFile (logNameBase ++ "_trace.log") (1024 * 1024 * 5) 3 None] ERROR 128.

(** spdlog::register_logger throws when the name is taken. *)
Definition register_logger (name : string) (w : Logging) : option Logging :=
  if decide (name ∈ registered w) then None
  else Some (mkLogging (s_generalLogger w) (s_traceLogger w) ({[name]} ∪ registered w)).

(** [isInited]: the object's member.  The flag and state after the call, and
    whether it returned. *)
Definition init (logNameBase : string) (isInited : bool) (w : Logging) : bool * Logging * bool :=
  if isInited then (true, w, true)
  else
    let w := mkLogging (Some (generalLogger logNameBase)) (Some (traceLogger logNameBase)) (registered w) in
    match register_logger GENERALLOGGER_NAME w with
    | None => (true, w, false)
    | Some w =>
        match register_logger TRACELOGGER_NAME w with
        | None => (true, w, false)
        | Some w => (true, w, true)
        end
    end.

(** The destructor writes to the loggers through the static pointers. *)
Definition destroy (w : Logging) : option Logging :=
  _ ← s_generalLogger w; _ ← s_traceLogger w; Some w.

(** The state before the first call. *)
Definition initial : Logging := mkLogging None None ∅.

Lemma init_twice base base' w w' b : init base false w = (b, w', true) -> init base' b w' = (true, w', true).
Proof.
  unfold init at 1. destruct (register_logger GENERALLOGGER_NAME _) as [w1|]; [|done].
  destruct (register_logger TRACELOGGER_NAME w1); [|done]. by intros [= <- <-].
Qed.

Lemma init_destroy base w w' b ok : init base false w = (b, w', ok) -> destroy w' = Some w'.
Proof.
  unfold init, register_logger.
  repeat (case_decide; [by intros [= <- <- <-]|]). by intros [= <- <- <-].
Qed.

(** A second object of a process cannot be initialised: the names are taken. *)
Lemma init_second_object base base' w w' b :
  init base false w = (b, w', true) -> ∃ w'', init base' false w' = (true, w'', false).
Proof.
  intros E. assert (GENERALLOGGER_NAME ∈ registered w') as Hin.
  { revert E. unfold init, register_logger. do 2 (case_decide; [done|]). intros [= _ <-]. cbn. set_solver. }
  eexists. unfold init, register_logger. cbn [registered]. by rewrite decide_True.
Qed.

(** An object that was never initialised is destroyed through a null pointer. *)
Example destroy_uninitialised : destroy initial = None.
Proof. done. Qed.
