(* ===== verification/SensorMessages.v ===== *)
(** The messages the transport test programs exchange, and the parts of those
    programs that are the same over Zyre and over UDP multicast:
    src/src/apps/TestApps/ZyrePublisherTest.cpp, ZyreSubscriberTest.cpp and their
    HighBandwidth counterparts.

    The classes protoc generates from src/src/libs/proto/proto-messages are
    records; their serialisation is the class [ProtoMessage], its documented
    promise [ProtoMessageLaws].  An enum of proto3 is open: any 32-bit value.
    The iteration order of a protobuf map is unspecified, a parameter.  The
    clock and the random numbers drawn are inputs.  [None] is undefined
    behaviour: an index out of range, a signed overflow. *)

From Stdlib Require Import Ascii String SpecFloat.
From stdpp Require Import pretty.
From S2P Require Import Prelude Ieee754 GeneralLogger.

(** * Messages *)

Record MessageHeader : Type := mkMessageHeader { message_type : string; timestamp_ns : Z }.

Record Location : Type := mkLocation { latitude : double; longitude : double; altitude : double }.

Record SensorReadingMsg : Type := mkSensorReadingMsg {
  reading_header : option MessageHeader;
  sensor_id : string;
  sensor_name : string;
  value : double;
  unit_of : string;
  timestamp_ms : Z;
  quality : Z;
  status : Z;
  location : option Location;
  metadata : gmap string string;
}.

Definition SENSOR_STATUS_ONLINE : Z := 1.

Record SensorDataBatchMsg : Type := mkSensorDataBatchMsg {
  batch_header : option MessageHeader;
  readings : list SensorReadingMsg;
  batch_id : string;
  created_at_ms : Z;
  source_system : string;
}.

Record QueryParameters : Type := mkQueryParameters {
  query_fields : list string;
  filters : gmap string string;
  max_results : Z;
}.

(** [oneof parameters] *)
Inductive Parameters : Type :=
  | StartParams (mode : string) (initial_config : gmap string string) (wait_for_ready : bool)
  | StopParams (graceful_timeout_ms : Z) (force_if_timeout : bool) (reason : string)
  | ConfigureParams (settings : gmap string string) (persist apply_immediately : bool)
  | QueryParams (q : QueryParameters).

Record CommandMsg : Type := mkCommandMsg {
  command_header : option MessageHeader;
  command_id : string;
  command_type : Z;
  target : string;
  parameters : option Parameters;
  issued_at_ms : Z;
  command_timeout_ms : Z;
  priority : Z;
  issuer : string;
}.

Definition COMMAND_TYPE_QUERY : Z := 5.

#[export] Instance MessageHeader_eq_dec : EqDecision MessageHeader.
Proof. solve_decision. Defined.
#[export] Instance spec_float_eq_dec : EqDecision spec_float.
Proof. solve_decision. Defined.
#[export] Instance Location_eq_dec : EqDecision Location.
Proof. solve_decision. Defined.
#[export] Instance SensorReadingMsg_eq_dec : EqDecision SensorReadingMsg.
Proof. solve_decision. Defined.
#[export] Instance SensorDataBatchMsg_eq_dec : EqDecision SensorDataBatchMsg.
Proof. solve_decision. Defined.
#[export] Instance QueryParameters_eq_dec : EqDecision QueryParameters.
Proof. solve_decision. Defined.
#[export] Instance Parameters_eq_dec : EqDecision Parameters.
Proof. solve_decision. Defined.
#[export] Instance CommandMsg_eq_dec : EqDecision CommandMsg.
Proof. solve_decision. Defined.

(** [W]: the bytes of a serialized message. *)
Class ProtoMessage (W M : Type) : Type := {
  SerializeToString : M -> option W;
  ParseFromString : W -> option M;
}.

Class ProtoMessageLaws (W M : Type) `{ProtoMessage W M} : Prop :=
  parse_serialized : ∀ (m : M) (w : W), SerializeToString m = Some w -> ParseFromString w = Some m.

(** The three classes the programs use. *)
Class Protos (W : Type) : Type := {
  reading_proto :: ProtoMessage W SensorReadingMsg;
  batch_proto :: ProtoMessage W SensorDataBatchMsg;
  command_proto :: ProtoMessage W CommandMsg;
}.

Class ProtosLaws (W : Type) `{Protos W} : Prop := {
  reading_laws :: ProtoMessageLaws W SensorReadingMsg;
  batch_laws :: ProtoMessageLaws W SensorDataBatchMsg;
  command_laws :: ProtoMessageLaws W CommandMsg;
}.

(** * The command line

    The programs take an interface address; [argv] includes the program's name. *)

Definition interfaceAddr (argv : list string) : string := default ""%string (argv !! 1%nat).

Definition interfaceLines (argv : list string) : list LogLine :=
  match argv !! 1%nat with
  | Some a => [GPINFO "Using interface address: {}" [AStr a]]
  | None => []
  end.

(** * What a publisher program sends *)

(** The decimal literals of the programs: n / d is the double nearest to it. *)
Definition literal (n d : Z) : double := f64_div (f64_of_Z n) (f64_of_Z d).

(** What the environment decides in one pass of the loop: the system clock in
    nanoseconds since the epoch, and the numbers drawn. *)
Record Pass : Type := mkPass { pass_now : Z; tempDraw : double; batchDraw : Z -> double }.

(** [duration_cast<milliseconds>(now.time_since_epoch()).count()] *)
Definition epochMs (p : Pass) : Z := Z.quot (pass_now p) 1000000.

Definition makeSensorReading (p : Pass) : SensorReadingMsg :=
  mkSensorReadingMsg None "sensor-001" "Temperature Sensor" (f64_add (literal 225 10) (tempDraw p)) "celsius"
    (epochMs p) 95 SENSOR_STATUS_ONLINE
    (Some (mkLocation (literal 377749 10000) (literal (-1224194) 10000) (literal 10 1)))
    (<["floor" := "3"]> (<["building" := "HQ"]> ∅))%string.

(** Reading i of a batch. *)
Definition makeBatchReading (p : Pass) (i : Z) : SensorReadingMsg :=
  mkSensorReadingMsg None ("sensor-00" ++ pretty (i + 1)) ("Sensor " ++ pretty (i + 1))
    (f64_add (f64_add (literal 20 1) (f64_mul (f64_of_Z i) (literal 5 1))) (batchDraw p i)) "celsius"
    (epochMs p) (90 + i) SENSOR_STATUS_ONLINE None ∅.

Definition makeBatch (p : Pass) (messageCount : Z) : SensorDataBatchMsg :=
  mkSensorDataBatchMsg None (makeBatchReading p <$> [0; 1; 2]) ("batch-" ++ pretty messageCount) (epochMs p)
    "TestPublisher".

(** A protobuf map's insert keeps a value that is there. *)
Definition map_insert (k v : string) (m : gmap string string) : gmap string string :=
  match m !! k with Some _ => m | None => <[k := v]> m end.

Definition makeCommand (p : Pass) (messageCount : Z) : CommandMsg :=
  mkCommandMsg None ("cmd-" ++ pretty messageCount) COMMAND_TYPE_QUERY "sensor-001"
    (Some (QueryParams (mkQueryParameters ["value"%string]
       (map_insert "BitStatus" "Degraded" (map_insert "status" "online" ∅)) 10)))
    (epochMs p) 5000 1 "TestPublisher".

(** A message of one of the three topics. *)
Inductive Message : Type :=
  | MReading (m : SensorReadingMsg)
  | MBatch (m : SensorDataBatchMsg)
  | MCommand (m : CommandMsg).

Definition topicOf (m : Message) : string :=
  match m with
  | MReading _ => "SensorReading"
  | MBatch _ => "SensorDataBatch"
  | MCommand _ => "Command"
  end.

Definition publishedLine (m : Message) : LogLine :=
  match m with
  | MReading m =>
      GPINFO "Published SensorReading: {} = {:.1f} {}" [AStr (sensor_name m); ADouble (value m); AStr (unit_of m)]
  | MBatch m =>
      GPINFO "Published SensorDataBatch: {} with {} readings" [AStr (batch_id m); AInt (Z.of_nat (length (readings m)))]
  | MCommand m => GPINFO "Published Command: {} type={}" [AStr (command_id m); AInt (command_type m)]
  end.

(** The messages of the pass that finds [messageCount], in order: a command
    every fifth time. *)
Definition passMessages (p : Pass) (messageCount : Z) : list Message :=
  [MReading (makeSensorReading p); MBatch (makeBatch p messageCount)] ++
  (if Z.rem messageCount 5 =? 0 then [MCommand (makeCommand p messageCount)] else []).

(** [++messageCount] on an int. *)
Definition increment (messageCount : Z) : option Z :=
  if messageCount =? 2147483647 then None else Some (messageCount + 1).

Definition serialize {W} `{Protos W} (m : Message) : option W :=
  match m with
  | MReading m => SerializeToString m
  | MBatch m => SerializeToString m
  | MCommand m => SerializeToString m
  end.

(** * What a subscriber program does with a message *)

Section handlers.
Context {W : Type} `{Protos W}.
(** The text of a std::string; the order in which a map is traversed. *)
Context (text : W -> string) (map_order : gmap string string -> list (string * string)).

(** The handlers a program subscribes, one per topic. *)
Inductive Handler : Type := OnSensorReading | OnSensorDataBatch | OnCommand.

Definition showReading (topic : string) (msg : SensorReadingMsg) : list LogLine :=
  [GPINFO "Received SensorReadingMsg on {}: {} = {:.2f} {} (quality: {}, status: {})"
     [AStr topic; AStr (sensor_name msg); ADouble (value msg); AStr (unit_of msg); AInt (quality msg);
      AInt (status msg)]] ++
  match location msg with
  | Some l =>
      [GPDEBUG "  Location: lat={:.4f}, lon={:.4f}, alt={:.1f}m"
         [ADouble (latitude l); ADouble (longitude l); ADouble (altitude l)]]
  | None => []
  end ++
  (if 0 <? Z.of_nat (size (metadata msg)) then
     (λ kv : string * string, GPDEBUG "  Metadata: {} = {}" [AStr kv.1; AStr kv.2]) <$> map_order (metadata msg)
   else []).

Definition showBatch (topic : string) (msg : SensorDataBatchMsg) : list LogLine :=
  GPINFO "Received SensorDataBatchMsg on {}: batch_id={}, source={}, readings={}"
    [AStr topic; AStr (batch_id msg); AStr (source_system msg); AInt (Z.of_nat (length (readings msg)))] ::
  ((λ r, GPDEBUG "  [{}] {} = {:.2f} {}"
           [AStr (sensor_id r); AStr (sensor_name r); ADouble (value r); AStr (unit_of r)]) <$> readings msg).

(** [params.query_fields(0)] needs a first field. *)
Definition showCommand (topic : string) (msg : CommandMsg) : option (list LogLine) :=
  rest ← match parameters msg with
         | Some (QueryParams q) =>
             f ← query_fields q !! 0%nat;
             Some [GPDEBUG "  Query type: {}, fields: {}" [AStr f; AInt (max_results q)]]
         | _ => Some []
         end;
  Some (GPINFO "Received CommandMsg on {}: id={}, type={}, target={}, issuer={}"
          [AStr topic; AStr (command_id msg); AInt (command_type msg); AStr (target msg); AStr (issuer msg)] :: rest).

Definition onSensorReading (topic data : W) : option (list LogLine) :=
  match ParseFromString data with
  | Some msg => Some (showReading (text topic) msg)
  | None => Some [GPERROR "Failed to parse SensorReadingMsg" []]
  end.

Definition onSensorDataBatch (topic data : W) : option (list LogLine) :=
  match ParseFromString data with
  | Some msg => Some (showBatch (text topic) msg)
  | None => Some [GPERROR "Failed to parse SensorDataBatchMsg" []]
  end.

Definition onCommand (topic data : W) : option (list LogLine) :=
  match ParseFromString data with
  | Some msg => showCommand (text topic) msg
  | None => Some [GPERROR "Failed to parse CommandMsg" []]
  end.

(** [handler(topic, data)] *)
Definition call_handler (h : Handler) (topic data : W) : option (list LogLine) :=
  match h with
  | OnSensorReading => onSensorReading topic data
  | OnSensorDataBatch => onSensorDataBatch topic data
  | OnCommand => onCommand topic data
  end.

(** The calls of a receive thread, in order. *)
Fixpoint call_handlers (calls : list (Handler * W * W)) : option (list LogLine) :=
  match calls with
  | [] => Some []
  | (h, topic, data) :: calls =>
      lines ← call_handler h topic data; rest ← call_handlers calls; Some (lines ++ rest)
  end.

(** * A message on its way *)

Definition handlerOf (m : Message) : Handler :=
  match m with MReading _ => OnSensorReading | MBatch _ => OnSensorDataBatch | MCommand _ => OnCommand end.

(** What the handler of its topic prints of a message. *)
Definition showMessage (topic : string) (m : Message) : option (list LogLine) :=
  match m with
  | MReading m => Some (showReading topic m)
  | MBatch m => Some (showBatch topic m)
  | MCommand m => showCommand topic m
  end.

(** A handler prints the message that was serialized. *)
Lemma call_handler_serialized `{!ProtosLaws W} m topic w :
  serialize m = Some w -> call_handler (handlerOf m) topic w = showMessage (text topic) m.
Proof.
  destruct m as [m|m|m]; cbn; intros E;
    unfold onSensorReading, onSensorDataBatch, onCommand; by rewrite (parse_serialized m w E).
Qed.

(** The messages of a program of this repository can be shown. *)
Lemma showMessage_pass topic p c m : m ∈ passMessages p c -> is_Some (showMessage topic m).
Proof.
  unfold passMessages. rewrite elem_of_app, !elem_of_cons.
  intros [[->|[->|?%elem_of_nil]]|Hm]; [by eexists..|done|]. destruct (Z.rem c 5 =? 0); [|by apply elem_of_nil in Hm].
  apply list_elem_of_singleton in Hm as ->. by eexists.
Qed.

Lemma call_handlers_app calls1 calls2 :
  call_handlers (calls1 ++ calls2)
  = (l1 ← call_handlers calls1; l2 ← call_handlers calls2; Some (l1 ++ l2)).
Proof.
  induction calls1 as [|[[h t] d] calls1 IH]; cbn [app call_handlers].
  - rewrite bind_ret. by destruct (call_handlers calls2).
  - destruct (call_handler h t d) as [l|]; [|done]. rewrite !bind_ret, IH.
    destruct (call_handlers calls1) as [l1|]; [|done]. rewrite !bind_ret.
    destruct (call_handlers calls2) as [l2|]; [|done]. by rewrite !bind_ret, (assoc_L (++)).
Qed.

(** A command that queries no field makes the handler read past the list. *)
Lemma onCommand_no_fields topic data msg q :
  ParseFromString data = Some msg -> parameters msg = Some (QueryParams q) -> query_fields q = [] ->
  onCommand topic data = None.
Proof. unfold onCommand, showCommand. intros -> -> ->. done. Qed.

End handlers.

(** * The traffic of a publisher program *)

(** The messages of the passes of a program whose count stands at [c]. *)
Fixpoint traffic (passes : list Pass) (c : Z) : list Message :=
  match passes with
  | [] => []
  | p :: passes => passMessages p c ++ traffic passes (c + 1)
  end.

Lemma traffic_shown {A} (map_order : gmap string string -> list (string * string)) topic passes c m (f : _ -> A) :
  m ∈ traffic passes c -> is_Some (f <$> showMessage map_order topic m).
Proof.
  revert c. induction passes as [|p passes IH]; intros c; cbn [traffic]; [by intros ?%elem_of_nil|].
  rewrite elem_of_app. intros [Hm|Hm]; [|by eapply IH].
  destruct (showMessage_pass map_order topic p c m Hm) as [l ->]. by eexists.
Qed.

(** Two messages a pass and a command every fifth. *)
Lemma traffic_length passes c :
  0 <= c -> Z.of_nat (length (traffic passes c)) = 2 * zlen passes + ((c + zlen passes + 4) / 5 - (c + 4) / 5).
Proof.
  revert c. induction passes as [|p passes IH]; intros c Hc; cbn [traffic].
  - change (zlen []) with 0. rewrite Z.add_0_r. cbn. lia.
  - unfold zlen in *. rewrite length_app, Nat2Z.inj_add, IH by lia. cbn [length].
    unfold passMessages. rewrite length_app. cbn [length]. rewrite Z.rem_mod_nonneg by lia.
    destruct (Z.eqb_spec (c mod 5) 0); cbn [length]; rewrite Nat2Z.inj_succ; Z.div_mod_to_equations; lia.
Qed.

(** * A serialisation for the examples

    Message k of a table is written as [enc k]. *)
Section table.
Context {W M : Type} `{EqDecision M} (enc : nat -> W) (dec : W -> option nat) (table : list M).

Definition table_proto : ProtoMessage W M := {|
  SerializeToString m := enc ∘ fst <$> list_find (eq m) table;
  ParseFromString w := k ← dec w; table !! k;
|}.

Lemma table_laws : (∀ k, dec (enc k) = Some k) -> @ProtoMessageLaws W M table_proto.
Proof.
  intros Hd m w. cbn. intros ([k m'] & (Hk & <- & _)%list_find_Some & ->)%fmap_Some.
  cbn. by rewrite Hd, bind_ret.
Qed.

Lemma table_range m w :
  @SerializeToString W M table_proto m = Some w -> ∃ k, (k < length table)%nat /\ w = enc k.
Proof.
  cbn. intros ([k m'] & (Hk & _)%list_find_Some & ->)%fmap_Some. exists k. split; [|done].
  by eapply lookup_lt_Some.
Qed.
End table.
