(* ===== verification/Programs.v ===== *)
(** What the command line programs share: how a program ends, the conversions of
    its arguments, and constants of the standard library. *)

From Stdlib Require Import Ascii String SpecFloat.
From S2P Require Import Prelude Ieee754.

(** An uncaught exception ends the program. *)
Inductive Exit : Type := Return (code : Z) | Terminate.

(** The size at which std::vector of an eight byte type throws: 2^63 - 1 bytes. *)
Definition vector_max_size : Z := 1152921504606846975.

(** The double 2.0 * std::numbers::pi. *)
Definition two_pi : double := f64_mul (f64_of_Z 2) (S754_finite false 7074237752028440 (-51)).

(** [std::atol]: white space, a sign, digits; undefined out of the range of long. *)
Definition is_space (c : ascii) : bool :=
  let n := N_of_ascii c in (N.eqb n 32) || ((N.leb 9 n) && (N.leb n 13)).

Fixpoint skip_space (s : list ascii) : list ascii :=
  match s with c :: s' => if is_space c then skip_space s' else s | [] => [] end.

Fixpoint digits (s : list ascii) (acc : Z) : Z :=
  match s with
  | c :: s =>
      let n := Z.of_N (N_of_ascii c) in
      if (48 <=? n) && (n <=? 57) then digits s (acc * 10 + (n - 48)) else acc
  | [] => acc
  end.

Definition atol (s : string) : option Z :=
  let v :=
    match skip_space (String.list_ascii_of_string s) with
    | ("-"%char) :: s => - digits s 0
    | ("+"%char) :: s => digits s 0
    | s => digits s 0
    end in
  if (- 2 ^ 63 <=? v) && (v <? 2 ^ 63) then Some v else None.

(** [std::atoi]: the same for int. *)
Definition atoi (s : string) : option Z :=
  v ← atol s; if (- 2 ^ 31 <=? v) && (v <? 2 ^ 31) then Some v else None.

(** [std::stoul] of base 10: as strtoul, a minus sign negates modulo 2^64;
    [None]: std::invalid_argument without digits, std::out_of_range of a
    magnitude of 2^64 and more. *)
Definition starts_digit (s : list ascii) : bool :=
  match s with
  | c :: _ => let n := Z.of_N (N_of_ascii c) in (48 <=? n) && (n <=? 57)
  | [] => false
  end.

Definition stoul (s : string) : option Z :=
  let '(negative, s) :=
    match skip_space (String.list_ascii_of_string s) with
    | ("-"%char) :: s => (true, s)
    | ("+"%char) :: s => (false, s)
    | s => (false, s)
    end in
  if starts_digit s && (digits s 0 <? 2 ^ 64) then Some (if negative then u64 (- digits s 0) else digits s 0) else None.

Example stoul_examples :
  stoul " 42x" = Some 42 /\ stoul "-1" = Some (2 ^ 64 - 1) /\ stoul "x" = None /\ stoul "18446744073709551616" = None.
Proof. vm_compute. done. Qed.

Lemma digits_nonneg s : ∀ acc, 0 <= acc -> 0 <= digits s acc.
Proof. induction s as [|c s IH]; intros acc Ha; cbn [digits]; [done|]. case_bool; [|done]. apply IH. bool_prop. lia. Qed.

Lemma stoul_range s v : stoul s = Some v -> 0 <= v < 18446744073709551616.
Proof.
  unfold stoul. change (2 ^ 64) with 18446744073709551616.
  destruct (match skip_space _ with [] => _ | _ => _ end) as [neg l].
  destruct (starts_digit l && _) eqn:E; [|done]. bool_prop. pose proof (digits_nonneg l 0 ltac:(lia)).
  intros [= <-]. destruct neg; [apply u64_bound|lia].
Qed.
