(* ===== verification/Vita49FileCodec.v ===== *)
(** File tool over the stream codec: src/apps/Tools/Vita49FileCodec.cpp.

    A mode is a function from the file it reads to its exit code, its log and
    the file it writes.  The arguments of a log line are evaluated with the
    source's float and double arithmetic. *)

From Stdlib Require Import SpecFloat.
From S2P Require Import Prelude Ieee754 FloatError Vita49Types PacketHeader Vita49Codec GeneralLogger Programs.
From S2P Require ContextPacket SignalDataPacket.

(** * File I/O *)

(** The file at a path: [None] when it cannot be opened.  [got] is the number of
    bytes the stream delivers; the rest of the vector keeps its zeros. *)
Record InputFile : Type := mkInputFile { contents : list Z; got : nat }.

Definition whole (m : list Z) : option InputFile := Some (mkInputFile m (length m)).

Definition readFile (path : string) (f : option InputFile) : list Z * list LogLine :=
  match f with
  | None => ([], [GPERROR "Cannot open file: {}" [AStr path]])
  | Some f =>
      let fileSize := zlen (contents f) in
      if fileSize <=? 0 then ([], [])
      else (resize_by (take (got f) (contents f)) (fileSize - zlen (take (got f) (contents f))), [])
  end.

(** What the output stream does: whether it opens, how many of the bytes handed
    to write() it takes, and how many of those reach the file by the time the
    destructor has flushed it; [None] is all of them. *)
Record OutputStream : Type := mkOutputStream { opens : bool; accepts : option Z; stores : option Z }.

Definition healthy : OutputStream := mkOutputStream true None None.

(** The result, the new contents of the file if it was opened, the log. *)
Definition writeFile (path : string) (os : OutputStream) (data : list Z)
    : bool * option (list Z) * list LogLine :=
  if negb (opens os) then (false, None, [GPERROR "Cannot create file: {}" [AStr path]])
  else
    let taken := default (zlen data) (accepts os) in
    (zlen data <=? taken, Some (take (Z.to_nat (Z.min taken (default taken (stores os)))) data), []).

(** * Names *)

Definition packetTypeName (type : PacketType) : string :=
  match type with
  | IFDataWithoutStreamId => "IF Data (no SID)"
  | IFDataWithStreamId => "IF Data (SID)"
  | ExtDataWithoutStreamId => "Ext Data (no SID)"
  | ExtDataWithStreamId => "Ext Data (SID)"
  | IFContext => "IF Context"
  | ExtContext => "Ext Context"
  | ReservedType _ => "Unknown"
  end.

Definition tsiName (tsi : TSI) : string :=
  match tsi with TSI_None => "None" | TSI_UTC => "UTC" | TSI_GPS => "GPS" | TSI_Other => "Other" end.

Definition tsfName (tsf : TSF) : string :=
  match tsf with
  | TSF_None => "None" | TSF_SampleCount => "SampleCount"
  | TSF_RealTime => "RealTime(ps)" | TSF_FreeRunning => "FreeRunning"
  end.

(** * Inspect *)

(** A line logged when an optional has a value. *)
Definition logIf {A} (f : string) (arg : A -> Arg) (v : option A) : list LogLine :=
  match v with Some x => [GPINFO f [arg x]] | None => [] end.

Definition logHeader (hdr : PacketHeader) (index : Z) : list LogLine :=
  [GPINFO "  Packet #{}" [AInt index];
   GPINFO "    Type:         {}" [AStr (packetTypeName (packetType hdr))];
   GPINFO "    PacketCount:  {}" [AInt (packetCount hdr)];
   GPINFO "    PacketSize:   {} words ({} bytes)" [AInt (packetSize hdr); AInt (packetSize hdr * 4)];
   GPINFO "    ClassID:      {}" [AStr (if classIdPresent hdr then "yes" else "no")];
   GPINFO "    Trailer:      {}" [AStr (if trailerPresent hdr then "yes" else "no")];
   GPINFO "    TSI:          {}" [AStr (tsiName (tsiType hdr))];
   GPINFO "    TSF:          {}" [AStr (tsfName (tsfType hdr))]] ++
  logIf "    StreamID:     0x{:08X}" AInt (streamId hdr) ++
  logIf "    IntTimestamp:  {}" AInt (integerTimestamp hdr) ++
  logIf "    FracTimestamp: {}" AInt (fractionalTimestamp hdr).

Definition logContextFields (f : ContextFields) : list LogLine :=
  [GPINFO "    --- Context Fields ---" [];
   GPINFO "    ChangeIndicator: {}" [AStr (if changeIndicator f then "true" else "false")]] ++
  logIf "    RefPointID:      0x{:08X}" AInt (referencePointId f) ++
  logIf "    Bandwidth:       {:.6e} Hz" ADouble (bandwidth f) ++
  logIf "    IF Ref Freq:     {:.6e} Hz" ADouble (ifRefFrequency f) ++
  logIf "    RF Frequency:    {:.6e} Hz" ADouble (rfFrequency f) ++
  logIf "    RF Freq Offset:  {:.6e} Hz" ADouble (rfFreqOffset f) ++
  logIf "    IF Band Offset:  {:.6e} Hz" ADouble (ifBandOffset f) ++
  logIf "    Ref Level:       {:.2f} dBm" ADouble (referenceLevel f) ++
  logIf "    Gain:            {:.2f} dB" ADouble (gain f) ++
  logIf "    Over-Range Cnt:  {}" AInt (overRangeCount f) ++
  logIf "    Sample Rate:     {:.6e} Hz" ADouble (sampleRate f).

(** The running statistics of the loop over the samples. *)
Record Stats : Type := mkStats { minI : float; maxI : float; minQ : float; maxQ : float; sumMag2 : double }.

Definition initialStats (s : IQSample) : Stats := mkStats s.1 s.1 s.2 s.2 (S754_zero false).

Definition updateStats (st : Stats) (s : IQSample) : Stats :=
  mkStats (f32_min (minI st) s.1) (f32_max (maxI st) s.1) (f32_min (minQ st) s.2) (f32_max (maxQ st) s.2)
    (f64_add (sumMag2 st) (f64_of_f32 (f32_add (f32_mul s.1 s.1) (f32_mul s.2 s.2)))).

Definition logSampleSummary (samples : IQSamples) : list LogLine :=
  [GPINFO "    --- Signal Data ---" []; GPINFO "    Samples:         {}" [AInt (zlen samples)]] ++
  match samples with
  | [] => []
  | s0 :: _ =>
      let st := fold_left updateStats samples (initialStats s0) in
      let rmsMag := f64_sqrt (f64_div (sumMag2 st) (f64_of_Z (zlen samples))) in
      let printCount := Nat.min (length samples) 5 in
      [GPINFO "    I range:         [{:.6f}, {:.6f}]" [AFloat (minI st); AFloat (maxI st)];
       GPINFO "    Q range:         [{:.6f}, {:.6f}]" [AFloat (minQ st); AFloat (maxQ st)];
       GPINFO "    RMS magnitude:   {:.6f}" [ADouble rmsMag];
       GPINFO "    First {} samples:" [AInt (Z.of_nat printCount)]] ++
      imap (λ i s, GPINFO "      [{}] I={:10.6f}  Q={:10.6f}" [AInt (Z.of_nat i); AFloat s.1; AFloat s.2])
        (take printCount samples)
  end.

(** [const Vita49Codec codec(ByteOrder::BigEndian);] *)
Definition codec : Vita49Codec := mkVita49Codec BigEndian DEFAULT_SCALE_FACTOR.

(** The body of the loop over the packets: its log and what it adds to the total. *)
Definition inspectPacket (pkt : ParsedPacket) (idx : Z) : list LogLine * Z :=
  match type pkt with
  | SignalData => (logHeader (header pkt) idx ++ logSampleSummary (samples pkt), zlen (samples pkt))
  | Context_ => (logHeader (header pkt) idx ++ logContextFields (contextFields pkt), 0)
  | Unknown => (logHeader (header pkt) idx ++ [GPWARN "    (Unknown packet type)" []], 0)
  end.

Fixpoint inspectLoop (packets : list ParsedPacket) (idx totalSamples : Z) : list LogLine * Z :=
  match packets with
  | [] => ([], totalSamples)
  | pkt :: packets =>
      let '(log, n) := inspectPacket pkt idx in
      let '(rest, total) := inspectLoop packets (idx + 1) (u64 (totalSamples + n)) in
      (log ++ rest, total)
  end.

(** [None]: the code leaves the buffer or casts an unrepresentable value. *)
Definition doInspect (path : string) (f : option InputFile) : option (Z * list LogLine) :=
  let '(data, log) := readFile path f in
  match data with
  | [] => Some (1, log ++ [GPERROR "File is empty or unreadable: {}" [AStr path]])
  | _ =>
      packets ← parseStream codec (Some data) (zlen data);
      let '(lines, totalSamples) := inspectLoop packets 0 0 in
      Some (0, log ++
        [RULER; GPINFO "VITA 49.2 File Inspector" []; RULER;
         GPINFO "File:  {}" [AStr path]; GPINFO "Size:  {} bytes" [AInt (zlen data)]; RULER;
         GPINFO "Decoded {} packet(s):" [AInt (zlen packets)]] ++
        lines ++
        [RULER; GPINFO "Total: {} packets, {} I/Q samples" [AInt (zlen packets); AInt totalSamples]; RULER])
  end.

(** * Generate and round trip *)

Section modes.
Context (lround_unspecified : float -> Z) (cosf sinf : float -> float).

Definition SAMPLE_RATE : double := f64_of_Z 1000000.
Definition STREAM_ID : Z := 0x00001234.
(** The float 0.8. *)
Definition amplitude : float := S754_finite false 13421773 (-24).

Definition generateFields : ContextFields :=
  mkContextFields true None (Some SAMPLE_RATE) None (Some (f64_of_Z 2400000000)) None None
    (Some (f64_of_Z (-40))) (Some (f64_of_Z 20)) None (Some SAMPLE_RATE).

Definition toneSample (freqHz : double) (i : Z) : IQSample :=
  let t := f64_div (f64_of_Z i) SAMPLE_RATE in
  let phase := f32_of_f64 (f64_mul (f64_mul two_pi freqHz) t) in
  (f32_mul amplitude (cosf phase), f32_mul amplitude (sinf phase)).

Definition tone (numSamples : nat) (freqHz : double) : IQSamples :=
  (λ i, toneSample freqHz (Z.of_nat i)) <$> seq 0 numSamples.

Definition doGenerate (path : string) (numSamples : Z) (freqHz : double) (os : OutputStream)
    : option (Exit * option (list Z) * list LogLine) :=
  let banner :=
    [RULER; GPINFO "VITA 49.2 File Generator" []; RULER;
     GPINFO "  Output:      {}" [AStr path]; GPINFO "  Samples:     {}" [AInt numSamples];
     GPINFO "  Tone freq:   {} Hz" [ADouble freqHz]; GPINFO "  Sample rate: {} Hz" [ADouble SAMPLE_RATE];
     GPINFO "  Stream ID:   0x{:08X}" [AInt STREAM_ID]; RULER] in
  contextBytes ← encodeContext codec STREAM_ID TSI_UTC TSF_RealTime 1738886400 0 generateFields 0;
  if vector_max_size <? numSamples then Some (Terminate, None, banner)
  else
    signalBytes ← encodeSignalData lround_unspecified codec STREAM_ID TSI_UTC TSF_RealTime 1738886400 0 false
                    (tone (Z.to_nat numSamples) freqHz) 1;
    let output := contextBytes ++ signalBytes in
    let '(ok, file, log) := writeFile path os output in
    if negb ok then Some (Return 1, file, banner ++ log)
    else
      Some (Return 0, file, banner ++ log ++
        [GPINFO "Written {} bytes ({} context + {} signal data)"
           [AInt (zlen output); AInt (zlen contextBytes); AInt (zlen signalBytes)]]).

(** One packet of the re-encoding loop. *)
Definition reEncodePacket (pkt : ParsedPacket) : option (list Z) :=
  let hdr := header pkt in
  let sid := default 0 (streamId hdr) in
  let intTs := default 0 (integerTimestamp hdr) in
  let fracTs := default 0 (fractionalTimestamp hdr) in
  match type pkt with
  | SignalData =>
      encodeSignalData lround_unspecified codec sid (tsiType hdr) (tsfType hdr) intTs fracTs
        (trailerPresent hdr) (samples pkt) (packetCount hdr)
  | Context_ =>
      encodeContext codec sid (tsiType hdr) (tsfType hdr) intTs fracTs (contextFields pkt) (packetCount hdr)
  | Unknown => Some []
  end.

Fixpoint reEncode (packets : list ParsedPacket) : option (list Z) :=
  match packets with
  | [] => Some []
  | pkt :: packets => bytes ← reEncodePacket pkt; rest ← reEncode packets; Some (bytes ++ rest)
  end.

Definition isSignal (pkt : ParsedPacket) : bool := match type pkt with SignalData => true | _ => false end.

Definition signalPackets (packets : list ParsedPacket) : list ParsedPacket := filter isSignal packets.
Definition allSamples (packets : list ParsedPacket) : IQSamples := concat (samples <$> signalPackets packets).

(** [std::max({maxErr, eI, eQ})] over the samples. *)
Fixpoint maxError (a b : IQSamples) (maxErr : float) : float :=
  match a, b with
  | s :: a, t :: b =>
      let eI := SFabs (f32_sub s.1 t.1) in
      let eQ := SFabs (f32_sub s.2 t.2) in
      maxError a b (f32_max (f32_max maxErr eI) eQ)
  | _, _ => maxErr
  end.

Definition compareSamples (s1 s2 : IQSamples) : list LogLine :=
  if zlen s1 =? zlen s2 then
    let maxErr := maxError s1 s2 (S754_zero false) in
    [GPINFO "Max sample error: {:.6e}" [AFloat maxErr];
     if SFeqb maxErr (S754_zero false)
     then GPINFO "Round-trip: PERFECT (bit-exact after re-encode)" []
     else GPINFO "Round-trip: PASS (non-zero error from external source)" []]
  else [GPERROR "Round-trip: SAMPLE COUNT MISMATCH" []].

Definition doRoundTrip (path : string) (f : option InputFile) : option (Z * list LogLine) :=
  let '(data, log) := readFile path f in
  match data with
  | [] => Some (1, log ++ [GPERROR "File is empty or unreadable: {}" [AStr path]])
  | _ =>
      packets ← parseStream codec (Some data) (zlen data);
      let banner := log ++
        [RULER; GPINFO "VITA 49.2 File Round-Trip Test" []; RULER;
         GPINFO "File:  {}" [AStr path]; GPINFO "Size:  {} bytes" [AInt (zlen data)]; RULER;
         GPINFO "Decoded {} packet(s) from file." [AInt (zlen packets)]] in
      match packets with
      | [] => Some (1, banner ++ [GPERROR "No packets decoded." []])
      | _ =>
          reEncoded ← reEncode packets;
          packets2 ← parseStream codec (Some reEncoded) (zlen reEncoded);
          let allSamples1 := allSamples packets in
          let allSamples2 := allSamples packets2 in
          Some (0, banner ++
            [GPINFO "Re-encoded {} bytes." [AInt (zlen reEncoded)]] ++
            (if zlen reEncoded =? zlen data then []
             else [GPWARN "Size mismatch — original={} re-encoded={}" [AInt (zlen data); AInt (zlen reEncoded)];
                   GPWARN "  (This may be expected if original has unsupported fields)" []]) ++
            [GPINFO "Re-decoded {} packet(s)." [AInt (zlen packets2)];
             GPINFO "Signal packets: original={} re-encoded={}"
               [AInt (zlen (signalPackets packets)); AInt (zlen (signalPackets packets2))];
             GPINFO "Total samples:  original={} re-encoded={}" [AInt (zlen allSamples1); AInt (zlen allSamples2)]] ++
            compareSamples allSamples1 allSamples2 ++ [RULER])
      end
  end.

(** * The command line *)

Definition printUsage (progName : string) : list LogLine :=
  [GPINFO "Usage:" [];
   GPINFO "  {} generate <output.v49> [numSamples] [freqHz]" [AStr progName];
   GPINFO "  {} inspect  <input.v49>" [AStr progName];
   GPINFO "  {} roundtrip <input.v49>" [AStr progName];
   GPINFO "" []; GPINFO "Modes:" [];
   GPINFO "  generate  - Create a .v49 file with synthetic tone + context" [];
   GPINFO "  inspect   - Decode and print packet details from a .v49 file" [];
   GPINFO "  roundtrip - Read, decode, re-encode, and compare" [];
   GPINFO "" []; GPINFO "Defaults:" [];
   GPINFO "  numSamples = 10000" []; GPINFO "  freqHz     = 1000.0" []].

Section main.
Context (atof : string -> double).

(** The files are an argument and a result of [main]: the one at the path given. *)
Definition main (argv : list string) (f : option InputFile) (os : OutputStream)
    : option (Exit * option (list Z) * list LogLine) :=
  let progName := default ""%string (argv !! 0%nat) in
  if (length argv <? 3)%nat then Some (Return 1, None, printUsage progName)
  else
    mode ← argv !! 1%nat;
    filePath ← argv !! 2%nat;
    if bool_decide (mode = "generate"%string) then
      numSamples ← match argv !! 3%nat with Some a => n ← atol a; Some (u64 n) | None => Some 10000 end;
      let freqHz := match argv !! 4%nat with Some a => atof a | None => f64_of_Z 1000 end in
      doGenerate filePath numSamples freqHz os
    else if bool_decide (mode = "inspect"%string) then
      '(code, log) ← doInspect filePath f; Some (Return code, None, log)
    else if bool_decide (mode = "roundtrip"%string) then
      '(code, log) ← doRoundTrip filePath f; Some (Return code, None, log)
    else Some (Return 1, None, GPERROR "Unknown mode '{}'" [AStr mode] :: printUsage progName).
End main.
End modes.

(** * Re-encoding *)

Lemma codec_scale : usable_scale (_scaleFactor codec) = true.
Proof. done. Qed.

Lemma allSamples_app ps qs : allSamples (ps ++ qs) = allSamples ps ++ allSamples qs.
Proof. unfold allSamples, signalPackets. by rewrite list.filter_app, fmap_app, concat_app. Qed.

Lemma allSamples_cons p ps : allSamples (p :: ps) = allSamples [p] ++ allSamples ps.
Proof. apply (allSamples_app [p]). Qed.

Lemma allSamples_signal ps :
  Forall (λ p, type p = SignalData) ps -> allSamples ps = concat (samples <$> ps).
Proof.
  induction 1 as [|p ps Hp _ IH]; [done|]. rewrite allSamples_cons, IH.
  unfold allSamples, signalPackets. rewrite filter_cons_True by (unfold isSignal; by rewrite Hp).
  cbn. by rewrite app_nil_r.
Qed.

Lemma allSamples_other p : type p <> SignalData -> allSamples [p] = [].
Proof.
  intros Hp. unfold allSamples, signalPackets.
  rewrite filter_cons_False; [done|]. unfold isSignal. destruct (type p); [by destruct Hp|by intros []..].
Qed.

Lemma header_defaults h :
  header_wf h ->
  0 <= default 0 (streamId h) < 4294967296 /\ 0 <= default 0 (integerTimestamp h) < 4294967296 /\
  0 <= default 0 (fractionalTimestamp h) < 18446744073709551616.
Proof.
  assert (∀ b lim v, 0 < lim -> opt_ok b lim v -> 0 <= default 0 v < lim) as H.
  { intros b lim [v|] Hl; cbn; [by intros []|lia]. }
  intros []. split; [|split]; (eapply H; [lia|eassumption]).
Qed.

Lemma Forall2_eq ps qs : Forall2 (λ (P : ParsedPacket -> Prop) q, P q) (eq <$> ps) qs -> qs = ps.
Proof.
  revert qs. induction ps as [|p ps IH]; intros qs H; inversion H; subst; [done|]. f_equal. by apply IH.
Qed.

Definition context_encodable (p : ParsedPacket) : Prop :=
  type p = Context_ -> ContextPacket.encodable (contextFields p).

Lemma reEncodePacket_spec unspec p :
  packet_ok codec p -> context_encodable p ->
  ∃ pkts Ps, reEncodePacket unspec p = Some (concat pkts) /\ Forall2 (parses_as codec) pkts Ps /\
    ∀ qs, Forall2 (λ (P : ParsedPacket -> Prop) q, P q) Ps qs -> allSamples qs = allSamples [p].
Proof.
  intros Hok Hc. unfold reEncodePacket, packet_ok, context_encodable in *. destruct (type p) eqn:Et.
  - destruct Hok as [Hwf Hs]. destruct (header_defaults _ Hwf) as (H1 & H2 & H3).
    set (hd := header p) in *.
    destruct (encodeSignalData_spec unspec codec (default 0 (streamId hd)) (tsiType hd) (tsfType hd)
      (default 0 (integerTimestamp hd)) (default 0 (fractionalTimestamp hd)) (trailerPresent hd)
      H1 H2 H3 codec_scale (samples p) Hs (packetCount hd)) as (pkts & -> & Hp).
    { destruct Hwf. lia. }
    eexists pkts, (eq <$> _). split; [done|]. split.
    { apply Forall2_fmap_r. eapply Forall2_impl; [|exact Hp]. apply framed_parses_as. }
    intros qs ->%Forall2_eq.
    destruct (signal_packets_samples (default 0 (streamId hd)) (tsiType hd) (tsfType hd)
      (default 0 (integerTimestamp hd)) (default 0 (fractionalTimestamp hd)) (trailerPresent hd)
      (samples p) (packetCount hd)) as [Hd Hsm].
    rewrite allSamples_signal, Hsm by done. rewrite allSamples_signal by (by constructor).
    cbn. by rewrite app_nil_r.
  - destruct Hok as [Hwf _]. destruct (header_defaults _ Hwf) as (H1 & H2 & H3). specialize (Hc eq_refl).
    assert (∃ pkt, encodeContext codec (default 0 (streamId (header p))) (tsiType (header p))
      (tsfType (header p)) (default 0 (integerTimestamp (header p)))
      (default 0 (fractionalTimestamp (header p))) (contextFields p) (packetCount (header p)) = Some pkt)
      as [pkt E] by (eexists; by apply ContextPacket.context_encode_ok).
    exists [pkt], [λ q, type q = Context_]. cbn [concat]. rewrite app_nil_r. split; [done|]. split.
    { constructor; [|constructor]. exact (encodeContext_parses_as _ _ _ _ _ _ _ _ _ Hc H1 H2 H3 E). }
    intros qs Hq. inversion Hq as [|? q ? ? Hq1 Hq2]; subst. inversion Hq2; subst.
    by rewrite !allSamples_other by congruence.
  - exists [], []. split; [done|]. split; [constructor|]. intros qs Hq. inversion Hq.
    by rewrite allSamples_other by congruence.
Qed.

Lemma reEncode_spec unspec ps :
  Forall (packet_ok codec) ps -> Forall context_encodable ps ->
  ∃ pkts Ps, reEncode unspec ps = Some (concat pkts) /\ Forall2 (parses_as codec) pkts Ps /\
    ∀ qs, Forall2 (λ (P : ParsedPacket -> Prop) q, P q) Ps qs -> allSamples qs = allSamples ps.
Proof.
  intros H. induction H as [|p ps Hp _ IH]; intros Hc.
  { exists [], []. split; [done|]. split; [constructor|]. intros qs Hq. by inversion Hq. }
  inversion Hc as [|? ? Hc1 Hc2]; subst. destruct (IH Hc2) as (pkts & Ps & Er & Hf & Hs).
  destruct (reEncodePacket_spec unspec p Hp Hc1) as (pk & Pk & Ep & Hfk & Hsk).
  exists (pk ++ pkts), (Pk ++ Ps). cbn [reEncode]. rewrite Ep, bind_ret, Er, bind_ret, concat_app.
  split; [done|]. split; [by apply Forall2_app|].
  intros qs (q1 & q2 & Hq1 & Hq2 & ->)%Forall2_app_inv_l.
  rewrite allSamples_app, (Hsk _ Hq1), (Hs _ Hq2). by rewrite (allSamples_cons p ps).
Qed.

(** A context packet the casts do not cover stops the re-encoding. *)
Lemma reEncode_undefined unspec ps :
  Forall (packet_ok codec) ps -> ~ Forall context_encodable ps -> reEncode unspec ps = None.
Proof.
  intros H. induction H as [|p ps Hp _ IH]; intros Hn; [destruct Hn; constructor|]. cbn [reEncode].
  destruct (reEncodePacket unspec p) as [out|] eqn:E; [|done]. rewrite bind_ret, IH; [done|].
  intros Hps. apply Hn. constructor; [|done]. intros Et. unfold reEncodePacket in E. rewrite Et in E.
  unfold encodeContext, ContextPacket.encode in E. apply bind_Some in E as ([cf d] & E & _).
  by eapply ContextPacket.encodeFields_encodable.
Qed.

Lemma maxError_diag smp :
  Forall (SignalDataPacket.sample_ok DEFAULT_SCALE_FACTOR) smp ->
  maxError smp smp (S754_zero false) = S754_zero false.
Proof.
  induction 1 as [|s smp (rw & [Hi Hq] & ->) _ IH]; [done|]. cbn [maxError].
  unfold SignalDataPacket.to_sample. cbn [fst snd]. rewrite DEFAULT_SCALE_pow2, !f32_scale_exact by lia.
  rewrite !f32_sub_diag. exact IH.
Qed.

Lemma allSamples_ok ps :
  Forall (packet_ok codec) ps ->
  Forall (SignalDataPacket.sample_ok DEFAULT_SCALE_FACTOR) (allSamples ps).
Proof.
  induction 1 as [|p ps Hp _ IH]; [constructor|]. rewrite allSamples_cons, Forall_app. split; [|done]. unfold packet_ok in Hp.
  destruct (type p) eqn:Et; [|by rewrite allSamples_other by congruence..].
  rewrite allSamples_signal by (by constructor). cbn. rewrite app_nil_r. by destruct Hp.
Qed.

Lemma compare_perfect smp :
  Forall (SignalDataPacket.sample_ok DEFAULT_SCALE_FACTOR) smp ->
  compareSamples smp smp
  = [GPINFO "Max sample error: {:.6e}" [AFloat (S754_zero false)];
     GPINFO "Round-trip: PERFECT (bit-exact after re-encode)" []].
Proof. intros H. unfold compareSamples. by rewrite Z.eqb_refl, maxError_diag. Qed.

(** * Inspecting *)

Lemma inspectLoop_spec ps idx t :
  0 <= t < 18446744073709551616 ->
  inspectLoop ps idx t
  = (concat (imap (λ i p, (inspectPacket p (idx + Z.of_nat i)).1) ps), u64 (t + zlen (allSamples ps))).
Proof.
  revert idx t. induction ps as [|p ps IH]; intros idx t Ht.
  { cbn. by rewrite Z.add_0_r, u64_small. }
  cbn [inspectLoop imap concat]. rewrite Z.add_0_r.
  destruct (inspectPacket p idx) as [log n] eqn:Ep. rewrite IH by apply u64_bound. cbn [fst].
  f_equal.
  - f_equal. f_equal. apply imap_ext. intros i q _. unfold compose. by replace (idx + Z.of_nat (S i)) with (idx + 1 + Z.of_nat i) by lia.
  - rewrite allSamples_cons, zlen_app.
    assert (n = zlen (allSamples [p])) as ->.
    { unfold inspectPacket in Ep. destruct (type p) eqn:Et; injection Ep as <- <-;
        [|by rewrite allSamples_other by congruence..].
      rewrite allSamples_signal by (by constructor). cbn. by rewrite app_nil_r. }
    unfold u64. rewrite Z.add_mod_idemp_l by lia. f_equal. lia.
Qed.

Lemma readFile_whole path m : m <> [] -> readFile path (whole m) = (m, []).
Proof.
  intros Hm. unfold readFile, whole. cbn [contents got].
  destruct (Z.leb_spec (zlen m) 0).
  { destruct m; [done|]. rewrite zlen_cons in *. pose proof (zlen_nonneg m). lia. }
  rewrite take_ge by done. rewrite Z.sub_diag. unfold resize_by. cbn. by rewrite app_nil_r.
Qed.

Definition totals (packets samples : Z) : LogLine :=
  GPINFO "Total: {} packets, {} I/Q samples" [AInt packets; AInt samples].

Lemma doInspect_whole path m ps :
  m <> [] -> parseStream codec (Some m) (zlen m) = Some ps ->
  ∃ banner, doInspect path (whole m) = Some (0, banner ++
    concat (imap (λ i p, (inspectPacket p (Z.of_nat i)).1) ps) ++
    [RULER; totals (zlen ps) (u64 (zlen (allSamples ps))); RULER]).
Proof.
  intros Hm Hps. unfold doInspect. rewrite readFile_whole by done.
  destruct m as [|b m]; [done|]. rewrite Hps, bind_ret, inspectLoop_spec by lia.
  eexists. cbv zeta. cbn [app]. do 2 f_equal. change (?a :: ?b :: ?c :: ?d :: ?e :: ?f :: ?g :: ?l) with ([a;b;c;d;e;f;g] ++ l).
  reflexivity.
Qed.

Lemma log_tail3 (a b : list LogLine) w x y : a ++ b ++ [w; x; y] = (a ++ b ++ [w]) ++ [x; y].
Proof. by rewrite <- !(assoc_L (++)). Qed.

Lemma log_tail4 (a : list LogLine) v w x y : a ++ [v; w; x; y] = (a ++ [v; w]) ++ [x; y].
Proof. by rewrite <- (assoc_L (++)). Qed.

Definition verdict : LogLine := GPINFO "Round-trip: PERFECT (bit-exact after re-encode)" [].

Lemma doRoundTrip_whole unspec path m ps :
  bytes_ok m -> parseStream codec (Some m) (zlen m) = Some ps -> ps <> [] ->
  Forall context_encodable ps ->
  ∃ before, doRoundTrip unspec path (whole m) = Some (0, before ++
    [GPINFO "Total samples:  original={} re-encoded={}"
       [AInt (zlen (allSamples ps)); AInt (zlen (allSamples ps))];
     GPINFO "Max sample error: {:.6e}" [AFloat (S754_zero false)]; verdict; RULER]).
Proof.
  intros Hb Hps Hne Hc. unfold doRoundTrip.
  destruct m as [|b m]; [by injection Hps as <-|]. rewrite readFile_whole by done.
  rewrite Hps, bind_ret. destruct ps as [|p ps]; [done|].
  assert (Forall (packet_ok codec) (p :: ps)) as Hok.
  { pose proof (zlen_nonneg (b :: m)).
    apply (Parses_ok codec (b :: m) (zlen (b :: m))); [done|lia|]. apply parseStream_iff; [done|lia|done]. }
  destruct (reEncode_spec unspec (p :: ps) Hok Hc) as (pkts & Ps & -> & Hf & Hs). rewrite bind_ret.
  destruct (parseStream_as codec pkts Ps Hf) as (qs & -> & Hq). rewrite bind_ret.
  rewrite (Hs qs Hq), compare_perfect by (by apply allSamples_ok).
  eexists. cbv zeta. f_equal. f_equal.
  match goal with |- ?a ++ ?b ++ ?c ++ [?x; ?y; ?z] ++ ?r = _ =>
    transitivity ((a ++ b ++ c ++ [x; y]) ++ [z] ++ r) end; [|reflexivity].
  by rewrite <- !(assoc_L (++)).
Qed.

(** * Generating *)

Lemma generateFields_ok : ContextPacket.fields_ok generateFields.
Proof.
  split; cbn [generateFields ContextPacket.opt_all referencePointId bandwidth ifRefFrequency rfFrequency
    rfFreqOffset ifBandOffset referenceLevel gain overRangeCount sampleRate]; try done.
  - exists 1048576000000. split; [lia|by vm_compute].
  - exists 2516582400000000. split; [lia|by vm_compute].
  - exists (-5120). split; [lia|by vm_compute].
  - exists 2560. split; [lia|by vm_compute].
  - exists 1048576000000. split; [lia|by vm_compute].
Qed.

Section generate.
Context (unspec : float -> Z) (cosf sinf : float -> float) (n : nat) (freq : double).

(** The samples a receiver of the file gets. *)
Definition receivedTone : IQSamples :=
  SignalDataPacket.requantize unspec DEFAULT_SCALE_FACTOR <$> tone cosf sinf n freq.

Definition generatedPackets : list ParsedPacket :=
  context_packet codec STREAM_ID TSI_UTC TSF_RealTime 1738886400 0 generateFields generateFields 0 ::
  signal_packets STREAM_ID TSI_UTC TSF_RealTime 1738886400 0 false receivedTone 1.

Lemma zlen_receivedTone : zlen receivedTone = Z.of_nat n.
Proof. unfold receivedTone, tone, zlen. by rewrite !length_fmap, length_seq. Qed.

Lemma generated_samples : allSamples generatedPackets = receivedTone.
Proof.
  unfold generatedPackets. rewrite allSamples_cons, allSamples_other by done.
  edestruct signal_packets_samples as [H1 H2]. rewrite allSamples_signal by exact H1. exact H2.
Qed.

Lemma generated_length : zlen generatedPackets = 1 + Z.max 1 ((Z.of_nat n + 65529) / 65530).
Proof.
  unfold generatedPackets. rewrite zlen_cons, signal_packets_length, zlen_receivedTone.
  change (SignalDataPacket.maxSamplesPerPacket TSI_UTC TSF_RealTime false false) with 65530.
  by replace (Z.of_nat n + 65530 - 1) with (Z.of_nat n + 65529) by lia.
Qed.

Lemma generate_outcome path :
  Z.of_nat n <= vector_max_size ->
  ∃ out log, doGenerate unspec cosf sinf path (Z.of_nat n) freq healthy = Some (Return 0, Some out, log) /\
    bytes_ok out /\ out <> [] /\
    parseStream codec (Some out) (zlen out) = Some generatedPackets.
Proof.
  intros Hn. unfold doGenerate.
  destruct (encodeContext_framed codec STREAM_ID TSI_UTC TSF_RealTime 1738886400 0 ltac:(done) ltac:(done)
    ltac:(done) generateFields 0 (ContextPacket.fields_ok_encodable _ generateFields_ok)
    (ContextPacket.fields_ok_words _ generateFields_ok)) as (ctx & -> & Hctx). rewrite bind_ret.
  rewrite (ContextPacket.received_id _ generateFields_ok) in Hctx.
  rewrite (proj2 (Z.ltb_ge _ _)), Nat2Z.id by done.
  destruct (encodeSignalData_received unspec codec STREAM_ID TSI_UTC TSF_RealTime 1738886400 0 false ltac:(done)
    ltac:(done) ltac:(done) ltac:(done) (tone cosf sinf n freq) 1) as (pkts & E & Hp); [done|].
  change (SignalDataPacket.requantize unspec (_scaleFactor codec) <$> tone cosf sinf n freq) with receivedTone in Hp.
  rewrite E, bind_ret. unfold writeFile. cbn [negb opens healthy accepts stores default].
  rewrite Z.leb_refl. cbn [negb]. rewrite Z.min_id.
  assert (Forall2 (framed codec) (ctx :: pkts) generatedPackets) as Hf by (by constructor).
  change (ctx ++ concat pkts) with (concat (ctx :: pkts)).
  assert (Z.to_nat (zlen (concat (ctx :: pkts))) = length (concat (ctx :: pkts))) as ->
    by (unfold zlen; by rewrite Nat2Z.id).
  rewrite take_ge by done. eexists _, _. split; [done|].
  pose proof (framed_concat_bytes _ _ _ Hf) as Hb. split; [done|]. split.
  - destruct Hctx as (_ & H4 & _). destruct ctx; [change (zlen []) with 0 in *; lia|done].
  - pose proof (parseStream_concat codec _ _ [] 0 [] Hf ltac:(done) ltac:(done) eq_refl) as Hs.
    by rewrite !app_nil_r, Z.add_0_r in Hs.
Qed.
End generate.

(** * Properties *)

(** C7: the round-trip mode reports PERFECT for every file of which it decodes a
    packet, whatever the file holds: all samples come back bit for bit.  The
    one condition is that the 64-bit fields of the decoded context packets can
    be cast back; when one cannot, the behaviour is undefined. *)
Theorem filecodec_roundtrip_perfect unspec path data :
  bytes_ok data ->
  ∃ ps, parseStream codec (Some data) (zlen data) = Some ps /\
    (ps = [] -> data <> [] -> ∃ log, doRoundTrip unspec path (whole data) = Some (1, log)) /\
    (ps <> [] -> Forall context_encodable ps ->
       ∃ before, doRoundTrip unspec path (whole data) = Some (0, before ++
         [GPINFO "Total samples:  original={} re-encoded={}"
            [AInt (zlen (allSamples ps)); AInt (zlen (allSamples ps))];
          GPINFO "Max sample error: {:.6e}" [AFloat (S754_zero false)]; verdict; RULER])) /\
    (~ Forall context_encodable ps -> doRoundTrip unspec path (whole data) = None).
Proof.
  intros Hb. pose proof (zlen_nonneg data).
  destruct (parseStream_spec codec data (zlen data) Hb) as (ps & Hps & HP); [lia|].
  exists ps. split; [done|]. split; [|split].
  - intros -> Hne. unfold doRoundTrip. rewrite readFile_whole by done.
    destruct data as [|b data]; [done|]. rewrite Hps, bind_ret. by eexists.
  - intros Hne Hc. by apply doRoundTrip_whole.
  - intros Hn. unfold doRoundTrip. destruct data as [|b data].
    { injection Hps as <-. by destruct Hn. }
    rewrite readFile_whole by done. rewrite Hps, bind_ret. destruct ps as [|p ps]; [by destruct Hn|].
    rewrite reEncode_undefined; [done| |done]. eapply Parses_ok; [exact Hb| |exact HP]. done.
Qed.

(** Two samples and a trailer in a packet without stream ID. *)
Definition small_file : list Z := [4; 0; 0; 4; 0; 1; 255; 255; 128; 0; 127; 255; 0; 0; 0; 0].

Lemma small_file_bytes : bytes_ok small_file.
Proof. repeat constructor; unfold is_byte; lia. Qed.

Lemma filecodec_roundtrip_perfect_witness :
  ∃ ps, parseStream codec (Some small_file) (zlen small_file) = Some ps /\
    (ps = [] -> small_file <> [] -> ∃ log, doRoundTrip (λ _, 0) "f" (whole small_file) = Some (1, log)) /\
    (ps <> [] -> Forall context_encodable ps ->
       ∃ before, doRoundTrip (λ _, 0) "f" (whole small_file) = Some (0, before ++
         [GPINFO "Total samples:  original={} re-encoded={}"
            [AInt (zlen (allSamples ps)); AInt (zlen (allSamples ps))];
          GPINFO "Max sample error: {:.6e}" [AFloat (S754_zero false)]; verdict; RULER])) /\
    (~ Forall context_encodable ps -> doRoundTrip (λ _, 0) "f" (whole small_file) = None).
Proof. apply (filecodec_roundtrip_perfect (λ _, 0) "f" small_file), small_file_bytes. Defined.

(** A bandwidth field of 2^63 - 1: decoding it is defined, re-encoding is not. *)
Example roundtrip_undefined :
  doRoundTrip (λ _, 0) "f"
    (whole [64; 0; 0; 5; 0; 0; 0; 1; 32; 0; 0; 0; 127; 255; 255; 255; 255; 255; 255; 255]) = None.
Proof. vm_compute. reflexivity. Qed.

(** C16: a generated file holds one context packet and the packets of the tone,
    65530 samples each; inspect counts exactly these and the round trip is
    perfect, whatever the tone, its length and the library's sine. *)
Theorem filecodec_generate_inspect unspec cosf sinf path path' n freq :
  Z.of_nat n <= vector_max_size ->
  let packets := 1 + Z.max 1 ((Z.of_nat n + 65529) / 65530) in
  ∃ out log banner before,
    doGenerate unspec cosf sinf path (Z.of_nat n) freq healthy = Some (Return 0, Some out, log) /\
    parseStream codec (Some out) (zlen out) = Some (generatedPackets unspec cosf sinf n freq) /\
    allSamples (generatedPackets unspec cosf sinf n freq) = receivedTone unspec cosf sinf n freq /\
    doInspect path' (whole out) = Some (0, banner ++ [totals packets (Z.of_nat n); RULER]) /\
    doRoundTrip unspec path' (whole out) = Some (0, before ++ [verdict; RULER]).
Proof.
  intros Hn packets.
  destruct (generate_outcome unspec cosf sinf n freq path Hn) as (out & log & Hg & Hb & Hne & Hps).
  destruct (doInspect_whole path' out _ Hne Hps) as (banner & Hi).
  destruct (doRoundTrip_whole unspec path' out _ Hb Hps) as (before & Hr); [done| |].
  { constructor.
    - intros _. apply ContextPacket.fields_ok_encodable, generateFields_ok.
    - edestruct signal_packets_samples as [H1 _]. eapply Forall_impl; [|exact H1].
      intros p Hp Hc. congruence. }
  rewrite generated_samples, zlen_receivedTone in Hi, Hr. rewrite generated_length, u64_small in Hi
    by (unfold vector_max_size in Hn; lia).
  rewrite log_tail3 in Hi. rewrite log_tail4 in Hr.
  do 4 eexists. split; [exact Hg|]. split; [exact Hps|]. split; [apply generated_samples|].
  split; [exact Hi|exact Hr].
Qed.

(** Constant stand-ins for the library's functions. *)
Lemma filecodec_generate_inspect_witness :
  Z.of_nat 3 <= vector_max_size /\
  ∃ out log banner before,
    doGenerate (λ _, 0) (λ _, f32_of_Z 1) (λ _, f32_of_Z 0) "f" (Z.of_nat 3) (f64_of_Z 1000) healthy
    = Some (Return 0, Some out, log) /\
    parseStream codec (Some out) (zlen out)
    = Some (generatedPackets (λ _, 0) (λ _, f32_of_Z 1) (λ _, f32_of_Z 0) 3 (f64_of_Z 1000)) /\
    allSamples (generatedPackets (λ _, 0) (λ _, f32_of_Z 1) (λ _, f32_of_Z 0) 3 (f64_of_Z 1000))
    = receivedTone (λ _, 0) (λ _, f32_of_Z 1) (λ _, f32_of_Z 0) 3 (f64_of_Z 1000) /\
    doInspect "g" (whole out) = Some (0, banner ++ [totals 2 3; RULER]) /\
    doRoundTrip (λ _, 0) "g" (whole out) = Some (0, before ++ [verdict; RULER]).
Proof.
  split; [done|]. apply (filecodec_generate_inspect (λ _, 0) (λ _, f32_of_Z 1) (λ _, f32_of_Z 0) "f" "g" 3).
  done.
Defined.

(** A full disk found out only when the stream is closed: success, and a file cut
    short. *)
Example generate_cut_short :
  option_map (λ r, (r.1.1, option_map length r.1.2))
    (doGenerate (λ _, 0) (λ _, f32_of_Z 1) (λ _, f32_of_Z 0) "f" 3 (f64_of_Z 1000)
      (mkOutputStream true None (Some 10)))
  = Some (Return 0, Some 10%nat).
Proof. vm_compute. reflexivity. Qed.

(** A negative count ends the program. *)
Example generate_negative :
  option_map (λ r, r.1.1)
    (main (λ _, 0) (λ _, f32_of_Z 1) (λ _, f32_of_Z 0) (λ _, f64_of_Z 0)
      ["tool"; "generate"; "f"; "-1"]%string None healthy)
  = Some Terminate.
Proof. vm_compute. reflexivity. Qed.

(** ** The ranges of the summary *)

Definition extreme (le : Z -> Z -> Prop) (l : list Z) (v : Z) : Prop := v ∈ l /\ ∀ w, w ∈ l -> le v w.

Lemma fold_min_extreme l a : extreme Z.le (a :: l) (fold_left Z.min l a).
Proof.
  revert a. induction l as [|b l IH]; intros a; cbn [fold_left].
  { split; [left|]. intros w ->%list_elem_of_singleton. lia. }
  destruct (IH (Z.min a b)) as [Hin Hle]. split.
  - apply elem_of_cons in Hin as [->|Hin]; [|by do 2 right].
    destruct (Z.min_spec a b) as [[_ ->]|[_ ->]]; [left|right; left].
  - intros w Hw. rewrite !elem_of_cons in Hw. destruct Hw as [->|[->|Hw]].
    + transitivity (Z.min a b); [apply Hle; left|lia].
    + transitivity (Z.min a b); [apply Hle; left|lia].
    + apply Hle. by right.
Qed.

Lemma fold_max_extreme l a : extreme Z.ge (a :: l) (fold_left Z.max l a).
Proof.
  assert (∀ b, fold_left Z.max l b = - fold_left Z.min (Z.opp <$> l) (- b)) as E.
  { induction l as [|c l IH]; intros b; cbn [fold_left fmap list_fmap]; [lia|]. rewrite IH. do 2 f_equal. lia. }
  rewrite E. destruct (fold_min_extreme (Z.opp <$> l) (- a)) as [Hin Hle].
  change (- a :: (Z.opp <$> l)) with (Z.opp <$> a :: l) in *. split.
  - apply list_elem_of_fmap in Hin as (v & -> & Hv). by rewrite Z.opp_involutive.
  - intros w Hw. specialize (Hle (- w)). apply Z.le_ge. 
    assert (- w ∈ Z.opp <$> a :: l) as H by (by apply list_elem_of_fmap_2). specialize (Hle H). lia.
Qed.

(** The float of an int16 of the payload. *)
Definition sampleValue (i : Z) : float := f32_mul (f32_of_Z i) (f32_div (f32_of_Z 1) DEFAULT_SCALE_FACTOR).

Lemma sampleValue_dyadic i : -32768 <= i < 32768 -> sampleValue i = dyadic f32_prec i (-15).
Proof. intros. unfold sampleValue. rewrite DEFAULT_SCALE_pow2. by rewrite f32_scale_exact by lia. Qed.

Lemma sampleValue_min i j :
  -32768 <= i < 32768 -> -32768 <= j < 32768 -> f32_min (sampleValue i) (sampleValue j) = sampleValue (Z.min i j).
Proof. intros. rewrite !sampleValue_dyadic by lia. apply f32_min_dyadic; lia. Qed.

Lemma sampleValue_max i j :
  -32768 <= i < 32768 -> -32768 <= j < 32768 -> f32_max (sampleValue i) (sampleValue j) = sampleValue (Z.max i j).
Proof. intros. rewrite !sampleValue_dyadic by lia. apply f32_max_dyadic; lia. Qed.

Definition i16 (i : Z) : Prop := -32768 <= i < 32768.

Lemma stats_fold raws st a b c d :
  Forall SignalDataPacket.raw_ok raws -> i16 a -> i16 b -> i16 c -> i16 d ->
  minI st = sampleValue a -> maxI st = sampleValue b -> minQ st = sampleValue c -> maxQ st = sampleValue d ->
  let st' := fold_left updateStats
    (SignalDataPacket.to_sample (f32_div (f32_of_Z 1) DEFAULT_SCALE_FACTOR) <$> raws) st in
  minI st' = sampleValue (fold_left Z.min raws.*1 a) /\ maxI st' = sampleValue (fold_left Z.max raws.*1 b) /\
  minQ st' = sampleValue (fold_left Z.min raws.*2 c) /\ maxQ st' = sampleValue (fold_left Z.max raws.*2 d).
Proof.
  intros H. revert st a b c d. induction H as [|[i q] raws [Hi Hq] _ IH]; intros st a b c d Ha Hb Hc Hd E1 E2 E3 E4;
    cbn [fmap list_fmap fold_left]; [done|].
  cbn [fst snd] in Hi, Hq. unfold i16 in *.
  apply IH; cbn [fst snd]; try lia; unfold updateStats, SignalDataPacket.to_sample; cbn [minI maxI minQ maxQ fst snd].
  - rewrite E1. by apply sampleValue_min.
  - rewrite E2. by apply sampleValue_max.
  - rewrite E3. by apply sampleValue_min.
  - rewrite E4. by apply sampleValue_max.
Qed.

(** C40: the I and Q ranges inspect prints for a decoded packet, computed by
    comparing floats, are those of the extreme 16-bit integers of its payload. *)
Theorem filecodec_summary_ranges raws :
  Forall SignalDataPacket.raw_ok raws -> raws <> [] ->
  ∃ loI hiI loQ hiQ before after,
    logSampleSummary (SignalDataPacket.to_sample (f32_div (f32_of_Z 1) DEFAULT_SCALE_FACTOR) <$> raws)
    = before ++
      [GPINFO "    I range:         [{:.6f}, {:.6f}]" [AFloat (sampleValue loI); AFloat (sampleValue hiI)];
       GPINFO "    Q range:         [{:.6f}, {:.6f}]" [AFloat (sampleValue loQ); AFloat (sampleValue hiQ)]] ++ after /\
    extreme Z.le raws.*1 loI /\ extreme Z.ge raws.*1 hiI /\ extreme Z.le raws.*2 loQ /\ extreme Z.ge raws.*2 hiQ.
Proof.
  intros H Hne. destruct raws as [|[i q] raws]; [done|].
  assert (i16 i /\ i16 q) as [Hi Hq] by (inversion H as [|? ? [? ?]]; by split).
  destruct (stats_fold ((i, q) :: raws) (initialStats (sampleValue i, sampleValue q)) i i q q H Hi Hi Hq Hq eq_refl eq_refl eq_refl eq_refl)
    as (E1 & E2 & E3 & E4).
  cbn [fmap list_fmap fold_left] in E1, E2, E3, E4. rewrite Z.min_id in E1, E3. rewrite Z.max_id in E2, E4.
  eexists _, _, _, _, [_; _], _. split; [|split_and!; first [apply fold_min_extreme | apply fold_max_extreme]].
  unfold logSampleSummary. cbn [fmap list_fmap fold_left fst snd] in *.
  change (SignalDataPacket.to_sample (f32_div (f32_of_Z 1) DEFAULT_SCALE_FACTOR) (i, q))
    with (sampleValue i, sampleValue q) in *.
  rewrite E1, E2, E3, E4. reflexivity.
Qed.

Lemma filecodec_summary_ranges_witness :
  Forall SignalDataPacket.raw_ok [(1, -1); (-32768, 32767)] /\
  ∃ loI hiI loQ hiQ before after,
    logSampleSummary (SignalDataPacket.to_sample (f32_div (f32_of_Z 1) DEFAULT_SCALE_FACTOR) <$>
      [(1, -1); (-32768, 32767)])
    = before ++
      [GPINFO "    I range:         [{:.6f}, {:.6f}]" [AFloat (sampleValue loI); AFloat (sampleValue hiI)];
       GPINFO "    Q range:         [{:.6f}, {:.6f}]" [AFloat (sampleValue loQ); AFloat (sampleValue hiQ)]] ++ after /\
    extreme Z.le [(1, -1); (-32768, 32767)].*1 loI /\ extreme Z.ge [(1, -1); (-32768, 32767)].*1 hiI /\
    extreme Z.le [(1, -1); (-32768, 32767)].*2 loQ /\ extreme Z.ge [(1, -1); (-32768, 32767)].*2 hiQ.
Proof.
  assert (Forall SignalDataPacket.raw_ok [(1, -1); (-32768, 32767)]) as H
    by (repeat constructor; cbn; lia).
  split; [exact H|]. apply filecodec_summary_ranges; [exact H|done].
Defined.
