(* ===== verification/Vita49RoundTripTest.v ===== *)
(** Accuracy test of the stream codec: src/apps/TestApps/Vita49RoundTripTest.cpp.

    Waveforms are encoded, decoded and compared.  Their generation, the error
    metrics and the checks of the context fields use the source's float and
    double arithmetic; the sine, the logarithm, the normal distribution and
    std::stof are parameters.  An exception ends the program: [Terminate]. *)

From Stdlib Require Import SpecFloat.
From S2P Require Import Prelude Ieee754 FloatError Vita49Types PacketHeader Vita49Codec GeneralLogger Programs.
From S2P Require ContextPacket SignalDataPacket.

Definition f64_sub : double -> double -> double := SFsub f64_prec f64_emax.

(** * Waveforms *)

Section waveforms.
Context (cosf sinf : float -> float).
(** [normal stddev seed k]: draw number k of a mt19937 seeded with [seed]
    through normal_distribution(0, stddev). *)
Context (normal : float -> Z -> nat -> float).

Definition half : double := S754_finite false 4503599627370496 (-53).

Definition tonePhase (freqHz sampleRateHz : double) (i : Z) : float :=
  let t := f64_div (f64_of_Z i) sampleRateHz in
  f32_of_f64 (f64_mul (f64_mul two_pi freqHz) t).

Definition generateTone (count : nat) (freqHz sampleRateHz : double) : IQSamples :=
  (λ i, let phase := tonePhase freqHz sampleRateHz (Z.of_nat i) in (cosf phase, sinf phase)) <$> seq 0 count.

Definition chirpPhase (count : nat) (f0 f1 sampleRateHz : double) (i : Z) : float :=
  let duration := f64_div (f64_of_Z (Z.of_nat count)) sampleRateHz in
  let rate := f64_div (f64_sub f1 f0) duration in
  let t := f64_div (f64_of_Z i) sampleRateHz in
  f32_of_f64 (f64_mul two_pi (f64_add (f64_mul f0 t) (f64_mul (f64_mul (f64_mul half rate) t) t))).

Definition generateChirp (count : nat) (f0 f1 sampleRateHz : double) : IQSamples :=
  (λ i, let phase := chirpPhase count f0 f1 sampleRateHz (Z.of_nat i) in (cosf phase, sinf phase)) <$> seq 0 count.

Definition generateNoise (count : nat) (stddev : float) (seed : Z) : IQSamples :=
  (λ i, (normal stddev seed (2 * i), normal stddev seed (2 * i + 1))) <$> seq 0 count.

Definition generateScaledTone (count : nat) (freqHz sampleRateHz : double) (amplitude : float) : IQSamples :=
  (λ i, let phase := tonePhase freqHz sampleRateHz (Z.of_nat i) in
        (f32_mul amplitude (cosf phase), f32_mul amplitude (sinf phase))) <$> seq 0 count.
End waveforms.

(** * Error metrics *)

Record ErrorMetrics : Type := mkErrorMetrics {
  maxAbsError : float;
  rmsError : float;
  snrDb : float;
  sampleCount : Z;
}.

Record Sums : Type := mkSums { sumSqError : double; sumSqSignal : double; maxErr : float }.

Definition magSq (i q : float) : double := f64_of_f32 (f32_add (f32_mul i i) (f32_mul q q)).

Definition addError (s : Sums) (original decoded : IQSample) : Sums :=
  let errI := f32_sub original.1 decoded.1 in
  let errQ := f32_sub original.2 decoded.2 in
  mkSums (f64_add (sumSqError s) (magSq errI errQ)) (f64_add (sumSqSignal s) (magSq original.1 original.2))
    (f32_max (f32_max (maxErr s) (SFabs errI)) (SFabs errQ)).

(** [for (size_t i = 0; i < metrics.sampleCount; ++i)] *)
Fixpoint sumErrors (original decoded : IQSamples) (s : Sums) : Sums :=
  match original, decoded with
  | a :: original, b :: decoded => sumErrors original decoded (addError s a b)
  | _, _ => s
  end.

Section metrics.
Context (log10 : double -> double).

Definition snr (s : Sums) : float :=
  if SFltb (S754_zero false) (sumSqError s)
  then f32_of_f64 (f64_mul (f64_of_Z 10) (log10 (f64_div (sumSqSignal s) (sumSqError s))))
  else S754_infinity false.

Definition computeMetrics (original decoded : IQSamples) : ErrorMetrics * list LogLine :=
  let count := Z.min (zlen original) (zlen decoded) in
  let s := sumErrors original decoded (mkSums (S754_zero false) (S754_zero false) (S754_zero false)) in
  let n := f64_mul (f64_of_Z count) (f64_of_Z 2) in
  (mkErrorMetrics (maxErr s) (f32_of_f64 (f64_sqrt (f64_div (sumSqError s) n))) (snr s) count,
   if zlen original =? zlen decoded then []
   else [GPWARN "Sample count mismatch — original={} decoded={}" [AInt (zlen original); AInt (zlen decoded)]]).

Definition logMetrics (name : string) (m : ErrorMetrics) : LogLine :=
  GPINFO "  {:24s} samples={:<8} maxErr={:.4e} rmsErr={:.4e} SNR={:.2f} dB"
    [AStr name; AInt (sampleCount m); AFloat (maxAbsError m); AFloat (rmsError m); AFloat (snrDb m)].

(** * One round trip *)

Context (lround_unspecified : float -> Z).

Definition decodedSamples (packets : list ParsedPacket) : IQSamples :=
  concat ((λ p : ParsedPacket, match type p with SignalData => samples p | _ => [] end) <$> packets).

Definition runRoundTrip (name : string) (original : IQSamples) (codec : Vita49Codec) (streamId : Z)
    (snrThresholdDb : float) : option (bool * list LogLine) :=
  encoded ← encodeSignalData lround_unspecified codec streamId TSI_None TSF_None 0 0 false original 0;
  if (zlen encoded =? 0) && negb (zlen original =? 0)
  then Some (false, [GPERROR "FAIL: {} — encode returned empty" [AStr name]])
  else
    packets ← parseStream codec (Some encoded) (zlen encoded);
    if (zlen packets =? 0) && negb (zlen original =? 0)
    then Some (false, [GPERROR "FAIL: {} — decode returned no packets" [AStr name]])
    else
      let '(metrics, log) := computeMetrics original (decodedSamples packets) in
      let log := log ++ [logMetrics name metrics] in
      if SFltb (snrDb metrics) snrThresholdDb
      then Some (false, log ++ [GPERROR "FAIL: {} — SNR {:.2f} dB below threshold {:.2f} dB"
                                  [AStr name; AFloat (snrDb metrics); AFloat snrThresholdDb]])
      else Some (true, log).

(** [if (!runRoundTrip(..)) ++failures;], one after the other. *)
Fixpoint runTests (codec : Vita49Codec) (streamId : Z) (tests : list (string * IQSamples * float))
    : option (Z * list LogLine) :=
  match tests with
  | [] => Some (0, [])
  | (name, original, threshold) :: tests =>
      '(ok, log) ← runRoundTrip name original codec streamId threshold;
      '(failures, rest) ← runTests codec streamId tests;
      Some ((if ok : bool then 0 else 1) + failures, log ++ rest)
  end.
End metrics.

(** * The context packet *)

Definition originalContext : ContextFields :=
  mkContextFields true (Some 0x00ABCDEF) (Some (f64_of_Z 20000000)) (Some (f64_of_Z 70000000))
    (Some (f64_of_Z 2400000000)) (Some (f64_of_Z 100000)) (Some (f64_of_Z (-5000)))
    (Some (f64_div (f64_of_Z (-61)) (f64_of_Z 2))) (Some (f64_div (f64_of_Z 61) (f64_of_Z 4))) (Some 42)
    (Some (f64_of_Z 1000000)).

(** The doubles 1.0e-6 and 0.01. *)
Definition micro : double := S754_finite false 4722366482869645 (-72).
Definition hundredth : double := S754_finite false 5764607523034235 (-59).

(** The closures checkFreq and checkGain: the new value of [pass] and the log;
    [tolerance] and [line] are what differs. *)
Definition checkField (tolerance : double -> double) (line : double -> double -> LogLine) (fieldName : string)
    (orig dec : option double) (pass : bool) : bool * list LogLine :=
  match orig, dec with
  | Some o, Some d =>
      let err := SFabs (f64_sub o d) in
      let tol := tolerance o in
      if SFltb tol err then (false, [line err tol]) else (pass, [])
  | None, None => (pass, [])
  | _, _ => (false, [GPERROR "FAIL: Context.{} presence mismatch" [AStr fieldName]])
  end.

Definition checkFreq (fieldName : string) : option double -> option double -> bool -> bool * list LogLine :=
  checkField (λ o, f64_add (f64_div (SFabs o) FREQ_RADIX) micro)
    (λ err tol, GPERROR "FAIL: Context.{} error={} > tol={}" [AStr fieldName; ADouble err; ADouble tol]) fieldName.

Definition checkGain (fieldName : string) : option double -> option double -> bool -> bool * list LogLine :=
  checkField (λ _, hundredth) (λ err _, GPERROR "FAIL: Context.{} error={} > 0.01" [AStr fieldName; ADouble err])
    fieldName.

Definition checkEqual (fieldName : string) (equal : bool) (pass : bool) : bool * list LogLine :=
  if equal then (pass, []) else (false, [GPERROR ("FAIL: Context." ++ fieldName ++ " mismatch") []]).

Definition checkAll (checks : list (bool -> bool * list LogLine)) : bool * list LogLine :=
  foldl (λ r check, let '(pass, log) := check r.1 in (pass, r.2 ++ log)) (true, []) checks.

Definition contextChecks (o f : ContextFields) : bool * list LogLine :=
  checkAll
    [checkFreq "bandwidth" (bandwidth o) (bandwidth f); checkFreq "ifRefFrequency" (ifRefFrequency o) (ifRefFrequency f);
     checkFreq "rfFrequency" (rfFrequency o) (rfFrequency f); checkFreq "rfFreqOffset" (rfFreqOffset o) (rfFreqOffset f);
     checkFreq "ifBandOffset" (ifBandOffset o) (ifBandOffset f); checkFreq "sampleRate" (sampleRate o) (sampleRate f);
     checkGain "referenceLevel" (referenceLevel o) (referenceLevel f); checkGain "gain" (gain o) (gain f);
     checkEqual "changeIndicator" (Bool.eqb (changeIndicator f) (changeIndicator o));
     checkEqual "referencePointId" (bool_decide (referencePointId f = referencePointId o));
     checkEqual "overRangeCount" (bool_decide (overRangeCount f = overRangeCount o))].

Definition contextTest (codec : Vita49Codec) (streamId : Z) : option (Z * list LogLine) :=
  encoded ← encodeContext codec streamId TSI_None TSF_None 0 0 originalContext 0;
  packets ← parseStream codec (Some encoded) (zlen encoded);
  match packets with
  | [p] =>
      match type p with
      | Context_ =>
          let '(pass, log) := contextChecks originalContext (contextFields p) in
          Some (if pass then 0 else 1,
                log ++ [GPINFO "  Context fields:        {}" [AStr (if pass then "PASS" else "FAIL")]])
      | _ => Some (1, [GPERROR "FAIL: Context round-trip — unexpected packet count or type" []])
      end
  | _ => Some (1, [GPERROR "FAIL: Context round-trip — unexpected packet count or type" []])
  end.

(** * main *)

Section main.
Context (cosf sinf : float -> float) (normal : float -> Z -> nat -> float) (log10 : double -> double).
Context (lround_unspecified : float -> Z) (stof : string -> option float).

Definition STREAM_ID : Z := 0x1234.
Definition SAMPLE_RATE : double := f64_of_Z 1000000.
Definition SNR_THRESHOLD_DB : float := f32_of_Z 80.

Definition bigEndianTests (n : nat) : list (string * IQSamples * float) :=
  [("Tone (1 kHz)"%string,
    generateScaledTone cosf sinf n (f64_of_Z 1000) SAMPLE_RATE (S754_finite false 15099494 (-24)), SNR_THRESHOLD_DB);
   ("Tone (100 kHz)"%string,
    generateScaledTone cosf sinf n (f64_of_Z 100000) SAMPLE_RATE (S754_finite false 8388608 (-24)), SNR_THRESHOLD_DB);
   ("Chirp (1k-100k)"%string,
    generateChirp cosf sinf n (f64_of_Z 1000) (f64_of_Z 100000) SAMPLE_RATE, SNR_THRESHOLD_DB);
   ("Gaussian noise (s=0.3)"%string, generateNoise normal n (S754_finite false 10066330 (-25)) 42, f32_of_Z 40);
   ("Full-scale tone"%string, generateTone cosf sinf n (f64_of_Z 10000) SAMPLE_RATE, f32_of_Z 70)].

Definition littleEndianTests (n : nat) : list (string * IQSamples * float) :=
  [("Tone (1 kHz)"%string,
    generateScaledTone cosf sinf n (f64_of_Z 1000) SAMPLE_RATE (S754_finite false 15099494 (-24)), SNR_THRESHOLD_DB);
   ("Chirp (1k-100k)"%string,
    generateChirp cosf sinf n (f64_of_Z 1000) (f64_of_Z 100000) SAMPLE_RATE, SNR_THRESHOLD_DB)].

Definition summary (failures : Z) : list LogLine :=
  [RULER; if failures =? 0 then GPINFO "ALL TESTS PASSED" [] else GPERROR "{} TEST(S) FAILED" [AInt failures]; RULER].

Definition main (argv : list string) : option (Exit * list LogLine) :=
  numSamples ← match argv !! 1%nat with Some a => n ← atol a; Some (u64 n) | None => Some 10000 end;
  match match argv !! 2%nat with Some a => stof a | None => Some DEFAULT_SCALE_FACTOR end with
  | None => Some (Terminate, [])
  | Some scale =>
      let banner :=
        [RULER; GPINFO "VITA 49.2 Round-Trip Accuracy Test" []; RULER;
         GPINFO "  Samples per waveform: {}" [AInt numSamples];
         GPINFO "  Scale factor:         {}" [AFloat scale]; RULER; GPINFO "[BigEndian]" []] in
      if vector_max_size <? numSamples then Some (Terminate, banner)
      else
        let n := Z.to_nat numSamples in
        '(f1, log1) ← runTests log10 lround_unspecified (mkVita49Codec BigEndian scale) STREAM_ID (bigEndianTests n);
        '(f2, log2) ← runTests log10 lround_unspecified (mkVita49Codec LittleEndian scale) STREAM_ID (littleEndianTests n);
        '(f3, log3) ← contextTest (mkVita49Codec BigEndian scale) STREAM_ID;
        let failures := f1 + f2 + f3 in
        Some (Return (if failures =? 0 then 0 else 1),
              banner ++ log1 ++ [GPINFO "[LittleEndian]" []] ++ log2 ++
              [GPINFO "[Context Packet Round-Trip]" []] ++ log3 ++ summary failures)
  end.
End main.

(** * What a round trip reports *)

Lemma contextTest_passes scale :
  contextTest (mkVita49Codec BigEndian scale) STREAM_ID
  = Some (0, [GPINFO "  Context fields:        {}" [AStr "PASS"]]).
Proof. vm_compute. reflexivity. Qed.

Lemma sumErrors_ind (P : Sums -> Prop) (Q : IQSample -> IQSample -> Prop) original decoded s :
  Forall2 Q original decoded -> (∀ s a b, Q a b -> P s -> P (addError s a b)) -> P s ->
  P (sumErrors original decoded s).
Proof. intros HQ Hstep. revert s. induction HQ as [|a b o d Hab _ IH]; intros s Hs; cbn; eauto. Qed.

Section outcome.
Context (log10 : double -> double) (unspec : float -> Z).

(** The metrics of a round trip that loses nothing, and the verdict on them. *)
Definition expected (scale : float) (original : IQSamples) : ErrorMetrics :=
  (computeMetrics log10 original (SignalDataPacket.requantize unspec scale <$> original)).1.

Definition verdict (name : string) (m : ErrorMetrics) (threshold : float) : bool * list LogLine :=
  if SFltb (snrDb m) threshold
  then (false, [logMetrics name m; GPERROR "FAIL: {} — SNR {:.2f} dB below threshold {:.2f} dB"
                                     [AStr name; AFloat (snrDb m); AFloat threshold]])
  else (true, [logMetrics name m]).

Lemma decodedSamples_signal ps :
  Forall (λ p, type p = SignalData) ps -> decodedSamples ps = concat (samples <$> ps).
Proof. unfold decodedSamples. induction 1 as [|p ps Hp _ IH]; [done|]. cbn. by rewrite Hp, IH. Qed.

(** Whatever the scale, unless it is zero, the samples received are the
    requantized ones. *)
Lemma roundtrip_packets c sid original :
  SFeqb (_scaleFactor c) (S754_zero false) = false -> 0 <= sid < 4294967296 ->
  ∃ encoded packets,
    encodeSignalData unspec c sid TSI_None TSF_None 0 0 false original 0 = Some encoded /\
    parseStream c (Some encoded) (zlen encoded) = Some packets /\
    encoded <> [] /\ packets <> [] /\
    decodedSamples packets = SignalDataPacket.requantize unspec (_scaleFactor c) <$> original.
Proof.
  intros Hnz Hsid.
  destruct (encodeSignalData_received unspec c sid TSI_None TSF_None 0 0 false Hsid ltac:(done) ltac:(done) Hnz
    original 0 ltac:(done)) as (pkts & He & Hf).
  set (received := SignalDataPacket.requantize unspec (_scaleFactor c) <$> original) in *.
  assert (signal_packets sid TSI_None TSF_None 0 0 false received 0 <> []) as Hne.
  { intros E. pose proof (signal_packets_length sid TSI_None TSF_None 0 0 false received 0) as Hl.
    cbn zeta in Hl. rewrite E in Hl. change (zlen []) with 0 in Hl. lia. }
  eexists _, _. split; [exact He|]. split; [|split; [|split; [exact Hne|]]].
  - pose proof (parseStream_concat c _ _ [] 0 [] Hf ltac:(done) ltac:(done) eq_refl) as Hs.
    by rewrite !app_nil_r, Z.add_0_r in Hs.
  - destruct Hf as [|pkt p pkts ps (_ & H4 & _) _]; [done|].
    destruct pkt; [unfold zlen in H4; cbn in H4; lia|done].
  - destruct (signal_packets_samples sid TSI_None TSF_None 0 0 false received 0) as [H1 H2].
    by rewrite decodedSamples_signal, H2.
Qed.

Lemma computeMetrics_expected scale original :
  computeMetrics log10 original (SignalDataPacket.requantize unspec scale <$> original)
  = (expected scale original, []) /\ sampleCount (expected scale original) = zlen original.
Proof.
  assert (zlen (SignalDataPacket.requantize unspec scale <$> original) = zlen original) as E
    by (unfold zlen; by rewrite length_fmap).
  unfold expected, computeMetrics. rewrite E, Z.eqb_refl, Z.min_id. done.
Qed.

Lemma zlen_nonzero {A} (l : list A) : l <> [] -> (zlen l =? 0) = false.
Proof. destruct l; [done|]. intros _. apply Z.eqb_neq. unfold zlen. cbn. lia. Qed.

Lemma runRoundTrip_outcome name original c sid threshold :
  SFeqb (_scaleFactor c) (S754_zero false) = false -> 0 <= sid < 4294967296 ->
  runRoundTrip log10 unspec name original c sid threshold
  = Some (verdict name (expected (_scaleFactor c) original) threshold).
Proof.
  intros Hnz Hsid. destruct (roundtrip_packets c sid original Hnz Hsid) as (e & ps & He & Hp & Hne & Hnp & Hd).
  unfold runRoundTrip. rewrite He, bind_ret, zlen_nonzero by done. cbn [andb].
  rewrite Hp, bind_ret, zlen_nonzero by done. cbn [andb].
  rewrite Hd, (proj1 (computeMetrics_expected _ _)). unfold verdict. by destruct (SFltb _ _).
Qed.

(** The waveforms below their threshold. *)
Definition failed (scale : float) (tests : list (string * IQSamples * float)) : Z :=
  zlen (filter (λ t : string * IQSamples * float, SFltb (snrDb (expected scale t.1.2)) t.2 = true) tests).

Lemma failed_nonneg scale tests : 0 <= failed scale tests.
Proof. apply zlen_nonneg. Qed.

Lemma failed_zero scale tests :
  failed scale tests = 0 <->
  Forall (λ t : string * IQSamples * float, SFltb (snrDb (expected scale t.1.2)) t.2 = false) tests.
Proof.
  unfold failed. induction tests as [|t tests IH]; [done|]. rewrite List.Forall_cons_iff, <- IH.
  destruct (SFltb (snrDb (expected scale t.1.2)) t.2) eqn:E.
  - rewrite filter_cons_True by done. split; [unfold zlen; cbn; lia|by intros []].
  - rewrite filter_cons_False by (by rewrite E). tauto.
Qed.

Lemma runTests_outcome c sid tests :
  SFeqb (_scaleFactor c) (S754_zero false) = false -> 0 <= sid < 4294967296 ->
  ∃ log, runTests log10 unspec c sid tests = Some (failed (_scaleFactor c) tests, log).
Proof.
  intros Hnz Hsid. induction tests as [|[[name original] threshold] tests [log IH]]; [by eexists|].
  cbn [runTests]. rewrite runRoundTrip_outcome by done. rewrite bind_ret.
  destruct (verdict _ _ _) as [ok l] eqn:Ev. rewrite IH, bind_ret. eexists. f_equal. f_equal.
  unfold failed. rewrite filter_cons. cbn [fst snd]. unfold verdict in Ev.
  destruct (SFltb _ _); injection Ev as <- _.
  - rewrite decide_True by done. unfold zlen. cbn. lia.
  - rewrite decide_False by done. lia.
Qed.
End outcome.

(** ** The size of the errors *)

Definition error_ok (a b : float) : Prop := SFleb (SFabs (f32_sub a b)) half_step = true.

Lemma f32_max_le a b x : SFleb a x = true -> SFleb b x = true -> SFleb (f32_max a b) x = true.
Proof. unfold f32_max. by destruct (SFltb a b). Qed.

Lemma requantize_error unspec x :
  sample_in_range x = true ->
  error_ok x (f32_mul (f32_of_Z (SignalDataPacket.quantize unspec x DEFAULT_SCALE_FACTOR))
                (f32_div (f32_of_Z 1) DEFAULT_SCALE_FACTOR)).
Proof.
  intros Hx. destruct (quantization_error x Hx) as (n & Hn & Hl & He).
  rewrite DEFAULT_SCALE_pow2. rewrite (SignalDataPacket.quantize_rounded unspec x (pow2_32 15) n Hl) by lia.
  replace (Z.max _ _) with n by lia. rewrite f32_scale_exact by lia. exact He.
Qed.

Definition sample_fits (s : IQSample) : Prop := sample_in_range s.1 = true /\ sample_in_range s.2 = true.

Lemma expected_error log10 unspec original :
  Forall sample_fits original ->
  SFleb (maxAbsError (expected log10 unspec DEFAULT_SCALE_FACTOR original)) half_step = true.
Proof.
  intros Hfit. cbn [expected computeMetrics maxAbsError fst].
  apply (sumErrors_ind (λ s, SFleb (maxErr s) half_step = true) (λ a b, error_ok a.1 b.1 /\ error_ok a.2 b.2)).
  - induction Hfit as [|[i q] original [Hi Hq] _ IH]; [constructor|].
    constructor; [|exact IH]. split; by apply requantize_error.
  - intros s a b [H1 H2] Hs. cbn [addError maxErr]. by repeat apply f32_max_le.
  - done.
Qed.

(** ** A scale that is not a number *)

Lemma f32_mul_nan x : f32_mul x S754_nan = S754_nan.
Proof. by destruct x. Qed.

Lemma requantize_nan unspec s : SignalDataPacket.requantize unspec S754_nan s = (S754_nan, S754_nan).
Proof.
  unfold SignalDataPacket.requantize, SignalDataPacket.to_sample.
  change (f32_div (f32_of_Z 1) S754_nan) with S754_nan. by rewrite !f32_mul_nan.
Qed.

Lemma f64_add_nan x : f64_add x S754_nan = S754_nan.
Proof. by destruct x. Qed.

Lemma f32_sub_nan x : f32_sub x S754_nan = S754_nan.
Proof. by destruct x. Qed.

Lemma expected_nan log10 unspec original :
  snrDb (expected log10 unspec S754_nan original) = S754_infinity false /\
  maxAbsError (expected log10 unspec S754_nan original) = S754_zero false.
Proof.
  cbn [expected computeMetrics snrDb maxAbsError fst].
  assert (∀ s, (sumSqError s = S754_zero false \/ sumSqError s = S754_nan) /\ maxErr s = S754_zero false ->
    let r := sumErrors original (SignalDataPacket.requantize unspec S754_nan <$> original) s in
    (sumSqError r = S754_zero false \/ sumSqError r = S754_nan) /\ maxErr r = S754_zero false) as H.
  { intros s Hs. eapply (sumErrors_ind (λ s, (sumSqError s = S754_zero false \/ sumSqError s = S754_nan) /\ maxErr s = S754_zero false)
      (λ a b, b = (S754_nan, S754_nan))); [| |exact Hs].
    - induction original as [|a l IH]; [constructor|]. constructor; [apply requantize_nan|exact IH].
    - intros t a b -> [_ Ht]. cbn [addError sumSqError maxErr fst snd]. rewrite !f32_sub_nan, Ht. split; [right|done].
      apply f64_add_nan. }
  destruct (H (mkSums (S754_zero false) (S754_zero false) (S754_zero false))) as [Hs Hm]; [by split; [left|]|].
  split; [|exact Hm]. unfold snr. by destruct Hs as [-> | ->].
Qed.

(** * Properties *)

(** C8: quantization is accurate to half a step.  A waveform of any length whose
    values are at most 32767/32768 in magnitude is received with all its samples
    in either byte order, and the largest error the test computes, subtracting
    in float arithmetic, is at most 2^-16; the test then fails exactly when the
    ratio it computes is below the threshold. *)
Theorem roundtrip_error_bound log10 unspec name original order sid threshold :
  Forall sample_fits original -> 0 <= sid < 4294967296 ->
  ∃ m, runRoundTrip log10 unspec name original (mkVita49Codec order DEFAULT_SCALE_FACTOR) sid threshold
       = Some (verdict name m threshold) /\
    sampleCount m = zlen original /\ SFleb (maxAbsError m) half_step = true.
Proof.
  intros Hfit Hsid. exists (expected log10 unspec DEFAULT_SCALE_FACTOR original).
  split; [by apply runRoundTrip_outcome|]. split; [|by apply expected_error].
  apply (computeMetrics_expected log10 unspec DEFAULT_SCALE_FACTOR original).
Qed.

Section run.
Context (cosf sinf : float -> float) (normal : float -> Z -> nat -> float) (log10 : double -> double).
Context (unspec : float -> Z) (stof : string -> option float).

(** Sample count and scale of a command line. *)
Definition arguments (argv : list string) (n : nat) (scale : float) : Prop :=
  match argv !! 1%nat with Some a => u64 <$> atol a | None => Some 10000 end = Some (Z.of_nat n) /\
  match argv !! 2%nat with Some a => stof a | None => Some DEFAULT_SCALE_FACTOR end = Some scale.

(** The failures of a run: the waveforms below their threshold. *)
Definition failures (n : nat) (scale : float) : Z :=
  failed log10 unspec scale (bigEndianTests cosf sinf normal n) + failed log10 unspec scale (littleEndianTests cosf sinf n).

Lemma main_outcome argv n scale :
  arguments argv n scale -> Z.of_nat n <= vector_max_size -> SFeqb scale (S754_zero false) = false ->
  ∃ log, main cosf sinf normal log10 unspec stof argv
         = Some (Return (if failures n scale =? 0 then 0 else 1), log ++ summary (failures n scale)).
Proof.
  intros [H1 H2] Hn Hs. unfold main.
  assert (match argv !! 1%nat with Some a => n ← atol a; Some (u64 n) | None => Some 10000 end = Some (Z.of_nat n)) as ->.
  { rewrite <- H1. by destruct (argv !! 1%nat). }
  rewrite bind_ret, H2, (proj2 (Z.ltb_ge _ _)), Nat2Z.id by done.
  destruct (runTests_outcome log10 unspec (mkVita49Codec BigEndian scale) STREAM_ID
    (bigEndianTests cosf sinf normal n) Hs ltac:(done)) as [l1 E1].
  destruct (runTests_outcome log10 unspec (mkVita49Codec LittleEndian scale) STREAM_ID
    (littleEndianTests cosf sinf n) Hs ltac:(done)) as [l2 E2].
  rewrite E1, bind_ret, E2, bind_ret, contextTest_passes, bind_ret.
  cbn [_scaleFactor]. rewrite Z.add_0_r. fold (failures n scale).
  eexists. f_equal. f_equal. rewrite !(assoc_L (++)). reflexivity.
Qed.

Lemma failures_nan n : failures n S754_nan = 0.
Proof.
  assert (∀ tests, failed log10 unspec S754_nan tests = 0) as H; [|unfold failures; by rewrite !H].
  intros tests. apply failed_zero, Forall_true. intros t.
  rewrite (proj1 (expected_nan _ _ _)). by destruct t.2 as [?|[]| |[]].
Qed.
End run.

(** The program's verdict.  For every sample count and every scale factor but
    zero it runs to its end; its exit code is 0, with ALL TESTS PASSED as its
    last word, exactly when no waveform is below its threshold: no other check
    can fail, and the context packet always passes. *)
Theorem roundtrip_test_verdict cosf sinf normal log10 unspec stof argv n scale :
  arguments stof argv n scale -> Z.of_nat n <= vector_max_size -> SFeqb scale (S754_zero false) = false ->
  ∃ code log, main cosf sinf normal log10 unspec stof argv = Some (Return code, log) /\ (code = 0 \/ code = 1) /\
    (code = 0 <-> Forall (λ t : string * IQSamples * float,
       SFltb (snrDb (expected log10 unspec scale t.1.2)) t.2 = false)
       (bigEndianTests cosf sinf normal n ++ littleEndianTests cosf sinf n)) /\
    (code = 0 <-> log !! (length log - 2)%nat = Some (GPINFO "ALL TESTS PASSED" [])).
Proof.
  intros Ha Hn Hs. destruct (main_outcome cosf sinf normal log10 unspec stof argv n scale Ha Hn Hs) as [log E].
  eexists _, _. split; [exact E|]. split; [case_bool; auto|]. split.
  - rewrite Forall_app, <- !failed_zero. unfold failures.
    pose proof (failed_nonneg log10 unspec scale (bigEndianTests cosf sinf normal n)).
    pose proof (failed_nonneg log10 unspec scale (littleEndianTests cosf sinf n)).
    destruct (Z.eqb_spec (failed log10 unspec scale (bigEndianTests cosf sinf normal n) +
                          failed log10 unspec scale (littleEndianTests cosf sinf n)) 0); lia.
  - rewrite length_app, lookup_app_r by (cbn; lia).
    replace (_ - 2 - _)%nat with 1%nat by (cbn; lia). cbn. by case_bool.
Qed.

(** The test accepts a scale factor that is not a number (std::stof reads
    "nan").  Every sample it then decodes is a NaN, no comparison with a NaN
    holds, and the program ends with ALL TESTS PASSED and exit code 0. *)
Theorem roundtrip_test_accepts_nan cosf sinf normal log10 unspec stof argv n :
  arguments stof argv n S754_nan -> Z.of_nat n <= vector_max_size ->
  (∃ log, main cosf sinf normal log10 unspec stof argv
          = Some (Return 0, log ++ [RULER; GPINFO "ALL TESTS PASSED" []; RULER])) /\
  ∀ order original, ∃ encoded packets,
    encodeSignalData unspec (mkVita49Codec order S754_nan) STREAM_ID TSI_None TSF_None 0 0 false original 0 = Some encoded /\
    parseStream (mkVita49Codec order S754_nan) (Some encoded) (zlen encoded) = Some packets /\
    decodedSamples packets = replicate (length original) (S754_nan, S754_nan).
Proof.
  intros Ha Hn. split.
  - destruct (main_outcome cosf sinf normal log10 unspec stof argv n S754_nan Ha Hn eq_refl) as [log E].
    rewrite failures_nan in E. by exists log.
  - intros order original.
    destruct (roundtrip_packets unspec (mkVita49Codec order S754_nan) STREAM_ID original eq_refl ltac:(done))
      as (e & ps & He & Hp & _ & _ & Hd).
    exists e, ps. split; [done|]. split; [done|]. rewrite Hd. cbn [_scaleFactor].
    clear. induction original as [|s l IH]; [done|]. cbn. by rewrite requantize_nan, IH.
Qed.

(** Samples that are lost are not compared: the ratio of a stream of which
    nothing arrives is infinite. *)
Example lost_samples_pass log10 original : snrDb (computeMetrics log10 original []).1 = S754_infinity false.
Proof. by destruct original. Qed.

(** ** Witnesses *)

Definition w_original : IQSamples :=
  [(S754_finite false 8388608 (-24), S754_finite true 11184811 (-25)); (S754_finite false 1 (-149), full_scale)].

Lemma w_original_fits : Forall sample_fits w_original.
Proof. repeat constructor. Qed.

Lemma roundtrip_error_bound_witness :
  ∃ m, runRoundTrip (λ x, x) (λ _, 0) "w" w_original (mkVita49Codec LittleEndian DEFAULT_SCALE_FACTOR) 7 (f32_of_Z 80)
       = Some (verdict "w" m (f32_of_Z 80)) /\
    sampleCount m = zlen w_original /\ SFleb (maxAbsError m) half_step = true.
Proof.
  apply (roundtrip_error_bound (λ x, x) (λ _, 0) "w" w_original LittleEndian 7 (f32_of_Z 80) w_original_fits). lia.
Defined.

(** With no samples nothing fails. *)
Lemma w_arguments : arguments (λ _, None) ["test"; " 0"]%string 0 DEFAULT_SCALE_FACTOR.
Proof. by split. Qed.

Lemma roundtrip_test_verdict_witness :
  ∃ code log, main (λ x, x) (λ x, x) (λ x _ _, x) (λ x, x) (λ _, 0) (λ _, None) ["test"; " 0"]%string
    = Some (Return code, log) /\ (code = 0 \/ code = 1) /\
    (code = 0 <-> Forall (λ t : string * IQSamples * float,
       SFltb (snrDb (expected (λ x, x) (λ _, 0) DEFAULT_SCALE_FACTOR t.1.2)) t.2 = false)
       (bigEndianTests (λ x, x) (λ x, x) (λ x _ _, x) 0 ++ littleEndianTests (λ x, x) (λ x, x) 0)) /\
    (code = 0 <-> log !! (length log - 2)%nat = Some (GPINFO "ALL TESTS PASSED" [])).
Proof.
  exact (roundtrip_test_verdict (λ x, x) (λ x, x) (λ x _ _, x) (λ x, x) (λ _, 0) (λ _, None) _ 0 _ w_arguments
    ltac:(done) eq_refl).
Defined.

Definition w_stof (s : string) : option float := if String.eqb s "nan" then Some S754_nan else None.

Lemma w_arguments_nan : arguments w_stof ["test"; "100"; "nan"]%string 100 S754_nan.
Proof. by split. Qed.

Lemma roundtrip_test_accepts_nan_witness :
  (∃ log, main (λ x, x) (λ x, x) (λ x _ _, x) (λ x, x) (λ _, 0) w_stof ["test"; "100"; "nan"]%string
          = Some (Return 0, log ++ [RULER; GPINFO "ALL TESTS PASSED" []; RULER])) /\
  ∀ order original, ∃ encoded packets,
    encodeSignalData (λ _, 0) (mkVita49Codec order S754_nan) STREAM_ID TSI_None TSF_None 0 0 false original 0 = Some encoded /\
    parseStream (mkVita49Codec order S754_nan) (Some encoded) (zlen encoded) = Some packets /\
    decodedSamples packets = replicate (length original) (S754_nan, S754_nan).
Proof.
  exact (roundtrip_test_accepts_nan (λ x, x) (λ x, x) (λ x _ _, x) (λ x, x) (λ _, 0) w_stof _ 100 w_arguments_nan
    ltac:(done)).
Defined.
