(* ===== verification/Vita49PerfBenchmark.v ===== *)
(** Throughput benchmark: src/apps/Tools/Vita49PerfBenchmark.cpp.

    What is timed is the codec of Vita49Codec.v; the two durations measured in a
    run are inputs, and so is the random signal.  [None] is undefined behaviour
    (the overflow of an int). *)

From Stdlib Require Import SpecFloat.
From S2P Require Import Prelude Ieee754 Vita49Types PacketHeader Vita49Codec GeneralLogger Programs.
From S2P Require ContextPacket SignalDataPacket Vita49RoundTripTest.

(** [uniform seed k]: draw number k of a mt19937 seeded with [seed] through
    uniform_real_distribution(-0.8f, 0.8f). *)
Definition generateTestSignal (uniform : Z -> nat -> float) (count : nat) (seed : Z) : IQSamples :=
  (λ i, (uniform seed (2 * i)%nat, uniform seed (2 * i + 1)%nat)) <$> seq 0 count.

Record BenchResult : Type := mkBenchResult {
  encodeMs : double;
  decodeMs : double;
  totalSamples : Z;
  totalBytes : Z;
  totalPackets : Z;
  iterations : Z;
}.

Definition logHeader : list LogLine :=
  [GPINFO "{:<14s}{:<12s}{:<14s}{:<14s}{:<12s}{:<14s}{:<14s}{:<10s}"
     (AStr <$> ["Samples"; "Enc(ms)"; "Enc(MSa/s)"; "Enc(MB/s)"; "Dec(ms)"; "Dec(MSa/s)"; "Dec(MB/s)"; "Packets"])%string;
   GPINFO "{}" [AStr (String.concat "" (replicate 100 "-"%string))]].

Definition thousand : double := f64_of_Z 1000.

Definition logResult (sampleCount : Z) (r : BenchResult) : LogLine :=
  let iter := f64_of_Z (iterations r) in
  let avgEncMs := f64_div (encodeMs r) iter in
  let avgDecMs := f64_div (decodeMs r) iter in
  let encMSaPerSec := f64_div (f64_div (f64_of_Z (totalSamples r)) iter) (f64_mul avgEncMs thousand) in
  let decMSaPerSec := f64_div (f64_div (f64_of_Z (totalSamples r)) iter) (f64_mul avgDecMs thousand) in
  let encMBps := f64_div (f64_div (f64_of_Z (totalBytes r)) iter) (f64_mul avgEncMs thousand) in
  let decMBps := f64_div (f64_div (f64_of_Z (totalBytes r)) iter) (f64_mul avgDecMs thousand) in
  let pktsPerIter := totalPackets r / u64 (iterations r) in
  GPINFO "{:<14}{:<12.3f}{:<14.2f}{:<14.2f}{:<12.3f}{:<14.2f}{:<14.2f}{:<10}"
    [AInt sampleCount; ADouble avgEncMs; ADouble encMSaPerSec; ADouble encMBps;
     ADouble avgDecMs; ADouble decMSaPerSec; ADouble decMBps; AInt pktsPerIter].

(** The loop filling [encodedBuffers]. *)
Fixpoint encodeRuns (encode : option (list Z)) (n : nat) : option (list (list Z)) :=
  match n with
  | O => Some []
  | S n => buf ← encode; rest ← encodeRuns encode n; Some (buf :: rest)
  end.

Definition addBytes (buffers : list (list Z)) : Z := foldl (λ total buf, u64 (total + zlen buf)) 0 buffers.

(** The decode loop: the packets counted. *)
Fixpoint decodeRuns (codec : Vita49Codec) (buffers : list (list Z)) (total : Z) : option Z :=
  match buffers with
  | [] => Some total
  | buf :: rest => packets ← parseStream codec (Some buf) (zlen buf); decodeRuns codec rest (u64 (total + zlen packets))
  end.

(** Both benchmarks, which differ in what a run encodes. *)
Definition benchmark (codec : Vita49Codec) (encode : option (list Z)) (totalSamples iterations : Z)
    (encMs decMs : double) : option BenchResult :=
  encodedBuffers ← encodeRuns encode (Z.to_nat iterations);
  totalPackets ← decodeRuns codec encodedBuffers 0;
  Some (mkBenchResult encMs decMs totalSamples (addBytes encodedBuffers) totalPackets iterations).

Section benchmarks.
Context (lround_unspecified : float -> Z).

Definition runBenchmark (codec : Vita49Codec) (samples : IQSamples) (streamId iterations : Z)
    (encMs decMs : double) : option BenchResult :=
  benchmark codec (encodeSignalData lround_unspecified codec streamId TSI_None TSF_None 0 0 false samples 0)
    (u64 (zlen samples * u64 iterations)) iterations encMs decMs.

(** The fields are those of the round-trip test. *)
Definition runContextBenchmark (codec : Vita49Codec) (streamId iterations : Z) (encMs decMs : double)
    : option BenchResult :=
  benchmark codec (encodeContext codec streamId TSI_None TSF_None 0 0 Vita49RoundTripTest.originalContext 0) 0
    iterations encMs decMs.

(** The [for] over the sizes; [times]: the durations each size takes. *)
Fixpoint runSizes (uniform : Z -> nat -> float) (codec : Vita49Codec) (streamId iterations : Z) (sizes : list Z)
    (times : nat -> double * double) (k : nat) : option (list LogLine) :=
  match sizes with
  | [] => Some []
  | sz :: sizes =>
      let samples := generateTestSignal uniform (Z.to_nat sz) 12345 in
      result ← runBenchmark codec samples streamId iterations (times k).1 (times k).2;
      rest ← runSizes uniform codec streamId iterations sizes times (S k);
      Some (logResult sz result :: rest)
  end.

Definition STREAM_ID : Z := 0xBEEF.

Definition contextReport (result : BenchResult) : list LogLine :=
  let iter := f64_of_Z (iterations result) in
  let avgEncUs := f64_mul (f64_div (encodeMs result) iter) thousand in
  let avgDecUs := f64_mul (f64_div (decodeMs result) iter) thousand in
  [GPINFO "  Encode: {:.2f} us/packet ({:.0f} bytes)"
     [ADouble avgEncUs; ADouble (f64_div (f64_of_Z (totalBytes result)) iter)];
   GPINFO "  Decode: {:.2f} us/packet" [ADouble avgDecUs]].

Definition bigSizes : list Z := [100; 1000; 10000; 50000; 100000; 500000; 1000000].
Definition littleSizes : list Z := [100; 1000; 10000; 100000; 1000000].

Definition main (uniform : Z -> nat -> float) (times : nat -> double * double) (argv : list string)
    : option (Z * list LogLine) :=
  arg ← match argv !! 1%nat with Some a => atoi a | None => Some 100 end;
  let iterations := Z.max arg 1 in
  let codecBE := mkVita49Codec BigEndian DEFAULT_SCALE_FACTOR in
  let codecLE := mkVita49Codec LittleEndian DEFAULT_SCALE_FACTOR in
  log1 ← runSizes uniform codecBE STREAM_ID iterations bigSizes times 0;
  log2 ← runSizes uniform codecLE STREAM_ID iterations littleSizes times (length bigSizes);
  if 2 ^ 31 <=? iterations * 10 then None
  else
    let k := (length bigSizes + length littleSizes)%nat in
    result ← runContextBenchmark codecBE STREAM_ID (iterations * 10) (times k).1 (times k).2;
    Some (0, [RULER; GPINFO "VITA 49.2 Performance Benchmark" []; RULER;
              GPINFO "  Iterations per size: {}" [AInt iterations]; RULER; GPINFO "[Signal Data — BigEndian]" []] ++
             logHeader ++ log1 ++ [GPINFO "[Signal Data — LittleEndian]" []] ++ logHeader ++ log2 ++
             [GPINFO "[Context Packets — BigEndian, all fields]" []] ++ contextReport result ++
             [RULER; GPINFO "Benchmark complete." []; RULER]).
End benchmarks.

(** * What is counted *)

Lemma encodeRuns_all buf n : encodeRuns (Some buf) n = Some (replicate n buf).
Proof. induction n as [|n IH]; [done|]. cbn. by rewrite IH. Qed.

Lemma addBytes_all buf n t :
  foldl (λ total (b : list Z), u64 (total + zlen b)) (u64 t) (replicate n buf) = u64 (t + Z.of_nat n * zlen buf).
Proof.
  revert t. induction n as [|n IH]; intros t; cbn [replicate foldl]; [f_equal; lia|].
  assert (u64 (u64 t + zlen buf) = u64 (t + zlen buf)) as -> by (unfold u64; by rewrite Zplus_mod_idemp_l).
  rewrite IH. f_equal. lia.
Qed.

Lemma decodeRuns_all codec buf ps n t :
  parseStream codec (Some buf) (zlen buf) = Some ps ->
  decodeRuns codec (replicate n buf) (u64 t) = Some (u64 (t + Z.of_nat n * zlen ps)).
Proof.
  intros E. revert t. induction n as [|n IH]; intros t; cbn [replicate decodeRuns]; [do 2 f_equal; lia|].
  rewrite E, bind_ret.
  assert (u64 (u64 t + zlen ps) = u64 (t + zlen ps)) as -> by (unfold u64; by rewrite Zplus_mod_idemp_l).
  rewrite IH. do 2 f_equal. lia.
Qed.

Lemma benchmark_outcome codec buf ps total it encMs decMs :
  parseStream codec (Some buf) (zlen buf) = Some ps -> 0 <= it ->
  benchmark codec (Some buf) total it encMs decMs
  = Some (mkBenchResult encMs decMs total (u64 (it * zlen buf)) (u64 (it * zlen ps)) it).
Proof.
  intros E Hit. unfold benchmark. rewrite encodeRuns_all, bind_ret.
  change 0 with (u64 0) at 1. rewrite (decodeRuns_all _ _ ps) by done. rewrite bind_ret.
  unfold addBytes. change 0 with (u64 0) at 1. rewrite addBytes_all, !Z2Nat.id by done. done.
Qed.

Lemma generateTestSignal_length uniform n seed : zlen (generateTestSignal uniform n seed) = Z.of_nat n.
Proof. unfold zlen, generateTestSignal. by rewrite length_fmap, length_seq. Qed.

(** * Properties *)

(** The benchmark counts what it measures.  For every signal of up to a
    million samples and every iteration count an int holds, the encode and the
    decode runs agree: the packets it reports are those of one encoding, full
    ones but the last, and its totals are the iterations times one run's. *)
Theorem benchmark_counts unspec codec samples streamId it encMs decMs :
  SFeqb (_scaleFactor codec) (S754_zero false) = false -> 0 <= streamId < 4294967296 ->
  1 <= it < 2 ^ 31 -> zlen samples <= 1000000 ->
  let packets := Z.max 1 ((zlen samples + 65532) / 65533) in
  ∃ buf r, encodeSignalData unspec codec streamId TSI_None TSF_None 0 0 false samples 0 = Some buf /\
    runBenchmark unspec codec samples streamId it encMs decMs = Some r /\
    totalSamples r = it * zlen samples /\ totalBytes r = u64 (it * zlen buf) /\ totalPackets r = it * packets /\
    args (logResult (zlen samples) r) !! 7%nat = Some (AInt packets).
Proof.
  intros Hs Hsid Hit Hn packets. pose proof (zlen_nonneg samples).
  destruct (encodeSignalData_received unspec codec streamId TSI_None TSF_None 0 0 false Hsid ltac:(done) ltac:(done)
    Hs samples 0 ltac:(done)) as (pkts & He & Hf).
  pose proof (parseStream_concat codec _ _ [] 0 [] Hf ltac:(done) ltac:(done) eq_refl) as Hp.
  rewrite !app_nil_r, Z.add_0_r in Hp.
  pose proof (signal_packets_length streamId TSI_None TSF_None 0 0 false
    (SignalDataPacket.requantize unspec (_scaleFactor codec) <$> samples) 0) as Hl.
  cbn zeta in Hl. rewrite zlen_received in Hl.
  change (SignalDataPacket.maxSamplesPerPacket TSI_None TSF_None false false) with 65533 in Hl.
  replace (zlen samples + 65533 - 1) with (zlen samples + 65532) in Hl by lia. fold packets in Hl.
  assert (packets <= 16) by (unfold packets; apply Z.max_lub; [lia|]; apply Z.lt_succ_r, Z.div_lt_upper_bound; lia).
  assert (1 <= packets) by (unfold packets; lia).
  unfold runBenchmark. rewrite He, (benchmark_outcome _ _ _ _ _ _ _ Hp) by lia. rewrite Hl.
  eexists _, _. split; [done|]. split; [reflexivity|]. cbn [totalSamples totalBytes totalPackets].
  assert (u64 it = it) as -> by (apply Z.mod_small; lia).
  assert (u64 (it * packets) = it * packets) as -> by (apply Z.mod_small; nia).
  split; [unfold u64; rewrite Z.mod_small; nia|]. split; [done|]. split; [done|].
  trans (Some (AInt (it * packets / u64 it))); [reflexivity|].
  assert (u64 it = it) as -> by (apply Z.mod_small; lia).
  rewrite Z.mul_comm, Z.div_mul by lia. done.
Qed.

(** From 214748365 iterations on the int [iterations * 10] overflows. *)
Lemma benchmark_overflow unspec uniform times argv a it :
  argv !! 1%nat = Some a -> atoi a = Some it -> 214748365 <= it -> main unspec uniform times argv = None.
Proof.
  intros Ha Hi Hit. unfold main. rewrite Ha, Hi, bind_ret, Z.max_l by lia.
  rewrite (proj2 (Z.leb_le _ _)) by lia.
  do 2 match goal with |- context [runSizes ?a ?b ?c ?d ?e ?f ?g ?h] => destruct (runSizes a b c d e f g h); [|done] end.
  done.
Qed.

Lemma benchmark_counts_witness :
  let packets := Z.max 1 ((zlen [(S754_nan, S754_nan)] + 65532) / 65533) in
  ∃ buf r, encodeSignalData (λ _, 0) default_codec STREAM_ID TSI_None TSF_None 0 0 false [(S754_nan, S754_nan)] 0 = Some buf /\
    runBenchmark (λ _, 0) default_codec [(S754_nan, S754_nan)] STREAM_ID 3 (f64_of_Z 5) (f64_of_Z 7) = Some r /\
    totalSamples r = 3 * zlen [(S754_nan, S754_nan)] /\ totalBytes r = u64 (3 * zlen buf) /\ totalPackets r = 3 * packets /\
    args (logResult (zlen [(S754_nan, S754_nan)]) r) !! 7%nat = Some (AInt packets).
Proof.
  apply (benchmark_counts (λ _, 0) default_codec [(S754_nan, S754_nan)] STREAM_ID 3); [done|..];
    unfold STREAM_ID, zlen; cbn; lia.
Defined.
