(* ===== verification/HighBandwidthPublisher.v ===== *)
(** UDP multicast publisher: src/libs/PubSub/HighBandwidthPublisher.{h,cpp}.

    A [std::string] is the list of its bytes.  The packed [FragmentHeader] is
    stored in the byte order of the host, a parameter.  The results of the
    socket calls and of the protobuf serialisation are inputs; [None] is
    undefined behaviour (a store or load outside the packet vector, a division
    by zero).  The [size_t] arithmetic wraps at 2^64. *)

From S2P Require Import Prelude ByteSwap Vita49Types PacketHeader.

(** * The wire format *)

Record FragmentHeader : Type := mkFragmentHeader {
  messageId : Z;
  fragmentNum : Z;
  totalFragments : Z;
  topicLen : Z;
  reserved : Z;
}.

Definition sizeof_FragmentHeader : Z := 12.

(** Loads and stores of a uint16_t in host order. *)
Definition load16 (host : ByteOrder) (m : list Z) (p : Z) : option Z :=
  match host with BigEndian => readU16BE m p | LittleEndian => readU16LE m p end.

Definition store16 (host : ByteOrder) (m : list Z) (p v : Z) : option (list Z) :=
  match host with BigEndian => writeU16BE m p v | LittleEndian => writeU16LE m p v end.

(** [reinterpret_cast<FragmentHeader*>(packet.data())], field by field. *)
Definition writeHeader (host : ByteOrder) (packet : list Z) (h : FragmentHeader)
    : option (list Z) :=
  packet ← writeWord packet 0 (messageId h) host;
  packet ← store16 host packet 4 (fragmentNum h);
  packet ← store16 host packet 6 (totalFragments h);
  packet ← store16 host packet 8 (topicLen h);
  store16 host packet 10 (reserved h).

Definition readHeader (host : ByteOrder) (data : list Z) : option FragmentHeader :=
  id ← readWord data 0 host;
  num ← load16 host data 4;
  total ← load16 host data 6;
  tlen ← load16 host data 8;
  res ← load16 host data 10;
  Some (mkFragmentHeader id num total tlen res).

(** * State *)

Record HighBandwidthPublisher : Type := mkHighBandwidthPublisher {
  _name : list Z;
  _port : Z;
  _mtu : Z;
  _maxPayloadPerFragment : Z;
  _socket : Z;
  _messageIdCounter : Z;
  _running : bool;
}.

(** The constructor, given what [socket] and [inet_pton] return; the failures
    of the other calls are only logged.  The second component lists the
    descriptors closed. *)
Definition construct (name : list Z) (port mtu fd : Z) (addr_valid : bool)
    : HighBandwidthPublisher * list Z :=
  let maxPayload := u64 (mtu - sizeof_FragmentHeader) in
  let p sock run := mkHighBandwidthPublisher name port mtu maxPayload sock 0 run in
  if fd <? 0 then (p fd false, [])
  else if negb addr_valid then (p (-1) false, [fd])
  else (p fd true, []).

Definition destroy (p : HighBandwidthPublisher) : HighBandwidthPublisher * list Z :=
  (mkHighBandwidthPublisher (_name p) (_port p) (_mtu p) (_maxPayloadPerFragment p)
     (_socket p) (_messageIdCounter p) false,
   if 0 <=? _socket p then [_socket p] else []).

(** [_messageIdCounter.fetch_add(1)] *)
Definition fetch_add_messageId (p : HighBandwidthPublisher) : Z * HighBandwidthPublisher :=
  (_messageIdCounter p,
   mkHighBandwidthPublisher (_name p) (_port p) (_mtu p) (_maxPayloadPerFragment p)
     (_socket p) (u32 (_messageIdCounter p + 1)) (_running p)).

(** * publish *)

(** [_name + "/" + topic] *)
Definition namespaced (name topic : list Z) : list Z := name ++ [47] ++ topic.

(** [memcpy(packet.data() + p, src.data() + off, n)] *)
Definition memcpy (packet : list Z) (p : Z) (src : list Z) (off n : Z) : option (list Z) :=
  bytes ← slice src off (Z.to_nat n); write_bytes packet p bytes.

Definition numFragmentsCalc (maxPayload topicSize totalPayloadSize : Z) : option Z :=
  let firstFragPayloadSpace := u64 (maxPayload - topicSize) in
  if firstFragPayloadSpace <? totalPayloadSize then
    let remaining := totalPayloadSize - firstFragPayloadSpace in
    if maxPayload =? 0 then None
    else Some (u64 (1 + u64 (remaining + maxPayload - 1) / maxPayload))
  else Some 1.

Section send.
Context (host : ByteOrder) (sendto_ok : Z -> bool).
Context (namespacedTopic serialized : list Z) (maxPayload id numFragments : Z).

(** One pass of the fragment loop up to [sendto]: the packet vector, the bytes
    handed to [sendto] and the new payloadOffset. *)
Definition buildFragment (fragNum payloadOffset : Z) (packet : list Z)
    : option (list Z * list Z * Z) :=
  let topicSize := zlen namespacedTopic in
  let totalPayloadSize := zlen serialized in
  let firstFragPayloadSpace := u64 (maxPayload - topicSize) in
  packet ← writeHeader host packet
    (mkFragmentHeader id fragNum numFragments
       (if fragNum =? 0 then u16 topicSize else 0) 0);
  let packetDataOffset := sizeof_FragmentHeader in
  if fragNum =? 0 then
    packet ← memcpy packet packetDataOffset namespacedTopic 0 topicSize;
    let packetDataOffset := packetDataOffset + topicSize in
    let payloadInFirstFrag := Z.min totalPayloadSize firstFragPayloadSpace in
    packet ← memcpy packet packetDataOffset serialized 0 payloadInFirstFrag;
    let bytesToSend := sizeof_FragmentHeader + topicSize + payloadInFirstFrag in
    bytes ← slice packet 0 (Z.to_nat bytesToSend);
    Some (packet, bytes, payloadInFirstFrag)
  else
    let remainingPayload := u64 (totalPayloadSize - payloadOffset) in
    let payloadInThisFrag := Z.min remainingPayload maxPayload in
    packet ← memcpy packet packetDataOffset serialized payloadOffset payloadInThisFrag;
    let bytesToSend := sizeof_FragmentHeader + payloadInThisFrag in
    bytes ← slice packet 0 (Z.to_nat bytesToSend);
    Some (packet, bytes, payloadOffset + payloadInThisFrag).

(** [for (uint16_t fragNum = ..; fragNum < numFragments; ++fragNum)] with n
    iterations left; the result carries the packets sent. *)
Fixpoint sendLoop (n : nat) (fragNum payloadOffset : Z) (packet : list Z)
    (sent : list (list Z)) : option (bool * list (list Z)) :=
  match n with
  | O => Some (true, sent)
  | S n =>
      '(packet, bytes, payloadOffset) ← buildFragment fragNum payloadOffset packet;
      if negb (sendto_ok fragNum) then Some (false, sent)
      else sendLoop n (u16 (fragNum + 1)) payloadOffset packet (sent ++ [bytes])
  end.
End send.

Definition publish (host : ByteOrder) (sendto_ok : Z -> bool) (p : HighBandwidthPublisher)
    (topic : list Z) (message : option (list Z))
    : option (bool * HighBandwidthPublisher * list (list Z)) :=
  if (_socket p <? 0) || negb (_running p) then Some (false, p, [])
  else
    match message with
    | None => Some (false, p, [])
    | Some serialized =>
        let namespacedTopic := namespaced (_name p) topic in
        calc ← numFragmentsCalc (_maxPayloadPerFragment p) (zlen namespacedTopic) (zlen serialized);
        if 65535 <? calc then Some (false, p, [])
        else
          let numFragments := u16 calc in
          let '(id, p) := fetch_add_messageId p in
          '(ok, sent) ← sendLoop host sendto_ok namespacedTopic serialized
            (_maxPayloadPerFragment p) id numFragments (Z.to_nat numFragments) 0 0
            (replicate (Z.to_nat (_mtu p)) 0) [];
          Some (ok, p, sent)
    end.

(** * The header on the wire *)

Definition header16 (host : ByteOrder) (v : Z) : list Z :=
  match host with BigEndian => be_bytes 2 v | LittleEndian => le_bytes 2 v end.

Definition header_wire (host : ByteOrder) (h : FragmentHeader) : list Z :=
  encW host (messageId h) ++ header16 host (fragmentNum h) ++ header16 host (totalFragments h) ++
  header16 host (topicLen h) ++ header16 host (reserved h).

Record fragment_header_wf (h : FragmentHeader) : Prop := {
  fh_id : 0 <= messageId h < 4294967296;
  fh_num : 0 <= fragmentNum h < 65536;
  fh_total : 0 <= totalFragments h < 65536;
  fh_topicLen : 0 <= topicLen h < 65536;
  fh_reserved : 0 <= reserved h < 65536;
}.

Lemma zlen_header16 o v : zlen (header16 o v) = 2.
Proof. by destruct o. Qed.

#[export] Hint Rewrite zlen_header16 : zlen.

Lemma header16_bytes o v : bytes_ok (header16 o v).
Proof.
  destruct o; unfold header16;
    [apply (codec_bytes (rd:=readU16BE))|apply (codec_bytes (rd:=readU16LE))].
Qed.

#[export] Hint Resolve header16_bytes : wrapdb.

Lemma store16_bytes o m p v : store16 o m p v = write_bytes m p (header16 o v).
Proof.
  destruct o; unfold store16, header16;
    [apply (codec_wr (rd:=readU16BE))|apply (codec_wr (rd:=readU16LE))].
Qed.

Lemma load16_at o l v r :
  bytes_ok l -> bytes_ok r -> 0 <= v < 65536 ->
  load16 o (l ++ header16 o v ++ r) (zlen l) = Some v.
Proof.
  intros. destruct o; unfold load16, header16;
    [by apply (codec_read_at (rd:=readU16BE))|by apply (codec_read_at (rd:=readU16LE))].
Qed.

Lemma load16_total o m p :
  bytes_ok m -> 0 <= p -> p + 2 <= zlen m -> ∃ v, load16 o m p = Some v /\ 0 <= v < 65536.
Proof.
  intros. destruct o; unfold load16;
    [by apply (codec_read_total (n:=2%nat) (rd:=readU16BE))
    |by apply (codec_read_total (n:=2%nat) (rd:=readU16LE))].
Qed.

Lemma zlen_header_wire host h : zlen (header_wire host h) = 12.
Proof. unfold header_wire. by autorewrite with zlen. Qed.

Lemma header_wire_bytes host h : bytes_ok (header_wire host h).
Proof. unfold header_wire. rewrite !Forall_app. auto with wrapdb. Qed.

(** The field stores are one store of the header bytes. *)
Lemma writeHeader_bytes host packet h :
  writeHeader host packet h = write_bytes packet 0 (header_wire host h).
Proof.
  unfold writeHeader, header_wire. rewrite writeWord_bytes.
  rewrite write_bytes_split, zlen_encW. destruct (write_bytes packet 0 _) as [m|]; [|done].
  rewrite !bind_ret, store16_bytes. rewrite write_bytes_split, zlen_header16.
  destruct (write_bytes m _ _) as [m1|]; [|done].
  rewrite !bind_ret, store16_bytes. rewrite write_bytes_split, zlen_header16.
  destruct (write_bytes m1 _ _) as [m2|]; [|done].
  rewrite !bind_ret, store16_bytes. rewrite write_bytes_split, zlen_header16.
  destruct (write_bytes m2 _ _) as [m3|]; [|done].
  by rewrite !bind_ret, store16_bytes.
Qed.

Lemma readHeader_wire host h r :
  fragment_header_wf h -> bytes_ok r -> readHeader host (header_wire host h ++ r) = Some h.
Proof.
  intros [Hi Hn Ht Hl Hv] Hr. unfold readHeader, header_wire. rewrite <- !(assoc_L (++)).
  pose proof (encW_bytes host (messageId h)).
  pose proof (header16_bytes host) as Hb.
  change 0 with (zlen (@nil Z)) at 1.
  pose proof (readWord_at host [] (messageId h)) as E. cbn [app] in E.
  rewrite E by (rewrite ?Forall_app; auto). rewrite bind_ret. clear E.
  set (a := encW host (messageId h)) in *. assert (4 = zlen a) as -> by (unfold a; by autorewrite with zlen).
  rewrite load16_at by (rewrite ?Forall_app; auto). rewrite bind_ret, (assoc_L (++) a).
  assert (6 = zlen (a ++ header16 host (fragmentNum h))) as ->
    by (unfold a; by autorewrite with zlen).
  rewrite load16_at by (rewrite ?Forall_app; auto). rewrite bind_ret, (assoc_L (++) (a ++ _)).
  set (b := (a ++ _) ++ _). assert (8 = zlen b) as -> by (unfold b, a; by autorewrite with zlen).
  assert (bytes_ok b) by (unfold b; rewrite !Forall_app; auto).
  rewrite load16_at by (rewrite ?Forall_app; auto). rewrite bind_ret, (assoc_L (++) b).
  assert (10 = zlen (b ++ header16 host (topicLen h))) as ->
    by (unfold b, a; by autorewrite with zlen).
  rewrite load16_at by (rewrite ?Forall_app; auto). by destruct h.
Qed.

(** * The fragments of a message *)

Section fragments.
Context (host : ByteOrder) (T data : list Z) (maxPayload id : Z).

Definition firstSpace : Z := maxPayload - zlen T.

Definition fragment_count : Z :=
  1 + (if firstSpace <? zlen data
       then (zlen data - firstSpace + maxPayload - 1) / maxPayload else 0).

(** Where the payload of fragment i starts in the serialized message. *)
Definition chunk_start (i : Z) : Z := if i =? 0 then 0 else firstSpace + (i - 1) * maxPayload.

Definition chunk_size (i : Z) : Z :=
  Z.min (zlen data - chunk_start i) (if i =? 0 then firstSpace else maxPayload).

Definition chunk (i : Z) : list Z := take (Z.to_nat (chunk_size i)) (ptr_add data (chunk_start i)).

Definition fragment_header (i : Z) : FragmentHeader :=
  mkFragmentHeader id i fragment_count (if i =? 0 then zlen T else 0) 0.

Definition fragment (i : Z) : list Z :=
  header_wire host (fragment_header i) ++ (if i =? 0 then T else []) ++ chunk i.

Definition fragments : list (list Z) :=
  (λ i, fragment (Z.of_nat i)) <$> seq 0 (Z.to_nat fragment_count).

Hypothesis (Hmax : 0 < maxPayload) (HT : 0 < zlen T <= maxPayload).

Lemma firstSpace_bound : 0 <= firstSpace < maxPayload.
Proof. unfold firstSpace. lia. Qed.

(** A fragment after the first exists only while payload is left. *)
Lemma chunk_start_lt i : 1 <= i < fragment_count -> chunk_start i < zlen data.
Proof.
  pose proof firstSpace_bound. unfold fragment_count, chunk_start. intros Hi.
  destruct (Z.ltb_spec firstSpace (zlen data)); [|lia].
  rewrite (proj2 (Z.eqb_neq _ _)) by lia.
  set (k := zlen data - firstSpace) in *.
  assert (i * maxPayload <= k + maxPayload - 1); [|nia].
  assert (i <= (k + maxPayload - 1) / maxPayload) by lia.
  pose proof (Z.mul_div_le (k + maxPayload - 1) maxPayload). nia.
Qed.

Lemma chunk_bounds i :
  0 <= i < fragment_count ->
  0 <= chunk_start i /\ 0 <= chunk_size i /\ chunk_start i + chunk_size i <= zlen data /\
  (i <> 0 -> 0 < chunk_size i <= maxPayload).
Proof.
  intros Hi. pose proof firstSpace_bound. pose proof (zlen_nonneg data). unfold chunk_size.
  destruct (Z.eqb_spec i 0) as [->|].
  - unfold chunk_start. cbn [Z.eqb]. lia.
  - pose proof (chunk_start_lt i ltac:(lia)).
    assert (0 <= chunk_start i).
    { unfold chunk_start. rewrite (proj2 (Z.eqb_neq _ _)) by lia. nia. }
    lia.
Qed.

Lemma zlen_chunk i : 0 <= i < fragment_count -> zlen (chunk i) = chunk_size i.
Proof.
  intros Hi. pose proof (chunk_bounds i Hi). unfold chunk, zlen.
  rewrite length_take. pose proof (zlen_ptr_add data (chunk_start i)) as E. unfold zlen in *. lia.
Qed.

Lemma zlen_fragment i :
  0 <= i < fragment_count ->
  zlen (fragment i) = 12 + (if i =? 0 then zlen T else 0) + chunk_size i /\
  zlen (fragment i) <= 12 + maxPayload.
Proof.
  intros Hi. pose proof (zlen_chunk i Hi). pose proof (chunk_bounds i Hi).
  unfold fragment. autorewrite with zlen. rewrite zlen_header_wire.
  unfold chunk_size, firstSpace in *. destruct (i =? 0); autorewrite with zlen; lia.
Qed.

(** After its last chunk every byte has been sent: a chunk starts where its
    predecessor ended. *)
Lemma chunk_next i :
  0 <= i -> i + 1 < fragment_count -> chunk_start i + chunk_size i = chunk_start (i + 1).
Proof.
  intros Hi Hn. pose proof (chunk_start_lt (i + 1) ltac:(lia)) as Hlt. pose proof firstSpace_bound.
  unfold chunk_size, chunk_start in *. rewrite (proj2 (Z.eqb_neq (i + 1) 0)) in * by lia.
  destruct (Z.eqb_spec i 0) as [->|]; nia.
Qed.

Lemma chunk_last : chunk_start (fragment_count - 1) + chunk_size (fragment_count - 1) = zlen data.
Proof.
  pose proof firstSpace_bound. pose proof (zlen_nonneg data).
  unfold chunk_size, chunk_start, fragment_count.
  destruct (Z.ltb_spec firstSpace (zlen data)); cycle 1.
  { replace (1 + 0 - 1) with 0 by lia. cbn [Z.eqb]. lia. }
  set (k := zlen data - firstSpace) in *.
  assert (1 <= (k + maxPayload - 1) / maxPayload) by (apply Z.div_le_lower_bound; lia).
  pose proof (Z.mod_pos_bound (k + maxPayload - 1) maxPayload ltac:(lia)).
  pose proof (Z.div_mod (k + maxPayload - 1) maxPayload ltac:(lia)).
  set (q := (k + maxPayload - 1) / maxPayload) in *.
  replace (1 + q - 1) with q by lia. rewrite (proj2 (Z.eqb_neq _ _)) by lia. nia.
Qed.

Lemma fragment_count_pos : 1 <= fragment_count.
Proof.
  unfold fragment_count. case_bool; bool_prop; [|lia].
  pose proof firstSpace_bound.
  assert (0 <= (zlen data - firstSpace + maxPayload - 1) / maxPayload) by (apply Z.div_pos; lia). lia.
Qed.

(** The chunks from i on are the rest of the message. *)
Lemma concat_chunks n i :
  (1 <= n)%nat -> 0 <= i -> i + Z.of_nat n = fragment_count ->
  concat ((λ j, chunk (Z.of_nat j)) <$> seq (Z.to_nat i) n) = ptr_add data (chunk_start i).
Proof.
  revert i. induction n as [|n IH]; intros i Hn Hi E; [lia|].
  cbn [seq fmap list_fmap concat]. rewrite Z2Nat.id by lia. pose proof (chunk_bounds i ltac:(lia)).
  destruct n as [|n].
  - cbn [seq fmap list_fmap concat]. rewrite app_nil_r. unfold chunk. apply take_ge.
    pose proof chunk_last as Hlast. replace (fragment_count - 1) with i in Hlast by lia.
    pose proof (zlen_ptr_add data (chunk_start i)) as Hz. unfold zlen in *. lia.
  - specialize (IH (i + 1) ltac:(lia) ltac:(lia) ltac:(lia)).
    replace (S (Z.to_nat i)) with (Z.to_nat (i + 1)) by lia.
    change (list_fmap nat (list Z) (λ j, chunk (Z.of_nat j)) (seq (Z.to_nat (i + 1)) (S n)))
      with ((λ j, chunk (Z.of_nat j)) <$> seq (Z.to_nat (i + 1)) (S n)).
    rewrite IH, <- chunk_next by lia. unfold chunk.
    rewrite <- ptr_add_add by lia. unfold ptr_add at 3. apply take_drop.
Qed.

Lemma chunks_cover :
  concat ((λ j, chunk (Z.of_nat j)) <$> seq 0 (Z.to_nat fragment_count)) = data.
Proof.
  pose proof fragment_count_pos.
  exact (concat_chunks (Z.to_nat fragment_count) 0 ltac:(lia) ltac:(lia) ltac:(lia)).
Qed.
End fragments.

(** * publish sends exactly the fragments *)

Lemma memcpy_eq packet p src off n :
  0 <= off -> 0 <= n -> off + n <= zlen src ->
  memcpy packet p src off n = write_bytes packet p (take (Z.to_nat n) (ptr_add src off)).
Proof.
  intros. unfold memcpy. by rewrite slice_take_drop, bind_ret by lia.
Qed.

(** Filling a prefix of the packet vector and handing it to [sendto]. *)
Lemma write_then_slice packet bs :
  zlen bs <= zlen packet ->
  ∃ packet', write_bytes packet 0 bs = Some packet' /\ zlen packet' = zlen packet /\
    slice packet' 0 (Z.to_nat (zlen bs)) = Some bs.
Proof.
  intros Hl. exists (bs ++ ptr_add packet (zlen bs)). pose proof (zlen_nonneg bs).
  rewrite write_bytes_in by lia. split; [done|]. split.
  - rewrite zlen_app, zlen_ptr_add by lia. lia.
  - rewrite slice_0_take by (autorewrite with zlen; pose proof (zlen_nonneg (ptr_add packet (zlen bs))); lia).
    unfold zlen. by rewrite Nat2Z.id, take_app_length.
Qed.

Section publish.
Context (host : ByteOrder) (T data : list Z) (maxPayload id : Z).
Hypothesis (Hmax : 0 < maxPayload < 2 ^ 62) (HT : 0 < zlen T <= maxPayload)
  (HT16 : zlen T < 65536) (Hdata : zlen data < 2 ^ 62).
#[local] Abbreviation n := (fragment_count T data maxPayload).
#[local] Abbreviation frag := (fragment host T data maxPayload id).
#[local] Abbreviation start := (chunk_start T maxPayload).

Lemma numFragmentsCalc_count : numFragmentsCalc maxPayload (zlen T) (zlen data) = Some n.
Proof.
  unfold numFragmentsCalc, fragment_count. pose proof (zlen_nonneg data).
  change (2 ^ 62) with 4611686018427387904 in *.
  rewrite (u64_small (maxPayload - zlen T)) by lia. fold (firstSpace T maxPayload).
  unfold firstSpace. case_bool; [|done]. rewrite (proj2 (Z.eqb_neq _ _)) by lia. bool_prop.
  f_equal. rewrite (u64_small (_ + maxPayload - 1)) by lia. apply u64_small.
  assert (0 <= (zlen data - (maxPayload - zlen T) + maxPayload - 1) / maxPayload)
    by (apply Z.div_pos; lia).
  pose proof (Z.div_le_upper_bound (zlen data - (maxPayload - zlen T) + maxPayload - 1) maxPayload
    (zlen data + maxPayload) ltac:(lia) ltac:(nia)). lia.
Qed.

(** Building fragment i, i < n, from a payloadOffset at its chunk. *)
Lemma buildFragment_spec i off packet :
  0 <= i < n -> n <= 65535 -> zlen packet = 12 + maxPayload -> (i <> 0 -> off = start i) ->
  ∃ packet' off', buildFragment host T data maxPayload id n i off packet
    = Some (packet', frag i, off') /\
    zlen packet' = 12 + maxPayload /\ (i + 1 < n -> off' = start (i + 1)).
Proof.
  intros Hi Hn Hp Hoff.
  destruct (zlen_fragment host T data maxPayload id ltac:(lia) HT i Hi) as [Hz Hle].
  destruct (chunk_bounds T data maxPayload ltac:(lia) HT i Hi) as (Hb0 & Hb1 & Hb2 & Hb3).
  pose proof (chunk_next T data maxPayload ltac:(lia) HT i ltac:(lia)) as Hnext.
  destruct (write_then_slice packet (frag i)) as (packet' & Hw & Hz' & Hs); [lia|].
  change (2 ^ 62) with 4611686018427387904 in *.
  unfold buildFragment. rewrite (u64_small (maxPayload - zlen T)) by lia.
  rewrite (u16_small (zlen T)) by lia. fold (fragment_header T data maxPayload id i).
  rewrite writeHeader_bytes. unfold sizeof_FragmentHeader.
  unfold fragment in Hw. rewrite write_bytes_split, zlen_header_wire in Hw.
  destruct (write_bytes packet 0 _) as [m|]; [|done]. rewrite bind_ret in Hw. rewrite bind_ret.
  destruct (Z.eqb_spec i 0) as [->|Hi0].
  - rewrite memcpy_eq by lia. rewrite ptr_add_0, take_ge by (unfold zlen; lia).
    rewrite write_bytes_split in Hw. change (0 + 12) with 12 in Hw.
    destruct (write_bytes m 12 T) as [m2|]; [|done]. rewrite bind_ret in Hw. rewrite bind_ret.
    assert (Z.min (zlen data) (maxPayload - zlen T) = chunk_size T data maxPayload 0) as ->.
    { unfold chunk_size, chunk_start, firstSpace. cbn [Z.eqb]. lia. }
    rewrite memcpy_eq by (unfold chunk_start in *; cbn [Z.eqb] in *; lia).
    change (take (Z.to_nat (chunk_size T data maxPayload 0)) (ptr_add data 0))
      with (chunk T data maxPayload 0).
    rewrite Hw, bind_ret, <- Hz, Hs, bind_ret. eexists _, _. split; [done|].
    split; [lia|]. intros. rewrite <- Hnext by lia. unfold chunk_start. cbn [Z.eqb]. lia.
  - rewrite (Hoff Hi0). rewrite u64_small by lia.
    assert (Z.min (zlen data - start i) maxPayload = chunk_size T data maxPayload i) as ->.
    { unfold chunk_size. by rewrite (proj2 (Z.eqb_neq i 0)) by lia. }
    rewrite memcpy_eq by lia. fold (chunk T data maxPayload i).
    change (0 + 12) with 12 in Hw. cbn [app] in Hw.
    rewrite Hw, bind_ret.
    replace (12 + chunk_size T data maxPayload i) with (zlen (frag i)) by lia.
    rewrite Hs, bind_ret. eexists _, _. split; [done|]. split; [lia|]. intros. by apply Hnext.
Qed.

(** When every [sendto] succeeds the loop sends fragments i .. n - 1. *)
Lemma sendLoop_spec sendto_ok k i off packet sent :
  (∀ j, sendto_ok j = true) -> 0 <= i -> i + Z.of_nat k = n -> n <= 65535 ->
  zlen packet = 12 + maxPayload -> (i <> 0 -> i < n -> off = start i) ->
  sendLoop host sendto_ok T data maxPayload id n k i off packet sent
  = Some (true, sent ++ ((λ j, frag (Z.of_nat j)) <$> seq (Z.to_nat i) k)).
Proof.
  intros Hok. revert i off packet sent. induction k as [|k IH]; intros i off packet sent Hi Hk Hn Hp Hoff.
  - cbn. by rewrite app_nil_r.
  - cbn [sendLoop]. destruct (buildFragment_spec i off packet) as (packet' & off' & -> & Hz & Ho');
      [lia..|intros; apply Hoff; lia|]. rewrite bind_ret, Hok. cbn [negb].
    rewrite u16_small by lia. rewrite (IH (i + 1)); [|lia..|intros; apply Ho'; lia].
    cbn [seq fmap list_fmap]. rewrite Z2Nat.id by lia.
    replace (S (Z.to_nat i)) with (Z.to_nat (i + 1)) by lia. by rewrite <- (assoc_L (++)).
Qed.
End publish.

(** The state of a publisher that can publish, built by [construct]. *)
Record publisher_ok (p : HighBandwidthPublisher) : Prop := {
  pub_socket : 0 <= _socket p;
  pub_running : _running p = true;
  pub_mtu : 12 < _mtu p < 2 ^ 62;
  pub_max : _maxPayloadPerFragment p = _mtu p - 12;
  pub_counter : 0 <= _messageIdCounter p < 4294967296;
}.

Lemma construct_ok name port mtu fd :
  0 <= fd -> 12 < mtu < 2 ^ 62 -> publisher_ok (construct name port mtu fd true).1.
Proof.
  intros Hfd Hm. unfold construct. rewrite (proj2 (Z.ltb_ge _ _)) by done.
  split; cbn -[u64]; try done; try lia. change (2 ^ 62) with 4611686018427387904 in *.
  unfold sizeof_FragmentHeader. apply u64_small. lia.
Qed.

Lemma zlen_namespaced name topic : zlen (namespaced name topic) = zlen name + 1 + zlen topic.
Proof. unfold namespaced. autorewrite with zlen. change (zlen [47]) with 1. lia. Qed.

Lemma publish_sends host sendto_ok p topic data :
  publisher_ok p -> zlen (namespaced (_name p) topic) <= _mtu p - 12 ->
  zlen (namespaced (_name p) topic) < 65536 -> zlen data < 2 ^ 62 ->
  fragment_count (namespaced (_name p) topic) data (_mtu p - 12) <= 65535 ->
  (∀ j, sendto_ok j = true) ->
  publish host sendto_ok p topic (Some data)
  = Some (true, (fetch_add_messageId p).2,
          fragments host (namespaced (_name p) topic) data (_mtu p - 12) (_messageIdCounter p)).
Proof.
  intros [Hs Hr Hm Hx Hc] HT HT16 Hd Hn Hok. unfold publish.
  rewrite (proj2 (Z.ltb_ge _ _)), Hr by lia. cbn [negb orb]. rewrite Hx.
  change (2 ^ 62) with 4611686018427387904 in *.
  pose proof (zlen_namespaced (_name p) topic) as Hz.
  pose proof (zlen_nonneg (_name p)). pose proof (zlen_nonneg topic).
  set (T := namespaced (_name p) topic) in *. clearbody T.
  rewrite numFragmentsCalc_count, bind_ret by (change (2 ^ 62) with 4611686018427387904; lia).
  rewrite (proj2 (Z.ltb_ge _ _)) by lia.
  pose proof (fragment_count_pos T data (_mtu p - 12)
    ltac:(lia) ltac:(lia)) as Hpos.
  rewrite u16_small by lia. unfold fetch_add_messageId. cbn [fst snd _mtu _maxPayloadPerFragment].
  rewrite ?Hx.
  rewrite sendLoop_spec with (T := T) (data := data) (maxPayload := _mtu p - 12);
    try (change (2 ^ 62) with 4611686018427387904); try lia; [|done|].
  - by rewrite bind_ret.
  - rewrite zlen_replicate. lia.
Qed.

(** * Properties *)

(** Publishing a message whose namespaced topic fits the first packet sends
    one packet per fragment of the message, each at most the MTU, the payload
    parts concatenating to the serialized message, under a fresh message ID. *)
Theorem publish_fragments host sendto_ok p topic data :
  publisher_ok p ->
  let T := namespaced (_name p) topic in
  let n := fragment_count T data (_mtu p - 12) in
  zlen T <= _mtu p - 12 -> zlen T < 65536 -> zlen data < 2 ^ 62 -> n <= 65535 ->
  (∀ j, sendto_ok j = true) ->
  ∃ sent,
    publish host sendto_ok p topic (Some data) = Some (true, (fetch_add_messageId p).2, sent) /\
    zlen sent = n /\
    Forall (λ pkt, 12 <= zlen pkt <= _mtu p) sent /\
    ∃ chunks, concat chunks = data /\
      ∀ i pkt, sent !! i = Some pkt ->
        ∃ c, chunks !! i = Some c /\
          pkt = header_wire host (mkFragmentHeader (_messageIdCounter p) (Z.of_nat i) n
                   (if decide (i = 0%nat) then zlen T else 0) 0)
                ++ (if decide (i = 0%nat) then T else []) ++ c.
Proof.
  intros Hp T n HT HT16 Hd Hn Hok. eexists. split; [by apply publish_sends|].
  destruct Hp as [_ _ Hm _ _].
  assert (0 < zlen T <= _mtu p - 12) as HT'.
  { unfold T in *. rewrite zlen_namespaced in *. pose proof (zlen_nonneg (_name p)).
    pose proof (zlen_nonneg topic). lia. }
  fold T. fold n in Hn.
  pose proof (fragment_count_pos T data (_mtu p - 12) ltac:(lia) HT') as Hpos. fold n in Hpos.
  split; [|split].
  - unfold fragments, zlen. rewrite length_fmap, length_seq. fold n. lia.
  - unfold fragments. apply Forall_fmap, Forall_seq. intros i Hi. cbn [compose].
    destruct (zlen_fragment host T data (_mtu p - 12) (_messageIdCounter p) ltac:(lia) HT'
      (Z.of_nat i) ltac:(fold n; lia)) as [Hz ?].
    destruct (chunk_bounds T data (_mtu p - 12) ltac:(lia) HT' (Z.of_nat i) ltac:(fold n; lia))
      as (_ & ? & _). destruct (Z.of_nat i =? 0); lia.
  - exists ((λ j, chunk T data (_mtu p - 12) (Z.of_nat j)) <$> seq 0 (Z.to_nat n)).
    split; [apply chunks_cover; done || lia|].
    intros i pkt Hip. unfold fragments in Hip. apply list_lookup_fmap_Some in Hip as (j & -> & Hj).
    fold n in Hj. pose proof Hj as Hj'. apply lookup_seq in Hj as [-> Hj]. cbn [Nat.add] in *.
    exists (chunk T data (_mtu p - 12) (Z.of_nat i)). split.
    + by rewrite list_lookup_fmap, Hj'.
    + unfold fragment, fragment_header. fold n.
      destruct i as [|i]; [by rewrite !decide_True by done|].
      rewrite (proj2 (Z.eqb_neq (Z.of_nat (S i)) 0)) by lia. by rewrite !decide_False by done.
Qed.

(** A publisher in namespace "a" with a 16-byte MTU. *)
Definition sample_publisher : HighBandwidthPublisher := (construct [97] 5670 16 3 true).1.

Lemma sample_publisher_ok : publisher_ok sample_publisher.
Proof. apply construct_ok; [done|]. change (2 ^ 62) with 4611686018427387904. lia. Qed.

Lemma publish_fragments_witness :
  let T := namespaced [97] [98] in
  let n := fragment_count T [1; 2; 3; 4; 5; 6] 4 in
  ∃ sent,
    publish LittleEndian (λ _, true) sample_publisher [98] (Some [1; 2; 3; 4; 5; 6])
      = Some (true, (fetch_add_messageId sample_publisher).2, sent) /\
    zlen sent = n /\
    Forall (λ pkt, 12 <= zlen pkt <= 16) sent /\
    ∃ chunks, concat chunks = [1; 2; 3; 4; 5; 6] /\
      ∀ i pkt, sent !! i = Some pkt ->
        ∃ c, chunks !! i = Some c /\
          pkt = header_wire LittleEndian (mkFragmentHeader 0 (Z.of_nat i) n
                   (if decide (i = 0%nat) then zlen T else 0) 0)
                ++ (if decide (i = 0%nat) then T else []) ++ c.
Proof.
  apply (publish_fragments LittleEndian (λ _, true) sample_publisher [98] [1; 2; 3; 4; 5; 6]).
  - apply sample_publisher_ok.
  - vm_compute. discriminate.
  - vm_compute. reflexivity.
  - vm_compute. reflexivity.
  - vm_compute. discriminate.
  - done.
Defined.

(** A namespaced topic longer than the payload of a packet makes
    firstFragPayloadSpace wrap around, and the copy of the topic runs past the
    end of the packet vector: publishing is undefined. *)
Theorem publish_long_topic_overflows host sendto_ok p topic data :
  publisher_ok p -> _mtu p - 12 < zlen (namespaced (_name p) topic) < 2 ^ 62 ->
  zlen data < 2 ^ 62 ->
  publish host sendto_ok p topic (Some data) = None.
Proof.
  intros [Hs Hr Hm Hx Hc] HT Hd. unfold publish. rewrite (proj2 (Z.ltb_ge _ _)), Hr by lia.
  cbn [negb orb]. rewrite Hx. set (T := namespaced (_name p) topic) in *. clearbody T.
  change (2 ^ 62) with 4611686018427387904 in *. pose proof (zlen_nonneg data).
  assert (u64 (_mtu p - 12 - zlen T) = 18446744073709551616 - (zlen T - (_mtu p - 12))) as Hu.
  { unfold u64. symmetry. apply Z.mod_unique_pos with (-1); lia. }
  unfold numFragmentsCalc. rewrite Hu, (proj2 (Z.ltb_ge _ _)) by lia. rewrite bind_ret.
  cbn [Z.ltb Z.compare Pos.compare Pos.compare_cont]. unfold fetch_add_messageId.
  cbn [_mtu _maxPayloadPerFragment]. change (u16 1) with 1.
  change (Z.to_nat 1) with 1%nat. cbn [sendLoop]. unfold buildFragment.
  rewrite writeHeader_bytes.
  destruct (write_then_slice (replicate (Z.to_nat (_mtu p)) 0)
    (header_wire host (mkFragmentHeader (_messageIdCounter p) 0 1 (u16 (zlen T)) 0)))
    as (m & Hw & Hz & _).
  { rewrite zlen_header_wire, zlen_replicate. lia. }
  rewrite zlen_replicate in Hz. cbn [Z.eqb]. rewrite Hw, bind_ret.
  rewrite (memcpy_eq m _ T 0 (zlen T)) by lia. rewrite ptr_add_0, take_ge by (unfold zlen; lia).
  rewrite write_bytes_oob; [done| |unfold sizeof_FragmentHeader; lia].
  intros ->. change (zlen []) with 0 in HT. lia.
Qed.

Lemma publish_long_topic_overflows_witness :
  publish LittleEndian (λ _, true) sample_publisher [98; 98; 98] (Some [1]) = None.
Proof.
  apply publish_long_topic_overflows; [apply sample_publisher_ok| |].
  - split; vm_compute; reflexivity.
  - vm_compute. reflexivity.
Defined.

(** A publisher whose construction failed, one that is destroyed, and a
    message that does not serialize send nothing and report failure, leaving
    the publisher as it was. *)
Theorem publish_refuses host sendto_ok p topic message name port mtu fd addr_valid :
  (fd < 0 \/ addr_valid = false ->
   let q := (construct name port mtu fd addr_valid).1 in
   publish host sendto_ok q topic message = Some (false, q, [])) /\
  publish host sendto_ok (destroy p).1 topic message = Some (false, (destroy p).1, []) /\
  (_socket p < 0 \/ message = None ->
   publish host sendto_ok p topic message = Some (false, p, [])).
Proof.
  split; [|split].
  - intros H. unfold construct. destruct (Z.ltb_spec fd 0) as [Hfd|Hfd].
    + unfold publish. cbn [fst _socket]. by rewrite (proj2 (Z.ltb_lt _ _)).
    + destruct H as [H| ->]; [lia|]. done.
  - unfold publish, destroy. cbn [fst _socket _running negb]. by rewrite orb_true_r.
  - intros H. unfold publish. destruct (Z.ltb_spec (_socket p) 0); [done|]. cbn [orb].
    destruct (_running p); [|done]. destruct H as [H| ->]; [lia|done].
Qed.

Lemma publish_refuses_witness :
  (-1 < 0 \/ true = false ->
   let q := (construct [97] 5670 16 (-1) true).1 in
   publish LittleEndian (λ _, true) q [98] (Some [1]) = Some (false, q, [])) /\
  publish LittleEndian (λ _, true) (destroy sample_publisher).1 [98] (Some [1])
    = Some (false, (destroy sample_publisher).1, []) /\
  (_socket sample_publisher < 0 \/ Some [1] = None ->
   publish LittleEndian (λ _, true) sample_publisher [98] (Some [1])
     = Some (false, sample_publisher, [])).
Proof. apply publish_refuses. Defined.
