(* ===== verification/HighBandwidthSubscriber.v ===== *)
(** UDP multicast subscriber: src/libs/PubSub/HighBandwidthSubscriber.{h,cpp}.

    The state is the handler map, the reassembly map and the run flags.
    [processFragment] handles one datagram and returns the handler calls it
    makes; [None] is undefined behaviour (a vector index or a load out of
    range).  The receive thread is [receiveLoop] over the results of [poll] and
    [recv], with the clock readings (nanoseconds) as inputs.  A handler is an
    abstract value; an empty [std::function] is [None]. *)

From S2P Require Import Prelude ByteSwap Vita49Types PacketHeader.
From S2P Require Import HighBandwidthPublisher.

(** * State *)

Record PartialMessage : Type := mkPartialMessage {
  pm_topic : list Z;
  pm_fragments : list (list Z);
  pm_received : gset Z;
  pm_total : Z;
  pm_firstFragmentTime : Z;
}.

(** [PartialMessage()], the value [operator[]] inserts. *)
Definition defaultPartialMessage : PartialMessage := mkPartialMessage [] [] ∅ 0 0.

Section subscriber.
Context {Handler : Type}.

Record HighBandwidthSubscriber : Type := mkHighBandwidthSubscriber {
  sub_name : list Z;
  sub_port : Z;
  sub_reassemblyTimeoutMs : Z;
  sub_socket : Z;
  sub_running : bool;
  sub_shouldStop : bool;
  sub_handlers : gmap (list Z) (option Handler);
  sub_partialMessages : gmap Z PartialMessage;
}.

(** A call [handler(topic, payload)]. *)
Definition Event : Type := Handler * list Z * list Z.

Definition with_handlers (m : gmap (list Z) (option Handler)) (s : HighBandwidthSubscriber) :=
  mkHighBandwidthSubscriber (sub_name s) (sub_port s) (sub_reassemblyTimeoutMs s)
    (sub_socket s) (sub_running s) (sub_shouldStop s) m (sub_partialMessages s).

Definition with_partials (m : gmap Z PartialMessage) (s : HighBandwidthSubscriber) :=
  mkHighBandwidthSubscriber (sub_name s) (sub_port s) (sub_reassemblyTimeoutMs s)
    (sub_socket s) (sub_running s) (sub_shouldStop s) (sub_handlers s) m.

Definition with_run (sock : Z) (running stopping : bool) (s : HighBandwidthSubscriber) :=
  mkHighBandwidthSubscriber (sub_name s) (sub_port s) (sub_reassemblyTimeoutMs s)
    sock running stopping (sub_handlers s) (sub_partialMessages s).

Definition construct (name : list Z) (port timeoutMs : Z) : HighBandwidthSubscriber :=
  mkHighBandwidthSubscriber name port timeoutMs (-1) false false ∅ ∅.

(** * subscribe, start, stop *)

Definition subscribe (topic : list Z) (handler : option Handler) (s : HighBandwidthSubscriber)
    : HighBandwidthSubscriber :=
  with_handlers (<[namespaced (sub_name s) topic := handler]> (sub_handlers s)) s.

(** What the socket calls of [start] return; [interface_valid] is [None] when no
    interface address was given. *)
Record StartEnv : Type := mkStartEnv {
  env_fd : Z;
  env_bind_ok : bool;
  env_group_valid : bool;
  env_interface_valid : option bool;
  env_join_ok : bool;
}.

(** Result, new state, descriptors closed. *)
Definition start (env : StartEnv) (s : HighBandwidthSubscriber)
    : bool * HighBandwidthSubscriber * list Z :=
  if sub_running s then (true, s, [])
  else if env_fd env <? 0 then (false, with_run (env_fd env) (sub_running s) (sub_shouldStop s) s, [])
  else
    let failed := (false, with_run (-1) (sub_running s) (sub_shouldStop s) s, [env_fd env]) in
    if negb (env_bind_ok env) then failed
    else if negb (env_group_valid env) then failed
    else if negb (default true (env_interface_valid env)) then failed
    else if negb (env_join_ok env) then failed
    else (true, with_run (env_fd env) true false s, []).

Definition stop (s : HighBandwidthSubscriber) : HighBandwidthSubscriber :=
  if negb (sub_running s) then s else with_run (sub_socket s) false true s.

Definition destroy (s : HighBandwidthSubscriber) : HighBandwidthSubscriber * list Z :=
  let s := stop s in (s, if 0 <=? sub_socket s then [sub_socket s] else []).

(** * Reassembly *)

Definition deliverMessage (s : HighBandwidthSubscriber) (topic payload : list Z) : list Event :=
  match sub_handlers s !! topic with
  | Some (Some handler) => [(handler, topic, payload)]
  | _ => []
  end.

(** [fragments[i] = v] *)
Definition vec_set (fragments : list (list Z)) (i : Z) (v : list Z) : option (list (list Z)) :=
  if (0 <=? i) && (i <? zlen fragments) then Some (<[Z.to_nat i := v]> fragments) else None.

Section process.
Context (host : ByteOrder).

(** The body of [if (fragNum == 0) .. else ..]: [Some None] is the erase and
    return for a topic longer than the datagram. *)
Definition storeFragment (partial : PartialMessage) (h : FragmentHeader)
    (payload : list Z) (payloadLen : Z) : option (option PartialMessage) :=
  let fragNum := fragmentNum h in
  if fragNum =? 0 then
    if payloadLen <? topicLen h then Some None
    else
      topic ← slice payload 0 (Z.to_nat (topicLen h));
      frag ← slice payload (topicLen h) (Z.to_nat (payloadLen - topicLen h));
      fragments ← vec_set (pm_fragments partial) 0 frag;
      Some (Some (mkPartialMessage topic fragments (pm_received partial)
                    (pm_total partial) (pm_firstFragmentTime partial)))
  else
    frag ← slice payload 0 (Z.to_nat payloadLen);
    fragments ← vec_set (pm_fragments partial) fragNum frag;
    Some (Some (mkPartialMessage (pm_topic partial) fragments (pm_received partial)
                  (pm_total partial) (pm_firstFragmentTime partial))).

(** Get or create the entry; a fresh entry is sized for the message. *)
Definition lookupPartial (s : HighBandwidthSubscriber) (h : FragmentHeader) (now : Z)
    : PartialMessage :=
  let partial := default defaultPartialMessage (sub_partialMessages s !! messageId h) in
  match pm_fragments partial with
  | [] => mkPartialMessage (pm_topic partial) (replicate (Z.to_nat (totalFragments h)) [])
            (pm_received partial) (totalFragments h) now
  | _ => partial
  end.

Definition processFragment (s : HighBandwidthSubscriber) (data : list Z) (len now : Z)
    : option (HighBandwidthSubscriber * list Event) :=
  if len <? sizeof_FragmentHeader then Some (s, [])
  else
    h ← readHeader host data;
    let payload := ptr_add data sizeof_FragmentHeader in
    let payloadLen := len - sizeof_FragmentHeader in
    let id := messageId h in
    let partial := lookupPartial s h now in
    let erased := with_partials (delete id (sub_partialMessages s)) s in
    let stored p := with_partials (<[id := p]> (sub_partialMessages s)) s in
    if negb (pm_total partial =? totalFragments h) then Some (erased, [])
    else if decide (fragmentNum h ∈ pm_received partial) then Some (stored partial, [])
    else
      r ← storeFragment partial h payload payloadLen;
      match r with
      | None => Some (erased, [])
      | Some partial =>
          let received := {[fragmentNum h]} ∪ pm_received partial in
          if Z.of_nat (size received) =? totalFragments h then
            let fullPayload := concat (pm_fragments partial) in
            Some (erased, deliverMessage erased (pm_topic partial) fullPayload)
          else
            Some (stored (mkPartialMessage (pm_topic partial) (pm_fragments partial) received
                            (pm_total partial) (pm_firstFragmentTime partial)), [])
      end.

(** * The receive thread *)

(** [duration_cast<milliseconds>(d).count()], d in nanoseconds. *)
Definition to_ms (d : Z) : Z := Z.quot d 1000000.

Definition cleanupStaleMessages (now : Z) (s : HighBandwidthSubscriber) : HighBandwidthSubscriber :=
  with_partials
    (filter (λ kv, ~ sub_reassemblyTimeoutMs s < to_ms (now - pm_firstFragmentTime kv.2))
       (sub_partialMessages s)) s.

(** One round of the loop: an error of [poll], its timeout (with the clock read
    before and inside the cleanup), an error of [recv], a datagram (and the
    clock read for a new message). *)
Inductive PollResult : Type :=
  | PollError
  | PollTimeout (now cleanup_now : Z)
  | RecvError
  | Received (datagram : list Z) (now : Z).

Definition receiveStep (s : HighBandwidthSubscriber) (lastCleanup : Z) (ev : PollResult)
    : option (HighBandwidthSubscriber * Z * list Event) :=
  match ev with
  | PollError | RecvError => Some (s, lastCleanup, [])
  | PollTimeout now cleanup_now =>
      if 500 <? to_ms (now - lastCleanup)
      then Some (cleanupStaleMessages cleanup_now s, now, [])
      else Some (s, lastCleanup, [])
  | Received datagram now =>
      if sizeof_FragmentHeader <=? zlen datagram then
        '(s, evs) ← processFragment s datagram (zlen datagram) now;
        Some (s, lastCleanup, evs)
      else Some (s, lastCleanup, [])
  end.

(** The handler calls are collected per round. *)
Fixpoint receiveLoop (s : HighBandwidthSubscriber) (lastCleanup : Z) (polls : list PollResult)
    : option (HighBandwidthSubscriber * Z * list (list Event)) :=
  match polls with
  | [] => Some (s, lastCleanup, [])
  | ev :: polls =>
      if negb (sub_running s && negb (sub_shouldStop s)) then Some (s, lastCleanup, [])
      else
        '(s, lastCleanup, evs) ← receiveStep s lastCleanup ev;
        '(s, lastCleanup, rest) ← receiveLoop s lastCleanup polls;
        Some (s, lastCleanup, evs :: rest)
  end.
End process.
End subscriber.

Arguments HighBandwidthSubscriber : clear implicits.
Arguments Event : clear implicits.

(** * Well-formed reassembly state

    What every stored entry satisfies: its vector is sized, the received numbers
    index it, and the message is not complete. *)

Record partial_wf (p : PartialMessage) : Prop := {
  pw_total : 0 < pm_total p < 65536;
  pw_fragments : zlen (pm_fragments p) = pm_total p;
  pw_received : ∀ i, i ∈ pm_received p -> 0 <= i < pm_total p;
  pw_incomplete : Z.of_nat (size (pm_received p)) < pm_total p;
}.

Definition partials_wf {Handler} (s : HighBandwidthSubscriber Handler) : Prop :=
  map_Forall (λ _, partial_wf) (sub_partialMessages s).

(** The numbers 0 .. n - 1. *)
Definition numbers (n : Z) : gset Z := list_to_set (Z.of_nat <$> seq 0 (Z.to_nat n)).

Lemma elem_of_numbers n i : i ∈ numbers n <-> 0 <= i < n.
Proof.
  unfold numbers. rewrite elem_of_list_to_set, list_elem_of_fmap. split.
  - intros (k & -> & Hk%elem_of_seq). lia.
  - intros Hi. exists (Z.to_nat i). rewrite elem_of_seq. lia.
Qed.

Lemma size_numbers n : 0 <= n -> Z.of_nat (size (numbers n)) = n.
Proof.
  intros. unfold numbers. rewrite size_list_to_set.
  - rewrite length_fmap, length_seq. lia.
  - apply NoDup_fmap; [intros ? ? ?; lia|apply NoDup_seq].
Qed.

(** A set of numbers below n has at most n elements, and all of them when n. *)
Lemma size_below n (S : gset Z) :
  0 <= n -> (∀ i, i ∈ S -> 0 <= i < n) -> Z.of_nat (size S) <= n.
Proof.
  intros Hn HS. rewrite <- (size_numbers n) by done.
  apply Nat2Z.inj_le, subseteq_size. intros i Hi. by apply elem_of_numbers, HS.
Qed.

Lemma size_full n (S : gset Z) :
  0 <= n -> (∀ i, i ∈ S -> 0 <= i < n) -> Z.of_nat (size S) = n -> S = numbers n.
Proof.
  intros Hn HS E. apply leibniz_equiv, set_subseteq_size_equiv.
  - intros i Hi. by apply elem_of_numbers, HS.
  - pose proof (size_numbers n Hn). lia.
Qed.

Lemma vec_set_in l i v :
  0 <= i < zlen l -> vec_set l i v = Some (<[Z.to_nat i := v]> l).
Proof.
  intros. unfold vec_set. by rewrite (proj2 (Z.leb_le _ _)), (proj2 (Z.ltb_lt _ _)) by lia.
Qed.

Lemma vec_set_oob l i v : zlen l <= i -> vec_set l i v = None.
Proof. intros. unfold vec_set. by rewrite (proj2 (Z.ltb_ge _ _)), andb_false_r by lia. Qed.

Lemma zlen_insert {A} (l : list A) i v : zlen (<[i := v]> l) = zlen l.
Proof. unfold zlen. by rewrite length_insert. Qed.

#[export] Hint Rewrite @zlen_insert : zlen.

Lemma readHeader_total host data :
  bytes_ok data -> 12 <= zlen data -> ∃ h, readHeader host data = Some h /\ fragment_header_wf h.
Proof.
  intros Hd Hl. unfold readHeader.
  destruct (readWord_total host data 0) as (a & -> & Ha); [done|lia..|]. rewrite bind_ret.
  destruct (load16_total host data 4) as (b & -> & Hb); [done|lia..|]. rewrite bind_ret.
  destruct (load16_total host data 6) as (c & -> & Hc); [done|lia..|]. rewrite bind_ret.
  destruct (load16_total host data 8) as (d & -> & Hd'); [done|lia..|]. rewrite bind_ret.
  destruct (load16_total host data 10) as (e & -> & He); [done|lia..|]. rewrite bind_ret.
  eexists. by split.
Qed.

Section safety.
Context {Handler : Type} (host : ByteOrder).
Implicit Types (s : HighBandwidthSubscriber Handler) (p : PartialMessage).

Lemma lookupPartial_wf s h now :
  partials_wf s -> 0 < totalFragments h < 65536 ->
  let p := lookupPartial s h now in
  zlen (pm_fragments p) = pm_total p /\ 0 < pm_total p < 65536 /\
  (∀ i, i ∈ pm_received p -> 0 <= i < pm_total p) /\
  Z.of_nat (size (pm_received p)) < pm_total p.
Proof.
  intros Hs Ht. unfold lookupPartial.
  destruct (sub_partialMessages s !! messageId h) as [p|] eqn:E; cbn [default from_option id].
  - apply Hs in E as [H1 H2 H3 H4]. destruct (pm_fragments p) eqn:Ef.
    + change (zlen []) with 0 in H2. lia.
    + by rewrite Ef.
  - cbn [pm_fragments defaultPartialMessage pm_total pm_received]. rewrite zlen_replicate, size_empty.
    split_and!; try lia. set_solver.
Qed.

(** Storing a fragment whose number is in range never leaves the vector. *)
Lemma storeFragment_total p h payload plen :
  zlen (pm_fragments p) = pm_total p -> 0 <= fragmentNum h < pm_total p ->
  0 <= topicLen h -> 0 <= plen <= zlen payload ->
  ∃ r, storeFragment p h payload plen = Some r /\
    match r with
    | None => True
    | Some q => pm_received q = pm_received p /\ pm_total q = pm_total p /\
                zlen (pm_fragments q) = pm_total p
    end.
Proof.
  intros Hf Hn Ht Hp. unfold storeFragment. destruct (Z.eqb_spec (fragmentNum h) 0).
  - destruct (Z.ltb_spec plen (topicLen h)); [by exists None|].
    destruct (slice_total payload 0 (Z.to_nat (topicLen h))) as [t ->]; [lia..|]. rewrite bind_ret.
    destruct (slice_total payload (topicLen h) (Z.to_nat (plen - topicLen h))) as [f ->]; [lia..|].
    rewrite bind_ret, vec_set_in, bind_ret by lia. eexists. split; [done|]. cbn. by autorewrite with zlen.
  - destruct (slice_total payload 0 (Z.to_nat plen)) as [f ->]; [lia..|].
    rewrite bind_ret, vec_set_in, bind_ret by lia. eexists. split; [done|]. cbn. by autorewrite with zlen.
Qed.

(** A datagram whose header numbers a fragment of its message is processed
    without undefined behaviour and keeps the state well-formed; only the entry
    of its message changes. *)
Definition header_in_range (h : FragmentHeader) : Prop := fragmentNum h < totalFragments h.

Lemma processFragment_safe s data len now :
  partials_wf s -> bytes_ok data -> len <= zlen data ->
  (∀ h, readHeader host data = Some h -> header_in_range h) ->
  ∃ s' evs, processFragment host s data len now = Some (s', evs) /\ partials_wf s' /\
    sub_handlers s' = sub_handlers s /\ (zlen evs <= 1).
Proof.
  intros Hs Hd Hl Hr. unfold processFragment, sizeof_FragmentHeader.
  destruct (Z.ltb_spec len 12); [by eexists s, []|].
  destruct (readHeader_total host data) as (h & E & [? ? ? ? ?]); [done|lia|].
  specialize (Hr h E). unfold header_in_range in Hr. rewrite E, bind_ret.
  destruct (lookupPartial_wf s h now Hs ltac:(lia)) as (Hf & Ht & Hrec & Hinc).
  set (p := lookupPartial s h now) in *. clearbody p.
  assert (partials_wf (with_partials (delete (messageId h) (sub_partialMessages s)) s)) as Hdel.
  { by apply map_Forall_delete. }
  destruct (Z.eqb_spec (pm_total p) (totalFragments h)); cbn [negb]; [|by eexists _, []].
  case_decide.
  { eexists _, []. split; [done|]. split; [|done]. apply map_Forall_insert_2; [by split|done]. }
  destruct (storeFragment_total p h (ptr_add data 12) (len - 12)) as (r & -> & Hr');
    [done|lia|lia|rewrite zlen_ptr_add by lia; lia|]. rewrite bind_ret.
  destruct r as [q|]; [|by eexists _, []]. destruct Hr' as (Hq1 & Hq2 & Hq3).
  assert (∀ i, i ∈ ({[fragmentNum h]} ∪ pm_received q) -> 0 <= i < pm_total p) as Hin.
  { intros i [->%elem_of_singleton|Hi]%elem_of_union; [lia|]. rewrite Hq1 in Hi. auto. }
  pose proof (size_below (pm_total p) _ ltac:(lia) Hin).
  case_bool; bool_prop.
  - eexists _, _. split; [done|]. split; [done|]. split; [done|].
    unfold deliverMessage. repeat case_match; unfold zlen; simpl; lia.
  - eexists _, []. split; [done|]. split; [|done]. apply map_Forall_insert_2; [|done].
    split; cbn -[size]; try lia; try done. intros i Hi. rewrite Hq2. by apply Hin.
Qed.

(** Only the entry of the datagram's own message changes. *)
Lemma processFragment_frame s data len now s' evs :
  processFragment host s data len now = Some (s', evs) ->
  s' = with_partials (sub_partialMessages s') s /\
  ∀ id, (∀ h, readHeader host data = Some h -> messageId h <> id) ->
    sub_partialMessages s' !! id = sub_partialMessages s !! id.
Proof.
  unfold processFragment. destruct (len <? _).
  { intros [= <- <-]. split; [by destruct s|done]. }
  destruct (readHeader host data) as [h|]; [|done]. rewrite bind_ret.
  assert (∀ m, (m = delete (messageId h) (sub_partialMessages s) \/
      ∃ p, m = <[messageId h := p]> (sub_partialMessages s)) ->
    with_partials m s = with_partials (sub_partialMessages (with_partials m s)) s /\
    ∀ id, (∀ h0, Some h = Some h0 -> messageId h0 <> id) ->
      sub_partialMessages (with_partials m s) !! id = sub_partialMessages s !! id) as Hm.
  { intros m Hm. split; [done|]. intros id Hid. specialize (Hid h eq_refl).
    destruct Hm as [->|[p ->]]; cbn [with_partials sub_partialMessages];
      [by rewrite lookup_delete_ne|by rewrite lookup_insert_ne]. }
  case_bool; [intros [= <- <-]; apply Hm; by left|].
  case_decide; [intros [= <- <-]; apply Hm; right; by eexists|].
  destruct (storeFragment _ _ _ _) as [[q|]|]; [| |done]; rewrite bind_ret.
  - case_bool; intros [= <- <-]; apply Hm; [by left|right; by eexists].
  - intros [= <- <-]. apply Hm. by left.
Qed.

Lemma cleanup_wf now s : partials_wf s -> partials_wf (cleanupStaleMessages now s).
Proof.
  intros H i p [Hp _]%map_lookup_filter_Some. by eapply H.
Qed.
End safety.

(** * The reassembler as an abstract machine

    Fed the fragment numbers of one message of n fragments, it keeps the set of
    numbers seen; the number that completes the set delivers and resets it. *)

Definition reassemble_step (n : Z) (seen : gset Z) (i : Z) : gset Z * bool :=
  if decide (i ∈ seen) then (seen, false)
  else if Z.of_nat (size ({[i]} ∪ seen)) =? n then (∅, true)
  else ({[i]} ∪ seen, false).

Lemma decide_add {A} (seen : gset Z) i j (x y : A) :
  j <> i -> (if decide (j ∈ seen) then x else y) = (if decide (j ∈ {[i]} ∪ seen) then x else y).
Proof.
  intros Hj. apply decide_ext. rewrite elem_of_union, elem_of_singleton.
  split; [by right|by intros [?|?]].
Qed.

Section refine.
Context {Handler : Type} (host : ByteOrder) (T data : list Z) (maxPayload id : Z).
Context (Hmax : 0 < maxPayload) (HT : 0 < zlen T <= maxPayload).
#[local] Abbreviation n := (fragment_count T data maxPayload).
Context (HT16 : zlen T < 65536) (Hn : n <= 65535) (Hid : 0 <= id < 4294967296).
Context (HTb : bytes_ok T) (Hdb : bytes_ok data).
(** The clock readings the entry may have been created at. *)
Context (young : Z -> Prop).
Implicit Types (s : HighBandwidthSubscriber Handler) (seen : gset Z).
#[local] Abbreviation frag := (fragment host T data maxPayload id).
#[local] Abbreviation piece := (chunk T data maxPayload).

(** The vector with the pieces seen so far. *)
Definition pieces (seen : gset Z) : list (list Z) :=
  (λ j, if decide (Z.of_nat j ∈ seen) then piece (Z.of_nat j) else []) <$> seq 0 (Z.to_nat n).

(** The entry of the message represents the set of numbers seen. *)
Definition represents (seen : gset Z) (o : option PartialMessage) : Prop :=
  match o with
  | None => seen = ∅
  | Some p =>
      seen <> ∅ /\ pm_received p = seen /\ pm_total p = n /\ pm_fragments p = pieces seen /\
      pm_topic p = (if decide (0 ∈ seen) then T else []) /\
      young (pm_firstFragmentTime p)
  end.

Lemma zlen_pieces seen : zlen (pieces seen) = n.
Proof.
  unfold pieces, zlen. rewrite length_fmap, length_seq.
  pose proof (fragment_count_pos T data maxPayload Hmax HT). lia.
Qed.

Lemma pieces_empty : pieces ∅ = replicate (Z.to_nat n) [].
Proof.
  unfold pieces. apply list_eq. intros j. rewrite list_lookup_fmap.
  destruct (decide (j < Z.to_nat n)%nat).
  - rewrite lookup_seq_lt, lookup_replicate_2 by lia. cbn. by rewrite decide_False by set_solver.
  - rewrite lookup_seq_ge, lookup_ge_None_2 by (rewrite ?length_replicate; lia). done.
Qed.

Lemma pieces_insert seen i :
  0 <= i < n -> <[Z.to_nat i := piece i]> (pieces seen) = pieces ({[i]} ∪ seen).
Proof.
  intros Hi. apply list_eq. intros j. unfold pieces. rewrite list_lookup_insert, list_lookup_fmap.
  rewrite list_lookup_fmap, length_fmap, length_seq.
  destruct (decide (j < Z.to_nat n)%nat).
  - rewrite lookup_seq_lt by lia. cbn [fmap option_fmap option_map Nat.add].
    destruct (decide (Z.to_nat i = j)) as [<-|].
    + case_match; [|lia]. rewrite Z2Nat.id by lia. by rewrite decide_True by (rewrite elem_of_union, elem_of_singleton; auto).
    + case_match; [lia|]. f_equal. by apply decide_add; lia.
  - case_match; [lia|]. by rewrite lookup_seq_ge by lia.
Qed.

Lemma pieces_full : concat (pieces (numbers n)) = data.
Proof.
  rewrite <- (chunks_cover T data maxPayload Hmax HT) at 2. f_equal. unfold pieces.
  apply list_fmap_ext. intros j k Hj%lookup_seq. rewrite decide_True; [done|].
  apply elem_of_numbers. lia.
Qed.

(** Every fragment starts with its header. *)
Lemma fragment_reads i :
  0 <= i < n ->
  readHeader host (frag i) = Some (fragment_header T data maxPayload id i) /\
  12 <= zlen (frag i) /\ bytes_ok (frag i).
Proof.
  intros Hi. pose proof (fragment_count_pos T data maxPayload Hmax HT).
  assert (bytes_ok ((if i =? 0 then T else []) ++ piece i)) as Hb.
  { apply Forall_app. split; [by case_bool|]. by apply Forall_take, Forall_drop. }
  split; [|split].
  - apply readHeader_wire; [|done]. split; cbn; try lia. case_bool; lia.
  - destruct (zlen_fragment host T data maxPayload id Hmax HT i Hi).
    destruct (chunk_bounds T data maxPayload Hmax HT i Hi) as (_ & ? & _).
    destruct (i =? 0); lia.
  - apply Forall_app. split; [apply header_wire_bytes|done].
Qed.

Lemma storeFragment_fragment i seen t0 :
  0 <= i < n ->
  storeFragment (mkPartialMessage (if decide (0 ∈ seen) then T else []) (pieces seen) seen n t0)
    (fragment_header T data maxPayload id i) (ptr_add (frag i) 12) (zlen (frag i) - 12)
  = Some (Some (mkPartialMessage (if decide (0 ∈ {[i]} ∪ seen) then T else [])
      (pieces ({[i]} ∪ seen)) seen n t0)).
Proof.
  intros Hi. unfold storeFragment.
  cbn [fragmentNum topicLen fragment_header pm_fragments pm_received pm_total pm_topic
       pm_firstFragmentTime].
  assert (ptr_add (frag i) 12 = (if i =? 0 then T else []) ++ piece i) as ->.
  { unfold fragment. rewrite <- (zlen_header_wire host (fragment_header T data maxPayload id i)).
    apply ptr_add_app. }
  assert (zlen (frag i) - 12 = zlen (if i =? 0 then T else []) + zlen (piece i)) as ->.
  { unfold fragment. autorewrite with zlen. rewrite zlen_header_wire. lia. }
  pose proof (zlen_nonneg (piece i)). pose proof (zlen_nonneg T).
  destruct (Z.eqb_spec i 0) as [->|Hi0].
  - rewrite (proj2 (Z.ltb_ge _ _)) by lia.
    rewrite slice_0_take by (autorewrite with zlen; lia). rewrite bind_ret.
    replace (Z.to_nat (zlen T + zlen (piece 0) - zlen T)) with (length (piece 0))
      by (unfold zlen; lia).
    pose proof (slice_app_exact T (piece 0) [] _ eq_refl) as Hsl. rewrite app_nil_r in Hsl.
    rewrite Hsl, bind_ret.
    rewrite vec_set_in by (rewrite zlen_pieces; lia). rewrite bind_ret.
    rewrite pieces_insert by lia.
    rewrite decide_True by (rewrite elem_of_union, elem_of_singleton; auto).
    unfold zlen. by rewrite Nat2Z.id, take_app_length.
  - cbn [app]. change (zlen []) with 0. rewrite Z.add_0_l.
    rewrite slice_0_take by lia. rewrite bind_ret. rewrite vec_set_in by (rewrite zlen_pieces; lia).
    rewrite bind_ret, take_ge, pieces_insert by (unfold zlen; lia).
    by rewrite (decide_add seen i 0 T) by lia.
Qed.

Lemma lookupPartial_represents s seen i now :
  0 <= i < n -> represents seen (sub_partialMessages s !! id) -> (seen = ∅ -> young now) ->
  ∃ t0, young t0 /\ lookupPartial s (fragment_header T data maxPayload id i) now
    = mkPartialMessage (if decide (0 ∈ seen) then T else []) (pieces seen) seen n t0.
Proof.
  intros Hi Hr Hy. unfold lookupPartial. cbn [messageId totalFragments fragment_header].
  destruct (sub_partialMessages s !! id) as [p|]; cbn [default from_option represents] in *.
  - destruct Hr as (_ & H1 & H2 & H3 & H4 & Ht). exists (pm_firstFragmentTime p).
    split; [done|]. destruct p as [t fr re to ti]. cbn in *. subst. destruct (pieces seen) eqn:E; [|done].
    pose proof (zlen_pieces seen) as Hz. rewrite E in Hz. change (zlen []) with 0 in Hz. lia.
  - subst seen. exists now. split; [by apply Hy|]. rewrite pieces_empty. cbn. by rewrite decide_False by set_solver.
Qed.

Definition seen_ok (seen : gset Z) : Prop := ∀ i, i ∈ seen -> 0 <= i < n.

Lemma reassemble_step_ok seen i :
  0 <= i < n -> seen_ok seen -> seen_ok (reassemble_step n seen i).1.
Proof.
  intros Hi Hs. unfold reassemble_step, seen_ok. repeat case_match; cbn [fst]; [done|set_solver|].
  intros j [->%elem_of_singleton|Hj]%elem_of_union; auto.
Qed.

(** The concrete step simulates the abstract one. *)
Lemma process_step s seen i now :
  0 <= i < n -> represents seen (sub_partialMessages s !! id) -> seen_ok seen -> (seen = ∅ -> young now) ->
  ∃ s', processFragment host s (frag i) (zlen (frag i)) now
      = Some (s', if (reassemble_step n seen i).2 then deliverMessage s T data else []) /\
    represents (reassemble_step n seen i).1 (sub_partialMessages s' !! id) /\
    (∀ j, j <> id -> sub_partialMessages s' !! j = sub_partialMessages s !! j) /\
    s' = with_partials (sub_partialMessages s') s.
Proof.
  intros Hi Hr Hs Hy. destruct (fragment_reads i Hi) as (Hh & Hl & Hb).
  destruct (lookupPartial_represents s seen i now Hi Hr Hy) as (t0 & Hyt & Hp).
  unfold processFragment, reassemble_step. unfold sizeof_FragmentHeader at 1.
  rewrite (proj2 (Z.ltb_ge _ _)), Hh, bind_ret, Hp by lia.
  cbn [pm_total totalFragments fragmentNum messageId fragment_header pm_received].
  rewrite Z.eqb_refl. cbn [negb]. destruct (decide (i ∈ seen)) as [Hin|Hin].
  - eexists. split; [done|]. cbn [fst snd with_partials sub_partialMessages]. split_and!.
    + rewrite lookup_insert_eq. cbn [represents]. split; [clear -Hin; set_solver|done].
    + intros j Hj. by rewrite lookup_insert_ne by done.
    + done.
  - unfold sizeof_FragmentHeader.
    rewrite (storeFragment_fragment i seen t0 Hi), bind_ret.
    cbn [pm_received pm_fragments pm_topic pm_total pm_firstFragmentTime].
    destruct (Z.eqb_spec (Z.of_nat (size ({[i]} ∪ seen))) n) as [E|E];
      cbn [fst snd with_partials sub_partialMessages].
    + assert ({[i]} ∪ seen = numbers n) as ->.
      { apply size_full; [lia| |done]. intros j [->%elem_of_singleton|Hj]%elem_of_union; auto. }
      rewrite pieces_full, decide_True by (apply elem_of_numbers; lia).
      eexists. split; [done|]. cbn [with_partials sub_partialMessages]. split_and!.
      * by rewrite lookup_delete_eq.
      * intros j Hj. by rewrite lookup_delete_ne by done.
      * done.
    + eexists. split; [done|]. cbn [with_partials sub_partialMessages]. split_and!.
      * rewrite lookup_insert_eq. cbn [represents]. split; [clear; set_solver|done].
      * intros j Hj. by rewrite lookup_insert_ne by done.
      * done.
Qed.

(** Outcomes of a round, by the fragment number it receives ([None]: the round
    is about something else), according to the abstract machine. *)
Fixpoint reassemble_run (seen : gset Z) (kinds : list (option Z)) : list (option bool) :=
  match kinds with
  | [] => []
  | None :: kinds => None :: reassemble_run seen kinds
  | Some i :: kinds =>
      Some (reassemble_step n seen i).2 :: reassemble_run (reassemble_step n seen i).1 kinds
  end.

(** What a round may be: fragment i of the message, a datagram of another
    message, an error, or a timeout that does not expire the entry, if there is
    one. *)
Definition admissible (timeout : Z) (seen : gset Z) (kind : option Z) (ev : PollResult) : Prop :=
  match kind, ev with
  | Some i, Received d now => 0 <= i < n /\ d = frag i /\ (seen = ∅ -> young now)
  | None, Received d _ =>
      bytes_ok d /\ ∀ h, readHeader host d = Some h -> header_in_range h /\ messageId h <> id
  | None, PollTimeout _ now => seen <> ∅ -> ∀ t, young t -> to_ms (now - t) <= timeout
  | None, _ => True
  | _, _ => False
  end.

(** The rounds of a run, each in the state the ones before lead to. *)
Fixpoint admissible_run (timeout : Z) (seen : gset Z) (kinds : list (option Z)) (polls : list PollResult) : Prop :=
  match kinds, polls with
  | [], [] => True
  | kind :: kinds, ev :: polls =>
      admissible timeout seen kind ev /\
      admissible_run timeout (match kind with Some i => (reassemble_step n seen i).1 | None => seen end) kinds polls
  | _, _ => False
  end.

Definition agrees s (o : option bool) (evs : list (Event Handler)) : Prop :=
  match o with
  | None => True
  | Some delivered => evs = if delivered then deliverMessage s T data else []
  end.

Lemma cleanup_keeps now seen s :
  (seen <> ∅ -> ∀ t, young t -> to_ms (now - t) <= sub_reassemblyTimeoutMs s) ->
  represents seen (sub_partialMessages s !! id) ->
  represents seen (sub_partialMessages (cleanupStaleMessages now s) !! id).
Proof.
  intros Hy Hr. cbn [cleanupStaleMessages with_partials sub_partialMessages].
  rewrite map_lookup_filter. destruct (sub_partialMessages s !! id) as [p|]; [|done].
  cbn [mbind option_bind]. rewrite option_guard_True; [done|]. cbn [snd].
  destruct Hr as (Hne & _ & _ & _ & _ & Ht). specialize (Hy Hne _ Ht). lia.
Qed.

Lemma receiveStep_refines s seen lc kind ev :
  partials_wf s -> represents seen (sub_partialMessages s !! id) -> seen_ok seen ->
  admissible (sub_reassemblyTimeoutMs s) seen kind ev ->
  ∃ s' lc' evs, receiveStep host s lc ev = Some (s', lc', evs) /\
    partials_wf s' /\ s' = with_partials (sub_partialMessages s') s /\
    match kind with
    | None => represents seen (sub_partialMessages s' !! id)
    | Some i => represents (reassemble_step n seen i).1 (sub_partialMessages s' !! id) /\
        agrees s (Some (reassemble_step n seen i).2) evs
    end.
Proof.
  intros Hw Hr Hs Ha. destruct kind as [i|].
  - destruct ev as [| | |d now]; try done. destruct Ha as (Hi & -> & Hy).
    destruct (fragment_reads i Hi) as (Hh & Hl & Hb).
    destruct (process_step s seen i now Hi Hr Hs Hy) as (s' & E & Hr' & _ & Hs').
    destruct (processFragment_safe host s (frag i) (zlen (frag i)) now) as (s2 & evs & E2 & Hw' & _);
      [done|done|lia| |].
    { intros h. rewrite Hh. intros [= <-]. unfold header_in_range. cbn. lia. }
    rewrite E in E2. injection E2 as <- <-.
    cbn [receiveStep]. unfold sizeof_FragmentHeader. rewrite (proj2 (Z.leb_le _ _)) by lia.
    rewrite E, bind_ret. eexists _, _, _. by split.
  - destruct ev as [|now cnow| |d now]; cbn [receiveStep admissible] in *.
    + eexists _, _, _. split; [done|]. split; [done|]. split; [by destruct s|done].
    + case_bool.
      * eexists _, _, _. split; [done|]. split; [by apply cleanup_wf|]. split; [done|].
        by apply cleanup_keeps.
      * eexists _, _, _. split; [done|]. split; [done|]. split; [by destruct s|done].
    + eexists _, _, _. split; [done|]. split; [done|]. split; [by destruct s|done].
    + destruct Ha as [Hb Hh]. case_bool.
      * destruct (processFragment_safe host s d (zlen d) now) as (s' & evs & E & Hw' & _);
          [done|done|lia|intros h E; by apply (Hh h E)|].
        destruct (processFragment_frame host s d (zlen d) now s' evs E) as [Hs' Hf].
        rewrite E, bind_ret. eexists _, _, _. split; [done|]. split; [done|]. split; [done|].
        rewrite Hf; [done|intros h Eh; by apply (Hh h Eh)].
      * eexists _, _, _. split; [done|]. split; [done|]. split; [by destruct s|done].
Qed.

(** The loop simulates the abstract machine, whatever is interleaved. *)
Lemma receiveLoop_refines s seen lc kinds polls :
  sub_running s = true -> sub_shouldStop s = false ->
  partials_wf s -> represents seen (sub_partialMessages s !! id) -> seen_ok seen ->
  admissible_run (sub_reassemblyTimeoutMs s) seen kinds polls ->
  ∃ s' lc' evss, receiveLoop host s lc polls = Some (s', lc', evss) /\
    partials_wf s' /\ Forall2 (agrees s) (reassemble_run seen kinds) evss.
Proof.
  intros Hrun Hstop Hw Hr Hs H. revert s seen lc Hrun Hstop Hw Hr Hs H.
  induction kinds as [|kind kinds IH] in polls |- *; intros s seen lc Hrun Hstop Hw Hr Hs H;
    destruct polls as [|ev polls']; try done.
  - eexists _, _, _. split; [done|]. split; [done|constructor].
  - destruct H as [Ha H']. cbn [receiveLoop]. rewrite Hrun, Hstop. cbn [andb negb].
    destruct (receiveStep_refines s seen lc kind ev Hw Hr Hs Ha)
      as (s1 & lc1 & evs & -> & Hw1 & Hs1 & Hk). rewrite bind_ret.
    assert (∀ seen', seen_ok seen' -> represents seen' (sub_partialMessages s1 !! id) ->
      admissible_run (sub_reassemblyTimeoutMs s) seen' kinds polls' ->
      ∃ s' lc' evss, receiveLoop host s1 lc1 polls' = Some (s', lc', evss) /\
        partials_wf s' /\ Forall2 (agrees s) (reassemble_run seen' kinds) evss) as Hrest.
    { intros seen' Hs' Hr' Hrun'.
      destruct (IH polls' s1 seen' lc1) as (s' & lc' & evss & E & Hw' & Hag); try done;
        try (by rewrite Hs1).
      eexists _, _, _. split; [done|]. split; [done|]. rewrite Hs1 in Hag. exact Hag. }
    destruct kind as [i|].
    + destruct Hk as [Hr1 Hag].
      destruct ev as [| | |d now]; try done. destruct Ha as (Hi & _ & _).
      destruct (Hrest _ (reassemble_step_ok seen i Hi Hs) Hr1 H') as (s' & lc' & evss & -> & Hw' & Hags).
      rewrite bind_ret. eexists _, _, _. split; [done|]. split; [done|]. by constructor.
    + destruct (Hrest seen Hs Hk H') as (s' & lc' & evss & -> & Hw' & Hags).
      rewrite bind_ret. eexists _, _, _. split; [done|]. split; [done|]. by constructor.
Qed.

(** Until the last missing number arrives nothing is delivered; then once. *)
Lemma reassemble_run_complete seen kinds i :
  seen_ok seen -> 0 <= i < n -> i ∉ seen ->
  Forall (λ k, k <> Some i /\ ∀ j, k = Some j -> 0 <= j < n) kinds ->
  (∀ j, 0 <= j < n -> j = i \/ j ∈ seen \/ Some j ∈ kinds) ->
  reassemble_run seen (kinds ++ [Some i])
  = ((λ k, match k with Some _ => Some false | None => None end) <$> kinds) ++ [Some true].
Proof.
  intros Hs Hi Hni Hk Hall. revert seen Hs Hni Hall.
  induction Hk as [|k kinds [Hne Hb] Hk IH]; intros seen Hs Hni Hall; cbn [app reassemble_run fmap list_fmap].
  - unfold reassemble_step. rewrite decide_False by done.
    assert ({[i]} ∪ seen = numbers n) as ->.
    { apply set_eq. intros j. rewrite elem_of_numbers, elem_of_union, elem_of_singleton. split.
      - intros [->|Hj]; [done|auto].
      - intros Hj. destruct (Hall j Hj) as [?|[?|Hj']]; auto. by apply elem_of_nil in Hj'. }
    rewrite size_numbers, Z.eqb_refl by lia. done.
  - destruct k as [j|].
    + specialize (Hb j eq_refl). assert (i <> j) by congruence.
      unfold reassemble_step. destruct (decide (j ∈ seen)) as [Hj|Hj]; cbn [fst snd].
      * f_equal. apply IH; [done|done|]. intros a Ha.
        destruct (Hall a Ha) as [?|[?|[?|?]%elem_of_cons]]; simplify_eq; auto.
      * destruct (Z.eqb_spec (Z.of_nat (size ({[j]} ∪ seen))) n) as [E|E].
        { exfalso. assert (i ∈ {[j]} ∪ seen) as [?%elem_of_singleton|?]%elem_of_union; [|done|done].
          rewrite (size_full n ({[j]} ∪ seen)); [by apply elem_of_numbers|lia| |done].
          intros a [->%elem_of_singleton|Ha]%elem_of_union; auto. }
        cbn [fst snd]. f_equal. apply IH.
        -- intros a [->%elem_of_singleton|Ha]%elem_of_union; auto.
        -- rewrite elem_of_union, elem_of_singleton. by intros [?|?].
        -- intros a Ha. rewrite elem_of_union, elem_of_singleton.
           destruct (Hall a Ha) as [?|[?|[?|?]%elem_of_cons]]; simplify_eq; auto.
    + f_equal. apply IH; [done|done|]. intros a Ha.
      destruct (Hall a Ha) as [?|[?|[?|?]%elem_of_cons]]; simplify_eq; auto.
Qed.

(** The numbers among the kinds of some rounds. *)
Definition arrivals (kinds : list (option Z)) : gset Z := list_to_set (omap (λ k, k) kinds).

Lemma reassemble_step_delivers seen i :
  seen_ok seen -> 0 <= i < n -> ¬ numbers n ⊆ seen ->
  (reassemble_step n seen i).2 = bool_decide (numbers n ⊆ {[i]} ∪ seen) /\
  (¬ numbers n ⊆ {[i]} ∪ seen -> (reassemble_step n seen i).1 = {[i]} ∪ seen).
Proof.
  intros Hs Hi Hn'. unfold reassemble_step. destruct (decide (i ∈ seen)) as [Hin|Hin]; cbn [fst snd].
  - assert ({[i]} ∪ seen = seen) as -> by (clear -Hin; set_solver). by rewrite bool_decide_false.
  - assert (∀ j, j ∈ {[i]} ∪ seen -> 0 <= j < n) as Hb by (intros j [->%elem_of_singleton|?]%elem_of_union; auto).
    assert (0 <= n) by lia.
    destruct (Z.eqb_spec (Z.of_nat (size ({[i]} ∪ seen))) n) as [E|E]; cbn [fst snd].
    + rewrite (size_full n _ ltac:(lia) Hb E). rewrite bool_decide_true by done. by split.
    + rewrite bool_decide_false; [done|]. intros Hsub. apply E. pose proof (size_below n _ ltac:(lia) Hb).
      pose proof (subseteq_size _ _ Hsub). pose proof (size_numbers n ltac:(lia)). lia.
Qed.

(** A number delivers exactly when it completes the message, as long as none
    comes after the message is complete. *)
Lemma reassemble_run_lookup seen kinds k i :
  seen_ok seen -> ¬ numbers n ⊆ seen ->
  Forall (λ kind, ∀ i, kind = Some i -> 0 <= i < n) kinds ->
  (∀ k i, kinds !! k = Some (Some i) -> ¬ numbers n ⊆ seen ∪ arrivals (take k kinds)) ->
  kinds !! k = Some (Some i) ->
  reassemble_run seen kinds !! k = Some (Some (bool_decide (numbers n ⊆ seen ∪ arrivals (take (S k) kinds)))).
Proof.
  intros Hs Hinc Hb. revert seen k Hs Hinc.
  induction Hb as [|[j|] kinds Hj Hb IH]; intros seen k Hs Hinc Hlate Hk; [done|..]; cbn [reassemble_run].
  - specialize (Hj j eq_refl). destruct (reassemble_step_delivers seen j Hs Hj Hinc) as [E1 E2].
    assert (∀ l, seen ∪ arrivals (Some j :: l) = ({[j]} ∪ seen) ∪ arrivals l) as Hcons.
    { intros l. unfold arrivals. cbn. clear. set_solver. }
    destruct k as [|k]; cbn [lookup list_lookup] in *.
    + injection Hk as ->. rewrite E1. do 2 f_equal. apply bool_decide_ext. cbn [take]. rewrite Hcons.
      unfold arrivals. cbn. clear. set_solver.
    + assert (¬ numbers n ⊆ {[j]} ∪ seen) as Hinc'.
      { intros Hsub. apply (Hlate (S k) i Hk). cbn [take]. rewrite Hcons. set_solver. }
      rewrite (E2 Hinc'), (IH ({[j]} ∪ seen) k); [|by rewrite <- (E2 Hinc'); apply reassemble_step_ok|done| |done].
      * do 2 f_equal. apply bool_decide_ext. by rewrite (firstn_cons (S k)), Hcons.
      * intros k' i' Hk'. rewrite <- Hcons. exact (Hlate (S k') i' Hk').
  - destruct k as [|k]; [done|]. cbn [lookup list_lookup] in *. etrans; [|done].
    apply (IH seen k); [done..| |done]. intros k' i' Hk'. exact (Hlate (S k') i' Hk').
Qed.
End refine.

(** The loop is defined while every datagram numbers a fragment of its message. *)
Lemma receiveLoop_total {Handler} host (s : HighBandwidthSubscriber Handler) lc polls :
  partials_wf s ->
  Forall (λ ev, match ev with
          | Received d _ => bytes_ok d /\ ∀ h, readHeader host d = Some h -> header_in_range h
          | _ => True
          end) polls ->
  ∃ s' lc' evss, receiveLoop host s lc polls = Some (s', lc', evss) /\ partials_wf s' /\
    Forall (λ evs, zlen evs <= 1) evss /\ zlen evss <= zlen polls.
Proof.
  intros Hw H. revert s lc Hw. induction H as [|ev polls Hev _ IH]; intros s lc Hw; cbn [receiveLoop].
  { by eexists _, _, []. }
  case_bool; [eexists _, _, []; split_and!; done || (rewrite zlen_cons; change (zlen []) with 0;
    pose proof (zlen_nonneg polls); lia)|].
  assert (∃ s1 lc1 evs, receiveStep host s lc ev = Some (s1, lc1, evs) /\ partials_wf s1 /\
    zlen evs <= 1) as (s1 & lc1 & evs & -> & Hw1 & He).
  { destruct ev as [|now cnow| |d now]; cbn [receiveStep].
    - by eexists _, _, [].
    - case_bool; eexists _, _, []; split_and!; try done. by apply cleanup_wf.
    - by eexists _, _, [].
    - destruct Hev as [Hd Hh]. case_bool; [|by eexists _, _, []].
      destruct (processFragment_safe host s d (zlen d) now Hw Hd ltac:(lia) Hh)
        as (s1 & evs & -> & ? & _ & ?). rewrite bind_ret. by eexists _, _, _. }
  rewrite bind_ret. destruct (IH s1 lc1 Hw1) as (s2 & lc2 & evss & -> & ? & ? & ?).
  rewrite bind_ret. eexists _, _, _. split; [done|]. split; [done|].
  split; [by constructor|]. rewrite !zlen_cons. lia.
Qed.

(** * The traffic of a publisher

    The datagrams of several messages in any order.  A round is tagged with the
    message and the packet it brings, if it brings one of them. *)

(** Successive calls of [publish], with the packets of each. *)
Fixpoint publishAll (host : ByteOrder) (p : HighBandwidthPublisher) (msgs : list (list Z * list Z))
    : option (HighBandwidthPublisher * list (list (list Z))) :=
  match msgs with
  | [] => Some (p, [])
  | (topic, data) :: msgs =>
      '(_, p, sent) ← publish host (λ _, true) p topic (Some data);
      '(p, sents) ← publishAll host p msgs;
      Some (p, sent :: sents)
  end.

Definition tag : Type := option (nat * nat).

(** Every packet of message j is among those of the rounds. *)
Definition completed (sents : list (list (list Z))) (j : nat) (tags : list tag) : bool :=
  forallb (λ i, bool_decide (Some (j, i) ∈ tags)) (seq 0 (length (default [] (sents !! j)))).

(** A round brings a packet sent, something of another publisher, or no datagram. *)
Definition traffic_round (host : ByteOrder) (sents : list (list (list Z))) (ids : list Z)
    (t : tag) (ev : PollResult) : Prop :=
  match t, ev with
  | Some (j, i), Received d _ => ∃ sent, sents !! j = Some sent /\ sent !! i = Some d
  | None, Received d _ =>
      bytes_ok d /\ ∀ h, readHeader host d = Some h -> header_in_range h /\ messageId h ∉ ids
  | None, _ => True
  | _, _ => False
  end.

(** A packet of message j is the first of the message, received at [t]. *)
Definition first_packet (tags : list tag) (polls : list PollResult) (j f : nat) (t : Z) : Prop :=
  (∃ i d, tags !! f = Some (Some (j, i)) /\ polls !! f = Some (Received d t)) /\
  ∀ f' i', (f' < f)%nat -> tags !! f' <> Some (Some (j, i')).

(** When [poll] times out, no message that has begun to arrive and is not
    complete has been waiting longer than the reassembly timeout. *)
Definition none_expires (sents : list (list (list Z))) (timeout : Z) (tags : list tag) (polls : list PollResult) : Prop :=
  ∀ k now cleanup_now j f t, polls !! k = Some (PollTimeout now cleanup_now) -> first_packet tags polls j f t ->
    (f < k)%nat -> completed sents j (take k tags) = false -> to_ms (cleanup_now - t) <= timeout.

(** Nothing of a message arrives after it is complete. *)
Definition none_late (sents : list (list (list Z))) (tags : list tag) : Prop :=
  ∀ k j i, tags !! k = Some (Some (j, i)) -> completed sents j (take k tags) = false.

(** The rounds as those of message j. *)
Definition project (j : nat) (t : tag) : option Z :=
  match t with Some (j', i) => if decide (j' = j) then Some (Z.of_nat i) else None | None => None end.

Lemma elem_of_arrivals i kinds : i ∈ arrivals kinds <-> Some i ∈ kinds.
Proof.
  unfold arrivals. rewrite elem_of_list_to_set, list_elem_of_omap. split.
  - by intros (? & ? & ->).
  - intros H. by exists (Some i).
Qed.

Lemma completed_arrivals sents j n tags :
  length (default [] (sents !! j)) = Z.to_nat n ->
  completed sents j tags = bool_decide (numbers n ⊆ ∅ ∪ arrivals (project j <$> tags)).
Proof.
  intros Hl. unfold completed. rewrite Hl. apply eq_bool_prop_intro.
  rewrite bool_decide_spec, Is_true_true, forallb_forall. split.
  - intros H i Hi%elem_of_numbers. apply elem_of_union_r, elem_of_arrivals, list_elem_of_fmap.
    exists (Some (j, Z.to_nat i)). cbn. rewrite decide_True by done. split; [by rewrite Z2Nat.id by lia|].
    apply (bool_decide_eq_true_1 _), H, in_seq. lia.
  - intros H i [_ Hi]%in_seq. apply bool_decide_eq_true_2.
    assert (Z.of_nat i ∈ numbers n) as Hin by (apply elem_of_numbers; lia).
    apply H in Hin as [?%elem_of_empty|Hin]%elem_of_union; [done|].
    apply elem_of_arrivals, list_elem_of_fmap in Hin as ([[j' i']|] & E & Hin); [|done].
    cbn in E. case_decide; [|done]. subst. injection E as E. by replace i with i' by lia.
Qed.

Definition zip_ids (p : HighBandwidthPublisher) (k : nat) : list Z :=
  (λ j, u32 (_messageIdCounter p + Z.of_nat j)) <$> seq 0 k.

(** * Properties *)

(** A message the publisher can send whole. *)
Record message_ok (p : HighBandwidthPublisher) (topic data : list Z) : Prop := {
  msg_publisher : publisher_ok p;
  msg_name_bytes : bytes_ok (_name p);
  msg_topic_bytes : bytes_ok topic;
  msg_data_bytes : bytes_ok data;
  msg_data_size : zlen data < 2 ^ 62;
  msg_topic_fits : zlen (namespaced (_name p) topic) <= _mtu p - 12;
  msg_topic_16 : zlen (namespaced (_name p) topic) < 65536;
  msg_fragments : fragment_count (namespaced (_name p) topic) data (_mtu p - 12) <= 65535;
}.

(** A subscriber whose receive thread runs and knows nothing of message id. *)
Record subscriber_ready {Handler} (s : HighBandwidthSubscriber Handler) (id : Z) : Prop := {
  ready_running : sub_running s = true;
  ready_stop : sub_shouldStop s = false;
  ready_wf : partials_wf s;
  ready_fresh : sub_partialMessages s !! id = None;
}.

(** What a round of the receive loop may be: packet i of those sent, a datagram
    of another message, an error, or a timeout of [poll] while nothing received
    since [t0] has expired. *)
Definition round_ok (host : ByteOrder) (sent : list (list Z)) (id timeout t0 : Z)
    (kind : option nat) (ev : PollResult) : Prop :=
  match kind, ev with
  | Some i, Received d now => sent !! i = Some d /\ t0 <= now
  | None, Received d _ =>
      bytes_ok d /\ ∀ h, readHeader host d = Some h -> header_in_range h /\ messageId h <> id
  | None, PollTimeout _ now => to_ms (now - t0) <= timeout
  | None, _ => True
  | _, _ => False
  end.

Lemma fragments_lookup host T data maxPayload id i d :
  fragments host T data maxPayload id !! i = Some d <->
  (i < Z.to_nat (fragment_count T data maxPayload))%nat /\
  d = fragment host T data maxPayload id (Z.of_nat i).
Proof.
  unfold fragments. rewrite list_lookup_fmap. split.
  - intros (j & [-> Hj]%lookup_seq & ->)%fmap_Some. done.
  - intros [Hi ->]. by rewrite lookup_seq_lt.
Qed.

Definition zkind (k : option nat) : option Z := Z.of_nat <$> k.

Lemma round_ok_admissible host T data maxPayload id timeout t0 kind ev :
  round_ok host (fragments host T data maxPayload id) id timeout t0 kind ev ->
  ∀ seen, admissible host T data maxPayload id (λ t, t0 <= t) timeout seen (zkind kind) ev.
Proof.
  intros Hr seen. revert Hr.
  destruct kind as [i|], ev as [|now cnow| |d now];
    cbn [round_ok admissible zkind fmap option_fmap option_map];
    try done.
  - rewrite fragments_lookup. intros [[? ->] ?]. split; [lia|done].
  - intros H _ t Ht. etrans; [|exact H]. unfold to_ms. apply Z.quot_le_mono; lia.
Qed.

(** The rounds before the last new packet deliver nothing, that one everything. *)
Lemma reassemble_run_kinds T data maxPayload kinds last :
  let n := Z.to_nat (fragment_count T data maxPayload) in
  (last < n)%nat -> Some last ∉ kinds -> (∀ j, Some j ∈ kinds -> (j < n)%nat) ->
  (∀ j, (j < n)%nat -> j = last \/ Some j ∈ kinds) ->
  reassemble_run T data maxPayload ∅ (zkind <$> (kinds ++ [Some last]))
  = ((λ k, match k with Some _ => Some false | None => None end) <$> (zkind <$> kinds)) ++ [Some true].
Proof.
  intros n Hl Hnl Hk Hall. rewrite fmap_app. cbn [fmap list_fmap zkind option_fmap option_map].
  apply (reassemble_run_complete T data maxPayload); try lia.
  - intros i ?%elem_of_empty. done.
  - apply not_elem_of_empty.
  - apply Forall_fmap, Forall_forall. intros k Hkin%list_elem_of_In.
    cbn [compose]. destruct k as [j|]; cbn; [|done]. specialize (Hk j Hkin). split.
    + intros [= ?]. apply Hnl. by replace last with j by lia.
    + intros a [= <-]. lia.
  - intros j Hj. destruct (Hall (Z.to_nat j) ltac:(lia)) as [?|Hin]; [left; lia|].
    right. right. apply list_elem_of_fmap. exists (Some (Z.to_nat j)). split; [|done].
    cbn. f_equal. lia.
Qed.

(** End to end. The packets of one [publish], received in any order, any
    number of times, between datagrams of other messages, errors and timeouts:
    until the last missing packet arrives no handler is called for them, and
    then the handler of the topic is called once, with the namespaced topic and
    exactly the published bytes. *)
Theorem hb_publish_delivers {Handler} host sendto_ok p topic data
    (s : HighBandwidthSubscriber Handler) h lc t0 kinds last polls p' sent :
  message_ok p topic data -> (∀ j, sendto_ok j = true) ->
  subscriber_ready s (_messageIdCounter p) ->
  sub_handlers s !! namespaced (_name p) topic = Some (Some h) ->
  publish host sendto_ok p topic (Some data) = Some (true, p', sent) ->
  (last < length sent)%nat -> Some last ∉ kinds ->
  (∀ j, (j < length sent)%nat -> j = last \/ Some j ∈ kinds) ->
  Forall2 (round_ok host sent (_messageIdCounter p) (sub_reassemblyTimeoutMs s) t0)
    (kinds ++ [Some last]) polls ->
  ∃ s' lc' evss, receiveLoop host s lc polls = Some (s', lc', evss) /\
    Forall2 (λ kind evs, match kind with
             | Some j => evs = if decide (j = last)
                 then [(h, namespaced (_name p) topic, data)] else []
             | None => True
             end) (kinds ++ [Some last]) evss.
Proof.
  intros [Hp Hnb Htb Hdb Hd HT HT16 Hn] Hok [Hrun Hstop Hw Hfresh] Hh Hpub.
  rewrite publish_sends in Hpub by done. injection Hpub as _ <-.
  set (T := namespaced (_name p) topic) in *. set (n := fragment_count T data (_mtu p - 12)) in *.
  destruct Hp as [_ _ Hm _ Hc].
  assert (0 < zlen T <= _mtu p - 12) as HT'.
  { unfold T in *. rewrite zlen_namespaced in *. pose proof (zlen_nonneg (_name p)).
    pose proof (zlen_nonneg topic). lia. }
  assert (bytes_ok T) as HTb.
  { unfold T, namespaced. rewrite !Forall_app. split_and!; try done.
    repeat constructor; unfold is_byte; lia. }
  assert (length (fragments host T data (_mtu p - 12) (_messageIdCounter p)) = Z.to_nat n) as ->.
  { unfold fragments. by rewrite length_fmap, length_seq. }
  intros Hl Hnl Hall Hrounds.
  assert (admissible_run host T data (_mtu p - 12) (_messageIdCounter p) (λ t, t0 <= t)
    (sub_reassemblyTimeoutMs s) ∅ (zkind <$> (kinds ++ [Some last])) polls) as Hadm.
  { generalize (∅ : gset Z). clear -Hrounds. induction Hrounds as [|k ev kinds' polls' Hr _ IH]; intros seen; [done|].
    split; [by apply round_ok_admissible|apply IH]. }
  assert (seen_ok T data (_mtu p - 12) ∅) as Hs0 by (intros i ?%elem_of_empty; done).
  destruct (receiveLoop_refines host T data (_mtu p - 12) (_messageIdCounter p) ltac:(lia) HT' HT16 Hn
    Hc HTb Hdb (λ t, t0 <= t) s ∅ lc _ polls Hrun Hstop Hw ltac:(by rewrite Hfresh) Hs0 Hadm)
    as (s' & lc' & evss & E & _ & Hag).
  exists s', lc', evss. split; [done|].
  rewrite reassemble_run_kinds in Hag; [|lia|done| |done].
  - apply Forall2_app_inv_l in Hag as (e1 & e2 & H1 & H2 & ->). apply Forall2_app.
    + rewrite Forall2_fmap_l, Forall2_fmap_l in H1.
      eapply Forall2_impl_in; [exact H1|]. intros k evs Hkin. cbn [compose].
      destruct k as [j|]; [|done]. cbn. intros ->. rewrite decide_False; [done|by intros ->].
    + inversion H2 as [|? evs ? ? Hev H3]; subst. inversion H3; subst. constructor; [|done].
      cbn in *. rewrite decide_True by done. rewrite Hev. unfold deliverMessage. fold T. by rewrite Hh.
  - intros j [a Ha]%list_elem_of_lookup. apply Forall2_app_inv_l in Hrounds as (polls1 & polls2 & Hr & _ & _).
    destruct (Forall2_lookup_l _ _ _ _ _ Hr Ha) as ([] & _ & Hev); try done.
    destruct Hev as [Hev _]. by apply fragments_lookup in Hev as [? _].
Qed.

Lemma message_ok_topic p topic data :
  message_ok p topic data ->
  0 < zlen (namespaced (_name p) topic) <= _mtu p - 12 /\ bytes_ok (namespaced (_name p) topic).
Proof.
  intros [Hp Hnb Htb _ _ HT _ _]. rewrite zlen_namespaced in *. pose proof (zlen_nonneg (_name p)).
  pose proof (zlen_nonneg topic). split; [lia|]. unfold namespaced. rewrite !Forall_app.
  split_and!; try done. repeat constructor; unfold is_byte; lia.
Qed.

Lemma message_ok_next p topic data : message_ok p topic data -> message_ok (fetch_add_messageId p).2 topic data.
Proof. intros [[] ]. split; try done. split; try done. apply u32_bound. Qed.

Lemma publish_message_ok host p topic data :
  message_ok p topic data ->
  publish host (λ _, true) p topic (Some data)
  = Some (true, (fetch_add_messageId p).2,
          fragments host (namespaced (_name p) topic) data (_mtu p - 12) (_messageIdCounter p)).
Proof. intros []. by apply publish_sends. Qed.

(** The packets of message j carry the j-th ID from the counter. *)
Lemma publishAll_lookup host p msgs p' sents j topic data :
  Forall (λ m, message_ok p m.1 m.2) msgs -> publishAll host p msgs = Some (p', sents) ->
  length sents = length msgs /\
  (msgs !! j = Some (topic, data) ->
   sents !! j = Some (fragments host (namespaced (_name p) topic) data (_mtu p - 12)
                        (u32 (_messageIdCounter p + Z.of_nat j)))).
Proof.
  intros H. revert p p' sents j H. induction msgs as [|[t d] msgs IH]; intros p p' sents j H E.
  { injection E as _ <-. done. }
  apply Forall_cons_1 in H as [Hm H]. cbn [publishAll] in E. rewrite (publish_message_ok host p t d Hm), bind_ret in E.
  apply bind_Some in E as ([p2 sents2] & E & [= -> <-]).
  assert (Forall (λ m, message_ok (fetch_add_messageId p).2 m.1 m.2) msgs) as H'.
  { eapply Forall_impl; [|exact H]. intros [? ?]. apply message_ok_next. }
  destruct (IH _ _ _ (pred j) H' E) as [Hl Hj]. split; [by cbn; rewrite Hl|].
  destruct j as [|j]; cbn [lookup list_lookup pred].
  - intros [= -> ->]. rewrite Z.add_0_r, u32_small; [done|]. apply Hm.
  - intros Hlk. etrans; [apply Hj, Hlk|]. do 2 f_equal. cbn. unfold u32.
    rewrite Zplus_mod_idemp_l. f_equal. lia.
Qed.

Lemma u32_ids_inj c j j' m :
  0 <= j < m -> 0 <= j' < m -> m <= 4294967296 -> u32 (c + j) = u32 (c + j') -> j = j'.
Proof. unfold u32. intros. Z.div_mod_to_equations. nia. Qed.

Section traffic.
Context {Handler : Type} (host : ByteOrder) (p : HighBandwidthPublisher) (msgs : list (list Z * list Z)).
Context (s : HighBandwidthSubscriber Handler) (p' : HighBandwidthPublisher) (sents : list (list (list Z))).
Hypothesis (Hok : Forall (λ m, message_ok p m.1 m.2) msgs) (Hmany : zlen msgs <= 2 ^ 32).
Hypothesis (Hpub : publishAll host p msgs = Some (p', sents)).
#[local] Abbreviation topic_of m := (namespaced (_name p) m).
#[local] Abbreviation id_of j := (u32 (_messageIdCounter p + Z.of_nat j)).
#[local] Abbreviation ids := (zip_ids p (length msgs)).
#[local] Abbreviation round := (traffic_round host sents ids).

Lemma sents_lookup j sent :
  sents !! j = Some sent ->
  ∃ topic data, msgs !! j = Some (topic, data) /\ message_ok p topic data /\
    sent = fragments host (topic_of topic) data (_mtu p - 12) (id_of j).
Proof.
  intros Hj. assert (is_Some (msgs !! j)) as [[topic data] Hm].
  { apply lookup_lt_is_Some. destruct (publishAll_lookup host p msgs p' sents 0 [] [] Hok Hpub) as [<- _].
    by eapply lookup_lt_Some. }
  destruct (publishAll_lookup host p msgs p' sents j topic data Hok Hpub) as [_ E].
  rewrite (E Hm) in Hj. injection Hj as <-. exists topic, data. split; [done|]. split; [|done].
  by apply (proj1 (Forall_lookup _ _) Hok j (topic, data)).
Qed.

(** A packet of message j, read back. *)
Lemma sent_reads j i sent d :
  sents !! j = Some sent -> sent !! i = Some d ->
  bytes_ok d /\ ∃ h, readHeader host d = Some h /\ header_in_range h /\ messageId h = id_of j.
Proof.
  intros Hj Hi. destruct (sents_lookup j sent Hj) as (topic & data & _ & Hm & ->).
  apply fragments_lookup in Hi as [Hi ->]. destruct (message_ok_topic _ _ _ Hm) as [HT HTb].
  destruct Hm as [[] _ _ ? _ ? ? ?].
  destruct (fragment_reads host (topic_of topic) data (_mtu p - 12) (id_of j)
    ltac:(lia) HT ltac:(done) ltac:(done) (u32_bound _) HTb ltac:(done) (Z.of_nat i) ltac:(lia)) as (Hh & _ & Hb).
  split; [done|]. eexists. split; [exact Hh|]. split; [|done]. unfold header_in_range. cbn. lia.
Qed.

Lemma traffic_total lc tags polls :
  partials_wf s -> Forall2 round tags polls ->
  ∃ s' lc' evss, receiveLoop host s lc polls = Some (s', lc', evss).
Proof.
  intros Hw H. destruct (receiveLoop_total host s lc polls Hw) as (s' & lc' & evss & E & _); [|by eexists _, _, _].
  apply Forall_forall. intros ev [k Hk]%list_elem_of_In%list_elem_of_lookup.
  destruct (Forall2_lookup_r _ _ _ _ _ H Hk) as ([[j i]|] & _ & Hr); destruct ev as [| | |d now]; try done.
  - destruct Hr as (sent & Hj & Hi). destruct (sent_reads j i sent d Hj Hi) as (Hb & h & Hh & Hin & _).
    split; [done|]. rewrite Hh. by intros h' [= <-].
  - destruct Hr as [Hb Hh]. split; [done|]. intros h E. by apply Hh.
Qed.

(** Seen from message j, the rounds are those of one message. *)
Section one_message.
Context (j : nat) (topic data : list Z) (Hm : msgs !! j = Some (topic, data)).
Context (tags : list tag) (polls : list PollResult) (Hr : Forall2 round tags polls).
Context (Hexp : none_expires sents (sub_reassemblyTimeoutMs s) tags polls) (Hlate : none_late sents tags).
#[local] Abbreviation T := (topic_of topic).
#[local] Abbreviation n := (fragment_count T data (_mtu p - 12)).
#[local] Abbreviation young := (λ t, ∃ f, first_packet tags polls j f t).

Lemma sents_completed l : completed sents j l = bool_decide (numbers n ⊆ ∅ ∪ arrivals (project j <$> l)).
Proof.
  apply completed_arrivals. destruct (publishAll_lookup host p msgs p' sents j topic data Hok Hpub) as [_ E].
  rewrite (E Hm). unfold fragments. cbn. by rewrite length_fmap, length_seq.
Qed.

(** The numbers seen after some rounds: none before the first packet and after
    the last. *)
Definition seen_after (l : list tag) : gset Z := if completed sents j l then ∅ else arrivals (project j <$> l).

Lemma arrivals_snoc kinds k : arrivals (kinds ++ [k]) = match k with Some i => {[i]} | None => ∅ end ∪ arrivals kinds.
Proof. unfold arrivals. rewrite omap_app, list_to_set_app_L. destruct k; cbn; clear; set_solver. Qed.

Lemma arrivals_packet l i : i ∈ arrivals (project j <$> l) -> ∃ f i', l !! f = Some (Some (j, i')).
Proof.
  rewrite elem_of_arrivals, list_elem_of_fmap. intros ([[j' i']|] & E & Hin); [|done]. cbn in E.
  case_decide; [|done]. subst. apply list_elem_of_lookup in Hin as [f Hf]. by exists f, i'.
Qed.

Lemma arrivals_first f i d t :
  tags !! f = Some (Some (j, i)) -> polls !! f = Some (Received d t) ->
  arrivals (project j <$> take f tags) = ∅ -> first_packet tags polls j f t.
Proof.
  intros Hf Hp He. split; [by exists i, d|]. intros f' i' Hlt E.
  assert (Z.of_nat i' ∈ arrivals (project j <$> take f tags)) as Hin; [|rewrite He in Hin; by apply elem_of_empty in Hin].
  apply elem_of_arrivals, list_elem_of_fmap. exists (Some (j, i')). split; [cbn; by rewrite decide_True|].
  apply list_elem_of_lookup. exists f'. by apply lookup_take_Some.
Qed.

(** One of the packets so far is the first. *)
Lemma first_packet_exists k i :
  i ∈ arrivals (project j <$> take k tags) -> ∃ f t, (f < k)%nat /\ first_packet tags polls j f t.
Proof.
  intros (f & i' & Hf)%arrivals_packet. apply lookup_take_Some in Hf as [Hf Hfk]. revert i' Hf Hfk.
  induction f as [f IH] using lt_wf_ind. intros i' Hf Hfk.
  destruct (decide (arrivals (project j <$> take f tags) = ∅)) as [He|[a Ha]%set_choose_L].
  - destruct (Forall2_lookup_l _ _ _ _ _ Hr Hf) as (ev & Hev & Hround). destruct ev as [| | |d t]; try done.
    exists f, t. split; [done|]. by eapply arrivals_first.
  - apply arrivals_packet in Ha as (f2 & i2 & Hf2). apply lookup_take_Some in Hf2 as [Hf2 ?].
    by apply (IH f2 ltac:(lia) i2 Hf2 ltac:(lia)).
Qed.

Lemma packet_number i d f t :
  tags !! f = Some (Some (j, i)) -> polls !! f = Some (Received d t) ->
  (i < Z.to_nat n)%nat /\ d = fragment host T data (_mtu p - 12) (id_of j) (Z.of_nat i).
Proof.
  intros Hf Hp. destruct (Forall2_lookup_lr _ _ _ _ _ _ Hr Hf Hp) as (sent & Hj & Hi).
  destruct (sents_lookup j sent Hj) as (topic' & data' & Hm' & _ & ->). rewrite Hm in Hm'. injection Hm' as <- <-.
  by apply fragments_lookup in Hi.
Qed.

(** One round of the message leads from what was seen before it to what was seen
    after it. *)
Lemma seen_after_step k :
  (k < length tags)%nat ->
  seen_after (take (S k) tags)
  = match (project j <$> tags) !! k with
    | Some (Some i) => (reassemble_step n (seen_after (take k tags)) i).1
    | _ => seen_after (take k tags)
    end.
Proof.
  intros [tg Hk]%lookup_lt_is_Some. rewrite list_lookup_fmap, Hk. cbn [fmap option_fmap option_map].
  rewrite (take_S_r _ _ _ Hk). unfold seen_after. rewrite !sents_completed, fmap_app, list_fmap_singleton, arrivals_snoc.
  destruct tg as [[j' i]|]; cbn [project].
  2: { by rewrite !(left_id_L ∅ (∪)). }
  destruct (decide (j' = j)) as [->|]; [|by rewrite !(left_id_L ∅ (∪))].
  pose proof (Hlate k j i Hk) as Hinc. rewrite sents_completed in Hinc. rewrite Hinc. apply bool_decide_eq_false in Hinc.
  rewrite (left_id_L ∅ (∪)) in Hinc. rewrite !(left_id_L ∅ (∪)).
  destruct (Forall2_lookup_l _ _ _ _ _ Hr Hk) as ([| | |d t] & Hev & Hround); try done.
  destruct (packet_number i d k t Hk Hev) as [Hi _].
  assert (seen_ok T data (_mtu p - 12) (arrivals (project j <$> take k tags))) as Hs.
  { intros a Ha. apply elem_of_arrivals, list_elem_of_fmap in Ha as ([[j2 i2]|] & E & Hin); [|done]. cbn in E.
    case_decide; [|done]. subst. injection E as ->. apply list_elem_of_lookup in Hin as [f Hf].
    apply lookup_take_Some in Hf as [Hf _].
    destruct (Forall2_lookup_l _ _ _ _ _ Hr Hf) as ([| | |d2 t2] & Hev2 & Hround2); try done.
    destruct (packet_number i2 d2 f t2 Hf Hev2). lia. }
  assert (message_ok p topic data) as Hmsg by by apply (proj1 (Forall_lookup _ _) Hok j (topic, data)).
  destruct (message_ok_topic _ _ _ Hmsg) as [HT HTb]. destruct Hmsg as [[] _ _ Hdb _ _ HT16 Hn].
  destruct (reassemble_step_delivers T data (_mtu p - 12) _ (Z.of_nat i) Hs ltac:(lia) Hinc) as [E1 E2].
  case_bool_decide as Hfull; [|by rewrite E2].
  unfold reassemble_step in *. case_decide; cbn [fst snd] in *; [done|]. by destruct (_ =? _).
Qed.

Lemma traffic_admissible k :
  admissible_run host T data (_mtu p - 12) (id_of j) young (sub_reassemblyTimeoutMs s)
    (seen_after (take k tags)) (project j <$> drop k tags) (drop k polls).
Proof.
  pose proof (Forall2_length Hr) as Hlen.
  remember (length tags - k)%nat as m eqn:Em. revert k Em. induction m as [|m IH]; intros k Em.
  { rewrite !drop_ge by lia. done. }
  assert (is_Some (tags !! k)) as [tg Hk] by (apply lookup_lt_is_Some; lia).
  destruct (Forall2_lookup_l _ _ _ _ _ Hr Hk) as (ev & Hev & Hround).
  rewrite (drop_S _ _ _ Hk), (drop_S _ _ _ Hev). cbn [fmap list_fmap admissible_run]. split; cycle 1.
  { specialize (IH (S k) ltac:(lia)). rewrite seen_after_step in IH by lia.
    rewrite list_lookup_fmap, Hk in IH. exact IH. }
  assert (Hml : (j < length msgs)%nat) by by eapply lookup_lt_Some.
  change (2 ^ 32) with 4294967296 in Hmany. unfold zlen in Hmany.
  destruct tg as [[j' i]|], ev as [|now cnow| |d now]; cbn [project traffic_round] in *; try done.
  - destruct Hround as (sent & Hj & Hi). destruct (decide (j' = j)) as [->|Hne]; cbn [admissible].
    + destruct (packet_number i d k now Hk Hev) as [? ->]. split; [lia|]. split; [done|].
      unfold seen_after. rewrite (Hlate k j i Hk). intros He. exists k. by eapply arrivals_first.
    + destruct (sent_reads j' i sent d Hj Hi) as (Hb & h & Hh & Hin & Hid). split; [done|].
      rewrite Hh. intros h' [= <-]. split; [done|]. rewrite Hid. intros E. apply Hne.
      destruct (sents_lookup j' sent Hj) as (? & ? & Hm' & _). apply lookup_lt_Some in Hm'.
      apply (u32_ids_inj _ _ _ (Z.of_nat (length msgs))) in E; lia.
  - cbn [admissible]. unfold seen_after. destruct (completed sents j (take k tags)) eqn:Ec; [done|].
    intros Hne t [f Hf]. destruct (set_choose_L _ Hne) as [a Ha].
    destruct (first_packet_exists k a Ha) as (f2 & t2 & Hlt & Hf2).
    assert (f = f2) as ->.
    { destruct Hf as [(i1 & d1 & H1 & _) N1], Hf2 as [(i2 & d2 & H2 & _) N2].
      destruct (Nat.lt_trichotomy f f2) as [?|[?|?]]; [|done|]; exfalso; [by eapply N2|by eapply N1]. }
    by eapply Hexp.
  - destruct Hround as [Hb Hh]. split; [done|]. intros h E. destruct (Hh h E) as [? Hid]. split; [done|].
    intros Heq. apply Hid. unfold zip_ids. apply list_elem_of_fmap. exists j.
    split; [done|]. apply elem_of_seq. lia.
Qed.

Lemma seen_after_start : seen_after [] = ∅.
Proof. unfold seen_after, arrivals. by destruct (completed _ _ _). Qed.
End one_message.
End traffic.

(** A subscriber in namespace "a" listening on topic "b", thread running. *)
Definition sample_subscriber : HighBandwidthSubscriber nat :=
  (start (mkStartEnv 5 true true None true)
     (subscribe [98] (Some 7%nat) (construct [97] 5670 1000))).1.2.

Lemma sample_subscriber_ready : subscriber_ready sample_subscriber 0.
Proof. by split. Qed.

Lemma sample_message_ok : message_ok sample_publisher [98] [1; 2; 3; 4; 5; 6].
Proof.
  split; try (vm_compute; congruence); [apply sample_publisher_ok|..];
    repeat constructor; unfold is_byte; lia.
Qed.

Definition sample_sent : list (list Z) :=
  match publish LittleEndian (λ _, true) sample_publisher [98] (Some [1; 2; 3; 4; 5; 6]) with
  | Some (_, _, sent) => sent
  | None => []
  end.

(** Packets 2, 2 and 0, an error in between, and finally packet 1. *)
Lemma hb_publish_delivers_witness :
  ∃ s' lc' evss,
    receiveLoop LittleEndian sample_subscriber 0
      [Received (nth 2 sample_sent []) 10; RecvError; Received (nth 2 sample_sent []) 11;
       Received (nth 0 sample_sent []) 12; Received (nth 1 sample_sent []) 13]
    = Some (s', lc', evss) /\
    Forall2 (λ kind evs, match kind with
             | Some j => evs = if decide (j = 1%nat)
                 then [(7%nat, namespaced [97] [98], [1; 2; 3; 4; 5; 6])] else []
             | None => True
             end) ([Some 2%nat; None; Some 2%nat; Some 0%nat] ++ [Some 1%nat]) evss.
Proof.
  apply (hb_publish_delivers LittleEndian (λ _, true) sample_publisher [98] [1; 2; 3; 4; 5; 6]
    sample_subscriber 7%nat 0 0 [Some 2%nat; None; Some 2%nat; Some 0%nat] 1 _
    (fetch_add_messageId sample_publisher).2 sample_sent).
  - apply sample_message_ok.
  - done.
  - apply sample_subscriber_ready.
  - vm_compute. reflexivity.
  - vm_compute. reflexivity.
  - vm_compute. lia.
  - rewrite !not_elem_of_cons. split_and!; try done. apply not_elem_of_nil.
  - assert (length sample_sent = 3%nat) as -> by (vm_compute; reflexivity).
    intros [|[|[|j]]] Hj; first [by left|right; set_solver|lia].
  - repeat constructor; vm_compute; done.
Defined.

(** A datagram makes the call of its message when it is the last one missing. *)
Lemma traffic_delivers {Handler} host p msgs (s : HighBandwidthSubscriber Handler) lc tags polls p' sents :
  Forall (λ m, message_ok p m.1 m.2) msgs -> zlen msgs <= 2 ^ 32 ->
  publishAll host p msgs = Some (p', sents) ->
  sub_running s = true -> sub_shouldStop s = false -> partials_wf s ->
  (∀ id, id ∈ zip_ids p (length msgs) -> sub_partialMessages s !! id = None) ->
  Forall2 (traffic_round host sents (zip_ids p (length msgs))) tags polls ->
  none_expires sents (sub_reassemblyTimeoutMs s) tags polls -> none_late sents tags ->
  ∃ s' lc' evss, receiveLoop host s lc polls = Some (s', lc', evss) /\
    ∀ k j i topic data, tags !! k = Some (Some (j, i)) -> msgs !! j = Some (topic, data) ->
      evss !! k = Some (if completed sents j (take (S k) tags)
                        then deliverMessage s (namespaced (_name p) topic) data else []).
Proof.
  intros Hok Hmany Hpub Hrun Hstop Hw Hfresh Hr Hexp Hlate.
  destruct (traffic_total host p msgs s p' sents Hok Hpub lc tags polls Hw Hr) as (s' & lc' & evss & E).
  exists s', lc', evss. split; [exact E|]. intros k j i topic data Hk Hm.
  assert (message_ok p topic data) as Hmsg by by apply (proj1 (Forall_lookup _ _) Hok j (topic, data)).
  pose proof (traffic_admissible host p msgs s p' sents Hok Hmany Hpub j topic data Hm tags polls Hr Hexp Hlate 0) as Hadm.
  rewrite take_0, seen_after_start, !drop_0 in Hadm.
  destruct (publishAll_lookup host p msgs p' sents j topic data Hok Hpub) as [_ Hsent]. specialize (Hsent Hm).
  destruct (message_ok_topic _ _ _ Hmsg) as [HT HTb]. destruct Hmsg as [[] _ _ Hdb _ _ HT16 Hn].
  set (T := namespaced (_name p) topic) in *. set (id := u32 (_messageIdCounter p + Z.of_nat j)) in *.
  assert (sub_partialMessages s !! id = None) as Hid.
  { apply Hfresh, list_elem_of_fmap. exists j. split; [done|]. apply elem_of_seq.
    apply lookup_lt_Some in Hm. lia. }
  assert (∀ l, completed sents j l = bool_decide (numbers (fragment_count T data (_mtu p - 12)) ⊆
    ∅ ∪ arrivals (project j <$> l))) as Hcomp.
  { intros l. by eapply sents_completed. }
  assert (seen_ok T data (_mtu p - 12) ∅) as Hs0 by (intros a ?%elem_of_empty; done).
  destruct (receiveLoop_refines host T data (_mtu p - 12) id ltac:(lia) HT HT16 Hn (u32_bound _) HTb Hdb
    _ s ∅ lc _ polls Hrun Hstop Hw ltac:(by rewrite Hid) Hs0 Hadm) as (s2 & lc2 & evss2 & E2 & _ & Hag).
  rewrite E in E2. injection E2 as <- <- <-.
  assert (Hproj : ∀ k i, (project j <$> tags) !! k = Some (Some i) -> ∃ i', tags !! k = Some (Some (j, i'))).
  { intros k0 i0 (t & Hp & Ht)%list_lookup_fmap_Some. destruct t as [[j' i']|]; [|done]. cbn in Hp.
    case_decide; [|done]. subst. by exists i'. }
  assert (reassemble_run T data (_mtu p - 12) ∅ (project j <$> tags) !! k
    = Some (Some (completed sents j (take (S k) tags)))) as Hout.
  { rewrite Hcomp, fmap_take. apply (reassemble_run_lookup T data (_mtu p - 12)) with (i := Z.of_nat i) (id := id);
      try done; try lia; [apply u32_bound|exact (λ _, True)|..].
    - intros Hsub. specialize (Hsub 0). rewrite elem_of_numbers in Hsub.
      pose proof (fragment_count_pos T data (_mtu p - 12) ltac:(lia) HT). set_solver by lia.
    - apply Forall_lookup. intros k0 kind Hk0 i0 ->. apply list_lookup_fmap_Some in Hk0 as ([[j2 i2]|] & E0 & Hk0); [|done].
      cbn in E0. case_decide; [|done]. subst. injection E0 as ->.
      destruct (Forall2_lookup_l _ _ _ _ _ Hr Hk0) as ([| | |d2 t2] & Hev2 & Hround2); try done.
      destruct (packet_number host p msgs p' sents Hok Hpub j topic data Hm tags polls Hr i2 d2 k0 t2 Hk0 Hev2) as [Hi2 _]. fold T in Hi2. lia.
    - intros k0 i0 (i' & Hk0)%Hproj. specialize (Hlate _ _ _ Hk0). rewrite Hcomp in Hlate.
      rewrite <- fmap_take. by apply bool_decide_eq_false in Hlate.
    - apply list_lookup_fmap_Some. exists (Some (j, i)). split; [cbn; by rewrite decide_True|done]. }
  destruct (Forall2_lookup_l _ _ _ _ _ Hag Hout) as (evs & -> & ->). by destruct (completed _ _ _).
Qed.

(** C1: all the messages of a publisher, their datagrams in any order, mixed with
    each other, repeated, lost, and mixed with those of other publishers, errors
    and timeouts of [poll] at any time, on two conditions: nothing of a message
    arrives after it is complete, and no clean-up finds a message that has begun
    to arrive and is not complete older than the reassembly timeout.  Then a
    datagram makes the call of its message, with the namespaced topic and exactly
    the bytes published, when it is the last one missing, and no call otherwise.
    So each message whose datagrams all arrive is delivered once, and one that
    lost a datagram never. *)
Theorem hb_traffic_delivers {Handler} host p msgs (s : HighBandwidthSubscriber Handler) lc tags polls p' sents :
  Forall (λ m, message_ok p m.1 m.2) msgs -> zlen msgs <= 2 ^ 32 ->
  publishAll host p msgs = Some (p', sents) ->
  sub_running s = true -> sub_shouldStop s = false -> partials_wf s ->
  (∀ id, id ∈ zip_ids p (length msgs) -> sub_partialMessages s !! id = None) ->
  Forall2 (traffic_round host sents (zip_ids p (length msgs))) tags polls ->
  none_expires sents (sub_reassemblyTimeoutMs s) tags polls -> none_late sents tags ->
  ∃ s' lc' evss, receiveLoop host s lc polls = Some (s', lc', evss) /\
    ∀ k j i topic data, tags !! k = Some (Some (j, i)) -> msgs !! j = Some (topic, data) ->
      evss !! k = Some (if completed sents j (take (S k) tags)
                        then deliverMessage s (namespaced (_name p) topic) data else []).
Proof. apply traffic_delivers. Qed.

(** Two messages of which the second overtakes the first; a datagram twice. *)
Definition sample_msgs : list (list Z * list Z) := [([98], [1; 2; 3; 4; 5; 6]); ([98], [7])].

Definition sample_sents : list (list (list Z)) := default [] (snd <$> publishAll LittleEndian sample_publisher sample_msgs).

Definition sample_packet (j i : nat) : list Z := default [] (sent ← sample_sents !! j; sent !! i).

Definition sample_tags : list tag :=
  [Some (0, 2); Some (1, 0); Some (0, 0); None; Some (0, 2); Some (0, 1); None]%nat.

(** In milliseconds: a clean-up at 700 spares the message begun at 10, another
    at 5000 finds both complete. *)
Definition sample_polls : list PollResult :=
  [Received (sample_packet 0 2) 10000000; Received (sample_packet 1 0) 11000000; Received (sample_packet 0 0) 12000000;
   PollTimeout 700000000 700000001; Received (sample_packet 0 2) 701000000; Received (sample_packet 0 1) 702000000;
   PollTimeout 5000000000 5000000001].

Lemma sample_msgs_ok : Forall (λ m, message_ok sample_publisher m.1 m.2) sample_msgs.
Proof.
  repeat constructor; cbn [fst snd]; try (vm_compute; congruence); try apply sample_publisher_ok; unfold is_byte; lia.
Qed.

Lemma hb_traffic_delivers_witness :
  ∃ s' lc' evss, receiveLoop LittleEndian sample_subscriber 0 sample_polls = Some (s', lc', evss) /\
    ∀ k j i topic data, sample_tags !! k = Some (Some (j, i)) -> sample_msgs !! j = Some (topic, data) ->
      evss !! k = Some (if completed sample_sents j (take (S k) sample_tags)
                        then deliverMessage sample_subscriber (namespaced [97] topic) data else []).
Proof.
  apply (hb_traffic_delivers LittleEndian sample_publisher sample_msgs sample_subscriber 0 sample_tags sample_polls
    (fetch_add_messageId (fetch_add_messageId sample_publisher).2).2 sample_sents).
  - apply sample_msgs_ok.
  - by vm_compute.
  - by vm_compute.
  - done.
  - done.
  - apply sample_subscriber_ready.
  - intros id _. apply lookup_empty.
  - repeat constructor; first [by vm_compute|by eexists; split; vm_compute].
  - intros k now cnow j f t Hk [(i & d & Hf & Hp) _] Hlt Hc.
    destruct k as [|[|[|[|[|[|[|k]]]]]]]; try done; injection Hk as <- <-.
    + by destruct f as [|[|[|f]]]; [..|lia]; injection Hp as _ <-.
    + destruct f as [|[|[|[|[|[|f]]]]]]; [..|lia]; try discriminate Hf; injection Hf as <- <-; by vm_compute in Hc.
  - intros [|[|[|[|[|[|[|k]]]]]]] j i; try done; intros [= <- <-]; by vm_compute.
Defined.

(** C17: as long as every datagram numbers a fragment of its message, the receive
    loop is defined and keeps the reassembly state well-formed: vectors sized,
    received numbers in range, no complete message left behind. *)
Theorem hb_receive_safe {Handler} host (s : HighBandwidthSubscriber Handler) lc polls :
  partials_wf s ->
  Forall (λ ev, match ev with
          | Received d _ => bytes_ok d /\ ∀ h, readHeader host d = Some h -> header_in_range h
          | _ => True
          end) polls ->
  ∃ s' lc' evss, receiveLoop host s lc polls = Some (s', lc', evss) /\ partials_wf s' /\
    Forall (λ evs, zlen evs <= 1) evss /\ zlen evss <= zlen polls.
Proof. apply receiveLoop_total. Qed.

(** Two fragments of one message, its expiry, a repeat, then another message of
    one fragment, a datagram that is too short and a second clean-up. *)
Definition busy_polls : list PollResult :=
  [Received (sample_packet 0 2) 10000000; Received (sample_packet 0 0) 20000000; PollTimeout 2000000000 2000000001;
   Received (sample_packet 0 1) 2100000000; Received (sample_packet 0 1) 2200000000; RecvError;
   Received (sample_packet 1 0) 2300000000; Received [1; 2] 2400000000; PollTimeout 2800000000 2800000001].

Lemma packets_in_range :
  Forall (λ d, bytes_ok d /\ ∀ h, readHeader LittleEndian d = Some h -> header_in_range h) (concat sample_sents).
Proof.
  apply Forall_concat. repeat constructor; first [by unfold is_byte|intros h E; vm_compute in E; injection E as <-; by vm_compute].
Qed.

Lemma hb_receive_safe_witness :
  ∃ s' lc' evss,
    receiveLoop LittleEndian sample_subscriber 0 busy_polls = Some (s', lc', evss) /\
    partials_wf s' /\ Forall (λ evs, zlen evs <= 1) evss /\ zlen evss <= zlen busy_polls.
Proof.
  apply hb_receive_safe; [apply map_Forall_empty|].
  pose proof packets_in_range as H. rewrite Forall_forall in H.
  unfold busy_polls. repeat apply Forall_cons_2; [..|apply Forall_nil_2]; cbn beta iota.
  all: first [exact I|apply H; vm_compute; tauto|split; [by repeat constructor|intros h E; by vm_compute in E]].
Defined.

(** The first clean-up has dropped two fragments, the second keeps the one that
    came after it; only the other message was delivered. *)
Example busy_outcome :
  (λ r, (elements (dom (sub_partialMessages r.1.1)), r.2)) <$> receiveLoop LittleEndian sample_subscriber 0 busy_polls
  = Some ([0], [[]; []; []; []; []; []; [(7%nat, namespaced [97] [98], [7])]; []; []]).
Proof. by vm_compute. Qed.

(** C34: a datagram whose fragment number is not below its fragment count, for a
    message not yet known, is stored outside the fragment vector: undefined
    behaviour on network input. *)
Theorem hb_fragment_out_of_bounds {Handler} host (s : HighBandwidthSubscriber Handler) h body now :
  fragment_header_wf h -> bytes_ok body ->
  sub_partialMessages s !! messageId h = None ->
  totalFragments h <= fragmentNum h -> topicLen h <= zlen body ->
  processFragment host s (header_wire host h ++ body) (zlen (header_wire host h ++ body)) now = None.
Proof.
  intros Hh Hb Hnone Hoob Htl. pose proof (zlen_header_wire host h) as Hz.
  pose proof (zlen_nonneg body). destruct Hh as [? ? ? ? ?] eqn:Eh.
  unfold processFragment, sizeof_FragmentHeader. rewrite zlen_app, Hz.
  rewrite (proj2 (Z.ltb_ge _ _)) by lia. rewrite readHeader_wire, bind_ret by done.
  unfold lookupPartial. rewrite Hnone. cbn [default from_option id pm_fragments defaultPartialMessage
    pm_topic pm_received pm_total].
  rewrite Z.eqb_refl. cbn [negb]. rewrite decide_False by set_solver.
  assert (ptr_add (header_wire host h ++ body) 12 = body) as ->.
  { rewrite <- Hz. apply ptr_add_app. }
  replace (12 + zlen body - 12) with (zlen body) by lia.
  unfold storeFragment. cbn [pm_fragments]. destruct (Z.eqb_spec (fragmentNum h) 0).
  - rewrite (proj2 (Z.ltb_ge _ _)) by lia.
    destruct (slice_total body 0 (Z.to_nat (topicLen h))) as [t ->]; [lia..|]. rewrite bind_ret.
    destruct (slice_total body (topicLen h) (Z.to_nat (zlen body - topicLen h))) as [f ->]; [lia..|].
    rewrite bind_ret, vec_set_oob; [done|]. rewrite zlen_replicate. lia.
  - destruct (slice_total body 0 (Z.to_nat (zlen body))) as [f ->]; [lia..|].
    rewrite bind_ret, vec_set_oob; [done|]. rewrite zlen_replicate. lia.
Qed.

Lemma hb_fragment_out_of_bounds_witness :
  processFragment LittleEndian sample_subscriber
    (header_wire LittleEndian (mkFragmentHeader 9 2 2 0 0) ++ [1])
    (zlen (header_wire LittleEndian (mkFragmentHeader 9 2 2 0 0) ++ [1])) 0 = None.
Proof.
  apply hb_fragment_out_of_bounds; [split; cbn; lia| |done|done|done].
  repeat constructor; unfold is_byte; lia.
Defined.

(** Message IDs are not tied to a publisher, every publisher counts from 0:
    fragment 0 of one publisher's message and fragment 1 of another's complete
    each other, and the handler is called with bytes nobody published. *)
Theorem hb_mixes_publishers :
  let p1 := (HighBandwidthPublisher.construct [97] 5670 16 3 true).1 in
  let p2 := (HighBandwidthPublisher.construct [97] 5670 16 4 true).1 in
  ∃ p1' p2' sent1 sent2 s' lc',
    publish LittleEndian (λ _, true) p1 [98] (Some [1; 2; 3]) = Some (true, p1', sent1) /\
    publish LittleEndian (λ _, true) p2 [98] (Some [11; 12; 13]) = Some (true, p2', sent2) /\
    receiveLoop LittleEndian sample_subscriber 0
      [Received (nth 0 sent1 []) 1; Received (nth 1 sent2 []) 2]
    = Some (s', lc', [[]; [(7%nat, namespaced [97] [98], [1; 12; 13])]]).
Proof. repeat eexists; vm_compute; reflexivity. Qed.

(** The reassembly timeout is only enforced when [poll] times out: while
    datagrams of other messages keep coming, an incomplete message stays in the
    buffer however much time passes. *)
Theorem hb_stale_survives_traffic {Handler} host (s : HighBandwidthSubscriber Handler) lc id p polls
    s' lc' evss :
  sub_partialMessages s !! id = Some p ->
  Forall (λ ev, ∃ d now, ev = Received d now /\
    ∀ h, readHeader host d = Some h -> messageId h <> id) polls ->
  receiveLoop host s lc polls = Some (s', lc', evss) ->
  sub_partialMessages s' !! id = Some p.
Proof.
  intros Hp H. revert s lc Hp evss. induction H as [|ev polls (d & now & -> & Hd) _ IH];
    intros s lc Hp evss; cbn [receiveLoop].
  { by intros [= <- <- <-]. }
  case_bool; [by intros [= <- <- <-]|].
  intros ([[s1 lc1] evs] & Hs & ([[s2 lc2] rest] & Hrest & [= <- <- <-])%bind_Some)%bind_Some.
  apply (IH s1 lc1 ltac:(cbn [receiveStep] in Hs; revert Hs; case_bool;
    [intros ([s3 e3] & Hf & [= <- <- <-])%bind_Some;
     destruct (processFragment_frame host s d (zlen d) now s3 e3 Hf) as [_ ->]; done
    |by intros [= <- <- <-]]) _ Hrest).
Qed.

Lemma hb_stale_survives_traffic_witness :
  ∃ s lc evss p,
    receiveLoop LittleEndian sample_subscriber 0 [Received (nth 0 sample_sent []) 0]
      = Some (s, lc, evss) /\ sub_partialMessages s !! 0 = Some p /\
    ∀ s' lc' evss',
      receiveLoop LittleEndian s 0
        [Received (header_wire LittleEndian (mkFragmentHeader 1 0 1 0 0)) 999999999999]
        = Some (s', lc', evss') ->
      sub_partialMessages s' !! 0 = Some p.
Proof.
  do 4 eexists. split; [vm_compute; reflexivity|]. split; [vm_compute; reflexivity|].
  intros s' lc' evss'. apply hb_stale_survives_traffic; [vm_compute; reflexivity|].
  constructor; [|constructor]. eexists _, _. split; [reflexivity|].
  intros h Hh. vm_compute in Hh. injection Hh as <-. discriminate.
Defined.

(** Lifecycle. [stop] leaves the incomplete messages in the buffer, where a
    later [start] finds them, and a restart overwrites the socket descriptor
    without closing the first one: only the last is ever closed. *)
Theorem hb_restart {Handler} (s s1 s2 : HighBandwidthSubscriber Handler) env1 env2 c1 c2 :
  sub_running s = false -> 0 <= env_fd env1 -> 0 <= env_fd env2 ->
  start env1 s = (true, s1, c1) -> start env2 (stop s1) = (true, s2, c2) ->
  sub_partialMessages s2 = sub_partialMessages s /\ sub_handlers s2 = sub_handlers s /\
  sub_running s2 = true /\ sub_shouldStop s2 = false /\
  c1 ++ c2 ++ (destroy s2).2 = [env_fd env2].
Proof.
  intros Hr H1 H2. unfold start at 1. rewrite Hr, (proj2 (Z.ltb_ge _ _)) by done.
  repeat (case_bool; [intros [=]|]). intros [= <- <-]. unfold stop, start.
  cbn [with_run sub_running negb]. rewrite (proj2 (Z.ltb_ge _ _)) by done.
  repeat (case_bool; [intros [=]|]). intros [= <- <-]. cbn. split_and!; try done.
  unfold destroy, stop. cbn [with_run sub_running negb sub_socket snd].
  by rewrite (proj2 (Z.leb_le _ _)).
Qed.

Lemma hb_restart_witness :
  let s1 := (start (mkStartEnv 5 true true None true) (@construct nat [97] 5670 1000)).1.2 in
  let s2 := (start (mkStartEnv 6 true true None true) (stop s1)).1.2 in
  sub_partialMessages s2 = sub_partialMessages (@construct nat [97] 5670 1000) /\
  sub_handlers s2 = sub_handlers (@construct nat [97] 5670 1000) /\
  sub_running s2 = true /\ sub_shouldStop s2 = false /\ [] ++ [] ++ (destroy s2).2 = [6].
Proof.
  intros s1 s2. apply (hb_restart (construct [97] 5670 1000) s1 s2 (mkStartEnv 5 true true None true)
    (mkStartEnv 6 true true None true) [] []); done.
Defined.

(** ** Topics *)

Definition subscribe_all {Handler} (subs : list (list Z * option Handler))
    (s : HighBandwidthSubscriber Handler) : HighBandwidthSubscriber Handler :=
  foldl (λ s '(topic, handler), subscribe topic handler s) s subs.

(** The last subscription to a topic. *)
Fixpoint last_subscription {Handler} (topic : list Z) (subs : list (list Z * option Handler))
    (acc : option Handler) : option Handler :=
  match subs with
  | [] => acc
  | (t, handler) :: subs =>
      last_subscription topic subs (if decide (t = topic) then handler else acc)
  end.

Lemma namespaced_inj n1 n2 t1 t2 :
  47 ∉ n1 -> 47 ∉ n2 -> namespaced n1 t1 = namespaced n2 t2 -> n1 = n2 /\ t1 = t2.
Proof.
  unfold namespaced. revert n2. induction n1 as [|a n1 IH]; intros [|b n2] H1 H2; cbn [app].
  - by intros [= ->].
  - intros [= <- _]. by destruct H2; left.
  - intros [= -> _]. by destruct H1; left.
  - apply not_elem_of_cons in H1 as [_ H1], H2 as [_ H2]. intros [= -> E].
    by destruct (IH n2 H1 H2 E) as [-> ->].
Qed.

Lemma subscribe_all_lookup {Handler} subs (s : HighBandwidthSubscriber Handler) topic :
  sub_name (subscribe_all subs s) = sub_name s /\
  mjoin (sub_handlers (subscribe_all subs s) !! namespaced (sub_name s) topic)
  = last_subscription topic subs (mjoin (sub_handlers s !! namespaced (sub_name s) topic)) /\
  ∀ full, (∀ t, namespaced (sub_name s) t <> full) ->
    sub_handlers (subscribe_all subs s) !! full = sub_handlers s !! full.
Proof.
  revert s. induction subs as [|[t h] subs IH]; intros s; [done|].
  cbn [subscribe_all foldl last_subscription].
  destruct (IH (subscribe t h s)) as (E1 & E2 & E3). cbn [sub_name subscribe with_handlers] in *.
  split; [done|]. split.
  - unfold subscribe_all in E2. rewrite E2. cbn [subscribe sub_handlers with_handlers]. f_equal.
    case_decide as Ht; [subst; by rewrite lookup_insert_eq|].
    rewrite lookup_insert_ne; [done|]. unfold namespaced. intros E.
    apply app_inv_head in E. by injection E.
  - intros full Hf. unfold subscribe_all in E3. rewrite E3 by done.
    cbn [subscribe sub_handlers with_handlers]. by rewrite lookup_insert_ne.
Qed.

(** Topic routing. A message is handed to the handler of the last
    subscription to its topic in the subscriber's namespace, and to nobody when
    there is none, or when it was published in another namespace (namespaces
    containing no slash). *)
Theorem hb_topic_routing {Handler} name port timeout subs pub_name topic payload :
  47 ∉ name -> 47 ∉ pub_name ->
  deliverMessage (Handler := Handler) (subscribe_all subs (construct name port timeout))
    (namespaced pub_name topic) payload
  = match last_subscription topic subs None with
    | Some h => if decide (pub_name = name) then [(h, namespaced name topic, payload)] else []
    | None => []
    end.
Proof.
  intros H1 H2. destruct (subscribe_all_lookup subs (@construct Handler name port timeout) topic)
    as (_ & E & Hother). cbn [sub_name construct sub_handlers] in *. rewrite lookup_empty in E.
  cbn [mjoin option_join] in E. unfold deliverMessage. rewrite <- E.
  destruct (decide (pub_name = name)) as [->|Hne].
  - by destruct (_ !! _) as [[h|]|].
  - rewrite Hother; [by rewrite lookup_empty; destruct (mjoin _)|].
    intros t Ht. apply Hne. by destruct (namespaced_inj _ _ _ _ H1 H2 Ht).
Qed.

Lemma hb_topic_routing_witness :
  deliverMessage (subscribe_all [([98], Some 1%nat); ([99], Some 2%nat); ([98], Some 3%nat)]
      (construct [97] 5670 1000)) (namespaced [97] [98]) [5]
  = match last_subscription [98] [([98], Some 1%nat); ([99], Some 2%nat); ([98], Some 3%nat)] None with
    | Some h => if decide ([97] = [97]) then [(h, namespaced [97] [98], [5])] else []
    | None => []
    end.
Proof. apply hb_topic_routing; rewrite not_elem_of_cons; split; done || apply not_elem_of_nil. Defined.

(** A slash in a namespace defeats the isolation. *)
Example namespace_collision : namespaced [97; 47; 98] [99] = namespaced [97] [98; 47; 99].
Proof. reflexivity. Qed.
