(* ===== verification/HighBandwidthTest.v ===== *)
(** The UDP multicast test programs:
    src/src/apps/TestApps/HighBandwidthPublisherTester.cpp and
    HighBandwidthSubscriberTester.cpp, over HighBandwidthPublisher.v,
    HighBandwidthSubscriber.v and SensorMessages.v.

    As in ZyreTest.v the programs never leave their loops, and are described
    after any number of passes, or of rounds of the receive thread. *)

From Stdlib Require Import Ascii String SpecFloat.
From S2P Require Import Prelude ByteSwap Vita49Types PacketHeader Ieee754 GeneralLogger SensorMessages.
From S2P Require Import HighBandwidthPublisher HighBandwidthSubscriber.

(** A std::string as its bytes and as text. *)
Definition bytes (s : string) : list Z := (λ a, Z.of_N (N_of_ascii a)) <$> list_ascii_of_string s.
Definition text (w : list Z) : string := string_of_list_ascii ((λ z, ascii_of_N (Z.to_N z)) <$> w).

Lemma bytes_are_bytes s : bytes_ok (bytes s).
Proof.
  unfold bytes. apply Forall_fmap, Forall_forall. intros a _. unfold compose, is_byte.
  pose proof (N_ascii_bounded a). lia.
Qed.

(** * HighBandwidthPublisherTester *)

Section publisher.
Context `{Protos (list Z)} (host : ByteOrder).
(** Whether sendto takes fragment f of message id. *)
Context (sendto_ok : Z -> Z -> bool).

(** [packets]: the datagrams of the publishes that sent any. *)
Record Publisher : Type := mkPublisher {
  pub : HighBandwidthPublisher;
  messageCount : Z;
  packets : list (list (list Z));
  pubLog : list LogLine;
}.

(** [pub.publish(topic, message)] and the log line after it. *)
Definition publishMessage (m : Message) (s : Publisher) : option Publisher :=
  '(_, p, sent) ← publish host (sendto_ok (_messageIdCounter (pub s))) (pub s) (bytes (topicOf m)) (serialize m);
  Some (mkPublisher p (messageCount s) (packets s ++ match sent with [] => [] | _ => [sent] end)
          (pubLog s ++ [publishedLine m])).

Fixpoint publishMessages (ms : list Message) (s : Publisher) : option Publisher :=
  match ms with
  | [] => Some s
  | m :: ms => s ← publishMessage m s; publishMessages ms s
  end.

Definition loopBody (p : Pass) (s : Publisher) : option Publisher :=
  s ← publishMessages (passMessages p (messageCount s)) s;
  c ← increment (messageCount s);
  Some (mkPublisher (pub s) c (packets s) (pubLog s)).

(** The state at the head of the loop after the given passes. *)
Fixpoint publisherLoop (passes : list Pass) (s : Publisher) : option Publisher :=
  match passes with
  | [] => Some s
  | p :: passes => s ← loopBody p s; publisherLoop passes s
  end.

(** main() of the publisher; [fd]: the socket, [addr_valid]: of the multicast
    address. *)
Definition publisherMain (fd : Z) (addr_valid : bool) (argv : list string) (passes : list Pass) : option Publisher :=
  publisherLoop passes (mkPublisher (HighBandwidthPublisher.construct (bytes "TestHb") 5670 1400 fd addr_valid).1 0 [] (interfaceLines argv)).
End publisher.

(** * HighBandwidthSubscriberTester *)

Inductive Outcome : Type :=
  | Exited (code : Z)
  | Looping (rounds : list (list LogLine)).

Section subscriber.
Context `{Protos (list Z)} (host : ByteOrder) (map_order : gmap string string -> list (string * string)).

Definition configured : HighBandwidthSubscriber.HighBandwidthSubscriber Handler :=
  HighBandwidthSubscriber.subscribe (bytes "Command") (Some OnCommand)
    (HighBandwidthSubscriber.subscribe (bytes "SensorDataBatch") (Some OnSensorDataBatch)
       (HighBandwidthSubscriber.subscribe (bytes "SensorReading") (Some OnSensorReading)
          (HighBandwidthSubscriber.construct (bytes "TestHb") 5670 1000))).

(** main() of the subscriber: what the main thread prints and, while it loops,
    what the receive thread prints in each of its rounds.  [started]: the clock
    when that thread starts. *)
Definition subscriberMain (env : StartEnv) (started : Z) (argv : list string) (polls : list PollResult)
    : list LogLine * option Outcome :=
  let '(ok, s, _) := HighBandwidthSubscriber.start env configured in
  if negb ok then (interfaceLines argv ++ [GPERROR "Failed to start subscriber" []], Some (Exited 1))
  else
    (interfaceLines argv ++ [GPINFO "Subscriber running. Press Ctrl+C to exit." []],
     '(_, _, calls) ← receiveLoop host s started polls;
     rounds ← mapM (call_handlers text map_order) calls;
     Some (Looping rounds)).
End subscriber.

(** * The publisher's traffic *)

Section traffic.
Context `{Protos (list Z)} (host : ByteOrder).

(** The messages that reach the wire. *)
Definition sendable (ms : list Message) : list Message := filter (λ m, is_Some (serialize m)) ms.

Definition wire (m : Message) : list Z * list Z := (bytes (topicOf m), default [] (serialize m)).

(** A message small enough for 65535 fragments. *)
Definition fits (m : Message) : Prop := ∀ w, serialize m = Some w -> bytes_ok w /\ zlen w <= 90000000.

Definition tester : HighBandwidthPublisher -> Prop := λ p,
  publisher_ok p /\ _name p = bytes "TestHb" /\ _mtu p = 1400.

Lemma topic_length m : 0 <= zlen (namespaced (bytes "TestHb") (bytes (topicOf m))) <= 22.
Proof. destruct m; vm_compute; split; congruence. Qed.

Lemma wire_ok p m : tester p -> is_Some (serialize m) -> fits m -> message_ok p (wire m).1 (wire m).2.
Proof.
  intros (Hp & Hname & Hmtu) [w Hw] Hf. destruct (Hf w Hw) as [Hb Hl]. pose proof (topic_length m) as Ht.
  unfold wire. rewrite Hw. cbn [fst snd default from_option id]. pose proof (zlen_nonneg w).
  split; rewrite ?Hname, ?Hmtu; try apply bytes_are_bytes; try done; try lia;
    change (2 ^ 62) with 4611686018427387904; try lia.
  unfold fragment_count, firstSpace.
  destruct (_ <? _); [|lia].
  assert ((zlen w - (1400 - 12 - zlen (namespaced (bytes "TestHb") (bytes (topicOf m)))) + (1400 - 12) - 1) / (1400 - 12)
    < 65534); [|lia]. apply Z.div_lt_upper_bound; lia.
Qed.

Lemma hb_publishAll_app p msgs1 msgs2 :
  publishAll host p (msgs1 ++ msgs2)
  = ('(p1, s1) ← publishAll host p msgs1; '(p2, s2) ← publishAll host p1 msgs2; Some (p2, s1 ++ s2)).
Proof.
  revert p. induction msgs1 as [|[t d] msgs1 IH]; intros p; cbn [publishAll app].
  - rewrite bind_ret. by destruct (publishAll host p msgs2) as [[]|].
  - destruct (publish host _ p t (Some d)) as [[[ok p1] sent]|]; [|done]. rewrite !bind_ret, IH.
    destruct (publishAll host p1 msgs1) as [[p2 s1]|]; [|done]. rewrite !bind_ret.
    by destruct (publishAll host p2 msgs2) as [[p3 s2]|].
Qed.

(** The state of the program that has published [ms], the first with [p0]. *)
Definition has_published (p0 : HighBandwidthPublisher) (ms : list Message) (s : Publisher) : Prop :=
  tester (pub s) /\ publishAll host p0 (wire <$> sendable ms) = Some (pub s, packets s).

#[local] Abbreviation all_sent := (λ _ _ : Z, true).

Lemma hb_publishMessage_step p0 ms m s :
  has_published p0 ms s -> fits m ->
  ∃ s', publishMessage host all_sent m s = Some s' /\ has_published p0 (ms ++ [m]) s' /\
    messageCount s' = messageCount s /\ pubLog s' = pubLog s ++ [publishedLine m].
Proof.
  intros [Ht Hall] Hf. unfold publishMessage, has_published, sendable in *. rewrite list.filter_app, fmap_app, hb_publishAll_app, Hall, bind_ret.
  destruct (serialize m) as [w|] eqn:Ew.
  - rewrite filter_cons_True by (by rewrite Ew). cbn [fmap list_fmap publishAll].
    pose proof (wire_ok (pub s) m Ht ltac:(by rewrite Ew) Hf) as Hok. unfold wire in *. rewrite Ew in *.
    cbn [fst snd default from_option id] in *. rewrite (publish_message_ok host _ _ _ Hok), !bind_ret.
    eexists. split; [done|]. cbn [pub packets messageCount pubLog]. split; [|done].
    split; [|].
    + destruct Ht as ([] & ? & ?). split; [|done]. split; try done. apply u32_bound.
    + do 3 f_equal. destruct (message_ok_topic _ _ _ Hok). destruct Hok as [[] _ _ _ _ _ _ _].
      destruct (fragments host _ w _ _) eqn:E; [|done]. exfalso. unfold fragments in E.
      apply (f_equal length) in E. rewrite length_fmap, length_seq in E.
      pose proof (fragment_count_pos (namespaced (_name (pub s)) (bytes (topicOf m))) w (_mtu (pub s) - 12)
        ltac:(lia) ltac:(done)). cbn in E. lia.
  - rewrite filter_cons_False by (rewrite Ew; by intros []). cbn [filter list_filter fmap list_fmap publishAll].
    rewrite bind_ret. unfold publish. destruct (_ || _); cbn; (eexists; split; [done|]);
      cbn [pub packets messageCount pubLog]; by rewrite !app_nil_r.
Qed.

Lemma publishMessages_step p0 ms ms' s :
  has_published p0 ms s -> Forall fits ms' ->
  ∃ s', publishMessages host all_sent ms' s = Some s' /\ has_published p0 (ms ++ ms') s' /\
    messageCount s' = messageCount s /\ pubLog s' = pubLog s ++ (publishedLine <$> ms').
Proof.
  intros Hs Hf. revert ms s Hs. induction Hf as [|m ms' Hm _ IH]; intros ms s Hs; cbn [publishMessages].
  - exists s. cbn. by rewrite !app_nil_r.
  - destruct (hb_publishMessage_step p0 ms m s Hs Hm) as (s1 & -> & H1 & H2 & H3). rewrite bind_ret.
    destruct (IH _ _ H1) as (s' & -> & H4 & H5 & H6). exists s'. rewrite H5, H2, H6, H3.
    rewrite <- (assoc_L (++)) in H4. rewrite <- (assoc_L (++)). done.
Qed.

Lemma hb_publisherLoop_traffic p0 ms passes s :
  has_published p0 ms s -> Forall fits (traffic passes (messageCount s)) ->
  0 <= messageCount s -> messageCount s + zlen passes < 2 ^ 31 ->
  ∃ s', publisherLoop host all_sent passes s = Some s' /\
    has_published p0 (ms ++ traffic passes (messageCount s)) s' /\
    messageCount s' = messageCount s + zlen passes /\
    pubLog s' = pubLog s ++ (publishedLine <$> traffic passes (messageCount s)).
Proof.
  revert ms s. induction passes as [|p passes IH]; intros ms s Hs Hf Hc Hl; cbn [publisherLoop traffic] in *.
  { exists s. cbn. rewrite !app_nil_r. change (zlen []) with 0. split_and!; try done. lia. }
  rewrite zlen_cons in Hl. pose proof (zlen_nonneg passes). apply Forall_app in Hf as [Hf1 Hf2].
  destruct (publishMessages_step p0 ms _ s Hs Hf1) as (s1 & E1 & H1 & H2 & H3).
  unfold loopBody, increment. rewrite E1, bind_ret, H2, (proj2 (Z.eqb_neq _ _)) by lia. rewrite !bind_ret.
  edestruct (IH (ms ++ passMessages p (messageCount s))) as (s' & E & H4 & H5 & H6);
    [..|exists s'; split; [exact E|]]; cbn [messageCount pub pubLog packets] in *; [done|done|lia|lia|].
  rewrite <- (assoc_L (++)) in H4. rewrite H5, H6, H3, fmap_app, zlen_cons, <- (assoc_L (++)).
  split; [done|]. split; [lia|done].
Qed.
End traffic.

(** * End to end *)

(** A round that is not about the publisher's packets brings no datagram. *)
Definition closed_round (t : tag) (ev : PollResult) : Prop :=
  match t, ev with None, Received _ _ => False | _, _ => True end.

(** The socket calls of the subscriber's start succeed. *)
Definition start_ok (env : StartEnv) : Prop := (HighBandwidthSubscriber.start (Handler := Handler) env configured).1.1 = true.

Definition arrivalTopic (m : Message) : string := text (namespaced (bytes "TestHb") (bytes (topicOf m))).

Example arrivalTopic_text m : arrivalTopic m = ("TestHb/" ++ topicOf m)%string.
Proof. by destruct m. Qed.

Lemma receiveStep_quiet {Handler} host (s : HighBandwidthSubscriber.HighBandwidthSubscriber Handler) lc ev s' lc' evs :
  receiveStep host s lc ev = Some (s', lc', evs) -> (∀ d now, ev <> Received d now) -> evs = [].
Proof.
  destruct ev as [| | |d now]; cbn [receiveStep]; intros E Hn; [by simplify_eq|..|by simplify_eq|by destruct (Hn d now)].
  by case_match; simplify_eq.
Qed.

Lemma receiveLoop_quiet {Handler} host polls : ∀ (s : HighBandwidthSubscriber.HighBandwidthSubscriber Handler) lc s' lc' evss k,
  receiveLoop host s lc polls = Some (s', lc', evss) ->
  (∀ d now, polls !! k <> Some (Received d now)) -> default [] (evss !! k) = [].
Proof.
  induction polls as [|ev polls IH]; intros s lc s' lc' evss k E Hn; cbn [receiveLoop] in E.
  { injection E as _ _ <-. done. }
  destruct (negb _); [by injection E as _ _ <-|].
  apply bind_Some in E as ([[s1 lc1] evs] & E1 & E). apply bind_Some in E as ([[s2 lc2] rest] & E2 & [= _ _ <-]).
  destruct k as [|k]; cbn [lookup list_lookup] in *.
  - cbn. eapply receiveStep_quiet; [exact E1|]. intros d now ->. by apply (Hn d now).
  - by eapply IH.
Qed.

Lemma receiveLoop_length {Handler} host polls : ∀ (s : HighBandwidthSubscriber.HighBandwidthSubscriber Handler) lc s' lc' evss,
  receiveLoop host s lc polls = Some (s', lc', evss) -> (length evss <= length polls)%nat.
Proof.
  induction polls as [|ev polls IH]; intros s lc s' lc' evss E; cbn [receiveLoop] in E.
  { by injection E as _ _ <-. }
  destruct (negb _); [injection E as _ _ <-; cbn; lia|].
  apply bind_Some in E as ([[s1 lc1] evs] & E1 & E). apply bind_Some in E as ([[s2 lc2] rest] & E2 & [= _ _ <-]).
  apply IH in E2. cbn. lia.
Qed.

Section end_to_end.
Context `{Protos (list Z), !ProtosLaws (list Z)} (host : ByteOrder).
Context (map_order : gmap string string -> list (string * string)).

Lemma started_subscriber env s c :
  HighBandwidthSubscriber.start env configured = (true, s, c) ->
  sub_running s = true /\ sub_shouldStop s = false /\ sub_partialMessages s = ∅ /\ sub_reassemblyTimeoutMs s = 1000 /\
  ∀ m data, deliverMessage s (namespaced (bytes "TestHb") (bytes (topicOf m))) data
    = [(handlerOf m, namespaced (bytes "TestHb") (bytes (topicOf m)), data)].
Proof.
  unfold HighBandwidthSubscriber.start. change (sub_running configured) with false. cbv iota.
  repeat (case_match; [done|]). intros [= <- _]. split_and!; try done.
  intros m data. unfold deliverMessage. by destruct m.
Qed.

Lemma hb_traffic_showable (topic : Message -> string) passes c m :
  m ∈ traffic passes c -> is_Some (showMessage map_order (topic m) m).
Proof.
  intros Hm. destruct (traffic_shown map_order (topic m) passes c m id Hm) as [l Hl].
  destruct (showMessage map_order (topic m) m); [by eexists|done].
Qed.

(** What the receive thread prints round by round, when the calls it makes are
    those of the messages that get complete. *)
Lemma round_lines ms sents (s s' : HighBandwidthSubscriber.HighBandwidthSubscriber Handler) started lc' polls calls tags ids :
  (∀ m data, deliverMessage s (namespaced (bytes "TestHb") (bytes (topicOf m))) data
     = [(handlerOf m, namespaced (bytes "TestHb") (bytes (topicOf m)), data)]) ->
  Forall (λ m, is_Some (serialize m) /\ is_Some (showMessage map_order (arrivalTopic m) m)) ms ->
  length sents = length ms ->
  Forall2 (traffic_round host sents ids) tags polls -> Forall2 closed_round tags polls ->
  receiveLoop host s started polls = Some (s', lc', calls) ->
  (∀ k j i topic data, tags !! k = Some (Some (j, i)) -> (wire <$> ms) !! j = Some (topic, data) ->
     calls !! k = Some (if completed sents j (take (S k) tags)
                        then deliverMessage s (namespaced (bytes "TestHb") topic) data else [])) ->
  ∃ rounds, mapM (call_handlers text map_order) calls = Some rounds /\
    ∀ k j i m, tags !! k = Some (Some (j, i)) -> ms !! j = Some m ->
      ∃ l, showMessage map_order (arrivalTopic m) m = Some l /\
        rounds !! k = Some (if completed sents j (take (S k) tags) then l else []).
Proof.
  intros Hdel Hms Hlen Hr Hclosed E Hcalls. unfold Event in *.
  assert (∀ k j i m, tags !! k = Some (Some (j, i)) -> ms !! j = Some m ->
    ∃ l evs, showMessage map_order (arrivalTopic m) m = Some l /\ calls !! k = Some evs /\
      call_handlers text map_order evs = Some (if completed sents j (take (S k) tags) then l else [])) as Hown.
  { intros k j i m Hk Hj. destruct (proj1 (Forall_lookup _ _) Hms j m Hj) as [[w Hw] [l Hl]].
    exists l. eexists. split; [exact Hl|]. split.
    - apply (Hcalls k j i (bytes (topicOf m)) w Hk). rewrite list_lookup_fmap, Hj. unfold wire. cbn. by rewrite Hw.
    - case_bool; [|done]. rewrite Hdel. cbn [call_handlers].
      rewrite (call_handler_serialized text map_order m _ w Hw). fold (arrivalTopic m). rewrite Hl. cbn.
      by rewrite app_nil_r. }
  assert (is_Some (mapM (call_handlers text map_order) calls)) as [rounds Em].
  { apply mapM_is_Some_2, Forall_lookup. intros k evs Hk.
    assert (is_Some (tags !! k)) as [t Ht].
    { apply lookup_lt_is_Some. rewrite (Forall2_length Hr). apply lookup_lt_Some in Hk.
      eapply Nat.lt_le_trans; [exact Hk|]. by eapply receiveLoop_length. }
    destruct (Forall2_lookup_l _ _ _ _ _ Hr Ht) as (ev & Hev & Hround).
    destruct (Forall2_lookup_l _ _ _ _ _ Hclosed Ht) as (ev' & Hev' & Hcl). rewrite Hev in Hev'. injection Hev' as <-.
    destruct t as [[j i]|].
    - assert (is_Some (ms !! j)) as [m Hj].
      { apply lookup_lt_is_Some. rewrite <- Hlen. destruct ev; try done. destruct Hround as (sent & Hj & _).
        by eapply lookup_lt_Some. }
      destruct (Hown k j i m Ht Hj) as (l & evs' & _ & Hk' & Ec). rewrite Hk in Hk'. injection Hk' as <-. by eexists.
    - pose proof (receiveLoop_quiet host polls s started s' lc' calls k E) as Hq. unfold Event in Hq. rewrite Hk in Hq.
      cbn in Hq. rewrite Hq; [by eexists|]. rewrite Hev. by intros d now [= ->]. }
  exists rounds. split; [done|]. intros k j i m Hk Hj. destruct (Hown k j i m Hk Hj) as (l & evs & Hl & Hevs & Ec).
  exists l. split; [done|]. apply mapM_Some_1 in Em. destruct (Forall2_lookup_l _ _ _ _ _ Em Hevs) as (r & -> & Er).
  congruence.
Qed.

Lemma sendable_length passes :
  (length (sendable (traffic passes 0)) <= length (traffic passes 0))%nat /\
  Z.of_nat (length (traffic passes 0)) <= 3 * zlen passes.
Proof.
  split; [apply length_filter|]. rewrite traffic_length by done. pose proof (zlen_nonneg passes).
  Z.div_mod_to_equations. lia.
Qed.

(** C22: the two UDP multicast programs together.  The publisher gets through
    every pass, whatever the random numbers.  The network may delay its
    datagrams past those of other messages, repeat and lose them, and [poll] may
    time out at any time, on two conditions: nothing of a message arrives after
    it is complete, and no clean-up finds a message that has begun to arrive and
    is not complete older than a second.  Then the subscriber's receive thread is
    always defined, and prints for a datagram exactly what its handler prints of
    the message that datagram completes, and nothing for a datagram that
    completes none. *)
Theorem hb_test_end_to_end fd argv argv' passes env started :
  0 <= fd -> zlen passes <= 1000000000 -> Forall fits (traffic passes 0) -> start_ok env ->
  ∃ p, publisherMain host (λ _ _, true) fd true argv passes = Some p /\
    messageCount p = zlen passes /\
    pubLog p = interfaceLines argv ++ (publishedLine <$> traffic passes 0) /\
    ∀ tags polls,
      Forall2 (traffic_round host (packets p) (zip_ids (HighBandwidthPublisher.construct (bytes "TestHb") 5670 1400 fd true).1
                 (length (sendable (traffic passes 0))))) tags polls ->
      Forall2 closed_round tags polls ->
      none_expires (packets p) 1000 tags polls -> none_late (packets p) tags ->
      ∃ rounds, (subscriberMain host map_order env started argv' polls).2 = Some (Looping rounds) /\
        ∀ k j i m, tags !! k = Some (Some (j, i)) -> sendable (traffic passes 0) !! j = Some m ->
          ∃ l, showMessage map_order (arrivalTopic m) m = Some l /\
            rounds !! k = Some (if completed (packets p) j (take (S k) tags) then l else []).
Proof.
  intros Hfd Hlen Hf Hstart. set (p0 := (HighBandwidthPublisher.construct (bytes "TestHb") 5670 1400 fd true).1).
  set (ms := sendable (traffic passes 0)).
  assert (tester p0) as Ht.
  { split; [apply construct_ok; [done|change (2 ^ 62) with 4611686018427387904; lia]|].
    unfold p0, HighBandwidthPublisher.construct. by rewrite (proj2 (Z.ltb_ge _ _)) by lia. }
  destruct (hb_publisherLoop_traffic host p0 [] passes (mkPublisher p0 0 [] (interfaceLines argv)))
    as (p & E & [_ Hall] & Hc & Hlog); [by split|done|done|cbn; change (2 ^ 31) with 2147483648; lia|].
  cbn [app messageCount pubLog] in *. exists p. split; [exact E|]. split; [done|]. split; [done|].
  intros tags polls Hr Hclosed Hexp Hlate. unfold start_ok in Hstart. unfold subscriberMain.
  destruct (HighBandwidthSubscriber.start env configured) as [[ok s] c] eqn:Es. cbn in Hstart. subst ok. cbn [negb snd].
  destruct (started_subscriber env s c Es) as (Hrun & Hstop & Hparts & Htimeout & Hdel).
  assert (Forall (λ m, is_Some (serialize m) /\ fits m /\ m ∈ traffic passes 0) ms) as Hms.
  { apply Forall_forall. intros m Hm%list_elem_of_In. apply list_elem_of_filter in Hm as [Hs Hm].
    split; [done|]. split; [|done]. by apply (proj1 (Forall_forall _ _) Hf), list_elem_of_In. }
  assert (Forall (λ m, message_ok p0 m.1 m.2) (wire <$> ms)) as Hok.
  { apply Forall_fmap. eapply Forall_impl; [|exact Hms]. intros m (Hs & Hm & _). by apply wire_ok. }
  destruct (traffic_delivers host p0 (wire <$> ms) s started tags polls (pub p) (packets p))
    as (s' & lc' & calls & Ecalls & Hcalls); try done.
  { destruct (sendable_length passes) as [Hl1 Hl2]. unfold zlen in *. rewrite length_fmap.
    change (2 ^ 32) with 4294967296. fold ms in Hl1. lia. }
  { unfold partials_wf. rewrite Hparts. apply map_Forall_empty. }
  { intros id _. by rewrite Hparts. }
  { by rewrite length_fmap. }
  { by rewrite Htimeout. }
  assert (_name p0 = bytes "TestHb") as Hname by apply Ht. rewrite Hname in Hcalls.
  destruct (publishAll_lookup host p0 (wire <$> ms) (pub p) (packets p) 0 [] [] Hok Hall) as [Hl _].
  rewrite length_fmap in Hl.
  destruct (round_lines ms (packets p) s s' started lc' polls calls tags (zip_ids p0 (length ms)))
    as (rounds & Em & Hrounds); try done.
  { eapply Forall_impl; [|exact Hms]. intros m (Hs & _ & Hm). split; [done|].
    by apply hb_traffic_showable with (passes := passes) (c := 0). }
  exists rounds. by rewrite Ecalls, bind_ret, Em, bind_ret.
Qed.
End end_to_end.

(** Six passes, of which only the two commands can be serialized: the first in two
    datagrams, one of which comes twice and after those of the second. *)
Definition w_pass : Pass := mkPass 1700000000123456789 (f64_of_Z 3) (λ _, f64_of_Z 1).
Definition w_passes : list Pass := replicate 6 w_pass.

Definition w_enc (k : nat) : list Z := match k with 0%nat => replicate 1400 1 | S _ => replicate k 0 end.
Definition w_dec (w : list Z) : option nat := Some match w with 1 :: _ => 0%nat | _ => length w end.

#[local] Instance w_protos : Protos (list Z) := {|
  reading_proto := table_proto w_enc w_dec [];
  batch_proto := table_proto w_enc w_dec [];
  command_proto := table_proto w_enc w_dec [makeCommand w_pass 0; makeCommand w_pass 5] |}.

#[local] Instance w_protos_laws : ProtosLaws (list Z).
Proof.
  assert (∀ k, w_dec (w_enc k) = Some k) as Hd.
  { intros [|k]; [done|]. unfold w_dec, w_enc. cbn. by rewrite length_replicate. }
  split; by apply table_laws.
Defined.

Lemma w_fits m : fits m.
Proof.
  intros w Hw. assert (∃ k, (k < 2)%nat /\ w = w_enc k) as ([|k] & Hk & ->).
  { destruct m as [m|m|m]; destruct (table_range w_enc w_dec _ _ _ Hw) as (k & Hk & ->);
      exists k; cbn in Hk; split; done || lia. }
  all: unfold w_enc, zlen; rewrite length_replicate; split; [|lia]; apply Forall_replicate; unfold is_byte; lia.
Qed.

Definition w_env : StartEnv := mkStartEnv 4 true true (Some true) true.

Definition w_packets : list (list (list Z)) :=
  default [] (packets <$> publisherMain LittleEndian (λ _ _, true) 3 true ["publisher"]%string w_passes).

Lemma w_shape : length <$> w_packets = [2; 1]%nat.
Proof. by vm_compute. Qed.

Definition w_packet (j i : nat) : list Z := default [] (sent ← w_packets !! j; sent !! i).

Definition w_tags : list tag := [Some (0, 1); Some (1, 0); None; Some (0, 1); None; Some (0, 0); None]%nat.

(** A clean-up 90 ms after the first datagram, and one two seconds later. *)
Definition w_polls_of (packet : nat -> nat -> list Z) : list PollResult :=
  [Received (packet 0%nat 1%nat) 10000000; Received (packet 1%nat 0%nat) 11000000; PollTimeout 100000000 100000001;
   Received (packet 0%nat 1%nat) 101000000; PollError; Received (packet 0%nat 0%nat) 102000000;
   PollTimeout 2100000000 2100000001].

Definition w_polls : list PollResult := w_polls_of w_packet.

Lemma w_round ids j i n now :
  (length <$> w_packets) !! j = Some n -> (i < n)%nat ->
  traffic_round LittleEndian w_packets ids (Some (j, i)) (Received (w_packet j i) now).
Proof.
  intros (sent & -> & Hj)%list_lookup_fmap_Some [d Hi]%lookup_lt_is_Some.
  unfold w_packet. rewrite Hj, bind_ret, Hi. exact (ex_intro _ sent (conj Hj Hi)).
Qed.

Lemma w_completed j tags :
  completed w_packets j tags = forallb (λ i, bool_decide (Some (j, i) ∈ tags)) (seq 0 (default 0%nat ([2; 1]%nat !! j))).
Proof. unfold completed. rewrite <- w_shape, list_lookup_fmap. by destruct (w_packets !! j). Qed.

Lemma w_none_expires packet : none_expires w_packets 1000 w_tags (w_polls_of packet).
Proof.
  intros k now cnow j f t Hk [(i & d & Hf & Hd) _] Hlt Hc. rewrite w_completed in Hc.
  destruct k as [|[|[|[|[|[|[|k]]]]]]]; try discriminate Hk; injection Hk as <- <-.
  - destruct f as [|[|f]]; [..|exfalso; lia]; injection Hd as _ <-; vm_compute; discriminate.
  - destruct f as [|[|[|[|[|[|f]]]]]]; [..|exfalso; lia]; try discriminate Hf; injection Hf as <- <-; by vm_compute in Hc.
Qed.

Lemma hb_test_end_to_end_witness :
  start_ok w_env /\
  ∃ p, publisherMain LittleEndian (λ _ _, true) 3 true ["publisher"]%string w_passes = Some p /\
  ∃ rounds, (subscriberMain LittleEndian map_to_list w_env 0 ["subscriber"; "10.0.0.1"]%string w_polls).2 = Some (Looping rounds) /\
    ∀ k j i m, w_tags !! k = Some (Some (j, i)) -> sendable (traffic w_passes 0) !! j = Some m ->
      ∃ l, showMessage map_to_list (arrivalTopic m) m = Some l /\
        rounds !! k = Some (if completed (packets p) j (take (S k) w_tags) then l else []).
Proof.
  split; [by vm_compute|].
  destruct (hb_test_end_to_end LittleEndian map_to_list 3 ["publisher"]%string ["subscriber"; "10.0.0.1"]%string w_passes
    w_env 0) as (p & E & _ & _ & H); [done|by vm_compute|by apply Forall_forall; intros m _; apply w_fits|by vm_compute|].
  exists p. split; [exact E|].
  assert (packets p = w_packets) as Hp by (unfold w_packets; by rewrite E).
  apply H; rewrite ?Hp.
  - unfold w_tags, w_polls, w_polls_of.
    repeat (apply List.Forall2_cons; [first [refine (w_round _ _ _ _ _ _ _); [rewrite w_shape; reflexivity|lia]|exact I]|]).
    apply List.Forall2_nil.
  - repeat constructor.
  - apply w_none_expires.
  - intros k j i Hk. rewrite w_completed. do 7 (destruct k as [|k]; [cbn in Hk; first [discriminate Hk|
      injection Hk as <- <-; vm_compute; reflexivity]|]). discriminate Hk.
Defined.
