(* ===== verification/DataHandler.v ===== *)
(** Thread-safe queue with listeners: src/libs/CommonUtils/DataHandler.h.

    The object is shared by the worker thread, any number of client threads and
    the thread that destroys it.  A state holds the members, a program counter
    for the worker and for the destructor, and the calls that have passed the test
    of [_stopFlag] but not yet taken their mutex: [signalling] those of signalData,
    [entered] those of registerListener and unregisterListener.  [exec] performs
    one atomic action of one thread; [None] means that the action is not
    enabled there (a mutex is held, a wait has not been notified).  The worker
    holds [_cvMutex] exactly at [WPred], [WPark] and [WTake]. *)

From Stdlib Require Import Sorted.
From S2P Require Import Prelude.

(** What a call of a listener does. *)
Inductive Outcome : Type := Returned | ThrewStd (what : string) | ThrewOther.

Section handler.
Context {T Listener : Type} (call : Listener -> T -> Outcome).

(** * State *)

(** [WTop]: before the test of the loop; [WLock]: before taking [_cvMutex];
    [WPred]: before the wait predicate; [WPark]: predicate false, before
    releasing the mutex and blocking; [WBlocked]: waiting; [WWoken]: notified,
    before retaking the mutex; [WTake]: the wait has returned; [WNotify d]:
    before notifyListeners(d); [WDone]: the thread has returned. *)
Inductive WorkerPc : Type :=
  | WTop | WLock | WPred | WPark | WBlocked | WWoken | WTake | WNotify (d : T) | WDone.

(** The destructor: not begun, flag set, notified (in join), finished. *)
Inductive OwnerPc : Type := OAlive | OFlagged | ONotified | ODestroyed.

(** A call that changes the listeners, past its test of the flag. *)
Inductive Entered : Type := Registering (l : Listener) | Unregistering (id : Z).

(** [rounds], [pushed] and [cerr] record history: the listeners called with
    each datum, the data pushed on the queue, the messages printed. *)
Record State : Type := mkState {
  stopFlag : bool;
  listeners : list (Z * Listener);
  nextListenerId : Z;
  dataQueue : list T;
  signalling : list T;
  entered : list Entered;
  worker : WorkerPc;
  owner : OwnerPc;
  rounds : list (T * list Listener);
  pushed : list T;
  cerr : list string;
}.

(** The constructor: the worker has been started. *)
Definition construct : State := mkState false [] 123 [] [] [] WTop OAlive [] [] [].

Definition set_worker (w : WorkerPc) (s : State) : State :=
  mkState (stopFlag s) (listeners s) (nextListenerId s) (dataQueue s) (signalling s) (entered s) w
    (owner s) (rounds s) (pushed s) (cerr s).

Definition set_listeners (l : list (Z * Listener)) (n : Z) (s : State) : State :=
  mkState (stopFlag s) l n (dataQueue s) (signalling s) (entered s) (worker s) (owner s) (rounds s) (pushed s) (cerr s).

Definition set_entered (e : list Entered) (s : State) : State :=
  mkState (stopFlag s) (listeners s) (nextListenerId s) (dataQueue s) (signalling s) e (worker s) (owner s) (rounds s)
    (pushed s) (cerr s).

(** * std::map<int, Listener>: an association list sorted by key *)

Fixpoint map_set (k : Z) (v : Listener) (m : list (Z * Listener)) : list (Z * Listener) :=
  match m with
  | [] => [(k, v)]
  | (k', v') :: m' =>
      if k <? k' then (k, v) :: m
      else if k =? k' then (k, v) :: m'
      else (k', v') :: map_set k v m'
  end.

Definition map_erase (k : Z) (m : list (Z * Listener)) : list (Z * Listener) :=
  filter (λ kv, kv.1 <> k) m.

(** * Client operations *)

Definition INT_MAX : Z := 2147483647.

(** registerListener up to its test of the flag, with the id if it returns, and
    from taking [_listenersMutex] on; [None]: the increment of [_nextListenerId]
    overflows, or there is no such call. *)
Definition registerEnter (l : Listener) (s : State) : State * option Z :=
  if stopFlag s then (s, Some (-1)) else (set_entered (entered s ++ [Registering l]) s, None).

Definition registerListener (i : nat) (s : State) : option (State * Z) :=
  match entered s !! i with
  | Some (Registering l) =>
      if nextListenerId s =? INT_MAX then None
      else
        let id := nextListenerId s + 1 in
        Some (set_listeners (map_set id l (listeners s)) id (set_entered (delete i (entered s)) s), id)
  | _ => None
  end.

Definition unregisterEnter (id : Z) (s : State) : State :=
  if stopFlag s then s else set_entered (entered s ++ [Unregistering id]) s.

Definition unregisterListener (i : nat) (s : State) : option State :=
  match entered s !! i with
  | Some (Unregistering id) =>
      Some (set_listeners (map_erase id (listeners s)) (nextListenerId s) (set_entered (delete i (entered s)) s))
  | _ => None
  end.

(** The flag and the sizes as of one moment; the queue's is read without [_cvMutex]. *)
Definition watermarkInfo (s : State) : Z * Z :=
  if stopFlag s then (0, 0) else (zlen (listeners s), zlen (dataQueue s)).

Definition cvMutex_held (s : State) : bool :=
  match worker s with WPred | WPark | WTake => true | _ => false end.

(** signalData up to its test of the flag, and from taking the mutex on. *)
Definition signalEnter (d : T) (s : State) : State :=
  if stopFlag s then s
  else mkState (stopFlag s) (listeners s) (nextListenerId s) (dataQueue s)
         (signalling s ++ [d]) (entered s) (worker s) (owner s) (rounds s) (pushed s) (cerr s).

(** [notify_one] and [notify_all] on a condition only the worker waits for. *)
Definition notified (w : WorkerPc) : WorkerPc :=
  match w with WBlocked => WWoken | _ => w end.

Definition signalPush (i : nat) (s : State) : option State :=
  d ← signalling s !! i;
  if cvMutex_held s then None
  else Some (mkState (stopFlag s) (listeners s) (nextListenerId s) (dataQueue s ++ [d])
               (delete i (signalling s)) (entered s) (notified (worker s)) (owner s) (rounds s)
               (pushed s ++ [d]) (cerr s)).

(** * The worker: processData and notifyListeners *)

Definition waitPredicate (s : State) : bool :=
  match dataQueue s with [] => stopFlag s | _ => true end.

(** Every listener is called, in the order of the ids; an exception is
    reported and swallowed. *)
Fixpoint notifyListeners (d : T) (ls : list (Z * Listener)) : list Listener * list string :=
  match ls with
  | [] => ([], [])
  | (_, f) :: ls =>
      let '(called, out) := notifyListeners d ls in
      (f :: called,
       match call f d with
       | Returned => out
       | ThrewStd what => ("Listener threw an std::exception! " ++ what)%string :: out
       | ThrewOther => "Listener threw an unknown exception!"%string :: out
       end)
  end.

Definition workerStep (s : State) : option State :=
  match worker s with
  | WTop => Some (set_worker (if stopFlag s then WDone else WLock) s)
  | WLock | WWoken => Some (set_worker WPred s)
  | WPred => Some (set_worker (if waitPredicate s then WTake else WPark) s)
  | WPark => Some (set_worker WBlocked s)
  | WBlocked => None
  | WTake =>
      match dataQueue s with
      | [] => if stopFlag s then Some (set_worker WDone s) else None
      | d :: q => Some (mkState (stopFlag s) (listeners s) (nextListenerId s) q (signalling s) (entered s)
                          (WNotify d) (owner s) (rounds s) (pushed s) (cerr s))
      end
  | WNotify d =>
      let '(called, out) := notifyListeners d (listeners s) in
      Some (mkState (stopFlag s) (listeners s) (nextListenerId s) (dataQueue s) (signalling s) (entered s)
              WTop (owner s) (rounds s ++ [(d, called)]) (pushed s) (cerr s ++ out))
  | WDone => None
  end.

(** A wait may also return without a notification. *)
Definition spuriousWakeup (s : State) : option State :=
  match worker s with WBlocked => Some (set_worker WWoken s) | _ => None end.

(** * The destructor *)

Definition destroyFlag (s : State) : option State :=
  match owner s with
  | OAlive => Some (mkState true (listeners s) (nextListenerId s) (dataQueue s) (signalling s) (entered s)
                      (worker s) OFlagged (rounds s) (pushed s) (cerr s))
  | _ => None
  end.

Definition destroyNotify (s : State) : option State :=
  match owner s with
  | OFlagged => Some (mkState (stopFlag s) (listeners s) (nextListenerId s) (dataQueue s)
                        (signalling s) (entered s) (notified (worker s)) ONotified (rounds s) (pushed s) (cerr s))
  | _ => None
  end.

(** [join] returns when the worker has; then the containers are emptied. *)
Definition destroyJoin (s : State) : option State :=
  match owner s, worker s with
  | ONotified, WDone =>
      Some (mkState (stopFlag s) [] (nextListenerId s) [] (signalling s) (entered s) (worker s) ODestroyed
              (rounds s) (pushed s) (cerr s))
  | _, _ => None
  end.

(** * The system *)

Inductive Action : Type :=
  | SignalEnter (d : T)
  | SignalPush (i : nat)
  | RegisterEnter (l : Listener)
  | Register (i : nat)
  | UnregisterEnter (id : Z)
  | Unregister (i : nat)
  | Worker
  | Spurious
  | DestroyFlag
  | DestroyNotify
  | DestroyJoin.

(** Once the destructor has returned no action is possible. *)
Definition exec (a : Action) (s : State) : option State :=
  match owner s with ODestroyed => None | _ =>
  match a with
  | SignalEnter d => Some (signalEnter d s)
  | SignalPush i => signalPush i s
  | RegisterEnter l => Some (registerEnter l s).1
  | Register i => fst <$> registerListener i s
  | UnregisterEnter id => Some (unregisterEnter id s)
  | Unregister i => unregisterListener i s
  | Worker => workerStep s
  | Spurious => spuriousWakeup s
  | DestroyFlag => destroyFlag s
  | DestroyNotify => destroyNotify s
  | DestroyJoin => destroyJoin s
  end end.

#[local] Abbreviation execs := (Prelude.execs exec).
#[local] Abbreviation reachable := (Prelude.reachable exec construct).

(** * Invariants *)

(** The datum the worker has taken but not yet handed out. *)
Definition in_hand (w : WorkerPc) : list T := match w with WNotify d => [d] | _ => [] end.

Record invariant (s : State) : Prop := {
  inv_history : owner s <> ODestroyed -> pushed s = (rounds s).*1 ++ in_hand (worker s) ++ dataQueue s;
  inv_prefix : ∃ rest, pushed s = (rounds s).*1 ++ rest;
  inv_wait : worker s = WPark \/ worker s = WBlocked -> dataQueue s = [];
  inv_take : worker s = WTake -> dataQueue s <> [] \/ stopFlag s = true;
  inv_done : worker s = WDone -> stopFlag s = true;
  inv_flag : stopFlag s = true <-> owner s <> OAlive;
  inv_ids : StronglySorted Z.lt (listeners s).*1 /\
            Forall (λ id, 123 < id <= nextListenerId s) (listeners s).*1;
  inv_next : 123 <= nextListenerId s <= INT_MAX;
}.

Lemma map_set_last k v m : Forall (λ k', k' < k) m.*1 -> map_set k v m = m ++ [(k, v)].
Proof.
  induction m as [|[k' v'] m IH]; intros H; cbn [map_set app]; [done|].
  apply Forall_cons_1 in H as [Hk H]. cbn [fst] in Hk.
  rewrite (proj2 (Z.ltb_ge _ _)), (proj2 (Z.eqb_neq _ _)) by lia. by rewrite IH.
Qed.

Lemma StronglySorted_snoc {A} (R : A -> A -> Prop) l x :
  StronglySorted R l -> Forall (λ y, R y x) l -> StronglySorted R (l ++ [x]).
Proof.
  induction 1 as [|y l Hl IH Hy]; intros H; cbn [app]; [by repeat constructor|].
  apply Forall_cons_1 in H as [? ?]. constructor; [by apply IH|]. apply Forall_app. by repeat constructor.
Qed.

Lemma Forall_filter_keep {A} (P Q : A -> Prop) `{∀ x, Decision (Q x)} l :
  Forall P l -> Forall P (filter Q l).
Proof.
  induction 1 as [|x l Hx _ IH]; [done|]. rewrite filter_cons. case_decide; auto.
Qed.

Lemma map_erase_keys k (m : list (Z * Listener)) :
  StronglySorted Z.lt m.*1 -> StronglySorted Z.lt (map_erase k m).*1.
Proof.
  intros H. induction m as [|[a v] m IH]; [done|]. cbn [fmap list_fmap] in H.
  inversion H as [|? ? Hs Ha]; subst. unfold map_erase in *. rewrite filter_cons.
  case_decide; [|by apply IH]. cbn [fmap list_fmap]. constructor; [by apply IH|].
  rewrite Forall_fmap in Ha. rewrite Forall_fmap. by apply Forall_filter_keep.
Qed.

Lemma handler_invariant_construct : invariant construct.
Proof.
  split; cbn; try done; try naive_solver.
  split; [constructor|done].
Qed.

(** Actions that leave the containers, the flag and the history alone. *)
Lemma invariant_worker w s :
  invariant s -> in_hand w = in_hand (worker s) ->
  (w = WPark \/ w = WBlocked -> dataQueue s = []) ->
  (w = WTake -> dataQueue s <> [] \/ stopFlag s = true) ->
  (w = WDone -> stopFlag s = true) ->
  invariant (set_worker w s).
Proof.
  intros [] Hh Hw Ht Hd. split; cbn [set_worker stopFlag listeners nextListenerId dataQueue signalling entered
    worker owner rounds pushed]; try done. by rewrite Hh.
Qed.

Lemma notified_hand w : in_hand (notified w) = in_hand w.
Proof. by destruct w. Qed.

Lemma notified_wait w : notified w = WPark \/ notified w = WBlocked -> w = WPark.
Proof. destruct w; cbn; intuition congruence. Qed.

Lemma notified_take w : notified w = WTake -> w = WTake.
Proof. by destruct w. Qed.

Lemma notified_done w : notified w = WDone -> w = WDone.
Proof. by destruct w. Qed.

Tactic Notation "fields" :=
  cbn [set_listeners set_entered set_worker stopFlag listeners nextListenerId dataQueue signalling entered
       worker owner rounds pushed cerr].
Tactic Notation "fields" "in" "*" :=
  cbn [set_listeners set_entered set_worker stopFlag listeners nextListenerId dataQueue signalling entered
       worker owner rounds pushed cerr] in *.

Lemma invariant_signalPush i s s' :
  invariant s -> owner s <> ODestroyed -> signalPush i s = Some s' -> invariant s'.
Proof.
  intros [H1 H1' H2 H3 H3' H4 H5 H6] Ho. unfold signalPush. intros (d & _ & H)%bind_Some.
  destruct (cvMutex_held s) eqn:Ec; [done|]. injection H as <-. unfold cvMutex_held in Ec.
  split; fields; try done.
  - intros _. rewrite H1, notified_hand by done. by rewrite !(assoc_L (++)).
  - destruct H1' as [rest ->]. exists (rest ++ [d]). by rewrite <- (assoc_L (++)).
  - intros Hw%notified_wait. by rewrite Hw in Ec.
  - intros Hw%notified_take. by rewrite Hw in Ec.
  - intros Hw%notified_done. auto.
Qed.

Lemma invariant_entered e s : invariant s -> invariant (set_entered e s).
Proof. intros []. by split. Qed.

Lemma invariant_register i s s' n :
  invariant s -> registerListener i s = Some (s', n) -> invariant s'.
Proof.
  intros Hi. unfold registerListener. destruct (entered s !! i) as [[l|]|]; [|done..].
  case_bool; [done|]. intros [= <- _]. bool_prop.
  destruct Hi as [H1 H1' H2 H3 H3' H4 [Hs Hf] H6].
  assert (Forall (λ k, k < nextListenerId s + 1) (listeners s).*1) as Hlt.
  { eapply List.Forall_impl; [|exact Hf]. cbn. lia. }
  split; fields; try done; try lia.
  rewrite map_set_last by done. rewrite fmap_app. split.
  - by apply StronglySorted_snoc.
  - apply Forall_app. split; [|repeat constructor; cbn; lia].
    eapply List.Forall_impl; [|exact Hf]. cbn. lia.
Qed.

Lemma invariant_signalEnter d s : invariant s -> invariant (signalEnter d s).
Proof.
  intros Hi. unfold signalEnter. case_bool; [done|].
  destruct Hi. split; fields; by rewrite <- ?Heqb.
Qed.

Lemma invariant_unregister i s s' : invariant s -> unregisterListener i s = Some s' -> invariant s'.
Proof.
  intros Hi. unfold unregisterListener. destruct (entered s !! i) as [[|id]|]; [done| |done].
  intros [= <-]. destruct Hi as [H1 H1' H2 H3 H3' H4 [Hs Hf] H6]. split; fields; try done.
  split; [by apply map_erase_keys|]. rewrite Forall_fmap in Hf. rewrite Forall_fmap.
  by apply Forall_filter_keep.
Qed.

Lemma invariant_workerStep s s' :
  invariant s -> owner s <> ODestroyed -> workerStep s = Some s' -> invariant s'.
Proof.
  intros Hi Ho. pose proof Hi as [H1 H1' H2 H3 H3' H4 H5 H6]. unfold workerStep.
  destruct (worker s) eqn:Ew; cbn [in_hand] in *; try done.
  - intros [= <-]. apply invariant_worker; rewrite ?Ew; destruct (stopFlag s); intuition congruence.
  - intros [= <-]. apply invariant_worker; rewrite ?Ew; intuition congruence.
  - intros [= <-]. unfold waitPredicate.
    destruct (dataQueue s) eqn:Eq; [destruct (stopFlag s) eqn:Ef|];
      apply invariant_worker; rewrite ?Ew, ?Eq, ?Ef; intuition congruence.
  - intros [= <-]. apply invariant_worker; rewrite ?Ew; intuition congruence.
  - intros [= <-]. apply invariant_worker; rewrite ?Ew; intuition congruence.
  - destruct (dataQueue s) as [|d q] eqn:Eq.
    + case_bool; [|done]. intros [= <-]. apply invariant_worker; rewrite ?Ew; intuition congruence.
    + intros [= <-]. split; fields; try done. by intros [?|?].
  - destruct (notifyListeners d (listeners s)) as [called out]. intros [= <-].
    split; fields; try done.
    + intros _. rewrite H1, fmap_app by done. cbn [in_hand]. by rewrite <- (assoc_L (++)).
    + rewrite H1, fmap_app by done. exists (dataQueue s). cbn. by rewrite <- (assoc_L (++)).
    + by intros [?|?].
Qed.

Lemma invariant_destroy s s' :
  invariant s -> destroyFlag s = Some s' \/ destroyNotify s = Some s' \/ destroyJoin s = Some s' ->
  invariant s'.
Proof.
  intros [H1 H1' H2 H3 H3' H4 H5 H6]. unfold destroyFlag, destroyNotify, destroyJoin.
  destruct (owner s) eqn:Eo; intros [H|[H|H]]; try done.
  - injection H as <-. split; fields; try done; auto.
  - injection H as <-. split; fields; try done.
    + intros _. rewrite notified_hand. auto.
    + intros Hw%notified_wait. auto.
    + intros Hw%notified_take. auto.
    + intros Hw%notified_done. auto.
    + rewrite H4. done.
  - destruct (worker s) eqn:Ew; try done. injection H as <-. split; fields; try done.
    + rewrite H4. done.
    + split; [constructor|done].
Qed.

(** An enabled action, without the test that the object still exists. *)
Lemma exec_alive a s s' : exec a s = Some s' -> owner s <> ODestroyed.
Proof. unfold exec. by destruct (owner s). Qed.

Lemma handler_invariant_exec a s s' : invariant s -> exec a s = Some s' -> invariant s'.
Proof.
  intros Hi Hex. pose proof (exec_alive _ _ _ Hex) as Ho.
  assert (spuriousWakeup s = Some s' -> invariant s') as Hsp.
  { unfold spuriousWakeup. destruct (worker s) eqn:Ew; try done. intros [= <-].
    apply invariant_worker; rewrite ?Ew; [done|done|intuition congruence|done|done]. }
  unfold exec in Hex. destruct (owner s) eqn:Eo; try done;
    (destruct a as [d|i|l|i|id|i| | | | |];
     [ injection Hex as <-; by apply invariant_signalEnter
     | apply (invariant_signalPush i s); [done|by rewrite Eo|done]
     | injection Hex as <-; unfold registerEnter; destruct (stopFlag s); [done|by apply invariant_entered]
     | destruct (registerListener i s) as [[? n]|] eqn:El; [|done]; injection Hex as <-;
       by apply (invariant_register i s _ n)
     | injection Hex as <-; unfold unregisterEnter; destruct (stopFlag s); [done|by apply invariant_entered]
     | by apply (invariant_unregister i s)
     | apply (invariant_workerStep s); [done|by rewrite Eo|done]
     | by apply Hsp
     | by eapply invariant_destroy; eauto
     | by eapply invariant_destroy; eauto
     | by eapply invariant_destroy; eauto ]).
Qed.

Lemma handler_reachable_invariant s : reachable s -> invariant s.
Proof. induction 1; [apply handler_invariant_construct|by eapply handler_invariant_exec]. Qed.

(** * Case analysis on actions *)

(** One case per action and per branch: the simplified successor state. *)
Ltac exec_cases H :=
  unfold exec in H;
  repeat match type of H with
  | (match owner ?s with _ => _ end) = _ => destruct (owner s) eqn:?; try discriminate H
  | (match ?a with SignalEnter _ => _ | _ => _ end) = _ => destruct a
  end;
  unfold signalEnter, registerEnter, unregisterEnter, unregisterListener, signalPush, registerListener, workerStep,
    spuriousWakeup, destroyFlag, destroyNotify, destroyJoin in H;
  repeat match type of H with
  | None = Some _ => discriminate H
  | context [match owner ?s with _ => _ end] => destruct (owner s) eqn:?
  | context [match worker ?s with _ => _ end] => destruct (worker s) eqn:?
  | context [if stopFlag ?s then _ else _] => destruct (stopFlag s) eqn:?
  | context [if nextListenerId ?s =? _ then _ else _] => destruct (nextListenerId s =? INT_MAX) eqn:?
  | context [match dataQueue ?s with _ => _ end] => destruct (dataQueue s) eqn:?
  | context [notifyListeners ?d ?l] => destruct (notifyListeners d l) eqn:?
  | context [match entered ?s !! ?i with _ => _ end] => destruct (entered s !! i) as [[?|?]|] eqn:?
  | context [if cvMutex_held ?s then _ else _] => destruct (cvMutex_held s) eqn:?
  | (_ ≫= _) = Some _ => apply bind_Some in H as (? & ? & H)
  | (_ <$> _) = Some _ => apply fmap_Some in H as (? & H & ?)
  | Some _ = Some _ => cbn [fst] in H; injection H as H; subst
  end.

Lemma exec_nextListenerId a s s' : exec a s = Some s' -> nextListenerId s <= nextListenerId s'.
Proof. intros H. exec_cases H; cbn; lia. Qed.

Lemma notifyListeners_all d ls : (notifyListeners d ls).1 = ls.*2.
Proof.
  induction ls as [|[i f] ls IH]; [done|]. cbn [notifyListeners].
  destruct (notifyListeners d ls) as [c o]. cbn in *. by rewrite IH.
Qed.

(** * The worker drains the queue *)

Definition after_rounds (ds : list T) (s s' : State) : Prop :=
  rounds s' = rounds s ++ ((λ d, (d, (listeners s).*2)) <$> ds) /\
  dataQueue s' = [] /\ worker s' = WBlocked /\ listeners s' = listeners s.

(** From the top of the loop: five actions per datum, four to block. *)
Lemma drain_top s :
  stopFlag s = false -> owner s <> ODestroyed -> worker s = WTop ->
  ∃ s', execs (replicate (5 * length (dataQueue s) + 4) Worker) s = Some s' /\
        after_rounds (dataQueue s) s s'.
Proof.
  destruct s as [sf ls ni q sg en w o rs pu er]. fields. intros -> Ho ->.
  assert (∀ a s', owner s' = o -> exec a s' = match a with
    | Worker => workerStep s' | _ => exec a s' end) as Hex.
  { intros a s' E. destruct a; try done. unfold exec. rewrite E. by destruct o. }
  revert rs pu er. induction q as [|d q IH]; intros rs pu er.
  - eexists. split.
    + cbn [length Nat.mul Nat.add replicate execs].
      do 4 (rewrite Hex by done; unfold workerStep, set_worker, waitPredicate; fields;
            rewrite bind_ret).
      reflexivity.
    + split; [by rewrite app_nil_r|done].
  - destruct (notifyListeners d ls) as [c out] eqn:En.
    destruct (IH (rs ++ [(d, c)]) pu (er ++ out)) as (s' & Hs & Hr & Hq & Hw & Hl).
    exists s'. split.
    + replace (5 * length (d :: q) + 4)%nat with (5 + (5 * length q + 4))%nat by (cbn [length]; lia).
      cbn [replicate Nat.add execs].
      do 5 (rewrite Hex by done; unfold workerStep, set_worker, waitPredicate; fields;
            rewrite ?En, bind_ret).
      exact Hs.
    + split; [|done]. rewrite Hr. cbn [rounds listeners fmap list_fmap].
      rewrite <- (assoc_L (++)). cbn. f_equal. f_equal. f_equal.
      by rewrite <- (notifyListeners_all d ls), En.
Qed.

Lemma drain_back k s0 s :
  stopFlag s0 = false -> owner s0 <> ODestroyed -> worker s0 = WTop -> (k <= 4)%nat ->
  execs (replicate k Worker) s0 = Some s ->
  execs (replicate (5 * length (dataQueue s0) + 4 - k) Worker) s =
  execs (replicate (5 * length (dataQueue s0) + 4) Worker) s0.
Proof.
  intros Hf Ho Hw Hk Hs.
  replace (5 * length (dataQueue s0) + 4)%nat with (k + (5 * length (dataQueue s0) + 4 - k))%nat at 2 by lia.
  by rewrite replicate_add, execs_app, Hs, bind_ret.
Qed.

Lemma drain_not_woken s :
  invariant s -> stopFlag s = false -> worker s <> WWoken ->
  ∃ n s', (n <= 5 * length (in_hand (worker s) ++ dataQueue s) + 4)%nat /\
    execs (replicate n Worker) s = Some s' /\
    after_rounds (in_hand (worker s) ++ dataQueue s) s s'.
Proof.
  intros [H1 _ H2 H3 H3' H4 _ _] Hf Hnw.
  assert (owner s <> ODestroyed) as Ho.
  { intros E. rewrite E in H4. destruct H4 as [_ H4]. rewrite Hf in H4. by discriminate H4. }
  assert (∀ k q, (k <= 4)%nat -> q = in_hand (worker s) ++ dataQueue s ->
    execs (replicate k Worker) (mkState (stopFlag s) (listeners s) (nextListenerId s) q
      (signalling s) (entered s) WTop (owner s) (rounds s) (pushed s) (cerr s)) = Some s ->
    ∃ n s', (n <= 5 * length (in_hand (worker s) ++ dataQueue s) + 4)%nat /\
      execs (replicate n Worker) s = Some s' /\
      after_rounds (in_hand (worker s) ++ dataQueue s) s s') as Hback.
  { intros k q Hk Hq Hs.
    match type of Hs with execs _ ?s0 = _ => destruct (drain_top s0) as (s' & Hrun & Haft); try done;
      exists (5 * length q + 4 - k)%nat, s'; rewrite <- Hq; split; [lia|]; split; [|done];
      pose proof (drain_back k s0 s) as Hb end.
    fields in *. rewrite Hb by done. exact Hrun. }
  destruct s as [sf ls ni q sg en w o rs pu er]. fields in *. subst sf.
  destruct w; cbn [in_hand app] in *.
  - by apply (Hback 0%nat q); [lia|..].
  - apply (Hback 1%nat q); [lia|done|]. by destruct o.
  - apply (Hback 2%nat q); [lia|done|]. by destruct o.
  - apply (Hback 3%nat q); [lia|done|]. rewrite H2 by auto. by destruct o.
  - rewrite H2 by auto. exists 0%nat. eexists. split; [lia|]. split; [done|]. split; [|done].
    cbn. by rewrite app_nil_r.
  - done.
  - destruct (H3 eq_refl) as [Hq|[=]]. apply (Hback 3%nat q); [lia|done|]. destruct q; [done|]. by destruct o.
  - apply (Hback 4%nat (d :: q)); [lia|done|]. by destruct o.
  - by specialize (H3' eq_refl).
Qed.

Lemma drain s :
  invariant s -> stopFlag s = false ->
  ∃ n s', (n <= 5 * length (in_hand (worker s) ++ dataQueue s) + 5)%nat /\
    execs (replicate n Worker) s = Some s' /\
    after_rounds (in_hand (worker s) ++ dataQueue s) s s'.
Proof.
  intros Hi Hf. assert (worker s = WWoken \/ worker s <> WWoken) as [Hw|Hw] by (by destruct (worker s); auto).
  - destruct (drain_not_woken (set_worker WPred s)) as (n & s' & Hn & Hrun & Haft); [|done|done|].
    { apply invariant_worker; rewrite ?Hw; [done|done|intuition congruence|done|done]. }
    exists (S n), s'. rewrite Hw. split; [cbn in *; lia|]. split; [|done].
    cbn [replicate execs]. unfold exec, workerStep. rewrite Hw. destruct Hi.
    destruct (owner s) eqn:E; try exact Hrun. destruct (inv_flag0) as [_ H]. rewrite Hf in H. by discriminate H.
  - destruct (drain_not_woken s) as (n & s' & Hn & H); [done..|]. exists n, s'. split; [lia|done].
Qed.

(** * After the flag has been set *)

(** The worker no longer parks, and blocks only until it is notified. *)
Record stopping (s : State) : Prop := {
  stop_flag : stopFlag s = true;
  stop_park : worker s <> WPark;
  stop_blocked : worker s = WBlocked -> owner s = OFlagged;
}.

Lemma stopping_exec a s s' : stopping s -> exec a s = Some s' -> stopping s'.
Proof.
  intros [Hf Hp Hb] H. exec_cases H; split; fields; cbn [fst]; try done;
    try (unfold notified; intros; destruct (worker s); by eauto);
    try (unfold waitPredicate; destruct (dataQueue s); rewrite ?Hf; intros; congruence);
    intuition congruence.
Qed.

(** One more datum at most is handed out. *)
Definition rounds_budget (s : State) : nat :=
  length (rounds s) + match worker s with WTop | WDone => 0 | _ => 1 end.

Lemma budget_exec a s s' :
  stopFlag s = true -> exec a s = Some s' ->
  stopFlag s' = true /\ (rounds_budget s' <= rounds_budget s)%nat.
Proof.
  intros Hf H. unfold rounds_budget. exec_cases H; fields; cbn [fst]; fields; (split; [done|]);
    rewrite ?length_app; cbn [length]; repeat match goal with E : worker s = _ |- _ => rewrite E end;
    try lia; try (destruct (worker s); cbn; lia); destruct (waitPredicate s); lia.
Qed.

(** * Properties *)

(** In every reachable state the data handed to listeners so far,
    followed by the datum the worker holds and the queue, are the data pushed,
    in the order of the pushes: nothing is lost, duplicated or reordered while
    the object lives, and after its destruction what was handed out is a prefix
    of what was pushed. *)
Theorem handler_fifo s :
  reachable s ->
  (owner s <> ODestroyed -> pushed s = (rounds s).*1 ++ in_hand (worker s) ++ dataQueue s) /\
  (∃ rest, pushed s = (rounds s).*1 ++ rest).
Proof. intros []%handler_reachable_invariant. done. Qed.

(** C35: no signalled datum waits for a later one: from every reachable
    state in which the destructor has not begun, the worker alone, in at most
    five actions per pending datum and five more, hands every pending datum in
    order to every registered listener in the order of their ids (a listener
    that throws does not stop the others), and blocks on an empty queue. *)
Theorem handler_delivers s :
  reachable s -> owner s = OAlive ->
  let pending := in_hand (worker s) ++ dataQueue s in
  ∃ n s', (n <= 5 * length pending + 5)%nat /\ execs (replicate n Worker) s = Some s' /\
    rounds s' = rounds s ++ ((λ d, (d, (listeners s).*2)) <$> pending) /\
    dataQueue s' = [] /\ worker s' = WBlocked /\ listeners s' = listeners s.
Proof.
  intros Hr%handler_reachable_invariant Ho. apply drain; [done|]. destruct Hr as [_ _ _ _ _ Hf _ _].
  destruct (stopFlag s); [|done]. by destruct (proj1 Hf eq_refl).
Qed.

(** Registration ids are unique: a registration gives an id that is not
    registered and is larger than every id given before, whatever happened in
    between, until the counter reaches INT_MAX. *)
Theorem handler_ids_unique i1 i2 s0 s1 s2 s3 acts id1 id2 :
  reachable s0 -> registerListener i1 s0 = Some (s1, id1) -> execs acts s1 = Some s2 ->
  registerListener i2 s2 = Some (s3, id2) ->
  id1 < id2 /\ (id2 ∉ (listeners s2).*1) /\ ∃ l, listeners s3 = listeners s2 ++ [(id2, l)].
Proof.
  intros Hr H1 Hacts H2.
  assert (invariant s2) as Hi2.
  { eapply (execs_invariant exec invariant); [|by eapply invariant_register, H1; apply handler_reachable_invariant|exact Hacts].
    intros a x y _. apply handler_invariant_exec. }
  destruct Hi2 as [_ _ _ _ _ _ [_ Hf] Hn].
  assert (nextListenerId s1 <= nextListenerId s2) as Hle.
  { apply (execs_invariant exec (λ s, nextListenerId s1 <= nextListenerId s) acts s1); [|lia|done].
    intros a s s' _ Hs He%exec_nextListenerId. lia. }
  unfold registerListener in H1, H2.
  destruct (entered s0 !! i1) as [[l1|]|]; [|done..]. destruct (entered s2 !! i2) as [[l2|]|]; [|done..].
  destruct (nextListenerId s0 =? INT_MAX); [done|]. injection H1 as <- <-.
  destruct (nextListenerId s2 =? INT_MAX); [done|]. injection H2 as <- <-. cbn in Hle.
  split; [lia|]. split.
  - intros Hin. rewrite List.Forall_forall in Hf. apply list_elem_of_In, Hf in Hin. lia.
  - exists l2. cbn. apply map_set_last. eapply List.Forall_impl; [|exact Hf]. cbn. lia.
Qed.

(** C36: the destructor can hang.  It sets [_stopFlag] and notifies without
    holding [_cvMutex]: when both happen after the worker has evaluated the
    wait predicate and before it blocks, the notification is lost, and from
    that reachable state, short of a spurious wake-up, no sequence of actions
    of any thread wakes the worker or lets the join return. *)
Theorem handler_destructor_hangs :
  ∃ s, reachable s /\ owner s = ONotified /\
    ∀ acts s', Spurious ∉ acts -> Prelude.execs exec acts s = Some s' ->
      owner s' = ONotified /\ worker s' = WBlocked /\ dataQueue s' = [].
Proof.
  destruct (execs [Worker; Worker; Worker; DestroyFlag; DestroyNotify; Worker] construct) as [s|] eqn:E;
    [|done].
  exists s. split; [by eapply (execs_reachable exec construct); [constructor|]|].
  injection E as <-. split; [done|]. intros acts s' Hns Hacts.
  apply (execs_invariant exec (λ s, (owner s = ONotified /\ worker s = WBlocked /\ dataQueue s = []) /\
    stopFlag s = true /\ signalling s = []) acts) in Hacts; [by destruct Hacts| |done].
  clear -Hns. intros a s s' Ha ((Ho & Hw & Hq) & Hf & Hsg) He.
  assert (a <> Spurious) as Hna by (by intros ->). clear Ha Hns.
  exec_cases He; try congruence; fields; cbn [fst]; try done.
  by rewrite Hsg in *.
Qed.

(** That window is the only one: when the flag is set while the worker is
    not between the wait predicate and the wait, then whatever the threads do
    until the notification, five actions of the worker at most remain before the
    join returns and the object is destroyed, its queue emptied. *)
Theorem handler_destructor_returns s0 acts s :
  reachable s0 -> worker s0 <> WPark -> Prelude.execs exec (DestroyFlag :: acts) s0 = Some s -> owner s = ONotified ->
  ∃ n s', (n <= 5)%nat /\ execs (replicate n Worker ++ [DestroyJoin]) s = Some s' /\
    owner s' = ODestroyed /\ dataQueue s' = [] /\ listeners s' = [].
Proof.
  intros _ Hp. cbn [execs]. intros (s1 & H1 & Hacts)%bind_Some Ho.
  assert (stopping s1) as Hs1.
  { exec_cases H1; split; fields; done. }
  assert (stopping s) as [Hf Hpk Hb].
  { eapply execs_invariant; [|exact Hs1|exact Hacts]. intros a ? ? _. apply stopping_exec. }
  destruct s as [sf ls ni q sg en w o rs pu er]. fields in *. subst sf o.
  destruct w; try done; try by specialize (Hb eq_refl).
  1: exists 1%nat. 2: exists (match q with [] => 3 | _ => 5 end)%nat.
  3: exists (match q with [] => 2 | _ => 4 end)%nat. 4: exists (match q with [] => 3 | _ => 5 end)%nat.
  5: exists (match q with [] => 1 | _ => 3 end)%nat. 6: exists 2%nat. 7: exists 0%nat.
  all: try destruct q; try destruct (notifyListeners d ls) as [c out] eqn:En;
    try (destruct (notifyListeners t ls) as [c out] eqn:En);
    eexists; (split; [lia|]); (split; [cbn -[notifyListeners]; rewrite ?En; reflexivity|done]).
Qed.

(** Stopping abandons the queue: once the flag is set at most one more
    datum is handed to the listeners (none when the worker is at the top of its
    loop), whatever is queued or still being signalled. *)
Theorem handler_stop_abandons s0 acts s :
  reachable s0 -> execs (DestroyFlag :: acts) s0 = Some s ->
  (length (rounds s) <= length (rounds s0) + match worker s0 with WTop | WDone => 0 | _ => 1 end)%nat.
Proof.
  intros _. cbn [execs]. intros (s1 & H1 & Hacts)%bind_Some.
  assert (stopFlag s1 = true /\ rounds_budget s1 = rounds_budget s0) as [Hf Hb].
  { exec_cases H1; done. }
  apply (execs_invariant exec (λ s, stopFlag s = true /\ (rounds_budget s <= rounds_budget s0)%nat)) in Hacts
    as [_ Hs]; [| |split; [done|lia]].
  - unfold rounds_budget in *. lia.
  - intros a t t' _ [Ht Htb] He. destruct (budget_exec a t t' Ht He). split; [done|lia].
Qed.

End handler.

(** * Witnesses *)

Definition quiet (l d : Z) : Outcome := if l =? 7 then ThrewOther else Returned.

Lemma handler_fifo_witness :
  [1; 2] = [1] ++ [] ++ [2] /\ ∃ rest, [1; 2] = [1] ++ rest.
Proof.
  destruct (handler_fifo quiet (mkState false [(124, 7)] 124 [2] [] [] WTop OAlive [(1, [7])] [1; 2]
    ["Listener threw an unknown exception!"%string])) as [H1 H2].
  - eapply (execs_reachable (exec quiet) _ [RegisterEnter 7; Register 0; SignalEnter 1; SignalPush 0; SignalEnter 2; SignalPush 0;
      Worker; Worker; Worker; Worker; Worker]); [constructor|vm_compute; reflexivity].
  - split; [by apply H1|exact H2].
Defined.

Lemma handler_delivers_witness :
  ∃ n s', (n <= 15)%nat /\ execs (exec quiet) (replicate n Worker)
    (mkState false [(124, 7); (125, 8)] 125 [1; 2] [] [] WTop OAlive [] [1; 2] []) = Some s' /\
    rounds s' = [(1, [7; 8]); (2, [7; 8])] /\
    dataQueue s' = [] /\ worker s' = WBlocked /\ listeners s' = [(124, 7); (125, 8)].
Proof.
  apply (handler_delivers quiet (mkState false [(124, 7); (125, 8)] 125 [1; 2] [] [] WTop OAlive [] [1; 2] []));
    [|done].
  eapply (execs_reachable (exec quiet) _ [RegisterEnter 7; RegisterEnter 8; Register 0; Register 0; SignalEnter 1; SignalPush 0; SignalEnter 2; SignalPush 0]);
    [constructor|vm_compute; reflexivity].
Defined.

Lemma handler_ids_unique_witness :
  124 < 125 /\ (125 ∉ @nil Z) /\ ∃ l, [(125, 9)] = [] ++ [(125, l)].
Proof.
  apply (handler_ids_unique quiet 0 0 (mkState false [] 123 [] [] [Registering 8; Registering 9; Unregistering 124] WTop OAlive [] [] [])
    (mkState false [(124, 8)] 124 [] [] [Registering 9; Unregistering 124] WTop OAlive [] [] [])
    (mkState false [] 124 [] [] [Registering 9] WTop OAlive [] [] []) (mkState false [(125, 9)] 125 [] [] [] WTop OAlive [] [] [])
    [Unregister 1]); [|reflexivity|reflexivity|reflexivity].
  eapply (execs_reachable (exec quiet) _ [RegisterEnter 8; RegisterEnter 9; UnregisterEnter 124]); [constructor|vm_compute; reflexivity].
Defined.

Lemma handler_destructor_returns_witness :
  ∃ n s', (n <= 5)%nat /\ execs (exec quiet) (replicate n Worker ++ [DestroyJoin])
    (mkState true [] 123 [] [] [] WWoken ONotified [] [] []) = Some s' /\
    owner s' = ODestroyed /\ dataQueue s' = [] /\ listeners s' = [].
Proof.
  apply (handler_destructor_returns quiet (mkState false [] 123 [] [] [] WBlocked OAlive [] [] []) [DestroyNotify]);
    [|done|reflexivity|done].
  eapply (execs_reachable (exec quiet) _ [Worker; Worker; Worker; Worker]); [constructor|vm_compute; reflexivity].
Defined.

Lemma handler_stop_abandons_witness :
  (length [(1, @nil Z)] <= 0 + 1)%nat.
Proof.
  apply (handler_stop_abandons quiet (mkState false [] 123 [1; 2] [] [] WLock OAlive [] [1; 2] [])
    [Worker; Worker; Worker; Worker; Worker]
    (mkState true [] 123 [2] [] [] WDone OFlagged [(1, [])] [1; 2] [])); [|reflexivity].
  eapply (execs_reachable (exec quiet) _ [Worker; SignalEnter 1; SignalEnter 2; SignalPush 0; SignalPush 0]); [constructor|vm_compute; reflexivity].
Defined.
