(* ===== verification/DataHandlerSpec.v ===== *)
(** What DataHandler.v promises, as a machine with one atomic action per call of
    a client or of the listeners: a broadcast queue.  The mutexes, the condition
    variable, the worker's program counter and the steps of the destructor are
    gone; the refinement theorem shows that src/libs/CommonUtils/DataHandler.h
    implements it. *)

From Stdlib Require Import Sorted.
From S2P Require Import Prelude Refinement DataHandler.

Module Broadcast.
Section broadcast.
Context {T Listener : Type} (call : Listener -> T -> Outcome).

(** A request to join or to leave. *)
Inductive Request : Type := Joining (l : Listener) | Leaving (id : Z).

(** [requests], [accepted]: calls that have begun, not yet granted, and data not
    yet in line; [backlog]: data in line; [delivered]: the data handed out, each
    with the listeners called. *)
Record Broadcast : Type := mkBroadcast {
  open : bool;
  members : list (Z * Listener);
  lastId : Z;
  requests : list Request;
  accepted : list T;
  backlog : list T;
  delivered : list (T * list Listener);
  reports : list string;
}.

Definition init : Broadcast := mkBroadcast true [] 123 [] [] [] [] [].

(** The members that throw, as reported. *)
Definition complaint (d : T) (m : Z * Listener) : option string :=
  match call m.2 d with
  | Returned => None
  | ThrewStd what => Some ("Listener threw an std::exception! " ++ what)%string
  | ThrewOther => Some "Listener threw an unknown exception!"%string
  end.

Inductive Op : Type :=
  | Accept (d : T)
  | Enqueue (i : nat)
  | Ask (q : Request)
  | Join (i : nat)
  | Leave (i : nat)
  | Deliver
  | Close
  | Clear.

(** An open queue takes data and requests, and grants each request at some moment
    later; a member that joins gets a number higher than any before and comes last.
    Every member gets each datum, the oldest first. *)
Definition exec (o : Op) (b : Broadcast) : option Broadcast :=
  match o with
  | Accept d =>
      if open b
      then Some (mkBroadcast true (members b) (lastId b) (requests b) (accepted b ++ [d]) (backlog b) (delivered b) (reports b))
      else None
  | Enqueue i =>
      d ← accepted b !! i;
      Some (mkBroadcast (open b) (members b) (lastId b) (requests b) (delete i (accepted b)) (backlog b ++ [d]) (delivered b)
              (reports b))
  | Ask q =>
      if open b
      then Some (mkBroadcast true (members b) (lastId b) (requests b ++ [q]) (accepted b) (backlog b) (delivered b)
                   (reports b))
      else None
  | Join i =>
      match requests b !! i with
      | Some (Joining l) =>
          Some (mkBroadcast (open b) (members b ++ [(lastId b + 1, l)]) (lastId b + 1) (delete i (requests b))
                  (accepted b) (backlog b) (delivered b) (reports b))
      | _ => None
      end
  | Leave i =>
      match requests b !! i with
      | Some (Leaving id) =>
          Some (mkBroadcast (open b) (filter (λ m, m.1 <> id) (members b)) (lastId b) (delete i (requests b))
                  (accepted b) (backlog b) (delivered b) (reports b))
      | _ => None
      end
  | Deliver =>
      match backlog b with
      | d :: rest =>
          Some (mkBroadcast (open b) (members b) (lastId b) (requests b) (accepted b) rest
                  (delivered b ++ [(d, (members b).*2)]) (reports b ++ omap (complaint d) (members b)))
      | [] => None
      end
  | Close =>
      if open b
      then Some (mkBroadcast false (members b) (lastId b) (requests b) (accepted b) (backlog b) (delivered b) (reports b))
      else None
  | Clear =>
      if open b then None
      else Some (mkBroadcast false [] (lastId b) (requests b) (accepted b) [] (delivered b) (reports b))
  end.

(** The data put in line by a sequence of operations. *)
Fixpoint enqueued (ops : list Op) (b : Broadcast) : list T :=
  match ops with
  | [] => []
  | o :: ops =>
      match o with Enqueue i => option_list (accepted b !! i) | _ => [] end ++
      match exec o b with Some b' => enqueued ops b' | None => [] end
  end.

(** First in, first out: short of the final clearing, what has been handed out
    and what waits are what was put in line. *)
Lemma spec_fifo ops : ∀ b b',
  Clear ∉ ops -> execs exec ops b = Some b' ->
  (delivered b').*1 ++ backlog b' = (delivered b).*1 ++ backlog b ++ enqueued ops b.
Proof.
  induction ops as [|o ops IH]; intros b b' Hc E; cbn [execs enqueued] in *.
  { injection E as <-. by rewrite app_nil_r. }
  apply bind_Some in E as (b1 & E1 & E). rewrite not_elem_of_cons in Hc. destruct Hc as [Ho Hc].
  rewrite (IH b1 b' Hc E), E1. rewrite !(assoc_L (++)). f_equal.
  destruct o; cbn [exec] in E1; try done;
    repeat match type of E1 with
    | (if ?c then _ else _) = _ => destruct c; try discriminate E1
    | (match requests b !! ?i with _ => _ end) = _ => destruct (requests b !! i) as [[]|]; try discriminate E1
    | (match backlog b with _ => _ end) = _ => destruct (backlog b) eqn:Eb; try discriminate E1
    end; try (injection E1 as <-; cbn; by rewrite ?app_nil_r).
  - apply bind_Some in E1 as (d & -> & [= <-]). cbn. by rewrite !(assoc_L (++)).
  - injection E1 as <-. cbn. rewrite fmap_app, app_nil_r, <- (assoc_L (++)). done.
Qed.
End broadcast.
Arguments Op : clear implicits.
Arguments Joining {Listener} l.
Arguments Leaving {Listener} id.
Arguments Broadcast : clear implicits.
End Broadcast.
Import Broadcast(Broadcast, mkBroadcast, Op).

Section refines.
Context {T Listener : Type} (call : Listener -> T -> Outcome).

#[local] Abbreviation exec := (DataHandler.exec call).
#[local] Abbreviation State := (@State T Listener).
#[local] Abbreviation Action := (@Action T Listener).

Definition request (e : Entered (Listener := Listener)) : Broadcast.Request (Listener := Listener) :=
  match e with Registering l => Broadcast.Joining l | Unregistering id => Broadcast.Leaving id end.

(** The datum in the worker's hand is still in line. *)
Definition abstraction (s : State) : Broadcast T Listener :=
  mkBroadcast (negb (stopFlag s)) (listeners s) (nextListenerId s) (request <$> entered s) (signalling s)
    (in_hand (worker s) ++ dataQueue s) (rounds s) (cerr s).

(** Which of the implementation's steps are operations of the queue. *)
Definition operation (a : Action) (s : State) : option (Op T Listener) :=
  match a with
  | SignalEnter d => if stopFlag s then None else Some (Broadcast.Accept d)
  | SignalPush i => Some (Broadcast.Enqueue i)
  | RegisterEnter l => if stopFlag s then None else Some (Broadcast.Ask (Broadcast.Joining l))
  | Register i => Some (Broadcast.Join i)
  | UnregisterEnter id => if stopFlag s then None else Some (Broadcast.Ask (Broadcast.Leaving id))
  | Unregister i => Some (Broadcast.Leave i)
  | Worker => match worker s with WNotify _ => Some Broadcast.Deliver | _ => None end
  | DestroyFlag => Some Broadcast.Close
  | DestroyJoin => Some Broadcast.Clear
  | Spurious | DestroyNotify => None
  end.

Lemma notifyListeners_spec d ls :
  notifyListeners call d ls = (ls.*2, omap (Broadcast.complaint call d) ls).
Proof.
  induction ls as [|[id l] ls IH]; [done|]. cbn [notifyListeners omap list_omap fmap list_fmap].
  rewrite IH. unfold Broadcast.complaint. cbn [snd]. by destruct (call l d).
Qed.

(** An id of a sorted list that is the largest so far goes to its end. *)
Lemma register_last (s : State) l :
  invariant s -> map_set (nextListenerId s + 1) l (listeners s) = listeners s ++ [(nextListenerId s + 1, l)].
Proof.
  intros [_ _ _ _ _ _ [_ Hf] _]. apply map_set_last. eapply List.Forall_impl; [|exact Hf]. cbn. lia.
Qed.

(** Steps that keep the datum in hand are invisible. *)
Lemma abstraction_worker (s : State) w :
  in_hand w = in_hand (worker s) -> abstraction (set_worker w s) = abstraction s.
Proof. intros E. unfold abstraction. cbn. by rewrite E. Qed.

Lemma worker_simulated s s' :
  invariant s -> workerStep call s = Some s' ->
  execs (Broadcast.exec call) (option_list (operation Worker s)) (abstraction s) = Some (abstraction s').
Proof.
  intros _. unfold workerStep, operation. destruct (worker s) eqn:Ew; try done; cbn [option_list execs].
  1-5: intros [= <-]; rewrite abstraction_worker; [done|rewrite Ew; by destruct (stopFlag s), (waitPredicate s)].
  - destruct (dataQueue s) as [|d q] eqn:Eq.
    + destruct (stopFlag s); [|done]. intros [= <-]. by rewrite abstraction_worker by (by rewrite Ew).
    + intros [= <-]. unfold abstraction. by rewrite Ew, Eq.
  - rewrite notifyListeners_spec. intros [= <-]. unfold abstraction. rewrite Ew. done.
Qed.

Lemma requests_delete i (e : list Entered) : request <$> delete i e = delete i (request <$> e).
Proof. revert i. induction e as [|x e IH]; intros [|i]; cbn; [done..|]. by rewrite <- IH. Qed.

#[export] Instance handler_simulation : Simulation exec (Broadcast.exec call) operation invariant abstraction.
Proof.
  split; [apply handler_invariant_exec|].
  intros a s s' Hi E. pose proof (exec_alive call a s s' E) as Ho. pose proof Hi as [_ _ _ _ _ Hf _ _].
  assert (E' : match a with
    | SignalEnter d => Some (signalEnter d s) | SignalPush i => signalPush i s
    | RegisterEnter l => Some (registerEnter l s).1 | Register i => fst <$> registerListener i s
    | UnregisterEnter id => Some (unregisterEnter id s) | Unregister i => unregisterListener i s
    | Worker => workerStep call s | Spurious => spuriousWakeup s | DestroyFlag => destroyFlag s
    | DestroyNotify => destroyNotify s | DestroyJoin => destroyJoin s end = Some s').
  { unfold DataHandler.exec in E. by destruct (owner s). }
  clear E. destruct a as [d|i|l|i|id|i| | | | |]; cbn [operation].
  - injection E' as <-. unfold signalEnter. by destruct (stopFlag s) eqn:Es; unfold abstraction; cbn; rewrite ?Es.
  - unfold signalPush in E'. apply bind_Some in E' as (d & Ed & E'). destruct (cvMutex_held s); [done|].
    injection E' as <-. unfold abstraction. cbn. rewrite Ed. cbn. by rewrite notified_hand, <- (assoc_L (++)).
  - injection E' as <-. unfold registerEnter. destruct (stopFlag s) eqn:Es; [done|].
    unfold abstraction. cbn. rewrite Es. cbn. by rewrite fmap_app.
  - unfold registerListener in E'. destruct (entered s !! i) as [[l|]|] eqn:Ei; [|done..].
    destruct (nextListenerId s =? INT_MAX); [done|]. injection E' as <-.
    unfold abstraction. cbn. rewrite list_lookup_fmap, Ei. cbn. by rewrite register_last, requests_delete by done.
  - injection E' as <-. unfold unregisterEnter. destruct (stopFlag s) eqn:Es; [done|].
    unfold abstraction. cbn. rewrite Es. cbn. by rewrite fmap_app.
  - unfold unregisterListener in E'. destruct (entered s !! i) as [[|id]|] eqn:Ei; [done| |done].
    injection E' as <-. unfold abstraction. cbn. rewrite list_lookup_fmap, Ei. cbn. by rewrite requests_delete.
  - by apply worker_simulated.
  - unfold spuriousWakeup in E'. destruct (worker s) eqn:Ew; try done. injection E' as <-.
    cbn. by rewrite abstraction_worker by (by rewrite Ew).
  - unfold destroyFlag in E'. destruct (owner s); try done. injection E' as <-. unfold abstraction. cbn.
    destruct (stopFlag s); [|done]. by destruct (proj1 Hf eq_refl).
  - unfold destroyNotify in E'. destruct (owner s); try done. injection E' as <-. unfold abstraction. cbn.
    by rewrite notified_hand.
  - unfold destroyJoin in E'. destruct (owner s); try done. destruct (worker s) eqn:Ew; try done. injection E' as <-.
    unfold abstraction. cbn. by rewrite (proj2 Hf) by done.
Qed.

(** C26: the thread-safe queue implements the broadcast queue: every run of the
    implementation, whatever the interleaving of the clients, the worker, spurious
    wake-ups and the destructor, is a run of the abstract queue in which each call
    takes effect at one moment; it ends with the same listeners, data in line,
    calls of listeners and reports.  Short of the destruction, what the listeners
    have been given is then a prefix of what was signalled, in order. *)
Theorem handler_refines acts (s : State) :
  execs exec acts construct = Some s ->
  let ops := labels exec operation acts construct in
  execs (Broadcast.exec call) ops Broadcast.init = Some (abstraction s) /\
  (DestroyJoin ∉ acts ->
   (rounds s).*1 ++ in_hand (worker s) ++ dataQueue s = Broadcast.enqueued call ops Broadcast.init).
Proof.
  intros E ops.
  assert (execs (Broadcast.exec call) ops Broadcast.init = Some (abstraction s)) as Hops.
  { change Broadcast.init with (abstraction construct). refine (simulation_execs exec (Broadcast.exec call) operation invariant abstraction acts construct s _ E).
    apply handler_invariant_construct. }
  split; [done|]. intros Hj. refine (Broadcast.spec_fifo call ops Broadcast.init _ _ Hops).
  clear -Hj. unfold ops. clear ops. revert Hj. generalize (@construct T Listener).
  induction acts as [|a acts IH]; intros s0 Hj; cbn [labels]; [by intros ?%elem_of_nil|].
  apply not_elem_of_cons in Hj as [Ha Hj]. destruct (exec a s0) as [s1|]; [|by intros ?%elem_of_nil].
  rewrite elem_of_app. intros [Hc|Hc]; [|by eapply IH].
  destruct a; cbn in Hc; repeat case_match; cbn in Hc;
    rewrite ?list_elem_of_singleton in Hc; try done; by apply elem_of_nil in Hc.
Qed.
End refines.

(** Two listeners, the second of which throws; one datum delivered, one in the
    worker's hand when the destructor sets the flag; a registration that has passed
    its test of the flag before is completed after. *)
Definition w_call (l d : Z) : Outcome := if l =? 7 then ThrewOther else Returned.

Definition w_acts : list (@Action Z Z) :=
  [RegisterEnter 8; Register 0; SignalEnter 1; RegisterEnter 7; Register 0; SignalEnter 2; SignalPush 1;
   Worker; Worker; Worker; Worker; Worker; SignalPush 0; UnregisterEnter 124; Unregister 0; RegisterEnter 9;
   Worker; Worker; Worker; Worker; DestroyFlag; Register 0; RegisterEnter 6].

Definition w_state : @State Z Z :=
  mkState true [(125, 7); (126, 9)] 126 [] [] [] (WNotify 1) OFlagged [(2, [8; 7])] [2; 1]
    ["Listener threw an unknown exception!"%string].

Lemma handler_refines_witness :
  let ops := labels (exec w_call) operation w_acts construct in
  execs (Broadcast.exec w_call) ops Broadcast.init = Some (abstraction w_state) /\
  (DestroyJoin ∉ w_acts ->
   (rounds w_state).*1 ++ in_hand (worker w_state) ++ dataQueue w_state
   = Broadcast.enqueued w_call ops Broadcast.init).
Proof. apply (handler_refines w_call w_acts w_state). vm_compute. reflexivity. Defined.
