(* ===== verification/Timer.v ===== *)
(** One-shot and periodic timer: src/libs/CommonUtils/Timer.cpp.

    A state holds the members of a [Timer], a clock in milliseconds, the
    program counter of the thread in [_thread] and that of the client thread
    that calls the methods.  [exec] performs one atomic action of one thread;
    [None] means that the action is not enabled.  The timer's thread holds
    [_mutex] at the counters [holds] lists; stop() takes and releases it in one
    action.  The function does not throw (that would end the process) and does
    not call back into its own timer (it runs under [_mutex], which stop()
    takes). *)

From S2P Require Import Prelude.

Section timer.
Context {F : Type}.

(** * State *)

Inductive Kind : Type := OneShot | Periodic.

(** [TLoop]: before the test of startPeriodic's loop; [TLock]: before taking
    the mutex; [TWaitFor]: entering wait_for; [TPred]: before the predicate;
    [TPark]: predicate false, about to release the mutex and block;
    [TBlocked]; [TWoken]: awake, before retaking the mutex; [TPredLast]: the
    wait timed out, before the last evaluation of the predicate; [TCheck]:
    wait_for returned false; [TCall]: before func(); [TEnd]: after the inner
    if; [TDone]: the thread has returned. *)
Inductive Pc : Type :=
  | TLoop | TLock | TWaitFor | TPred | TPark | TBlocked | TWoken | TPredLast | TCheck | TCall
  | TEnd | TDone.

Record Thread : Type := mkThread {
  kind : Kind;
  func : F;
  interval : Z;
  pc : Pc;
  deadline : Z;
}.

(** One start of the timer and the times, newest first, of the calls of its
    function: history, which the code does not keep. *)
Record Run : Type := mkRun {
  run_kind : Kind;
  run_func : F;
  run_interval : Z;
  started : Z;
  times : list Z;
}.

(** What the client does when stop() has returned. *)
Inductive After : Type := AReturn | AStart (k : Kind) (f : F) (i : Z) | ADestroyed.

Inductive MainPc : Type :=
  | MIdle
  | MStart (k : Kind) (f : F) (i : Z)
  | MStopLock (a : After) | MStopNotify (a : After) | MStopJoin (a : After)
  | MDestroyed.

Record State : Type := mkState {
  now : Z;
  isRunning : bool;
  thread : option Thread;
  main : MainPc;
  terminated : bool;
  runs : list Run;
}.

(** Timer::Timer() *)
Definition construct : State := mkState 0 false None MIdle false [].

(** * The client's calls *)

(** startOneShot and startPeriodic up to their [if]. *)
Definition start (k : Kind) (f : F) (i : Z) (s : State) : State :=
  mkState (now s) (isRunning s) (thread s)
    (if isRunning s then MStopLock (AStart k f i) else MStart k f i) (terminated s) (runs s).

(** The rest: the flag, and the assignment of the new thread, which is
    std::terminate when [_thread] is still joinable. *)
Definition startThread (k : Kind) (f : F) (i : Z) (s : State) : State :=
  match thread s with
  | Some t => mkState (now s) true (Some t) MIdle true (runs s)
  | None =>
      mkState (now s) true
        (Some (mkThread k f i (match k with OneShot => TLock | Periodic => TLoop end) 0))
        MIdle (terminated s) (mkRun k f i (now s) [] :: runs s)
  end.

Definition stop (a : After) (s : State) : State :=
  mkState (now s) (isRunning s) (thread s) (MStopLock a) (terminated s) (runs s).

Definition holds (p : Pc) : bool :=
  match p with
  | TWaitFor | TPred | TPark | TPredLast | TCheck | TCall | TEnd => true
  | _ => false
  end.

Definition mutex_held (s : State) : bool :=
  match thread s with Some t => holds (pc t) | None => false end.

Definition set_pc (p : Pc) (t : Thread) : Thread :=
  mkThread (kind t) (func t) (interval t) p (deadline t).

Definition notified (t : Thread) : Thread :=
  match pc t with TBlocked => set_pc TWoken t | _ => t end.

Definition finished (a : After) : MainPc :=
  match a with AReturn => MIdle | AStart k f i => MStart k f i | ADestroyed => MDestroyed end.

(** The next action of the client inside a call. *)
Definition mainStep (s : State) : option State :=
  match main s with
  | MIdle | MDestroyed => None
  | MStart k f i => Some (startThread k f i s)
  | MStopLock a =>
      if mutex_held s then None
      else Some (mkState (now s) false (thread s) (MStopNotify a) (terminated s) (runs s))
  | MStopNotify a =>
      Some (mkState (now s) (isRunning s) (notified <$> thread s) (MStopJoin a) (terminated s) (runs s))
  | MStopJoin a =>
      match thread s with
      | None => Some (mkState (now s) (isRunning s) None (finished a) (terminated s) (runs s))
      | Some t =>
          match pc t with
          | TDone => Some (mkState (now s) (isRunning s) None (finished a) (terminated s) (runs s))
          | _ => None
          end
      end
  end.

(** * The timer's thread *)

(** func() is recorded at the current time in the newest run. *)
Definition record_call (t : Z) (rs : list Run) : list Run :=
  match rs with
  | [] => []
  | r :: rs => mkRun (run_kind r) (run_func r) (run_interval r) (started r) (t :: times r) :: rs
  end.

Definition goto (p : Pc) (t : Thread) (s : State) : State :=
  mkState (now s) (isRunning s) (Some (set_pc p t)) (main s) (terminated s) (runs s).

Definition threadStep (s : State) : option State :=
  t ← thread s;
  match pc t with
  | TLoop => Some (goto (if isRunning s then TLock else TDone) t s)
  | TLock => Some (goto TWaitFor t s)
  | TWaitFor =>
      Some (goto TPred (mkThread (kind t) (func t) (interval t) (pc t) (now s + interval t)) s)
  | TPred => Some (goto (if isRunning s then TPark else TDone) t s)
  | TPark => Some (goto TBlocked t s)
  | TBlocked => if deadline t <=? now s then Some (goto TWoken t s) else None
  | TWoken => Some (goto (if now s <? deadline t then TPred else TPredLast) t s)
  | TPredLast => Some (goto (if isRunning s then TCheck else TDone) t s)
  | TCheck => Some (goto (if isRunning s then TCall else TEnd) t s)
  | TCall =>
      Some (mkState (now s) (isRunning s) (Some (set_pc TEnd t)) (main s) (terminated s)
              (record_call (now s) (runs s)))
  | TEnd =>
      match kind t with
      | OneShot =>
          Some (mkState (now s) false (Some (set_pc TDone t)) (main s) (terminated s) (runs s))
      | Periodic => Some (goto TLoop t s)
      end
  | TDone => None
  end.

Definition spuriousWakeup (s : State) : option State :=
  t ← thread s;
  match pc t with TBlocked => Some (goto TWoken t s) | _ => None end.

(** * The system *)

Inductive Action : Type :=
  | Start (k : Kind) (f : F) (i : Z)
  | Stop
  | Destroy
  | Main
  | Worker
  | Spurious
  | Tick (n : nat).

(** A call needs an idle client; an interval is an [unsigned int]. *)
Definition exec (a : Action) (s : State) : option State :=
  if terminated s then None else
  match a, main s with
  | Start k f i, MIdle => if (0 <=? i) && (i <? 4294967296) then Some (start k f i s) else None
  | Stop, MIdle => Some (stop AReturn s)
  | Destroy, MIdle => Some (stop ADestroyed s)
  | Start _ _ _, _ | Stop, _ | Destroy, _ => None
  | Main, _ => mainStep s
  | Worker, _ => threadStep s
  | Spurious, _ => spuriousWakeup s
  | Tick n, _ => Some (mkState (now s + Z.of_nat n) (isRunning s) (thread s) (main s) (terminated s) (runs s))
  end.

#[local] Abbreviation execs := (Prelude.execs exec).
#[local] Abbreviation reachable := (Prelude.reachable exec construct).

(** * Invariant *)

Definition last_time (r : Run) : Z := match times r with t :: _ => t | [] => started r end.

(** Consecutive calls, and the first after the start, are [i] or more apart. *)
Fixpoint spaced (i st : Z) (l : list Z) : Prop :=
  match l with
  | [] => True
  | t :: l => match l with [] => st | t' :: _ => t' end + i <= t /\ spaced i st l
  end.

Record run_ok (tnow : Z) (r : Run) : Prop := {
  run_spaced : spaced (run_interval r) (started r) (times r);
  run_past : last_time r <= tnow;
  run_once : run_kind r = OneShot -> (length (times r) <= 1)%nat;
}.

Definition waiting (p : Pc) : bool :=
  match p with
  | TPred | TPark | TBlocked | TWoken | TPredLast | TCheck | TCall => true
  | _ => false
  end.

Definition expired (p : Pc) : bool :=
  match p with TPredLast | TCheck | TCall => true | _ => false end.

(** What the thread's counter says about its run. *)
Record thread_ok (tnow : Z) (t : Thread) (r : Run) : Prop := {
  th_kind : run_kind r = kind t;
  th_func : run_func r = func t;
  th_interval : run_interval r = interval t;
  th_wait : waiting (pc t) = true -> last_time r + interval t <= deadline t;
  th_expired : expired (pc t) = true -> deadline t <= tnow;
  th_once : kind t = OneShot -> pc t <> TEnd -> pc t <> TDone -> times r = [];
}.

(** Once stop() has cleared the flag under the mutex, the thread does not park
    and does not call. *)
Definition quiet (p : Pc) : bool :=
  match p with TPark | TCheck | TCall | TEnd => false | _ => true end.

Definition main_ok (s : State) : Prop :=
  match main s with
  | MStopLock _ => True
  | MStopNotify _ => isRunning s = false /\ ∀ t, thread s = Some t -> quiet (pc t) = true
  | MStopJoin _ =>
      isRunning s = false /\ ∀ t, thread s = Some t -> quiet (pc t) = true /\ pc t <> TBlocked
  | MDestroyed => thread s = None
  | MIdle => isRunning s = false -> ∀ t, thread s = Some t -> kind t = OneShot /\ pc t = TDone
  | MStart _ _ _ => isRunning s = false /\ ∀ t, thread s = Some t -> kind t = OneShot /\ pc t = TDone
  end.

Record invariant (s : State) : Prop := {
  inv_runs : Forall (run_ok (now s)) (runs s);
  inv_thread : ∀ t, thread s = Some t -> ∃ r rs, runs s = r :: rs /\ thread_ok (now s) t r;
  inv_main : main_ok s;
}.

Lemma run_ok_later n m r : run_ok n r -> n <= m -> run_ok m r.
Proof. intros [] ?. split; [done|lia|done]. Qed.

Tactic Notation "fields" :=
  cbn [now isRunning thread main terminated runs kind func interval pc deadline set_pc goto].
Tactic Notation "fields" "in" "*" :=
  cbn [now isRunning thread main terminated runs kind func interval pc deadline set_pc goto] in *.

Lemma timer_invariant_construct : invariant construct.
Proof. split; [constructor|done|done]. Qed.

(** Moving the thread: what its new counter needs. *)
Lemma invariant_goto p t t' s :
  invariant s -> thread s = Some t -> kind t' = kind t -> func t' = func t -> interval t' = interval t ->
  (∀ r, thread_ok (now s) t r -> last_time r <= now s -> thread_ok (now s) (set_pc p t') r) ->
  main_ok (goto p t' s) -> invariant (goto p t' s).
Proof.
  intros [Hr Ht _] E Hk Hf Hi Hok Hm. split; fields; [done| |done].
  intros u [= <-]. destruct (Ht t E) as (r & rs & Hrs & Hth). exists r, rs. split; [done|].
  apply Hok; [done|]. rewrite Hrs in Hr. apply Forall_cons_1 in Hr as [[] _]. done.
Qed.

Lemma main_ok_goto p t t' s :
  main_ok s -> thread s = Some t -> pc t <> TDone ->
  (isRunning s = false -> quiet (pc t) = true -> quiet p = true /\ (p = TBlocked -> pc t = TBlocked)) ->
  main_ok (goto p t' s).
Proof.
  unfold main_ok. fields. intros Hm E Hp Hq. destruct (main s).
  - intros Hf. by destruct (Hm Hf t E).
  - destruct Hm as [_ Hm]. by destruct (Hm t E).
  - done.
  - destruct Hm as [Hf Hm]. split; [done|]. intros u [= <-]. by apply Hq; [|apply Hm].
  - destruct Hm as [Hf Hm]. destruct (Hm t E) as [Hqt Hb]. destruct (Hq Hf Hqt) as [? Hpb].
    split; [done|]. intros u [= <-]. split; [done|]. intros ?. by apply Hb, Hpb.
  - congruence.
Qed.

Lemma invariant_threadStep s s' : invariant s -> threadStep s = Some s' -> invariant s'.
Proof.
  intros Hi. unfold threadStep. intros (t & E & H)%bind_Some. pose proof Hi as [Hr Ht Hm].
  destruct (pc t) eqn:Ep; try discriminate H.
  all: try (destruct (deadline t <=? now s) eqn:Ed; [|discriminate H]).
  all: try (injection H as <-; eapply invariant_goto; [exact Hi|exact E|done..| |];
    [intros r [] Hl; rewrite ?Ep in *; cbn [waiting expired] in *; split; fields;
       cbn [waiting expired]; try done;
       repeat match goal with |- context [if isRunning ?x then _ else _] => destruct (isRunning x) eqn:? end;
       try case_bool; bool_prop; cbn [waiting expired]; intros; try done;
       try lia; try (apply th_once0; done)
    |apply (main_ok_goto _ t); rewrite ?Ep; [done|done|done|]; cbn [quiet]; intros; try done;
     repeat match goal with H : isRunning ?x = false |- _ => rewrite H; clear H end; try done;
     try case_bool; done]).
  - (* the call *)
    injection H as <-. destruct (Ht t E) as (r & rs & Hrs & []). rewrite Hrs in Hr.
    apply Forall_cons_1 in Hr as [[Hsp Hpast Honce] Hrest]. rewrite Ep in *. cbn [waiting expired] in *.
    specialize (th_wait0 eq_refl). specialize (th_expired0 eq_refl).
    split; fields; rewrite Hrs; cbn [record_call].
    + constructor; [|done]. split; cbn [run_interval started times run_kind last_time].
      * cbn [spaced]. split; [|done]. rewrite th_interval0. unfold last_time in th_wait0. lia.
      * done.
      * intros Hk. rewrite th_once0 by congruence. cbn. lia.
    + intros u [= <-]. eexists _, rs. split; [done|]. split; fields; try done.
    + apply (main_ok_goto TEnd t t s); rewrite ?Ep; done.
  - destruct (kind t) eqn:Ek; injection H as <-.
    + destruct (Ht t E) as (r & rs & Hrs & []). split; fields; [done| |].
      * intros u [= <-]. exists r, rs. split; [done|]. split; fields; try done.
      * unfold main_ok in *. fields. destruct (main s).
        -- intros _ u [= <-]. done.
        -- split; [done|]. intros u [= <-]. done.
        -- done.
        -- destruct Hm as [_ Hm]. by specialize (Hm t E); rewrite Ep in Hm.
        -- destruct Hm as [_ Hm]. by destruct (Hm t E) as [Hq _]; rewrite Ep in Hq.
        -- congruence.
    + eapply invariant_goto; [exact Hi|exact E|done..| |].
      * intros r [] _. split; fields; try done. rewrite Ek. done.
      * apply (main_ok_goto _ t); rewrite ?Ep; done.
Qed.

Lemma mutex_free_quiet s :
  mutex_held s = false -> ∀ t, thread s = Some t -> quiet (pc t) = true.
Proof. unfold mutex_held. intros H t E. rewrite E in H. by destruct (pc t). Qed.

Lemma invariant_mainStep s s' : invariant s -> mainStep s = Some s' -> invariant s'.
Proof.
  intros [Hr Ht Hm]. unfold mainStep, main_ok in *. destruct (main s) as [|k f i|a|a|a|] eqn:Em; try done.
  - intros [= <-]. unfold startThread. destruct (thread s) as [t|] eqn:E; split; fields; try done.
    + constructor; [|done]. split; cbn; [done|lia|lia].
    + intros u [= <-]. eexists _, (runs s). split; [done|]. destruct k; by split.
  - destruct (mutex_held s) eqn:Eh; [done|]. intros [= <-]. split; fields; [done..|].
    unfold main_ok; fields. split; [done|]. by apply mutex_free_quiet.
  - intros [= <-]. destruct Hm as [Hf Hm]. split; fields; [done| |].
    + intros u (t & E & ->)%fmap_Some. destruct (Ht t E) as (r & rs & ? & Hth). exists r, rs. split; [done|].
      unfold notified. destruct (pc t) eqn:Ep; try done. destruct Hth. split; fields; try done.
      * rewrite Ep in *. done.
      * intros. apply th_once0; rewrite ?Ep; done.
    + unfold main_ok; fields. split; [done|]. intros u (t & E & ->)%fmap_Some. specialize (Hm t E).
      unfold notified. destruct (pc t) eqn:Ep; fields; rewrite ?Ep in *; done.
  - destruct Hm as [Hf Hm].
    assert (mkState (now s) (isRunning s) None (finished a) (terminated s) (runs s) = s' -> invariant s') as H.
    { intros <-. split; fields; [done..|]. unfold main_ok; fields. by destruct a; cbn. }
    destruct (thread s) as [t|]; [destruct (pc t); try done|]; intros [= E]; by apply H.
Qed.

Lemma timer_invariant_exec a s s' : invariant s -> exec a s = Some s' -> invariant s'.
Proof.
  intros Hi. unfold exec. destruct (terminated s); [done|]. pose proof Hi as [Hr Ht Hm].
  unfold main_ok in Hm.
  destruct a as [k f i| | | | | |n].
  - destruct (main s) eqn:Em; try done. case_match; [|done]. intros [= <-]. split; fields; try done.
    unfold main_ok, start; fields. destruct (isRunning s) eqn:Ef; [done|]. split; [done|]. by apply Hm.
  - destruct (main s) eqn:Em; try done. intros [= <-]. by split.
  - destruct (main s) eqn:Em; try done. intros [= <-]. by split.
  - intros H. eapply invariant_mainStep; [done|]. by destruct (main s).
  - intros H. eapply invariant_threadStep; [done|]. by destruct (main s).
  - intros H. assert (spuriousWakeup s = Some s') as Hs by (by destruct (main s)). clear H. revert Hs.
    unfold spuriousWakeup. intros (t & E & H)%bind_Some. destruct (pc t) eqn:Ep; try done.
    injection H as <-. eapply invariant_goto; [exact Hi|exact E|done..| |].
    + intros r [] _. rewrite Ep in *. split; fields; try done. intros. by apply th_once0.
    + apply (main_ok_goto _ t); rewrite ?Ep; done.
  - intros [= <-]. split; fields; [|..|done].
    + eapply List.Forall_impl; [|exact Hr]. intros r ?. eapply run_ok_later; [done|lia].
    + intros t E. destruct (Ht t E) as (r & rs & Hrs & []). exists r, rs. split; [done|]. split; try done.
      intros Hx. specialize (th_expired0 Hx). lia.
Qed.

Lemma timer_reachable_invariant s : reachable s -> invariant s.
Proof. apply reachable_ind'; [apply timer_invariant_construct|]. intros a ??. apply timer_invariant_exec. Qed.

(** * Properties *)

(** C37: the function is never called early or, by a one-shot timer, twice: in
    every reachable state the calls made since each start are at least the
    interval apart, the first at least the interval after the start, and a
    one-shot start has at most one. *)
Theorem timer_call_times s r :
  reachable s -> r ∈ runs s ->
  spaced (run_interval r) (started r) (times r) /\
  (run_kind r = OneShot -> (length (times r) <= 1)%nat) /\ Forall (λ t, t <= now s) (take 1 (times r)).
Proof.
  intros [Hr _ _]%timer_reachable_invariant Hin. rewrite List.Forall_forall in Hr.
  apply list_elem_of_In, Hr in Hin as [Hs Hp Ho]. split; [done|]. split; [done|].
  unfold last_time in Hp. destruct (times r); repeat constructor. done.
Qed.

(** Without a running thread and a start under way, no function is called. *)
Definition no_thread (rs : list Run) (s : State) : Prop :=
  thread s = None /\ runs s = rs /\
  match main s with
  | MStart _ _ _ => False
  | MStopLock a | MStopNotify a | MStopJoin a => match a with AStart _ _ _ => False | _ => True end
  | _ => True
  end.

Definition is_start (a : Action) : bool := match a with Start _ _ _ => true | _ => false end.

Lemma no_thread_exec rs a s s' :
  is_start a = false -> no_thread rs s -> exec a s = Some s' -> no_thread rs s'.
Proof.
  intros Ha (Ht & Hrs & Hm). unfold exec. destruct (terminated s); [done|].
  assert (threadStep s = None /\ spuriousWakeup s = None) as [E1 E2].
  { unfold threadStep, spuriousWakeup. by rewrite Ht. }
  destruct a; try done.
  - destruct (main s) eqn:Em; try done. by intros [= <-].
  - destruct (main s) eqn:Em; try done. by intros [= <-].
  - unfold mainStep. rewrite Ht. destruct (main s) as [| |a|a|a|] eqn:Em; try done.
    + unfold mutex_held. rewrite Ht. by intros [= <-].
    + by intros [= <-].
    + intros [= <-]. split; [done|]. split; [done|]. fields. by destruct a.
  - rewrite E1. by destruct (main s).
  - rewrite E2. by destruct (main s).
  - intros H. assert (Some (mkState (now s + Z.of_nat n) (isRunning s) (thread s) (main s) false (runs s))
      = Some s') as [= <-] by (by destruct (main s)). done.
Qed.

(** When stop() has returned the function is not called again, whatever
    time passes and whatever is called, until the timer is started again. *)
Theorem timer_silent_after_stop s0 s1 acts s2 :
  reachable s0 -> main s0 = MStopJoin AReturn -> exec Main s0 = Some s1 -> execs acts s1 = Some s2 ->
  Forall (λ a, is_start a = false) acts -> runs s2 = runs s1 /\ thread s2 = None.
Proof.
  intros _ Hm H1 Hacts Hns. rewrite List.Forall_forall in Hns.
  apply (execs_invariant exec (no_thread (runs s1)) acts s1 s2) in Hacts as (? & ? & _); [done| |].
  - intros a s s' Ha%list_elem_of_In%Hns. by apply no_thread_exec.
  - unfold exec in H1. destruct (terminated s0); [done|]. unfold mainStep in H1.
    rewrite Hm in H1. destruct (thread s0) as [t|]; [destruct (pc t); try done|];
    injection H1 as <-; done.
Qed.

(** The stop() a client is in, and what it continues with. *)
Definition stopping (m : MainPc) : option After :=
  match m with MStopLock a | MStopNotify a | MStopJoin a => Some a | _ => None end.

Definition stopped (a : After) (s' : State) : Prop :=
  main s' = finished a /\ isRunning s' = false /\ thread s' = None.

Ltac runs_to k := exists k; eexists; (split; [lia|]); (split; [cbn; reflexivity|done]).

(** The thread reaches its end in three actions, and the join returns. *)
Lemma stop_join s a :
  invariant s -> terminated s = false -> main s = MStopJoin a ->
  ∃ n s', (n <= 3)%nat /\ execs (replicate n Worker ++ [Main]) s = Some s' /\ stopped a s'.
Proof.
  intros [_ _ Hm]. destruct s as [nw rn th m te rs]. unfold main_ok in Hm. fields in *. intros -> ->.
  destruct Hm as [-> Hq]. destruct th as [[k f i p d]|]; [|runs_to 0%nat].
  destruct (Hq _ eq_refl) as [Hp Hb]. fields in *. destruct p; try done.
  - runs_to 1%nat.
  - runs_to 3%nat.
  - runs_to 2%nat.
  - runs_to 1%nat.
  - exists 2%nat. cbn. destruct (nw <? d); cbn; eexists; (split; [lia|]); (split; [reflexivity|done]).
  - runs_to 1%nat.
  - runs_to 0%nat.
Qed.

(** Four actions of the thread at most before it releases the mutex. *)
Lemma release_mutex s a :
  terminated s = false -> main s = MStopLock a ->
  ∃ n s', (n <= 4)%nat /\ execs (replicate n Worker) s = Some s' /\ terminated s' = false /\
    main s' = MStopLock a /\ mutex_held s' = false.
Proof.
  destruct s as [nw rn th m te rs]. fields. intros -> ->.
  destruct th as [[k f i p d]|]; [|runs_to 0%nat].
  destruct p; try runs_to 0%nat; destruct rn.
  all: try runs_to 1%nat; try runs_to 2%nat; try runs_to 3%nat.
  all: destruct k; try runs_to 1%nat; try runs_to 2%nat; try runs_to 3%nat; runs_to 4%nat.
Qed.

Lemma stop_notify s a :
  reachable s -> terminated s = false -> main s = MStopNotify a ->
  ∃ n s', (n <= 3)%nat /\ execs (Main :: replicate n Worker ++ [Main]) s = Some s' /\ stopped a s'.
Proof.
  intros Hr Ht Hm.
  set (s1 := mkState (now s) (isRunning s) (notified <$> thread s) (MStopJoin a) false (runs s)).
  assert (exec Main s = Some s1) as E by (unfold exec, mainStep; by rewrite Ht, Hm).
  destruct (stop_join s1 a) as (n & s' & ?); [|done..|].
  { apply timer_reachable_invariant. by eapply reachable_step. }
  exists n, s'. cbn [execs]. by rewrite E.
Qed.

Lemma Forall_workers n acts :
  Forall (λ b, b = Main \/ b = Worker) acts ->
  Forall (λ b, b = Main \/ b = Worker) (replicate n Worker ++ acts).
Proof. intros. apply Forall_app. split; [|done]. apply Forall_replicate. auto. Qed.

(** C38: stop() cannot hang: at whatever point of whatever interleaving the
    client is inside a stop, ten actions of the client and of the timer's thread
    let it return, the flag cleared and the thread joined (unlike DataHandler's
    destructor, it clears the flag under the mutex). *)
Theorem timer_stop_returns s a :
  reachable s -> terminated s = false ->
  main s = MStopLock a \/ main s = MStopNotify a \/ main s = MStopJoin a ->
  ∃ acts s', Forall (λ b, b = Main \/ b = Worker) acts /\ (length acts <= 10)%nat /\
    execs acts s = Some s' /\ main s' = finished a /\ isRunning s' = false /\ thread s' = None.
Proof.
  intros Hr Ht [Hm|[Hm|Hm]].
  - destruct (release_mutex s a Ht Hm) as (n & s1 & Hn & H1 & Ht1 & Hm1 & Hf).
    set (s2 := mkState (now s1) false (thread s1) (MStopNotify a) false (runs s1)).
    assert (exec Main s1 = Some s2) as E by (unfold exec, mainStep; by rewrite Ht1, Hm1, Hf).
    assert (reachable s1) as Hr1 by (by eapply execs_reachable).
    destruct (stop_notify s2 a) as (k & s' & Hk & H' & ?); [by eapply reachable_step|done..|].
    exists (replicate n Worker ++ Main :: Main :: replicate k Worker ++ [Main]), s'. split; [|split; [|split; [|done]]].
    + apply Forall_workers. do 2 (constructor; [by left|]). apply Forall_workers. repeat constructor.
    + rewrite length_app, length_replicate. cbn [length]. rewrite length_app, length_replicate. cbn; lia.
    + rewrite execs_app, H1, bind_ret. cbn [execs] in H' |- *. by rewrite E, bind_ret.
  - destruct (stop_notify s a Hr Ht Hm) as (k & s' & Hk & H' & ?). eexists _, s'. split; [|split; [|split; [exact H'|done]]].
    + constructor; [by left|]. apply Forall_workers. repeat constructor.
    + cbn [length]. rewrite length_app, length_replicate. cbn; lia.
  - destruct (stop_join s a) as (k & s' & Hk & H' & ?); [by apply timer_reachable_invariant|done..|].
    eexists _, s'. split; [|split; [|split; [exact H'|done]]].
    + apply Forall_workers. repeat constructor.
    + rewrite length_app, length_replicate. cbn; lia.
Qed.

Lemma terminated_exec a s s' :
  terminated s = false -> exec a s = Some s' -> terminated s' = true ->
  a = Main /\ ∃ t k f i, main s = MStart k f i /\ thread s = Some t.
Proof.
  intros Et Hex Ht'. unfold exec in Hex. rewrite Et in Hex. destruct a as [k f i| | | | | |n].
  - destruct (main s); try done. case_match; [|done]. injection Hex as <-. unfold start, stop in *; fields in *; congruence.
  - destruct (main s); try done. injection Hex as <-. unfold start, stop in *; fields in *; congruence.
  - destruct (main s); try done. injection Hex as <-. unfold start, stop in *; fields in *; congruence.
  - split; [done|]. unfold mainStep in Hex. destruct (main s) as [|k f i|b|b|b|] eqn:Em; try done.
    + unfold startThread in Hex. destruct (thread s) as [t|] eqn:E; injection Hex as <-;
        [|unfold start, stop in *; fields in *; congruence]. by exists t, k, f, i.
    + destruct (mutex_held s); [done|]. injection Hex as <-. unfold start, stop in *; fields in *; congruence.
    + injection Hex as <-. unfold start, stop in *; fields in *; congruence.
    + destruct (thread s) as [t|]; [destruct (pc t); try done|]; injection Hex as <-; unfold start, stop in *; fields in *; congruence.
  - unfold threadStep in Hex. apply bind_Some in Hex as (t & E & H).
    destruct (pc t); try done; try destruct (kind t); try (case_match; [|done]); injection H as <-;
      unfold start, stop in *; fields in *; congruence.
  - unfold spuriousWakeup in Hex. apply bind_Some in Hex as (t & E & H).
    destruct (pc t); try done. injection H as <-. unfold start, stop in *; fields in *; congruence.
  - injection Hex as <-. done.
Qed.

(** C39: a process that starts a one-shot timer again after it has expired by
    itself is terminated: the flag is clear, so the start does not call stop(),
    and the new thread is assigned to a thread object nobody has joined.  That
    is the only way to terminate: it takes an expired one-shot thread, and every
    start of a running or stopped timer is safe. *)
Theorem timer_restart_terminates s :
  reachable s -> terminated s = false -> main s = MIdle ->
  (∀ t k f i, thread s = Some t -> pc t = TDone -> isRunning s = false -> 0 <= i < 4294967296 ->
    ∃ s', execs [Start k f i; Main] s = Some s' /\ terminated s' = true) /\
  (∀ a acts s1 s2, execs acts s = Some s1 -> exec a s1 = Some s2 -> terminated s2 = true ->
    ∃ t k f i, a = Main /\ main s1 = MStart k f i /\ thread s1 = Some t /\ kind t = OneShot /\ pc t = TDone).
Proof.
  intros Hr Ht Hm. split.
  - intros t k f i E Ep Hf Hi.
    assert (exec (Start k f i) s = Some (start k f i s)) as E1.
    { unfold exec. rewrite Ht, Hm. destruct (Z.leb_spec 0 i); [|lia].
      destruct (Z.ltb_spec i 4294967296); [done|lia]. }
    eexists. cbn [execs]. rewrite E1, bind_ret. unfold exec, start, mainStep, startThread. fields.
    rewrite Ht, Hf, E. fields. done.
  - intros a acts s1 s2 Hacts Hex Ht2. assert (reachable s1) as Hi by (by eapply execs_reachable).
    apply timer_reachable_invariant in Hi as [_ _ Hmain]. unfold main_ok in Hmain.
    destruct (terminated s1) eqn:Et; [unfold exec in Hex; by rewrite Et in Hex|].
    destruct (terminated_exec a s1 s2 Et Hex Ht2) as (-> & t & k & f & i & Em & E).
    rewrite Em in Hmain. destruct Hmain as [_ Hd]. destruct (Hd t E). by exists t, k, f, i.
Qed.

End timer.

(** * Witnesses: a one-shot timer of 5 ms, expired *)

Definition expire : list (@Action nat) :=
  [Start OneShot 0%nat 5; Main; Worker; Worker; Worker; Worker; Tick 6; Worker; Worker; Worker; Worker;
   Worker; Worker].

Definition expired_timer : @State nat :=
  mkState 6 false (Some (mkThread OneShot 0%nat 5 TDone 5)) MIdle false [mkRun OneShot 0%nat 5 0 [6]].

Lemma expired_reachable : Prelude.reachable exec construct expired_timer.
Proof. apply (execs_reachable exec construct expire construct); [constructor|]. vm_compute. reflexivity. Qed.

Lemma timer_call_times_witness :
  spaced 5 0 [6] /\ (OneShot = OneShot -> (length [6] <= 1)%nat) /\ Forall (λ t, t <= 6) [6].
Proof.
  apply (timer_call_times expired_timer (mkRun OneShot 0%nat 5 0 [6])); [exact expired_reachable|left].
Defined.

Lemma timer_silent_after_stop_witness :
  runs (mkState 106 false None (MStopJoin ADestroyed) false [mkRun OneShot 0%nat 5 0 [6]])
    = [mkRun OneShot 0%nat 5 0 [6]] /\
  thread (mkState 106 false None (MStopJoin ADestroyed) false [mkRun OneShot 0%nat 5 0 [6]]) = None.
Proof.
  apply (timer_silent_after_stop
    (mkState 6 false (Some (mkThread OneShot 0%nat 5 TDone 5)) (MStopJoin AReturn) false [mkRun OneShot 0%nat 5 0 [6]])
    (mkState 6 false None MIdle false [mkRun OneShot 0%nat 5 0 [6]])
    [Tick 100; Destroy; Main; Main]).
  - apply (execs_reachable exec construct [Stop; Main; Main] expired_timer); [exact expired_reachable|].
    vm_compute. reflexivity.
  - done.
  - vm_compute. reflexivity.
  - vm_compute. reflexivity.
  - repeat constructor.
Defined.

Lemma timer_stop_returns_witness :
  ∃ acts s', Forall (λ b, b = Main \/ b = Worker) acts /\ (length acts <= 10)%nat /\
    Prelude.execs exec acts
      (mkState 0 true (Some (mkThread Periodic 0%nat 5 TPark 5)) (MStopLock AReturn) false
         [mkRun Periodic 0%nat 5 0 []]) = Some s' /\
    main s' = MIdle /\ isRunning s' = false /\ thread s' = None.
Proof.
  apply (timer_stop_returns (mkState 0 true (Some (mkThread Periodic 0%nat 5 TPark 5)) (MStopLock AReturn) false
         [mkRun Periodic 0%nat 5 0 []]) AReturn); [|done|by left].
  apply (execs_reachable exec construct [Start Periodic 0%nat 5; Main; Worker; Worker; Worker; Worker; Stop] construct);
    [constructor|]. vm_compute. reflexivity.
Defined.

Lemma timer_restart_terminates_witness :
  ∃ s', Prelude.execs exec [Start Periodic 1%nat 7; Main] expired_timer = Some s' /\ terminated s' = true.
Proof.
  destruct (timer_restart_terminates expired_timer) as [H _]; [exact expired_reachable|done|done|].
  by apply (H (mkThread OneShot 0%nat 5 TDone 5)).
Defined.
