(* ===== verification/SnoozableTimer.v ===== *)
(** Snoozable timer: src/libs/CommonUtils/SnoozableTimer.cpp.

    As in Timer.v: the members, a clock in milliseconds, the counters of the
    timer's thread and of the client thread, one atomic action per [exec].  The
    thread holds [_mutex] from the loop test until it blocks, in one action, and
    while it decides after a wait; it does not hold it while the function runs.
    std::condition_variable::wait_until reads the time point it was given by
    reference again when it wakes, so the status is that of the current
    [_executionTime]. *)

From S2P Require Import Prelude.

(** * State *)

(** [SLock]: before taking the mutex; [SLoop]: holding it, before the loop test;
    [SBlocked d]: waiting until [d]; [SWoken]: awake, before retaking the mutex;
    [SCall]: the mutex released, before the function; [SRunning]: inside it;
    [SRelock]: after it, before retaking the mutex; [SDone]. *)
Inductive Pc : Type :=
  | SLock | SLoop | SBlocked (d : Z) | SWoken | SCall | SRunning | SRelock | SDone.

Inductive MainPc : Type :=
  | MIdle
  | MStopLock (destroy : bool) | MStopNotify (destroy : bool) | MStopJoin (destroy : bool)
  | MSnooze
  | MDestroyed.

(** A call of the function: its time, the execution time that was reached when
    the wait ended, and the number of times the timer had been armed. *)
Record Call : Type := mkCall { at_time : Z; due_time : Z; armed_no : nat }.

(** [armed] and [calls], newest first, record history: the execution times set
    by start() and snooze(), and the calls.  [granted] is what the check that
    led to the next call read. *)
Record State : Type := mkState {
  now : Z;
  executionTime : Z;
  snoozePeriodMs : Z;
  isRunning : bool;
  thread : option Pc;
  main : MainPc;
  armed : list Z;
  granted : Z * nat;
  calls : list Call;
}.

Definition construct (anSnoozePeriodMs : Z) : State :=
  mkState 0 0 anSnoozePeriodMs false None MIdle [] (0, 0%nat) [].

(** * The client *)

Definition set_main (m : MainPc) (s : State) : State :=
  mkState (now s) (executionTime s) (snoozePeriodMs s) (isRunning s) (thread s) m (armed s) (granted s) (calls s).

Definition start (s : State) : State :=
  if isRunning s then s
  else
    let t := now s + snoozePeriodMs s in
    mkState (now s) t (snoozePeriodMs s) true (Some SLock) (main s) (t :: armed s) (granted s) (calls s).

Definition notified (p : Pc) : Pc := match p with SBlocked _ => SWoken | _ => p end.

Definition mutex_held (s : State) : bool := match thread s with Some SLoop => true | _ => false end.

Definition snooze (s : State) : State :=
  let t := now s + snoozePeriodMs s in
  mkState (now s) t (snoozePeriodMs s) (isRunning s) (notified <$> thread s) (main s) (t :: armed s)
    (granted s) (calls s).

(** updateSnoozePeriod up to its call of snooze(). *)
Definition updateSnoozePeriod (p : Z) (s : State) : State :=
  mkState (now s) (executionTime s) p (isRunning s) (thread s) MSnooze (armed s) (granted s) (calls s).

Definition mainStep (s : State) : option State :=
  match main s with
  | MIdle | MDestroyed => None
  | MSnooze => if mutex_held s then None else Some (set_main MIdle (snooze s))
  | MStopLock d =>
      if mutex_held s then None
      else Some (mkState (now s) (executionTime s) (snoozePeriodMs s) false (thread s) (MStopNotify d)
                   (armed s) (granted s) (calls s))
  | MStopNotify d =>
      Some (mkState (now s) (executionTime s) (snoozePeriodMs s) (isRunning s) (notified <$> thread s)
              (MStopJoin d) (armed s) (granted s) (calls s))
  | MStopJoin d =>
      match thread s with
      | None | Some SDone =>
          Some (mkState (now s) (executionTime s) (snoozePeriodMs s) (isRunning s) None
                  (if d then MDestroyed else MIdle) (armed s) (granted s) (calls s))
      | _ => None
      end
  end.

(** * The timer's thread *)

(** 87600 hours. *)
Definition FAR : Z := 315360000000.

Definition goto (p : Pc) (s : State) : State :=
  mkState (now s) (executionTime s) (snoozePeriodMs s) (isRunning s) (Some p) (main s) (armed s) (granted s) (calls s).

Definition threadStep (s : State) : option State :=
  p ← thread s;
  match p with
  | SLock => Some (goto SLoop s)
  | SLoop => Some (goto (if isRunning s then SBlocked (executionTime s) else SDone) s)
  | SBlocked d => if d <=? now s then Some (goto SWoken s) else None
  | SWoken =>
      if (executionTime s <=? now s) && isRunning s
      then Some (mkState (now s) (executionTime s) (snoozePeriodMs s) (isRunning s) (Some SCall) (main s)
                   (armed s) (executionTime s, length (armed s)) (calls s))
      else Some (goto SLoop s)
  | SCall =>
      Some (mkState (now s) (executionTime s) (snoozePeriodMs s) (isRunning s) (Some SRunning) (main s)
              (armed s) (granted s) (mkCall (now s) (granted s).1 (granted s).2 :: calls s))
  | SRunning => Some (goto SRelock s)
  | SRelock =>
      Some (mkState (now s) (now s + FAR) (snoozePeriodMs s) (isRunning s) (Some SLoop) (main s)
              (armed s) (granted s) (calls s))
  | SDone => None
  end.

Definition spuriousWakeup (s : State) : option State :=
  match thread s with Some (SBlocked _) => Some (goto SWoken s) | _ => None end.

(** * The system *)

Inductive Action : Type :=
  | Start | Stop | Destroy | Snooze | Update (p : Z) | Main | Worker | Spurious | Tick (n : nat).

(** The calls of an idle client; snooze() and updateSnoozePeriod() need the
    mutex. *)
Definition exec (a : Action) (s : State) : option State :=
  match a with
  | Start => match main s with MIdle => Some (start s) | _ => None end
  | Stop => match main s with MIdle => Some (set_main (MStopLock false) s) | _ => None end
  | Destroy => match main s with MIdle => Some (set_main (MStopLock true) s) | _ => None end
  | Snooze => match main s with MIdle => if mutex_held s then None else Some (snooze s) | _ => None end
  | Update p =>
      match main s with MIdle => if mutex_held s then None else Some (updateSnoozePeriod p s) | _ => None end
  | Main => mainStep s
  | Worker => threadStep s
  | Spurious => spuriousWakeup s
  | Tick n =>
      Some (mkState (now s + Z.of_nat n) (executionTime s) (snoozePeriodMs s) (isRunning s) (thread s)
              (main s) (armed s) (granted s) (calls s))
  end.

#[local] Abbreviation execs := (Prelude.execs exec).
#[local] Abbreviation reachable p := (Prelude.reachable exec (construct p)).

(** * Invariant *)

Tactic Notation "fields" :=
  cbn [now executionTime snoozePeriodMs isRunning thread main armed granted calls set_main goto
       at_time due_time armed_no fst snd].
Tactic Notation "fields" "in" "*" :=
  cbn [now executionTime snoozePeriodMs isRunning thread main armed granted calls set_main goto
       at_time due_time armed_no fst snd] in *.

(** Each call comes at or after the execution time it waited for, and that is
    the time of an arming no earlier call has answered; failing that, ten years
    after the previous call. *)
Fixpoint calls_ok (ar : list Z) (l : list Call) : Prop :=
  match l with
  | [] => True
  | c :: l =>
      due_time c <= at_time c /\
      ((ar !! armed_no c = Some (due_time c) /\ ∀ d, head l = Some d -> (armed_no d < armed_no c)%nat) \/
       ∃ d, head l = Some d /\ (armed_no d <= armed_no c)%nat /\ at_time d + FAR <= due_time c) /\
      calls_ok ar l
  end.

(** The execution times in the order of the armings; the first has number 1. *)
Definition arming_times (s : State) : list Z := 0 :: rev (armed s).

(** The latest call has not answered the latest of [n] armings. *)
Definition unanswered (n : nat) (l : list Call) : Prop := ∀ d, head l = Some d -> (armed_no d < n)%nat.

Definition in_call (t : option Pc) : Prop := t = Some SRunning \/ t = Some SRelock.

(** Where the execution time comes from: an arming, or the end of a call. *)
Definition execution_ok (s : State) : Prop :=
  (armed s = [] /\ thread s = None) \/ in_call (thread s) \/
  (∃ r, armed s = executionTime s :: r /\ unanswered (length (armed s)) (calls s)) \/
  (∃ d, head (calls s) = Some d /\ at_time d + FAR <= executionTime s).

(** What the check before a call has established. *)
Definition granted_ok (s : State) : Prop :=
  (granted s).1 <= now s /\ ((granted s).2 <= length (armed s))%nat /\
  ((arming_times s !! (granted s).2 = Some (granted s).1 /\ unanswered (granted s).2 (calls s)) \/
   ∃ d, head (calls s) = Some d /\ (armed_no d <= (granted s).2)%nat /\ at_time d + FAR <= (granted s).1).

Record invariant (s : State) : Prop := {
  inv_calls : calls_ok (arming_times s) (calls s);
  inv_last : ∀ d, head (calls s) = Some d -> at_time d <= now s /\ (armed_no d <= length (armed s))%nat;
  inv_execution : execution_ok s;
  inv_granted : thread s = Some SCall -> granted_ok s;
  inv_called : in_call (thread s) -> calls s <> [];
  inv_idle : main s = MIdle \/ main s = MSnooze -> isRunning s = false -> thread s = None;
}.

Lemma arming_latest s t r : armed s = t :: r -> arming_times s !! length (armed s) = Some t.
Proof.
  intros H. unfold arming_times. rewrite H. cbn [length rev].
  change ((rev r ++ [t]) !! length r = Some t). apply list_lookup_middle. by rewrite length_rev.
Qed.

Lemma calls_ok_app ar t l : calls_ok ar l -> calls_ok (ar ++ [t]) l.
Proof.
  induction l as [|c l IH]; cbn [calls_ok]; [done|]. intros (Hd & Hc & Hl). split; [done|]. split; [|by apply IH].
  destruct Hc as [[Hc Hn]|Hc]; [left|by right]. split; [|done]. by apply lookup_app_l_Some.
Qed.

(** A new arming [t] at which the members listed change and the calls do not. *)
Lemma snoozable_invariant_arm s t run th m per :
  invariant s -> (th = Some SCall -> thread s = Some SCall) -> (in_call th -> in_call (thread s)) ->
  (m = MIdle \/ m = MSnooze -> run = false -> th = None) ->
  invariant (mkState (now s) t per run th m (t :: armed s) (granted s) (calls s)).
Proof.
  intros [Hc Hl He Hg Hcl _] Hth Hin Hidle.
  assert (0 :: rev (t :: armed s) = arming_times s ++ [t]) as Ea by done.
  split; unfold arming_times, granted_ok; fields; rewrite ?Ea.
  - by apply calls_ok_app.
  - intros d Hd. destruct (Hl d Hd). cbn. split; [done|lia].
  - right. right. left. exists (armed s). split; [done|]. intros d Hd. destruct (Hl d Hd). cbn. lia.
  - intros Ht. destruct (Hg (Hth Ht)) as (H1 & H2 & H3). split; [done|]. split; [cbn; lia|].
    unfold arming_times. fields. rewrite Ea.
    destruct H3 as [[H3 Hu]|H3]; [left|by right]. split; [|done]. by apply lookup_app_l_Some.
  - intros Ht. by apply Hcl, Hin.
  - done.
Qed.

(** An action that leaves the armings, the calls and the execution time alone. *)
Lemma snoozable_invariant_move s run th m per :
  invariant s -> (th = Some SCall -> thread s = Some SCall) ->
  (in_call (thread s) <-> in_call th) -> (thread s = None -> th = None) ->
  (m = MIdle \/ m = MSnooze -> run = false -> th = None) ->
  invariant (mkState (now s) (executionTime s) per run th m (armed s) (granted s) (calls s)).
Proof.
  intros [Hc Hl He Hg Hcl _] Hth Hin Hnone Hidle. split; try done.
  - destruct He as [[H1 H2]|[H|H]]; [left; auto|right; left; by apply Hin|by right; right].
  - intros Ht. by apply Hg, Hth.
  - intros Ht. by apply Hcl, Hin.
Qed.

Lemma snoozable_invariant_construct p : invariant (construct p).
Proof. split; try done; [by left|by intros [[=]|[=]]]. Qed.

Lemma snoozable_in_call_notified t : in_call t <-> in_call (notified <$> t).
Proof. unfold in_call. destruct t as [[]|]; cbn; intuition congruence. Qed.

Lemma snoozable_notified_call t : notified <$> t = Some SCall -> t = Some SCall.
Proof. by destruct t as [[]|]. Qed.

Lemma snoozable_invariant_mainStep s s' : invariant s -> mainStep s = Some s' -> invariant s'.
Proof.
  intros Hi. unfold mainStep. destruct (main s) eqn:Em; try done.
  - destruct (mutex_held s); [done|]. intros [= <-]. apply snoozable_invariant_move; try done. by intros [[=]|[=]].
  - intros [= <-]. apply snoozable_invariant_move; [done|..].
    + apply snoozable_notified_call.
    + apply snoozable_in_call_notified.
    + by intros ->.
    + by intros [[=]|[=]].
  - assert (∀ m, thread s = None \/ thread s = Some SDone ->
      invariant (mkState (now s) (executionTime s) (snoozePeriodMs s) (isRunning s) None m (armed s) (granted s) (calls s))) as Hj.
    { intros m Ht. apply snoozable_invariant_move; try done. unfold in_call. destruct Ht as [-> | ->]; intuition congruence. }
    destruct (thread s) as [[]|]; try done; intros [= <-]; apply Hj; auto.
  - destruct (mutex_held s); [done|]. intros [= <-]. unfold snooze, set_main. fields. apply snoozable_invariant_arm; [done|..].
    + apply snoozable_notified_call.
    + apply snoozable_in_call_notified.
    + intros _ Hr. destruct Hi as [_ _ _ _ _ Hidle]. rewrite Hidle; auto.
Qed.

Lemma snoozable_invariant_threadStep s s' : invariant s -> threadStep s = Some s' -> invariant s'.
Proof.
  intros Hi. unfold threadStep. intros (p & E & H)%bind_Some.
  pose proof Hi as [Hc Hl He Hg Hcl Hidle].
  assert (∀ q, q <> SCall -> (in_call (thread s) <-> in_call (Some q)) -> invariant (goto q s)) as Hgo.
  { intros q Hq Hin. apply snoozable_invariant_move; [done|by intros [= ->]|done|congruence|]. intros Hm Hr.
    specialize (Hidle Hm Hr). congruence. }
  assert (main s = MIdle \/ main s = MSnooze -> isRunning s = false -> False) as Hrun.
  { intros Hm Hr. specialize (Hidle Hm Hr). congruence. }
  destruct p as [| |d| | | | |]; try done.
  - injection H as <-. apply Hgo; [done|]. rewrite E. unfold in_call; destruct (isRunning s); intuition congruence.
  - injection H as <-. apply Hgo; [by destruct (isRunning s)|]. rewrite E. unfold in_call; destruct (isRunning s); intuition congruence.
  - destruct (d <=? now s); [|done]. injection H as <-. apply Hgo; [done|]. rewrite E. unfold in_call; destruct (isRunning s); intuition congruence.
  - destruct ((executionTime s <=? now s) && isRunning s) eqn:Eb; injection H as <-.
    2: { apply Hgo; [done|]. rewrite E. unfold in_call; destruct (isRunning s); intuition congruence. }
    bool_prop. unfold execution_ok in He. rewrite E in He.
    destruct He as [[_ [=]]|[[[=]|[=]]|[(r & H1 & H2)|(d & Hd & Hf)]]].
    + split; fields; try done.
      * right. right. left. by exists r.
      * intros _. split; [done|]. split; [done|]. left. split; [|done]. exact (arming_latest s _ r H1).
      * by intros [[=]|[=]].
      * intros Hm Hr. by destruct (Hrun Hm Hr).
    + split; fields; try done.
      * right. right. right. by exists d.
      * intros _. split; [done|]. split; [done|]. right. exists d. split; [done|]. split; [|done]. by apply Hl.
      * by intros [[=]|[=]].
      * intros Hm Hr. by destruct (Hrun Hm Hr).
  - injection H as <-. destruct (Hg E) as (H1 & H2 & H3). split; fields.
    + cbn [calls_ok]. fields. auto.
    + intros d [= <-]. done.
    + right. left. by left.
    + done.
    + done.
    + intros Hm Hr. by destruct (Hrun Hm Hr).
  - injection H as <-. apply Hgo; [done|]. rewrite E. unfold in_call; intuition congruence.
  - injection H as <-. split; fields; try done.
    + right. right. right. fields. destruct (calls s) as [|d l]; [by destruct Hcl; [right|]|].
      exists d. split; [done|]. destruct (Hl d eq_refl). lia.
    + by intros [[=]|[=]].
    + intros Hm Hr. by destruct (Hrun Hm Hr).
Qed.

Lemma snoozable_invariant_start s : invariant s -> main s = MIdle -> invariant (start s).
Proof.
  intros Hi Hm. unfold start. destruct (isRunning s) eqn:Er; [done|]. apply snoozable_invariant_arm; try done.
  by intros [[=]|[=]].
Qed.

Lemma snoozable_invariant_exec a s s' : invariant s -> exec a s = Some s' -> invariant s'.
Proof.
  intros Hi. pose proof Hi as [Hc Hl He Hg Hcl Hidle].
  assert (∀ m, main s = MIdle -> invariant (set_main m s)) as Hset.
  { intros m Hm. apply snoozable_invariant_move; try done. auto. }
  unfold exec. destruct a.
  - destruct (main s) eqn:Em; try done. intros [= <-]. by apply snoozable_invariant_start.
  - destruct (main s) eqn:Em; try done. intros [= <-]. by apply Hset.
  - destruct (main s) eqn:Em; try done. intros [= <-]. by apply Hset.
  - destruct (main s) eqn:Em; try done. destruct (mutex_held s); [done|]. intros [= <-].
    unfold snooze. apply snoozable_invariant_arm; [done|apply snoozable_notified_call|apply snoozable_in_call_notified|].
    intros _ Hr. rewrite Hidle; auto.
  - destruct (main s) eqn:Em; try done. destruct (mutex_held s); [done|]. intros [= <-].
    apply snoozable_invariant_move; try done. auto.
  - by apply snoozable_invariant_mainStep.
  - by apply snoozable_invariant_threadStep.
  - unfold spuriousWakeup. destruct (thread s) as [[]|] eqn:E; try done. intros [= <-].
    apply snoozable_invariant_move; try done.
    + rewrite E. unfold in_call; intuition congruence.
    + by rewrite E.
    + intros Hm Hr. specialize (Hidle Hm Hr). congruence.
  - intros [= <-]. split; try done; fields.
    + intros d Hd. destruct (Hl d Hd). split; [lia|done].
    + intros Ht. destruct (Hg Ht) as (H1 & H2). split; [fields; lia|done].
Qed.

Lemma snoozable_reachable_invariant p s : reachable p s -> invariant s.
Proof. apply reachable_ind'; [apply snoozable_invariant_construct|]. intros a ??. apply snoozable_invariant_exec. Qed.

(** * Properties *)

(** C28: the function is called at most once for each start or snooze, and not
    before its time: every call comes at or after the execution time its wait
    ended at, and that is the time set by an arming later than any answered
    before, or lies ten years after the previous call. *)
Theorem snoozable_calls_once p s :
  reachable p s -> calls_ok (0 :: rev (armed s)) (calls s).
Proof. intros []%snoozable_reachable_invariant. done. Qed.

(** No call before [T], and nothing under way that arms the timer. *)
Record silent (T : Z) (cs : list Call) (s : State) : Prop := {
  sl_time : T <= executionTime s;
  sl_calls : calls s = cs \/ T <= now s;
  sl_check : thread s = Some SCall -> T <= now s;
  sl_call : in_call (thread s) -> T <= now s;
  sl_main : main s <> MSnooze;
}.

Definition arms (a : Action) : bool := match a with Start | Snooze | Update _ => true | _ => false end.

Lemma silent_mainStep T cs s s' : silent T cs s -> mainStep s = Some s' -> silent T cs s'.
Proof.
  intros [H1 H2 H3 H4 H5]. unfold mainStep. destruct (main s) eqn:Em; try done.
  - destruct (mutex_held s); [done|]. intros [= <-]. by split.
  - intros [= <-]. split; fields; try done.
    + intros ?%snoozable_notified_call. auto.
    + intros ?%snoozable_in_call_notified. auto.
  - destruct (thread s) as [[]|] eqn:E; try done; intros [= <-]; split; fields; try done;
      first [by intros [[=]|[=]] | by destruct destroy].
Qed.

Lemma silent_threadStep T cs s s' : silent T cs s -> threadStep s = Some s' -> silent T cs s'.
Proof.
  intros [H1 H2 H3 H4 H5]. unfold threadStep. intros (p & E & H)%bind_Some. rewrite E in *.
  destruct p as [| |d| | | | |]; try done.
  - injection H as <-. split; fields; try done. by intros [[=]|[=]].
  - injection H as <-. destruct (isRunning s); split; fields; try done; by intros [[=]|[=]].
  - destruct (d <=? now s); [|done]. injection H as <-. split; fields; try done. by intros [[=]|[=]].
  - destruct ((executionTime s <=? now s) && isRunning s) eqn:Eb; injection H as <-; bool_prop.
    + split; fields; try done; [intros; lia|by intros [[=]|[=]]].
    + split; fields; try done. by intros [[=]|[=]].
  - injection H as <-. specialize (H3 eq_refl). split; fields; try done. by right.
  - injection H as <-. split; fields; try done. intros _. apply H4. by left.
  - injection H as <-. specialize (H4 (or_intror eq_refl)).
    split; fields; try done; first [by intros [[=]|[=]] | unfold FAR; lia].
Qed.

Lemma silent_exec T cs a s s' :
  arms a = false -> silent T cs s -> exec a s = Some s' -> silent T cs s'.
Proof.
  intros Ha [H1 H2 H3 H4 H5]. unfold exec. destruct a; try done.
  - destruct (main s) eqn:Em; try done. intros [= <-]. by split.
  - destruct (main s) eqn:Em; try done. intros [= <-]. by split.
  - by apply silent_mainStep.
  - by apply silent_threadStep.
  - unfold spuriousWakeup. destruct (thread s) as [[]|] eqn:E; try done. intros [= <-].
    split; fields; try done. by intros [[=]|[=]].
  - intros [= <-]. split; fields; try done; intros; [destruct H2; [auto|right; lia]|..].
    + specialize (H3 ltac:(done)). lia.
    + specialize (H4 ltac:(done)). lia.
Qed.

Lemma silent_execs T cs l : ∀ s s',
  Forall (fun a => arms a = false) l -> silent T cs s -> execs l s = Some s' -> silent T cs s'.
Proof.
  induction l as [|a l IH]; intros s s' Hl Hs; cbn; [by intros [= <-]|].
  inversion Hl; subst. intros (t & E & H)%bind_Some. eapply IH; [done| |done]. by eapply silent_exec.
Qed.

(** A snooze made while the function runs is lost.  When the function
    returns, the timer sets the execution time to ten years ahead, whatever the
    snooze had set, and until then no call is made however the threads run,
    unless the timer is armed again. *)
Theorem snoozable_loses_snooze s s1 l s' :
  thread s = Some SRunning -> main s = MIdle ->
  execs [Snooze; Worker; Worker] s = Some s1 ->
  Forall (fun a => arms a = false) l -> execs l s1 = Some s' ->
  executionTime s1 = now s + FAR /\ (calls s' = calls s \/ now s + FAR <= now s').
Proof.
  intros Ht Hm. cbn. rewrite Hm. unfold mutex_held. rewrite Ht. cbn.
  unfold threadStep. cbn. rewrite Ht. cbn. intros [= <-] Hl Hs. split; [done|].
  assert (silent (now s + FAR) (calls s) s') as [_ H _ _ _]; [|exact H].
  eapply silent_execs; [exact Hl| |exact Hs]. split; fields; try done; first [by left | by intros [[=]|[=]] | by rewrite Hm].
Qed.

(** The function is running for the first time, after 50 ms. *)
Definition running_state : State :=
  mkState 50 50 50 true (Some SRunning) MIdle [50] (50, 1%nat) [mkCall 50 50 1].

Lemma running_reachable : reachable 50 running_state.
Proof.
  eapply execs_reachable with (l := [Start; Worker; Worker; Tick 50; Worker; Worker; Worker]);
    [apply reachable_init|by vm_compute].
Qed.

Example snoozable_calls_once_witness :
  reachable 50 running_state /\ calls_ok (0 :: rev (armed running_state)) (calls running_state).
Proof. split; [exact running_reachable|exact (snoozable_calls_once 50 running_state running_reachable)]. Defined.

Definition after_lost_snooze (t : Z) (p : Pc) : State :=
  mkState t (50 + FAR) 50 true (Some p) MIdle [100; 50] (50, 1%nat) [mkCall 50 50 1].

(** A snooze of 50 ms during the first call is not answered a second later. *)
Example snoozable_loses_snooze_witness :
  execs [Snooze; Worker; Worker] running_state = Some (after_lost_snooze 50 SLoop) /\
  execs [Worker; Tick 1000; Spurious; Worker] (after_lost_snooze 50 SLoop) = Some (after_lost_snooze 1050 SLoop) /\
  executionTime (after_lost_snooze 50 SLoop) = 50 + FAR /\
  (calls (after_lost_snooze 1050 SLoop) = [mkCall 50 50 1] \/ 50 + FAR <= 1050).
Proof.
  split; [by vm_compute|]. split; [by vm_compute|].
  apply (snoozable_loses_snooze running_state (after_lost_snooze 50 SLoop) [Worker; Tick 1000; Spurious; Worker]
           (after_lost_snooze 1050 SLoop));
    [done|done|by vm_compute|by repeat constructor|by vm_compute].
Defined.
