(* ===== verification/Zyre.v ===== *)
(** Zyre nodes: src/libs/PubSub/ZyreNode.cpp, ZyrePublisher.cpp and
    ZyreSubscriber.cpp.

    The calls a node makes to the zyre library are recorded in [calls]; their
    results, the interfaces getifaddrs lists, the textual form of their
    addresses (inet_ntop) and the events zyre_event_new returns are inputs.
    Logging is left out. *)

From Stdlib Require Import Ascii String.
From S2P Require Import Prelude.

(** * ZyreNode *)

(** A call to zyre on the node's handle. *)
Inductive ZyreCall : Type :=
  | zyre_set_interface (name : string)
  | zyre_start
  | zyre_stop
  | zyre_destroy
  | zyre_join (group : string)
  | zyre_shout (group data : string).

(** The groups and payloads shouted by a sequence of calls. *)
Definition shouted (cs : list ZyreCall) : list (string * string) :=
  omap (λ c, match c with zyre_shout g d => Some (g, d) | _ => None end) cs.

(** [_node] is a handle or null. *)
Record ZyreNode : Type := mkZyreNode {
  node : bool;
  nodeName : string;
  isRunning : bool;
  stopRequested : bool;
  calls : list ZyreCall;
}.

Definition call (c : ZyreCall) (n : ZyreNode) : ZyreNode :=
  mkZyreNode (node n) (nodeName n) (isRunning n) (stopRequested n) (calls n ++ [c]).

Definition set_isRunning (b : bool) (n : ZyreNode) : ZyreNode :=
  mkZyreNode (node n) (nodeName n) b (stopRequested n) (calls n).

Definition set_stopRequested (b : bool) (n : ZyreNode) : ZyreNode :=
  mkZyreNode (node n) (nodeName n) (isRunning n) b (calls n).

(** An element of the list of getifaddrs: the address (whether its family is
    AF_INET, and the address) and the name, each possibly null. *)
Record IfAddr {Addr : Type} : Type := mkIfAddr {
  ifa_addr : option (bool * Addr);
  ifa_name : option string;
}.
Arguments IfAddr : clear implicits.

Section interfaces.
Context {Addr : Type} (inet_ntop : Addr -> option string).

Fixpoint findInterface (ip : string) (l : list (IfAddr Addr)) : option string :=
  match l with
  | [] => None
  | ifa :: l =>
      match ifa_addr ifa, ifa_name ifa with
      | Some (inet, a), Some name =>
          if negb inet then findInterface ip l
          else match inet_ntop a with
               | None => findInterface ip l
               | Some s => if String.eqb ip s then Some name else findInterface ip l
               end
      | _, _ => findInterface ip l
      end
  end.

(** [None]: getifaddrs failed or returned no list. *)
Definition resolveInterfaceNameFromIp (ifaddr : option (list (IfAddr Addr))) (ip : string)
    : option string :=
  l ← ifaddr; findInterface ip l.

(** [zyre_new]: whether it returned a node. *)
Definition construct (zyre_new : bool) (ifaddr : option (list (IfAddr Addr)))
    (name interfaceAddr : string) : ZyreNode :=
  let n := mkZyreNode zyre_new name true false [] in
  if zyre_new && negb (String.eqb interfaceAddr "") then
    call (zyre_set_interface
            (match resolveInterfaceNameFromIp ifaddr interfaceAddr with
             | Some resolved => resolved
             | None => interfaceAddr
             end)) n
  else n.

End interfaces.

(** [result]: what zyre_start returns. *)
Definition start (result : Z) (n : ZyreNode) : ZyreNode * bool :=
  if negb (node n) then (n, false)
  else (call zyre_start (set_isRunning true (set_stopRequested false n)), result =? 0).

Definition stop (n : ZyreNode) : ZyreNode :=
  if stopRequested n then n
  else
    let n := set_isRunning false (set_stopRequested true n) in
    if node n then call zyre_stop n else n.

(** ~ZyreNode *)
Definition destroy (n : ZyreNode) : ZyreNode :=
  let n := stop n in
  if node n then
    let n := call zyre_destroy n in
    mkZyreNode false (nodeName n) (isRunning n) (stopRequested n) (calls n)
  else n.

(** [_nodeName + "/" + topic] *)
Definition namespacedTopic (name topic : string) : string := (name ++ "/" ++ topic)%string.

(** * ZyrePublisher *)

(** ~ZyrePublisher, then ~ZyreNode *)
Definition destroyPublisher (n : ZyreNode) : ZyreNode := destroy (stop (set_isRunning false n)).

(** [serialized]: what SerializeToString produced, [None] when it failed;
    [result]: what zyre_shout returns. *)
Definition publish (topic : string) (serialized : option string) (result : Z) (n : ZyreNode)
    : ZyreNode * bool :=
  if negb (node n) || negb (isRunning n) then (n, false)
  else match serialized with
  | None => (n, false)
  | Some data =>
      (call (zyre_shout (namespacedTopic (nodeName n) topic) data) n, result =? 0)
  end.

(** * ZyreSubscriber *)

(** What zyre_event_new returns: the type, the group and the frames of the
    message of an event. *)
Record ZyreEvent : Type := mkZyreEvent {
  event_type : option string;
  event_group : option string;
  event_msg : option (list string);
}.

Section subscriber.
Context {Handler : Type}.

(** An empty [std::function] is [None]; [receiveThread]: joinable. *)
Record ZyreSubscriber : Type := mkZyreSubscriber {
  base : ZyreNode;
  handlers : gmap string (option Handler);
  receiveThread : bool;
}.

Definition constructSubscriber {Addr} (inet_ntop : Addr -> option string) (zyre_new : bool)
    (ifaddr : option (list (IfAddr Addr))) (start_result : Z) (name interfaceAddr : string)
    : ZyreSubscriber :=
  let '(n, ok) := start start_result (construct inet_ntop zyre_new ifaddr name interfaceAddr) in
  mkZyreSubscriber n ∅ ok.

Definition subscribe (topic : string) (handler : option Handler) (s : ZyreSubscriber)
    : ZyreSubscriber :=
  let group := namespacedTopic (nodeName (base s)) topic in
  mkZyreSubscriber (if node (base s) then call (zyre_join group) (base s) else base s)
    (<[group := handler]> (handlers s)) (receiveThread s).

(** A call of a handler: the handler, the topic and the data. *)
Definition Delivery : Type := Handler * string * string.

Definition is_type (e : ZyreEvent) (t : string) : bool :=
  match event_type e with Some t' => String.eqb t' t | None => false end.

(** The body of the loop for an event that is not a STOP. *)
Definition handleEvent (s : ZyreSubscriber) (e : ZyreEvent) : list Delivery :=
  if is_type e "SHOUT" then
    match event_msg e, event_group e with
    | Some (data :: _), Some topic =>
        match handlers s !! topic with
        | Some (Some handler) => [(handler, topic, data)]
        | _ => []
        end
    | _, _ => []
    end
  else [].

(** What the receive thread meets: an event or a null event, or a subscription
    another thread makes between two events. *)
Inductive Input : Type :=
  | Event (e : option ZyreEvent)
  | Subscribe (topic : string) (handler : option Handler).

(** The calls of handlers, and whether the loop has ended. *)
Fixpoint receiveLoop (s : ZyreSubscriber) (inputs : list Input)
    : ZyreSubscriber * list Delivery * bool :=
  match inputs with
  | [] => (s, [], false)
  | Subscribe topic handler :: inputs => receiveLoop (subscribe topic handler s) inputs
  | Event None :: _ => (s, [], true)
  | Event (Some e) :: inputs =>
      if is_type e "STOP" then (s, [], true)
      else
        let '(s', out, ended) := receiveLoop s inputs in (s', handleEvent s e ++ out, ended)
  end.

(** ~ZyreSubscriber, once the receive thread has ended, then ~ZyreNode. *)
Definition destroySubscriber (s : ZyreSubscriber) : ZyreNode := destroy (stop (base s)).

End subscriber.
Arguments ZyreSubscriber : clear implicits.
Arguments Delivery : clear implicits.
Arguments Input : clear implicits.

(** * Namespaces *)

Fixpoint no_slash (s : string) : bool :=
  match s with
  | EmptyString => true
  | String c s => negb (Ascii.eqb c "/"%char) && no_slash s
  end.

Lemma namespacedTopic_inj n m t u :
  no_slash n = true -> no_slash m = true -> namespacedTopic n t = namespacedTopic m u -> n = m /\ t = u.
Proof.
  unfold namespacedTopic. revert m. induction n as [|c n IH]; intros [|d m]; cbn; intros Hn Hm E.
  - by injection E.
  - injection E as <- _. done.
  - injection E as -> _. done.
  - bool_prop. injection E as -> E. by destruct (IH m) as [-> ->].
Qed.

(** Not a hypothesis that can be dropped. *)
Example namespacedTopic_collision : namespacedTopic "a/b" "c" = namespacedTopic "a" "b/c".
Proof. reflexivity. Qed.

(** * Life of a node *)

(** The operations of the two classes on their node. *)
Inductive Op : Type :=
  | OpStart (result : Z)
  | OpStop
  | OpPublish (topic : string) (serialized : option string) (result : Z)
  | OpJoin (topic : string)
  | OpDestroy.

Definition apply_op (n : ZyreNode) (o : Op) : ZyreNode :=
  match o with
  | OpStart r => (start r n).1
  | OpStop => stop n
  | OpPublish t d r => (publish t d r n).1
  | OpJoin t => base (subscribe t (@None unit) (mkZyreSubscriber n ∅ false))
  | OpDestroy => destroyPublisher n
  end.

(** The order in which zyre expects its calls: nothing on a destroyed node, a
    stop only of a node that has not been stopped since its last start, a
    destroy only of a stopped node. *)
Inductive Life : Type := Fresh | Started | Stopped | Destroyed.

Definition life_step (l : Life) (c : ZyreCall) : option Life :=
  match l, c with
  | Destroyed, _ => None
  | _, zyre_start => Some Started
  | Stopped, zyre_stop => None
  | _, zyre_stop => Some Stopped
  | Stopped, zyre_destroy => Some Destroyed
  | _, zyre_destroy => None
  | l, _ => Some l
  end.

Fixpoint life_run (l : Life) (cs : list ZyreCall) : option Life :=
  match cs with
  | [] => Some l
  | c :: cs => l' ← life_step l c; life_run l' cs
  end.

Lemma life_run_snoc l cs c : life_run l (cs ++ [c]) = (l' ← life_run l cs; life_step l' c).
Proof.
  revert l. induction cs as [|d cs IH]; intros l; cbn [life_run app].
  - rewrite bind_ret. by destruct (life_step l c).
  - destruct (life_step l d); [apply IH|done].
Qed.

(** What the flags say of the calls made. *)
Definition life_ok (n : ZyreNode) : Prop :=
  match life_run Fresh (calls n) with
  | Some Fresh => node n = false \/ stopRequested n = false
  | Some Started => node n = true /\ stopRequested n = false
  | Some Stopped => node n = true /\ stopRequested n = true
  | Some Destroyed => node n = false
  | None => False
  end.

(** Cases on the state reached so far; what is left to check is one call. *)
Ltac life :=
  unfold life_ok in *; cbn [calls call set_isRunning set_stopRequested] in *;
  rewrite ?life_run_snoc in *;
  match goal with H : match life_run Fresh (calls ?n) with _ => _ end |- _ =>
    destruct (life_run Fresh (calls n)) as [[]|] eqn:? end;
  cbn in *; intuition congruence.

Lemma life_ok_stop n : life_ok n -> life_ok (stop n).
Proof.
  intros H. unfold stop. destruct (stopRequested n) eqn:Es; [done|].
  cbn [node set_isRunning set_stopRequested]. destruct (node n) eqn:En; life.
Qed.

Lemma stop_stopped n : life_ok n -> node n = true -> life_run Fresh (calls (stop n)) = Some Stopped.
Proof.
  intros H Hn. unfold stop. destruct (stopRequested n) eqn:Es; [|cbn [node set_isRunning set_stopRequested]; rewrite Hn]; life.
Qed.

Lemma stop_node n : node (stop n) = node n.
Proof. unfold stop. destruct (stopRequested n); [done|]. cbn. destruct (node n) eqn:E; exact E. Qed.

Lemma life_ok_destroy n :
  life_ok n -> life_ok (destroy n) /\ (node n = true -> life_run Fresh (calls (destroy n)) = Some Destroyed).
Proof.
  intros H. unfold destroy. rewrite stop_node. destruct (node n) eqn:Hn.
  - pose proof (stop_stopped n H Hn) as E.
    assert (life_run Fresh (calls (stop n) ++ [zyre_destroy]) = Some Destroyed) as E'.
    { by rewrite life_run_snoc, E. }
    split; [|by intros _]. unfold life_ok. cbn. by rewrite E'.
  - split; [by apply life_ok_stop|done].
Qed.

Lemma life_ok_flag b n : life_ok n -> life_ok (set_isRunning b n).
Proof. done. Qed.

Lemma life_ok_op n o : life_ok n -> life_ok (apply_op n o).
Proof.
  intros H. destruct o as [r| |t d r|t|]; cbn [apply_op].
  - unfold start. destruct (node n) eqn:En; cbn [negb fst]; [life|done].
  - by apply life_ok_stop.
  - unfold publish. destruct (node n) eqn:En; [|done]. destruct (isRunning n); [|done].
    destruct d; cbn [negb orb fst]; [life|done].
  - unfold subscribe. cbn [base]. destruct (node n) eqn:En; [life|done].
  - apply life_ok_destroy, life_ok_stop. by apply life_ok_flag.
Qed.

Lemma zyre_construct_ok {Addr} ntop z (ifs : option (list (IfAddr Addr))) name addr :
  life_ok (construct ntop z ifs name addr).
Proof. unfold construct. destruct (_ && _); unfold life_ok; cbn; by right. Qed.

Lemma life_ok_ops ops n : life_ok n -> life_ok (foldl apply_op n ops).
Proof. revert n. induction ops as [|o ops IH]; intros n H; [done|]. by apply IH, life_ok_op. Qed.

(** Whatever sequence of operations a node goes through, the calls it makes
    to zyre are in order: a node is stopped only once between two starts,
    destroyed only after it has been stopped, and not used once destroyed; the
    destructor always destroys the node it was given. *)
Theorem zyre_life_cycle {Addr} (inet_ntop : Addr -> option string) zyre_new ifaddr name interfaceAddr ops :
  let n := foldl apply_op (construct inet_ntop zyre_new ifaddr name interfaceAddr) ops in
  (∃ l, life_run Fresh (calls n) = Some l) /\
  (node n = true -> life_run Fresh (calls (destroyPublisher n)) = Some Destroyed) /\
  node (destroyPublisher n) = false.
Proof.
  intros n. assert (life_ok n) as H by apply life_ok_ops, zyre_construct_ok. clearbody n. split; [|split].
  - unfold life_ok in H. destruct (life_run Fresh (calls n)) as [l|]; [by exists l|done].
  - intros Hn. apply life_ok_destroy; [apply life_ok_stop, life_ok_flag; done|]. by rewrite stop_node.
  - unfold destroyPublisher, destroy. case_match; [done|]. done.
Qed.

(** * Delivery *)

Definition subscribe_all {Handler} (subs : list (string * option Handler)) (s : ZyreSubscriber Handler)
    : ZyreSubscriber Handler :=
  foldl (λ s '(topic, handler), subscribe topic handler s) s subs.

(** The handler of the last subscription to a topic. *)
Fixpoint last_handler {Handler} (topic : string) (subs : list (string * option Handler))
    (acc : option Handler) : option Handler :=
  match subs with
  | [] => acc
  | (t, h) :: subs => last_handler topic subs (if decide (t = topic) then h else acc)
  end.

Lemma subscribe_all_spec {Handler} subs (s : ZyreSubscriber Handler) :
  nodeName (base (subscribe_all subs s)) = nodeName (base s) /\
  node (base (subscribe_all subs s)) = node (base s) /\
  (∀ topic, mjoin (handlers (subscribe_all subs s) !! namespacedTopic (nodeName (base s)) topic)
     = last_handler topic subs (mjoin (handlers s !! namespacedTopic (nodeName (base s)) topic))) /\
  (∀ group, (∀ t, group <> namespacedTopic (nodeName (base s)) t) ->
     handlers (subscribe_all subs s) !! group = handlers s !! group) /\
  (node (base s) = true ->
     calls (base (subscribe_all subs s))
     = calls (base s) ++ ((λ th, zyre_join (namespacedTopic (nodeName (base s)) th.1)) <$> subs)).
Proof.
  revert s. induction subs as [|[t h] subs IH]; intros s; cbn [subscribe_all foldl last_handler].
  - repeat split; try done. intros _. by rewrite app_nil_r.
  - destruct (IH (subscribe t h s)) as (E1 & E2 & E3 & E4 & E5). unfold subscribe_all in *.
    assert (nodeName (base (subscribe t h s)) = nodeName (base s)) as En.
    { cbn. by destruct (node (base s)). }
    assert (node (base (subscribe t h s)) = node (base s)) as Eo.
    { cbn. destruct (node (base s)) eqn:E; exact E. }
    rewrite En, Eo in *. split; [done|]. split; [done|]. split; [|split].
    + intros topic. rewrite E3. cbn [subscribe handlers]. f_equal. case_decide as Ht.
      * subst. by rewrite lookup_insert_eq.
      * rewrite lookup_insert_ne; [done|]. unfold namespacedTopic. intros E. apply Ht.
        clear -E. induction (nodeName (base s)) as [|c n IHn]; cbn in E; injection E; auto.
    + intros g Hg. rewrite E4 by done. cbn [subscribe handlers]. rewrite lookup_insert_ne; [done|].
      intros E. by apply (Hg t).
    + intros Hn. rewrite E5 by done. cbn [subscribe base]. rewrite Hn. cbn [call calls].
      by rewrite <- (assoc_L (++)).
Qed.

(** A message published on a topic reaches a subscriber's last handler for
    that topic, and only it, exactly when both nodes have the same name: a
    publish that succeeds shouts the serialized message to one group, the
    subscriber has joined that group exactly when the names agree and it has
    subscribed to the topic, and the SHOUT event of such a message (zyre delivers
    the frame it was given) makes the receive loop call that handler with it.
    Node names contain no slash. *)
Theorem zyre_publish_delivers {Handler} p p' topic data result
    (subs : list (string * option Handler)) (s : ZyreSubscriber Handler) :
  publish topic (Some data) result p = (p', true) ->
  no_slash (nodeName p) = true -> no_slash (nodeName (base s)) = true ->
  node (base s) = true -> handlers s = ∅ -> (∀ g, zyre_join g ∉ calls (base s)) ->
  ∃ group, calls p' = calls p ++ [zyre_shout group data] /\
    (zyre_join group ∈ calls (base (subscribe_all subs s)) <->
       nodeName p = nodeName (base s) /\ topic ∈ subs.*1) /\
    (receiveLoop (subscribe_all subs s) [Event (Some (mkZyreEvent (Some "SHOUT"%string) (Some group) (Some [data])))]).1.2
    = match last_handler topic subs None with
      | Some h => if decide (nodeName p = nodeName (base s)) then [(h, group, data)] else []
      | None => []
      end.
Proof.
  intros Hp Hn1 Hn2 Hnode Hempty Hnj.
  destruct (subscribe_all_spec subs s) as (_ & _ & E3 & E4 & E5).
  exists (namespacedTopic (nodeName p) topic). split; [|split].
  - unfold publish in Hp. destruct (_ || _); [done|]. by injection Hp as <- _.
  - rewrite E5 by done. rewrite elem_of_app, list_elem_of_fmap. split.
    + intros [H|([t h] & H & Hin)]; [by apply Hnj in H|]. cbn [fst] in H. injection H as H.
      apply namespacedTopic_inj in H as [-> ->]; [|done..]. split; [done|].
      apply list_elem_of_fmap. by exists (t, h).
    + intros [-> ([t h] & -> & Hin)%list_elem_of_fmap]. right. by exists (t, h).
  - cbn [receiveLoop]. change (is_type _ "STOP") with false. cbn [fst snd]. rewrite app_nil_r.
    unfold handleEvent. change (is_type _ "SHOUT") with true. cbn [event_msg event_group].
    destruct (decide (nodeName p = nodeName (base s))) as [->|Hne].
    + specialize (E3 topic). rewrite Hempty, lookup_empty in E3. cbn [mjoin option_join] in E3. rewrite <- E3.
      by destruct (_ !! _) as [[h|]|].
    + rewrite E4, Hempty, lookup_empty.
      * by destruct (last_handler _ _ _).
      * intros t E. apply Hne. by destruct (namespacedTopic_inj _ _ _ _ Hn1 Hn2 E).
Qed.

(** A publisher that was never started, or whose start failed, still shouts:
    [_isRunning] is initially true, and start() sets it before zyre_start. *)
Example publish_unstarted r :
  let n := construct (λ a : unit, None) true None "node" "" in
  (publish "t" (Some "data"%string) 0 n).2 = true /\
  (publish "t" (Some "data"%string) 0 (start r n).1).2 = true.
Proof. split; reflexivity. Qed.

Lemma zyre_publish_delivers_witness :
  let s := mkZyreSubscriber (start 0 (construct (λ a : unit, None) true None "n" "")).1 ∅ true in
  ∃ group, [zyre_start; zyre_shout "n/t" "d"] = [zyre_start] ++ [zyre_shout group "d"] /\
    (zyre_join group ∈ calls (base (subscribe_all [("u"%string, Some 1%nat); ("t"%string, Some 2%nat)] s)) <->
       ("n" = "n" /\ "t" ∈ ["u"; "t"])%string) /\
    (receiveLoop (subscribe_all [("u"%string, Some 1%nat); ("t"%string, Some 2%nat)] s)
       [Event (Some (mkZyreEvent (Some "SHOUT"%string) (Some group) (Some ["d"%string])))]).1.2
    = [(2%nat, group, "d"%string)].
Proof.
  apply (zyre_publish_delivers (mkZyreNode true "n" true false [zyre_start])
    (mkZyreNode true "n" true false [zyre_start; zyre_shout "n/t" "d"]) "t" "d" 0
    [("u"%string, Some 1%nat); ("t"%string, Some 2%nat)]
    (mkZyreSubscriber (start 0 (construct (λ a : unit, None) true None "n" "")).1 ∅ true)); try reflexivity.
  intros g. cbn. rewrite list_elem_of_singleton. discriminate.
Defined.
