(* ===== verification/ZyreTest.v ===== *)
(** The Zyre test programs: src/src/apps/TestApps/ZyrePublisherTest.cpp and
    ZyreSubscriberTest.cpp, over Zyre.v and SensorMessages.v.

    Both programs end in [while (true)]: what follows the loop is never reached,
    and a program is described after any number of passes, or of events.  The
    logger of a new process is always initialised; zsys_handler_set is CZMQ's. *)

From Stdlib Require Import Ascii String SpecFloat.
From S2P Require Import Prelude Ieee754 GeneralLogger SensorMessages Zyre.

(** * ZyrePublisherTest *)

Section publisher.
Context {Addr : Type} (inet_ntop : Addr -> option string) `{Protos string}.
(** What zyre_new, getifaddrs, zyre_start and zyre_shout return. *)
Context (zyre_new : bool) (ifaddr : option (list (IfAddr Addr))) (start_result : Z) (shout_result : Message -> Z).

Record Publisher : Type := mkPublisher {
  pub : ZyreNode;
  messageCount : Z;
  pubLog : list LogLine;
}.

(** [pub.publish(topic, message)] and the log line after it. *)
Definition publishMessage (m : Message) (s : Publisher) : Publisher :=
  mkPublisher (publish (topicOf m) (serialize m) (shout_result m) (pub s)).1 (messageCount s)
    (pubLog s ++ [publishedLine m]).

Definition loopBody (p : Pass) (s : Publisher) : option Publisher :=
  let s := foldl (λ s m, publishMessage m s) s (passMessages p (messageCount s)) in
  c ← increment (messageCount s);
  Some (mkPublisher (pub s) c (pubLog s)).

(** The state at the head of the loop after the given passes. *)
Fixpoint publisherLoop (passes : list Pass) (s : Publisher) : option Publisher :=
  match passes with
  | [] => Some s
  | p :: passes => s ← loopBody p s; publisherLoop passes s
  end.

(** main() of the publisher. *)
Definition publisherMain (argv : list string) (passes : list Pass) : option Publisher :=
  let n := construct inet_ntop zyre_new ifaddr "TestZyre" (interfaceAddr argv) in
  let n := (start start_result n).1 in
  publisherLoop passes (mkPublisher n 0 (interfaceLines argv)).

(** The shout a message becomes when it can be serialized. *)
Definition shoutCall (m : Message) : option ZyreCall :=
  zyre_shout (namespacedTopic "TestZyre" (topicOf m)) <$> serialize m.

Definition publishing (n : ZyreNode) : Prop :=
  node n = true /\ isRunning n = true /\ nodeName n = "TestZyre"%string.

Lemma zyre_publishMessage_step m s :
  publishing (pub s) ->
  let s' := publishMessage m s in
  publishing (pub s') /\ messageCount s' = messageCount s /\
  calls (pub s') = calls (pub s) ++ option_list (shoutCall m) /\ pubLog s' = pubLog s ++ [publishedLine m].
Proof.
  intros (Hn & Hr & Hname). unfold publishMessage, publish, shoutCall. rewrite Hn, Hr. cbn [negb orb].
  destruct (serialize m) as [d|]; cbn; rewrite ?app_nil_r, ?Hname; done.
Qed.

Lemma publishMessages ms s :
  publishing (pub s) ->
  let s' := foldl (λ s m, publishMessage m s) s ms in
  publishing (pub s') /\ messageCount s' = messageCount s /\
  calls (pub s') = calls (pub s) ++ omap shoutCall ms /\ pubLog s' = pubLog s ++ (publishedLine <$> ms).
Proof.
  revert s. induction ms as [|m ms IH]; intros s Hs; cbn [foldl].
  { by rewrite !app_nil_r. }
  destruct (zyre_publishMessage_step m s Hs) as (H1 & H2 & H3 & H4).
  destruct (IH _ H1) as (H5 & H6 & H7 & H8). split; [done|]. rewrite H6, H2, H7, H3, H8, H4.
  rewrite <- !(assoc_L (++)). split; [done|]. split; [|done]. f_equal. cbn.
  by destruct (shoutCall m).
Qed.

Lemma zyre_publisherLoop_traffic passes s :
  publishing (pub s) -> 0 <= messageCount s -> messageCount s + zlen passes < 2 ^ 31 ->
  ∃ s', publisherLoop passes s = Some s' /\ messageCount s' = messageCount s + zlen passes /\
    calls (pub s') = calls (pub s) ++ omap shoutCall (traffic passes (messageCount s)) /\
    pubLog s' = pubLog s ++ (publishedLine <$> traffic passes (messageCount s)).
Proof.
  revert s. induction passes as [|p passes IH]; intros s Hs Hc Hl; cbn [publisherLoop traffic].
  { exists s. cbn. rewrite !app_nil_r. change (zlen []) with 0. split_and!; [done|lia|done..]. }
  assert (zlen (p :: passes) = 1 + zlen passes) as Hz by (unfold zlen; cbn [length]; lia).
  assert (0 <= zlen passes) by (unfold zlen; lia).
  destruct (publishMessages (passMessages p (messageCount s)) s Hs) as (H1 & H2 & H3 & H4).
  unfold loopBody, increment. rewrite H2. rewrite (proj2 (Z.eqb_neq _ _)) by lia. rewrite !bind_ret.
  edestruct IH as (s' & E & E1 & E2 & E3); [..|exists s'; split; [exact E|]]; cbn [pub messageCount pubLog]; [done|lia|lia|].
  rewrite E1, E2, E3. cbn [pub messageCount pubLog]. rewrite H3, H4, omap_app, fmap_app, !(assoc_L (++)).
  split; [lia|done].
Qed.
End publisher.

(** * ZyreSubscriberTest *)

Section subscriber.
Context {Addr : Type} (inet_ntop : Addr -> option string) `{Protos string}.
Context (zyre_new : bool) (ifaddr : option (list (IfAddr Addr))) (start_result : Z).
Context (map_order : gmap string string -> list (string * string)).

(** The handlers, in the order they are subscribed. *)
Definition subscriptions : list (Input Handler) :=
  [Subscribe "SensorReading" (Some OnSensorReading); Subscribe "SensorDataBatch" (Some OnSensorDataBatch);
   Subscribe "Command" (Some OnCommand)].

(** main() of the subscriber: the lines the main thread prints, and those the
    receive thread prints for the events it meets after the subscriptions.  The
    thread runs only when the node could be started. *)
Definition subscriberMain (argv : list string) (events : list (option ZyreEvent))
    : list LogLine * option (list LogLine) :=
  let s := constructSubscriber inet_ntop zyre_new ifaddr start_result "TestZyre" (interfaceAddr argv) in
  let '(_, deliveries, _) :=
    receiveLoop s (subscriptions ++ if receiveThread s then Event <$> events else []) in
  (interfaceLines argv ++ [GPINFO "Subscriber running. Press Ctrl+C to exit." []],
   call_handlers id map_order deliveries).
End subscriber.

(** * Between the programs *)

(** The group and the first frame of a SHOUT. *)
Definition shout_of (e : option ZyreEvent) : option (string * string) :=
  e ← e;
  if is_type e "SHOUT" then
    match event_msg e, event_group e with
    | Some (data :: _), Some group => Some (group, data)
    | _, _ => None
    end
  else None.

(** An event that does not end the receive loop. *)
Definition ordinary (e : option ZyreEvent) : Prop :=
  match e with Some e => is_type e "STOP" = false | None => False end.

Lemma receiveLoop_app {H} (s : ZyreSubscriber H) subs events :
  receiveLoop s (((λ '(t, h), Subscribe t h) <$> subs) ++ events) = receiveLoop (subscribe_all subs s) events.
Proof. revert s. induction subs as [|[t h] subs IH]; intros s; [done|]. cbn. apply IH. Qed.

Definition deliver {H} (s : ZyreSubscriber H) (gd : string * string) : list (Delivery H) :=
  match handlers s !! gd.1 with Some (Some h) => [(h, gd.1, gd.2)] | _ => [] end.

(** The calls a round makes are those for the shout it meets. *)
Lemma handleEvent_shout {H} (s : ZyreSubscriber H) e :
  handleEvent s e = match shout_of (Some e) with Some gd => deliver s gd | None => [] end.
Proof.
  unfold handleEvent, shout_of, deliver. rewrite bind_ret. destruct (is_type e "SHOUT"); [|done].
  destruct (event_msg e) as [[|d l]|]; [done| |done]. by destruct (event_group e).
Qed.

Lemma receiveLoop_shouts {H} (s : ZyreSubscriber H) events :
  Forall ordinary events ->
  receiveLoop s (Event <$> events) = (s, omap shout_of events ≫= deliver s, false).
Proof.
  induction 1 as [|[e|] events He _ IH]; cbn [receiveLoop fmap list_fmap]; [done| |done].
  rewrite He, IH, handleEvent_shout. do 2 f_equal. cbn [omap list_omap].
  by destruct (shout_of (Some e)).
Qed.

(** The topic a message arrives under. *)
Definition arrivalTopic (m : Message) : string := namespacedTopic "TestZyre" (topicOf m).

Section end_to_end.
Context `{Protos string, !ProtosLaws string} (map_order : gmap string string -> list (string * string)).

(** Every topic has its handler. *)
Definition wired (s : ZyreSubscriber Handler) : Prop :=
  ∀ m, handlers s !! arrivalTopic m = Some (Some (handlerOf m)).

(** The shouts of messages that can be shown are shown in order. *)
Lemma deliver_shouted s ms :
  wired s -> Forall (λ m, is_Some (showMessage map_order (arrivalTopic m) m)) ms ->
  ∃ lines, Forall2 (λ m l, showMessage map_order (arrivalTopic m) m = Some l)
             (filter (λ m, is_Some (serialize m)) ms) lines /\
    call_handlers id map_order (shouted (omap shoutCall ms) ≫= deliver s) = Some (List.concat lines).
Proof.
  intros Hw. induction 1 as [|m ms [l Hl] _ (lines & Hls & E)]; [by exists []|].
  destruct (serialize m) as [d|] eqn:Em.
  - exists (l :: lines). rewrite filter_cons_True by (by rewrite Em). split; [by constructor|].
    cbn [omap list_omap]. unfold shoutCall at 1. rewrite Em. cbn [fmap option_fmap option_map].
    cbn [shouted omap list_omap]. change (omap _ (omap shoutCall ms)) with (shouted (omap shoutCall ms)).
    cbn [mbind list_bind]. unfold deliver at 1. cbn [fst snd]. fold (arrivalTopic m). rewrite Hw.
    cbn [app call_handlers]. rewrite (call_handler_serialized id map_order m _ d Em).
    change (id (arrivalTopic m)) with (arrivalTopic m). rewrite Hl, bind_ret, E, bind_ret. done.
  - exists lines. rewrite filter_cons_False by (rewrite Em; by intros []). split; [done|].
    cbn [omap list_omap]. unfold shoutCall at 1. by rewrite Em.
Qed.

Lemma zyre_traffic_showable (topic : Message -> string) passes c :
  Forall (λ m, is_Some (showMessage map_order (topic m) m)) (traffic passes c).
Proof.
  apply Forall_forall. intros m Hm%list_elem_of_In.
  destruct (traffic_shown map_order (topic m) passes c m id Hm) as [l Hl].
  destruct (showMessage map_order (topic m) m); [by eexists|done].
Qed.

Lemma subscriptions_wired (s : ZyreSubscriber Handler) events :
  nodeName (base s) = "TestZyre"%string ->
  ∃ s', wired s' /\ receiveLoop s (subscriptions ++ events) = receiveLoop s' events.
Proof.
  intros Hn. eexists. split; [|done].
  assert (∀ t (h : option Handler) (s : ZyreSubscriber Handler),
    nodeName (base (subscribe t h s)) = nodeName (base s)) as Hs.
  { intros t h s0. unfold subscribe. cbn [base]. by destruct (node (base s0)). }
  intros m. unfold arrivalTopic.
  destruct m; cbn [subscribe handlers topicOf handlerOf]; rewrite ?Hs, Hn; by simplify_map_eq.
Qed.

(** C23: the two Zyre programs together, whatever the random numbers and the
    results of zyre_shout.  The publisher gets through every pass; when zyre
    hands the subscriber the publisher's shouts in order, among any other events
    that do not stop the node, the subscriber prints, for every message that
    could be serialized, exactly what its handler prints of that message: no
    parse fails and no access is out of range.  The publisher prints that it
    published each message, also those it could not serialize. *)
Theorem zyre_test_end_to_end {Addr} (inet_ntop : Addr -> option string)
    ifaddr ifaddr' start_result shout_result argv argv' passes :
  zlen passes < 2 ^ 31 ->
  ∃ p, publisherMain inet_ntop true ifaddr start_result shout_result argv passes = Some p /\
    messageCount p = zlen passes /\
    pubLog p = interfaceLines argv ++ (publishedLine <$> traffic passes 0) /\
    ∀ events, Forall ordinary events -> omap shout_of events = shouted (calls (pub p)) ->
    ∃ lines,
      Forall2 (λ m l, showMessage map_order (arrivalTopic m) m = Some l)
        (filter (λ m, is_Some (serialize m)) (traffic passes 0)) lines /\
      (subscriberMain inet_ntop true ifaddr' 0 map_order argv' events).2 = Some (List.concat lines).
Proof.
  intros Hl. set (n := (start start_result (construct inet_ntop true ifaddr "TestZyre" (interfaceAddr argv))).1).
  assert (publishing n /\ shouted (calls n) = []) as [Hn Hc].
  { unfold n, construct. by destruct (true && _). }
  destruct (zyre_publisherLoop_traffic shout_result passes (mkPublisher n 0 (interfaceLines argv)) Hn ltac:(done) Hl)
    as (p & E & E1 & E2 & E3). cbn [pub messageCount pubLog] in *.
  exists p. split; [exact E|]. split; [by rewrite E1|]. split; [by rewrite E3|].
  intros events Hord Hev. rewrite E2 in Hev.
  assert (shouted (calls n ++ omap shoutCall (traffic passes 0)) = shouted (omap shoutCall (traffic passes 0))) as Hs.
  { unfold shouted in *. by rewrite omap_app, Hc. }
  rewrite Hs in Hev. unfold subscriberMain.
  set (s := constructSubscriber _ _ _ _ _ _).
  assert (receiveThread s = true /\ nodeName (base s) = "TestZyre"%string) as [Ht Hname].
  { unfold s, constructSubscriber, construct. by destruct (true && _). }
  rewrite Ht. destruct (subscriptions_wired s (Event <$> events) Hname) as (s' & Hw & ->).
  rewrite (receiveLoop_shouts s' events Hord), Hev.
  destruct (deliver_shouted s' _ Hw (zyre_traffic_showable arrivalTopic passes 0)) as (lines & H1 & H2).
  by exists lines.
Qed.
End end_to_end.

(** One pass, the first: three messages, the batch of which cannot be serialized. *)
Definition w_pass : Pass := mkPass 1700000000123456789 (f64_of_Z 3) (λ _, f64_of_Z 1).

#[local] Instance w_protos : Protos string :=
  let enc n := String.string_of_list_ascii (replicate n "x"%char) in
  let dec s := Some (String.length s) in
  {| reading_proto := table_proto enc dec [makeSensorReading w_pass];
     batch_proto := table_proto enc dec [];
     command_proto := table_proto enc dec [makeCommand w_pass 0] |}.

#[local] Instance w_protos_laws : ProtosLaws string.
Proof.
  assert (∀ k, Some (String.length (String.string_of_list_ascii (replicate k "x"%char))) = Some k) as Hd.
  { intros k. f_equal. induction k as [|k IH]; cbn; [done|]. by rewrite IH. }
  split; by apply table_laws.
Defined.

Definition w_event (group data : string) : option ZyreEvent :=
  Some (mkZyreEvent (Some "SHOUT"%string) (Some group) (Some [data])).

Lemma zyre_test_end_to_end_witness :
  zlen [w_pass] < 2 ^ 31 /\
  ∃ p, publisherMain (λ a : unit, None) true None 0 (λ _, 0) ["ZyrePublisherTest"]%string [w_pass] = Some p /\
    messageCount p = 1 /\
    ∃ lines,
      Forall2 (λ m l, showMessage map_to_list (arrivalTopic m) m = Some l)
        (filter (λ m, is_Some (serialize m)) (traffic [w_pass] 0)) lines /\
      (subscriberMain (λ a : unit, None) true None 0 map_to_list ["ZyreSubscriberTest"; "eth0"]%string
         [Some (mkZyreEvent (Some "ENTER"%string) None None); w_event "TestZyre/SensorReading" "";
          w_event "TestZyre/Command" ""]).2
      = Some (List.concat lines).
Proof.
  split; [by vm_compute|].
  destruct (zyre_test_end_to_end map_to_list (λ a : unit, None) None None 0 (λ _, 0) ["ZyrePublisherTest"]%string
    ["ZyreSubscriberTest"; "eth0"]%string [w_pass]) as (p & E & E1 & _ & H); [by vm_compute|].
  exists p. split; [exact E|]. split; [exact E1|]. apply H.
  - repeat constructor.
  - assert (Some (shouted (calls (pub p))) = Some [("TestZyre/SensorReading", ""); ("TestZyre/Command", "")]%string) as Hs.
    { rewrite <- (fmap_Some_2 (λ p, shouted (calls (pub p))) _ _ E). vm_compute. reflexivity. }
    injection Hs as ->. reflexivity.
Defined.
