(* ===== verification/ProtoTopics.v ===== *)
(** Protobuf topics and their conversion to and from JSON:
    src/libs/proto/ProtoTopicConfig.h and ProtoJsonDispatch.h.

    The generated message classes and the protobuf library's conversions are
    the operations of the class [Protobuf]; [ProtobufLaws] states what is
    documented of them. *)

From Stdlib Require Import String.
From S2P Require Import Prelude.

(** * ProtoTopicConfig.h *)

Inductive TopicId : Type :=
  | SensorReading | SensorDataBatch | Command | CommandResponse | ApplicationConfig | COUNT.

#[export] Instance TopicId_eq_dec : EqDecision TopicId.
Proof. solve_decision. Defined.

Definition TOPIC_REGISTRY : list (TopicId * string) :=
  [(SensorReading, "SensorReading"%string); (SensorDataBatch, "SensorDataBatch"%string);
   (Command, "Command"%string); (CommandResponse, "CommandResponse"%string);
   (ApplicationConfig, "ApplicationConfig"%string)].

Definition topicName (id : TopicId) : string :=
  match list_find (λ e, e.1 = id) TOPIC_REGISTRY with Some (_, e) => e.2 | None => ""%string end.

Definition topicId (name : string) : option TopicId :=
  match list_find (λ e, e.2 = name) TOPIC_REGISTRY with Some (_, e) => Some e.1 | None => None end.

Definition allTopicNames : list string := TOPIC_REGISTRY.*2.

Lemma topicId_Some name id : topicId name = Some id -> id <> COUNT /\ name = topicName id.
Proof.
  unfold topicId. destruct (list_find _ _) as [[i [id' n]]|] eqn:E; [|done]. intros [= <-].
  apply list_find_Some in E as (Hl & Hn & _). cbn in *. subst n.
  do 5 (destruct i as [|i]; [by injection Hl as <- <-|]). by destruct i.
Qed.

Lemma topicId_topicName id : id <> COUNT -> topicId (topicName id) = Some id.
Proof. by destruct id. Qed.

Lemma topicId_names name : is_Some (topicId name) <-> name ∈ allTopicNames.
Proof.
  split.
  - intros [id Hid]. apply topicId_Some in Hid as [Hc ->]. destruct id; try done; cbn;
      repeat first [apply list_elem_of_here | apply list_elem_of_further].
  - intros H. unfold allTopicNames in H. apply list_elem_of_fmap in H as ([id n] & -> & H).
    apply list_elem_of_In in H. cbn in H |- *.
    repeat (destruct H as [[= <- <-]|H]; [by eexists|]). done.
Qed.

(** The names are distinct and no name contains a slash. *)
Lemma allTopicNames_NoDup : NoDup allTopicNames.
Proof. apply (bool_decide_unpack _). vm_compute. done. Qed.

(** * ProtoJsonDispatch.h *)

Class Protobuf (Message : Type) : Type := {
  newMessage : TopicId -> Message;
  ParseFromString : Message -> string -> option Message;
  SerializeToString : Message -> option string;
  MessageToJsonString : Message -> option string;
  JsonStringToMessage : string -> Message -> option Message;
}.

(** [kind m]: the class of a message. A conversion fills a message of the same
    class, and parsing what a message serialized to gives that message back. *)
Class ProtobufLaws (Message : Type) `{Protobuf Message} (kind : Message -> TopicId) : Prop := {
  kind_new : ∀ id, kind (newMessage id) = id;
  kind_json : ∀ j m m', JsonStringToMessage j m = Some m' -> kind m' = kind m;
  parse_serialize : ∀ m b, SerializeToString m = Some b -> ParseFromString (newMessage (kind m)) b = Some m;
}.

Section dispatch.
Context {Message : Type} `{Protobuf Message}.

Definition createMessage (id : TopicId) : option Message :=
  match id with COUNT => None | _ => Some (newMessage id) end.

Definition toJson (id : TopicId) (binary : string) : option string :=
  m ← createMessage id;
  m ← ParseFromString m binary;
  MessageToJsonString m.

Definition fromJsonToMessage (id : TopicId) (json : string) : option Message :=
  m ← createMessage id;
  JsonStringToMessage json m.

Definition fromJson (id : TopicId) (json : string) : option string :=
  m ← fromJsonToMessage id json;
  SerializeToString m.

(** What is published from JSON converts back to the JSON of that message. *)
Lemma toJson_serialized kind `{!ProtobufLaws Message kind} id json m binary :
  fromJsonToMessage id json = Some m -> SerializeToString m = Some binary ->
  toJson id binary = MessageToJsonString m.
Proof.
  unfold fromJsonToMessage, toJson. intros (m0 & Hc & Hj)%bind_Some Hs. rewrite Hc, bind_ret.
  assert (m0 = newMessage id) as -> by (destruct id; try discriminate Hc; by injection Hc).
  pose proof (kind_json _ _ _ Hj) as Hk. rewrite kind_new in Hk. pose proof (parse_serialize _ _ Hs) as Hp.
  by rewrite Hk in Hp; rewrite Hp, bind_ret.
Qed.

End dispatch.
