(* ===== verification/ITransport.v ===== *)
(** The transport interface: src/apps/Omniscope/ITransport.h.

    [ITransport] has the operations of the abstract class for a state type [S],
    [TransportLaws] what its clients rely on; TransportZyre.v and TransportDds.v
    give the instances, OmniscopeApp.v is proved against the laws.  An operation
    that throws or does not return gives [None]. *)

From S2P Require Import Prelude.

Class ITransport (S Callback : Type) : Type := {
  name : S -> string;
  topicNames : S -> list string;
  subscribe : string -> Callback -> S -> option S;
  unsubscribe : string -> S -> option S;
  isSubscribed : string -> S -> bool;
  publishFromJson : string -> string -> S -> option S;
}.

(** [ok]: the transport's own invariant. *)
Class TransportLaws (S Callback : Type) `{ITransport S Callback} (ok : S -> Prop) : Prop := {
  subscribe_ok s topic cb :
    ok s -> ∃ s', subscribe topic cb s = Some s' /\ ok s' /\ name s' = name s /\ topicNames s' = topicNames s /\
      (topic ∈ topicNames s -> isSubscribed topic s' = true) /\
      (∀ t, t <> topic \/ (topic ∉ topicNames s) -> isSubscribed t s' = isSubscribed t s);
  unsubscribe_ok s topic :
    ok s -> ∃ s', unsubscribe topic s = Some s' /\ ok s' /\ name s' = name s /\ topicNames s' = topicNames s /\
      isSubscribed topic s' = false /\
      (∀ t, t <> topic -> isSubscribed t s' = isSubscribed t s);
  publish_ok s topic json s' :
    ok s -> publishFromJson topic json s = Some s' ->
    ok s' /\ name s' = name s /\ topicNames s' = topicNames s /\ (∀ t, isSubscribed t s' = isSubscribed t s);
}.

(** A [std::unique_ptr<ITransport>] holds one of several kinds. *)
#[export] Instance sum_transport {A B Callback} `{ITransport A Callback} `{ITransport B Callback} :
    ITransport (A + B) Callback := {
  name s := match s with inl a => name a | inr b => name b end;
  topicNames s := match s with inl a => topicNames a | inr b => topicNames b end;
  subscribe t cb s :=
    match s with inl a => inl <$> subscribe t cb a | inr b => inr <$> subscribe t cb b end;
  unsubscribe t s := match s with inl a => inl <$> unsubscribe t a | inr b => inr <$> unsubscribe t b end;
  isSubscribed t s := match s with inl a => isSubscribed t a | inr b => isSubscribed t b end;
  publishFromJson t j s :=
    match s with inl a => inl <$> publishFromJson t j a | inr b => inr <$> publishFromJson t j b end;
}.

#[export] Instance sum_laws {A B Callback} `{TransportLaws A Callback okA} `{TransportLaws B Callback okB} :
  TransportLaws (A + B) Callback (λ s, match s with inl a => okA a | inr b => okB b end).
Proof.
  split.
  - intros [a|b] t cb Hs; cbn.
    + destruct (subscribe_ok a t cb Hs) as (s' & -> & Hr). by exists (inl s').
    + destruct (subscribe_ok b t cb Hs) as (s' & -> & Hr). by exists (inr s').
  - intros [a|b] t Hs; cbn.
    + destruct (unsubscribe_ok a t Hs) as (s' & -> & Hr). by exists (inl s').
    + destruct (unsubscribe_ok b t Hs) as (s' & -> & Hr). by exists (inr s').
  - intros [a|b] t j s' Hs; cbn; intros (x & E & ->)%fmap_Some; by eapply publish_ok.
Qed.
