(* ===== verification/TransportZyre.v ===== *)
(** Omniscope's Zyre transport: src/apps/Omniscope/TransportZyre.cpp.

    The transport owns a subscriber and a publisher node (Zyre.v) and converts
    between protobuf and JSON with ProtoTopics.v.  The closure it gives the
    subscriber is the record of the values it captures, [run_closure] its
    body. *)

From Stdlib Require Import Ascii String.
From S2P Require Import Prelude Zyre ProtoTopics.
From S2P Require ITransport.

Section transport.
Context {Message : Type} `{Protobuf Message} {Callback Addr : Type} (inet_ntop : Addr -> option string).

Record Closure : Type := mkClosure {
  callback : Callback;
  id : TopicId;
  namePrefix : string;
}.

Record TransportZyre : Type := mkTransportZyre {
  tname : string;
  subscriber : ZyreSubscriber Closure;
  publisher : ZyreNode;
  activeTopics : gset string;
}.

(** The two nodes are created without an interface address; [sub_new],
    [sub_start], [pub_new] and [pub_start] are what zyre_new and zyre_start
    return for each. *)
Definition construct (sub_new pub_new : bool) (sub_start pub_start : Z) (nodeName : string) : TransportZyre :=
  mkTransportZyre nodeName
    (constructSubscriber inet_ntop sub_new None sub_start nodeName "")
    (start pub_start (Zyre.construct inet_ntop pub_new None nodeName "")).1 ∅.

Definition name (s : TransportZyre) : string := "Zyre".
Definition topicNames (s : TransportZyre) : list string := allTopicNames.

(** [s.starts_with(p)] and [s.substr(p.size())] *)
Definition strip_prefix (p s : string) : string :=
  if String.prefix p s then String.substring (String.length p) (String.length s - String.length p) s else s.

(** A call of a callback: the callback, the topic and the JSON text. *)
Definition run_closure (c : Closure) (namespacedTopic binaryData : string)
    : list (Callback * string * string) :=
  let bareTopic := strip_prefix (namePrefix c) namespacedTopic in
  match toJson (id c) binaryData with
  | Some json => [(callback c, bareTopic, json)]
  | None => []
  end.

Definition subscribe (topic : string) (cb : Callback) (s : TransportZyre) : TransportZyre :=
  if decide (topic ∈ activeTopics s) then s
  else match topicId topic with
  | None => s
  | Some i =>
      mkTransportZyre (tname s)
        (Zyre.subscribe topic (Some (mkClosure cb i (tname s ++ "/"))) (subscriber s))
        (publisher s) ({[topic]} ∪ activeTopics s)
  end.

Definition unsubscribe (topic : string) (s : TransportZyre) : TransportZyre :=
  if decide (topic ∈ activeTopics s)
  then mkTransportZyre (tname s) (subscriber s) (publisher s) (activeTopics s ∖ {[topic]})
  else s.

Definition isSubscribed (topic : string) (s : TransportZyre) : bool := bool_decide (topic ∈ activeTopics s).

(** [result]: what zyre_shout returns. *)
Definition publishFromJson (topic jsonData : string) (result : Z) (s : TransportZyre) : TransportZyre :=
  match topicId topic with
  | None => s
  | Some i =>
      match fromJsonToMessage i jsonData with
      | None => s
      | Some msg =>
          mkTransportZyre (tname s) (subscriber s)
            (publish topic (SerializeToString msg) result (publisher s)).1 (activeTopics s)
      end
  end.

(** The callbacks called while the subscriber's receive thread handles events. *)
Definition receive (s : TransportZyre) (events : list ZyreEvent) : list (Callback * string * string) :=
  '(c, topic, data) ← (receiveLoop (subscriber s) ((λ e, Event (Some e)) <$> events)).1.2;
  run_closure c topic data.

End transport.
Arguments TransportZyre : clear implicits.

(** * The interface *)

Section instance.
Context {Message : Type} `{Protobuf Message} {Callback : Type}.

(** What zyre_shout returns only decides a log message. *)
#[export] Instance zyre_transport : ITransport.ITransport (TransportZyre Callback) Callback := {
  ITransport.name := name;
  ITransport.topicNames := topicNames;
  ITransport.subscribe t cb s := Some (subscribe t cb s);
  ITransport.unsubscribe t s := Some (unsubscribe t s);
  ITransport.isSubscribed := isSubscribed;
  ITransport.publishFromJson t j s := Some (publishFromJson t j 0 s);
}.

Lemma activeTopics_subscribe topic cb (s : TransportZyre Callback) :
  activeTopics (subscribe topic cb s)
  = if decide (topic ∈ allTopicNames) then {[topic]} ∪ activeTopics s else activeTopics s.
Proof.
  pose proof (topicId_names topic) as Hn. unfold subscribe.
  destruct (topicId topic) eqn:E.
  - rewrite (decide_True (P := topic ∈ allTopicNames)) by (apply Hn; by eexists).
    case_decide; [set_solver|done].
  - rewrite (decide_False (P := topic ∈ allTopicNames)) by (intros []%Hn; done). by case_decide.
Qed.

#[export] Instance zyre_laws : ITransport.TransportLaws (TransportZyre Callback) Callback (λ _, True).
Proof.
  split; cbn; unfold isSubscribed.
  - intros s topic cb _. eexists. split; [done|]. split; [done|]. split; [done|]. split; [done|].
    rewrite activeTopics_subscribe. unfold topicNames. split.
    + intros Ht. rewrite decide_True by done. apply bool_decide_eq_true. set_solver.
    + intros t Ht. apply bool_decide_ext. case_decide; set_solver.
  - intros s topic _. eexists. split; [done|]. split; [done|]. split; [done|]. split; [done|].
    unfold unsubscribe. split.
    + apply bool_decide_eq_false. case_decide; cbn; set_solver.
    + intros t Ht. apply bool_decide_ext. case_decide; cbn; set_solver.
  - intros s topic json s' _ [= <-]. split; [done|]. split; [done|]. split; [done|]. intros t.
    unfold publishFromJson. by repeat case_match.
Qed.
End instance.

(** * Histories *)

Section histories.
Context {Message : Type} `{Protobuf Message} {Callback Addr : Type} (inet_ntop : Addr -> option string).

Inductive Op : Type :=
  | Subscribe (topic : string) (cb : Callback)
  | Unsubscribe (topic : string)
  | Publish (topic json : string) (result : Z).

Definition apply_op (s : TransportZyre Callback) (o : Op) : TransportZyre Callback :=
  match o with
  | Subscribe topic cb => subscribe topic cb s
  | Unsubscribe topic => unsubscribe topic s
  | Publish topic json result => publishFromJson topic json result s
  end.

(** The names of the two nodes agree, and the publisher may publish. *)
Record wf (nodeName : string) (s : TransportZyre Callback) : Prop := {
  wf_name : tname s = nodeName;
  wf_sub : Zyre.nodeName (base (subscriber s)) = nodeName;
  wf_pub : Zyre.nodeName (publisher s) = nodeName;
  wf_node : node (publisher s) = true;
  wf_running : isRunning (publisher s) = true;
}.

Lemma wf_construct sub_new sub_start pub_start nodeName :
  wf nodeName (construct inet_ntop sub_new true sub_start pub_start nodeName).
Proof.
  unfold construct, constructSubscriber, Zyre.construct. cbn. rewrite andb_false_r.
  unfold start. cbn. destruct sub_new; by split.
Qed.

Lemma wf_op nodeName s o : wf nodeName s -> wf nodeName (apply_op s o).
Proof.
  intros [H1 H2 H3 H4 H5]. destruct o as [t cb|t|t j r]; cbn [apply_op].
  - unfold subscribe. case_decide; [by split|]. destruct (topicId t); [|by split]. split; cbn; try done.
    by destruct (node (base (subscriber s))).
  - unfold unsubscribe. case_decide; by split.
  - unfold publishFromJson. destruct (topicId t); [|by split]. destruct (fromJsonToMessage _ _); [|by split].
    unfold publish. rewrite H4, H5. cbn [negb orb]. destruct (SerializeToString _); by split.
Qed.

Definition after_ops (nodeName : string) (sub_new : bool) (sub_start pub_start : Z) (ops : list Op)
    : TransportZyre Callback :=
  foldl apply_op (construct inet_ntop sub_new true sub_start pub_start nodeName) ops.

Lemma wf_after nodeName sub_new sub_start pub_start ops :
  wf nodeName (after_ops nodeName sub_new sub_start pub_start ops).
Proof.
  unfold after_ops. pose proof (wf_construct sub_new sub_start pub_start nodeName) as Hw. revert Hw.
  generalize (construct (Callback := Callback) inet_ntop sub_new true sub_start pub_start nodeName).
  induction ops as [|o ops IH]; intros s Hs; [done|]. by apply IH, wf_op.
Qed.

End histories.

(** * The prefix of a namespaced topic *)

Lemma append_assoc (a b c : string) : ((a ++ b) ++ c = a ++ b ++ c)%string.
Proof. induction a as [|x a IH]; [done|]. change (String x ((a ++ b) ++ c) = String x (a ++ b ++ c))%string. by rewrite IH. Qed.

Lemma substring_all s : String.substring 0 (String.length s) s = s.
Proof. induction s as [|c s IH]; cbn; [done|]. by rewrite IH. Qed.

Lemma prefix_append p t : String.prefix p (p ++ t) = true.
Proof.
  induction p as [|c p IH]; [by destruct t|]. change (String c p ++ t)%string with (String c (p ++ t)).
  cbn. destruct (ascii_dec c c); [exact IH|done].
Qed.

Lemma substring_append p t :
  String.substring (String.length p) (String.length (p ++ t) - String.length p) (p ++ t) = t.
Proof.
  induction p as [|c p IH].
  - change ("" ++ t)%string with t. cbn [String.length]. rewrite Nat.sub_0_r. by apply substring_all.
  - change (String c p ++ t)%string with (String c (p ++ t)). exact IH.
Qed.

Lemma strip_prefix_append p t : strip_prefix p (p ++ t) = t.
Proof. unfold strip_prefix. by rewrite prefix_append, substring_append. Qed.

(** * Properties *)

Definition shout_event (group data : string) : ZyreEvent :=
  mkZyreEvent (Some "SHOUT"%string) (Some group) (Some [data]).

(** A message published from JSON on one transport reaches the callback of
    another with the same node name, whatever both have done before: the
    publisher shouts its serialization to one group, and the SHOUT event of
    that message makes the other transport, once it has subscribed to the topic,
    call exactly that callback, once, with the bare topic name and the JSON text
    of the message. *)
Theorem transport_json_roundtrip {Message} `{Protobuf Message} {Callback Addr} kind
    `{!ProtobufLaws Message kind} (ntop : Addr -> option string) nodeName ns ss ps opsA opsB
    topic i (cb : Callback) json m data out result :
  let a := after_ops (Callback := Callback) ntop nodeName ns ss ps opsA in
  let b := after_ops (Callback := Callback) ntop nodeName ns ss ps opsB in
  topicId topic = Some i -> fromJsonToMessage i json = Some m ->
  SerializeToString m = Some data -> MessageToJsonString m = Some out ->
  isSubscribed topic b = false ->
  ∃ group, calls (publisher (publishFromJson topic json result a)) = calls (publisher a) ++ [zyre_shout group data] /\
    receive (subscribe topic cb b) [shout_event group data] = [(cb, topic, out)].
Proof.
  intros a b Hi Hm Hd Ho Hns.
  destruct (wf_after ntop nodeName ns ss ps opsA) as [_ _ Ha3 Ha4 Ha5]. fold a in Ha3, Ha4, Ha5.
  destruct (wf_after ntop nodeName ns ss ps opsB) as [Hb1 Hb2 _ _ _]. fold b in Hb1, Hb2.
  exists (namespacedTopic nodeName topic). split.
  - unfold publishFromJson. rewrite Hi, Hm, Hd. unfold publish. by rewrite Ha4, Ha5, Ha3.
  - unfold isSubscribed in Hns. apply bool_decide_eq_false in Hns. unfold subscribe, receive.
    rewrite decide_False, Hi by done. cbn [subscriber fmap list_fmap receiveLoop fst snd].
    change (is_type (shout_event _ _) "STOP") with false. cbn [fst snd]. rewrite app_nil_r.
    unfold handleEvent. change (is_type (shout_event _ _) "SHOUT") with true.
    cbn [shout_event event_msg event_group Zyre.subscribe handlers].
    rewrite Hb2, lookup_insert_eq. cbn [mbind list_bind]. rewrite app_nil_r.
    unfold run_closure. cbn [id namePrefix callback].
    rewrite (toJson_serialized kind i json m data Hm Hd), Ho, Hb1.
    unfold namespacedTopic. rewrite <- append_assoc. by rewrite strip_prefix_append.
Qed.

(** Unsubscribing does not stop the messages: afterwards the transport
    reports the topic as not subscribed, but every sequence of events makes
    exactly the calls of callbacks it would have made before. *)
Theorem transport_unsubscribe_keeps_delivering {Message} `{Protobuf Message} {Callback}
    (s : TransportZyre Callback) topic events :
  isSubscribed topic (unsubscribe topic s) = false /\
  receive (unsubscribe topic s) events = receive s events.
Proof.
  unfold isSubscribed, unsubscribe, receive. case_decide as Hd; cbn [activeTopics subscriber].
  - split; [|done]. apply bool_decide_eq_false. rewrite elem_of_difference, elem_of_singleton. by intros [].
  - split; [|done]. by apply bool_decide_eq_false.
Qed.

(** * Witness: messages are pairs of a class and a text *)

#[export] Instance text_protobuf : Protobuf (TopicId * string) := {
  newMessage := λ i, (i, ""%string);
  ParseFromString := λ m b, Some (m.1, b);
  SerializeToString := λ m, Some m.2;
  MessageToJsonString := λ m, Some m.2;
  JsonStringToMessage := λ j m, Some (m.1, j);
}.

#[export] Instance text_laws : ProtobufLaws (TopicId * string) fst.
Proof. split; [done| |]. - by intros j m m' [= <-]. - by intros [i b] ? [= <-]. Qed.

Lemma transport_json_roundtrip_witness :
  let ntop := λ a : unit, @None string in
  let a := after_ops (Callback := nat) ntop "omni" true 0 0 [] in
  let b := after_ops (Callback := nat) ntop "omni" true 0 0
    [Subscribe "Command" 3%nat; Subscribe "SensorReading" 4%nat; Unsubscribe "SensorReading"] in
  ∃ group, calls (publisher (publishFromJson "SensorReading" "{}" 0 a)) = calls (publisher a) ++ [zyre_shout group "{}"] /\
    receive (subscribe "SensorReading" 5%nat b) [shout_event group "{}"] = [(5%nat, "SensorReading", "{}")]%string.
Proof.
  intros ntop. apply (transport_json_roundtrip fst ntop "omni" true 0 0 []
    [Subscribe "Command" 3%nat; Subscribe "SensorReading" 4%nat; Unsubscribe "SensorReading"]
    "SensorReading" SensorReading 5%nat "{}" (SensorReading, "{}"%string) "{}" "{}" 0); reflexivity.
Defined.
