(* ===== verification/PlaybackEngine.v ===== *)
(** Replay of recordings: src/apps/Omniscope/PlaybackEngine.cpp.

    The engine is driven by one client thread (load, start, stop, destroy) and
    replays on a thread of its own.  [exec] performs one atomic action of one of
    them over a clock in milliseconds; [None] means not enabled.  crow's JSON
    parser is a parameter: [json_load] gives [None] for a text that is not JSON,
    an accessor gives [None] where crow throws, which ends the thread's process,
    as does a timestamp difference beyond int64_t and a publish callback that
    throws ([PublishThrows]): [PCrash]. *)

From Stdlib Require Import Ascii String.
From S2P Require Import Prelude.

(** * Lines of a recording *)

(** std::getline until the stream is exhausted; [acc] is the line read so far. *)
Fixpoint getlines (acc s : string) : list string :=
  match s with
  | EmptyString => match acc with EmptyString => [] | _ => [acc] end
  | String c s =>
      if Ascii.eqb c "010" then acc :: getlines "" s
      else getlines (acc ++ String c "") s
  end.

Definition recording_lines (body : string) : list string :=
  filter (λ l, l <> ""%string) (getlines "" body).

Section engine.
Context {Rec : Type} (json_load : string -> option Rec) (topic_of data_of : Rec -> option string)
  (timestamp_of : Rec -> option Z).

(** * State *)

(** [PTop]: before the loop test; [PPred] .. [PWoken]: inside wait_for; [PCheck]:
    after the wait; [PPublish], [PProgress]: before the two callbacks; [PEnd]:
    after the loop; [PComplete b]: before onComplete(b). *)
Inductive Pc : Type :=
  | PInit | PTop | PPred | PPark | PBlocked | PWoken | PCheck | PPublish | PProgress
  | PEnd | PComplete (stopped : bool) | PDone | PCrash.

Record Player : Type := mkPlayer {
  lines : list string;
  onProgress : bool;
  onComplete : bool;
  baseTime : Z;
  prevOffset : Z;
  idx : nat;
  offset : Z;
  deadline : Z;
  pc : Pc;
}.

Inductive After : Type :=
  | AReturn | ALoad (body : string) | AStart (progress complete : bool) | ADestroyed.

(** [MStart]: start() after its stop() has returned. *)
Inductive MainPc : Type :=
  | MIdle
  | MStopFlag (a : After) | MStopNotify (a : After) | MStopJoin (a : After)
  | MLoad (body : string) | MStart (progress complete : bool)
  | MDestroyed.

(** [published], [progress] and [completed] record the calls of the callbacks
    since the last start that returned, the first with the time of the call. *)
Record State : Type := mkState {
  now : Z;
  stored : list string;
  stopFlag : bool;
  playing : bool;
  thread : option Player;
  main : MainPc;
  published : list (Z * (string * string));
  progress : list (nat * nat);
  completed : list bool;
}.

Definition construct : State := mkState 0 [] false false None MIdle [] [] [].

Definition hasRecording (s : State) : bool := match stored s with [] => false | _ => true end.
Definition messageCount (s : State) : Z := zlen (stored s).
Definition isPlaying (s : State) : bool := playing s.

(** * The client *)

Definition set_main (m : MainPc) (s : State) : State :=
  mkState (now s) (stored s) (stopFlag s) (playing s) (thread s) m (published s) (progress s) (completed s).

Definition set_pc (p : Pc) (t : Player) : Player :=
  mkPlayer (lines t) (onProgress t) (onComplete t) (baseTime t) (prevOffset t) (idx t) (offset t)
    (deadline t) p.

Definition notified (t : Player) : Player := match pc t with PBlocked => set_pc PWoken t | _ => t end.

Definition finished (a : After) : MainPc :=
  match a with
  | AReturn => MIdle | ALoad b => MLoad b | AStart p c => MStart p c | ADestroyed => MDestroyed
  end.

(** join() has returned, or there was nothing to join. *)
Definition joined (a : After) (s : State) : State :=
  mkState (now s) (stored s) (stopFlag s) false None (finished a) (published s) (progress s) (completed s).

Definition mainStep (s : State) : option State :=
  match main s with
  | MIdle | MDestroyed => None
  | MStopFlag a =>
      Some (mkState (now s) (stored s) true (playing s) (thread s) (MStopNotify a) (published s)
              (progress s) (completed s))
  | MStopNotify a =>
      Some (mkState (now s) (stored s) (stopFlag s) (playing s) (notified <$> thread s) (MStopJoin a)
              (published s) (progress s) (completed s))
  | MStopJoin a =>
      match thread s with
      | None => Some (joined a s)
      | Some t => match pc t with PDone => Some (joined a s) | _ => None end
      end
  | MLoad body =>
      Some (mkState (now s) (recording_lines body) (stopFlag s) (playing s) (thread s) MIdle
              (published s) (progress s) (completed s))
  | MStart p c =>
      match stored s with
      | [] => Some (mkState (now s) [] (stopFlag s) (playing s) (thread s) MIdle [] []
                      (if c then [false] else []))
      | l => Some (mkState (now s) l false true (Some (mkPlayer l p c 0 0 0 0 0 PInit)) MIdle [] [] [])
      end
  end.

(** * The replay thread *)

Definition sub64 (a b : Z) : option Z :=
  if (-9223372036854775808 <=? a - b) && (a - b <? 9223372036854775808) then Some (a - b) else None.

Definition goto (p : Pc) (t : Player) (s : State) : State :=
  mkState (now s) (stored s) (stopFlag s) (playing s) (Some (set_pc p t)) (main s) (published s)
    (progress s) (completed s).

Definition set_base (b : Z) (t : Player) : Player :=
  mkPlayer (lines t) (onProgress t) (onComplete t) b (prevOffset t) (idx t) (offset t) (deadline t) (pc t).
Definition set_prev (t : Player) : Player :=
  mkPlayer (lines t) (onProgress t) (onComplete t) (baseTime t) (offset t) (idx t) (offset t) (deadline t) (pc t).
Definition next_line (t : Player) : Player :=
  mkPlayer (lines t) (onProgress t) (onComplete t) (baseTime t) (prevOffset t) (S (idx t)) (offset t)
    (deadline t) (pc t).
Definition set_wait (o d : Z) (t : Player) : Player :=
  mkPlayer (lines t) (onProgress t) (onComplete t) (baseTime t) (prevOffset t) (idx t) o d (pc t).

(** The base time: the timestamp of the first line, 0 when it is not JSON. *)
Definition initBase (t : Player) : option Z :=
  match lines t with
  | [] => None
  | l :: _ => match json_load l with Some r => timestamp_of r | None => Some 0 end
  end.

(** The body of the loop up to the wait: the counter to go to and the player. *)
Definition loopBody (tnow : Z) (t : Player) : Pc * Player :=
  match lines t !! idx t with
  | None => (PEnd, t)
  | Some l =>
      match json_load l with
      | None => (PTop, next_line t)
      | Some r =>
          match topic_of r, (ts ← timestamp_of r; sub64 ts (baseTime t)) with
          | Some _, Some off =>
              match sub64 off (prevOffset t) with
              | Some delta =>
                  if 0 <? delta then (PPred, set_wait off (tnow + Z.min delta 5000) t)
                  else (PCheck, set_wait off (deadline t) t)
              | None => (PCrash, t)
              end
          | _, _ => (PCrash, t)
          end
      end
  end.

(** What is published of a line. *)
Definition message (l : string) : option (string * string) :=
  r ← json_load l; topic ← topic_of r; data ← data_of r; Some (topic, data).

Definition playerStep (s : State) : option State :=
  t ← thread s;
  match pc t with
  | PInit =>
      match initBase t with
      | Some b => Some (goto PTop (set_base b t) s)
      | None => Some (goto PCrash t s)
      end
  | PTop =>
      if (idx t <? length (lines t))%nat && negb (stopFlag s)
      then let '(p, t') := loopBody (now s) t in Some (goto p t' s)
      else Some (goto PEnd t s)
  | PPred => Some (goto (if stopFlag s then PCheck else PPark) t s)
  | PPark => Some (goto PBlocked t s)
  | PBlocked => if deadline t <=? now s then Some (goto PWoken t s) else None
  | PWoken => Some (goto (if now s <? deadline t then PPred else PCheck) t s)
  | PCheck => Some (goto (if stopFlag s then PEnd else PPublish) (set_prev t) s)
  | PPublish =>
      match lines t !! idx t ≫= message with
      | Some m =>
          Some (mkState (now s) (stored s) (stopFlag s) (playing s) (Some (set_pc PProgress t)) (main s)
                  (published s ++ [(now s, m)]) (progress s) (completed s))
      | None => Some (goto PCrash t s)
      end
  | PProgress =>
      Some (mkState (now s) (stored s) (stopFlag s) (playing s) (Some (set_pc PTop (next_line t))) (main s)
              (published s)
              (if onProgress t then progress s ++ [(S (idx t), length (lines t))] else progress s)
              (completed s))
  | PEnd =>
      Some (mkState (now s) (stored s) (stopFlag s) false (Some (set_pc (PComplete (stopFlag s)) t)) (main s)
              (published s) (progress s) (completed s))
  | PComplete b =>
      Some (mkState (now s) (stored s) (stopFlag s) (playing s) (Some (set_pc PDone t)) (main s)
              (published s) (progress s) (if onComplete t then completed s ++ [b] else completed s))
  | PDone | PCrash => None
  end.

Definition spuriousWakeup (s : State) : option State :=
  t ← thread s;
  match pc t with PBlocked => Some (goto PWoken t s) | _ => None end.

(** The publish callback throws on the message of a line; nothing catches it. *)
Definition publishThrows (s : State) : option State :=
  t ← thread s;
  match pc t, lines t !! idx t ≫= message with PPublish, Some _ => Some (goto PCrash t s) | _, _ => None end.

(** * The system *)

Inductive Action : Type :=
  | Load (body : string)
  | Start (progress complete : bool)
  | Stop
  | Destroy
  | Main
  | Worker
  | Spurious
  | PublishThrows
  | Tick (n : nat).

Definition call (a : After) (s : State) : option State :=
  match main s with MIdle => Some (set_main (MStopFlag a) s) | _ => None end.

Definition exec (a : Action) (s : State) : option State :=
  match a with
  | Load body => call (ALoad body) s
  | Start p c => call (AStart p c) s
  | Stop => call AReturn s
  | Destroy => call ADestroyed s
  | Main => mainStep s
  | Worker => playerStep s
  | Spurious => spuriousWakeup s
  | PublishThrows => publishThrows s
  | Tick n =>
      Some (mkState (now s + Z.of_nat n) (stored s) (stopFlag s) (playing s) (thread s) (main s)
              (published s) (progress s) (completed s))
  end.

#[local] Abbreviation execs := (Prelude.execs exec).
#[local] Abbreviation reachable := (Prelude.reachable exec construct).

(** * Invariant *)

(** A replayed line: its timestamp and what is published of it. *)
Definition timed (l : string) : option (Z * (string * string)) :=
  r ← json_load l; ts ← timestamp_of r; m ← message l; Some (ts, m).

(** What the lines dealt with so far, the first [n], amount to. *)
Definition handled (n : nat) (t : Player) : list (Z * (string * string)) := omap timed (take n (lines t)).

Lemma handled_next n t l :
  lines t !! n = Some l ->
  handled (S n) t = handled n t ++ match timed l with Some e => [e] | None => [] end.
Proof.
  intros H. unfold handled. rewrite (take_S_r _ _ _ H), omap_app. done.
Qed.

(** A message with timestamp [ts] may be published at [x]: what the last
    publication [p], with timestamp [e], demands. *)
Definition due (pub h : list (Z * (string * string))) (ts x : Z) : Prop :=
  ∀ p e, list.last pub = Some p -> list.last h = Some e -> p.1 + Z.min (ts - e.1) 5000 <= x.

(** Publications correspond to the lines handled, each no earlier after its
    predecessor than the recorded gap, or five seconds. *)
Record paced (pub h : list (Z * (string * string))) : Prop := {
  paced_same : pub.*2 = h.*2;
  paced_gap : ∀ k p e p' e', pub !! k = Some p -> h !! k = Some e ->
    pub !! S k = Some p' -> h !! S k = Some e' -> p.1 + Z.min (e'.1 - e.1) 5000 <= p'.1;
}.

Lemma paced_length pub h : paced pub h -> length pub = length h.
Proof. intros [H _]. apply (f_equal length) in H. by rewrite !length_fmap in H. Qed.

Lemma paced_snoc pub h x ts m :
  paced pub h -> due pub h ts x -> paced (pub ++ [(x, m)]) (h ++ [(ts, m)]).
Proof.
  intros Hp Hd. pose proof (paced_length _ _ Hp) as Hl. destruct Hp as [Hs Hg]. split.
  - rewrite !fmap_app. by rewrite Hs.
  - intros k p e p' e' H1 H2 H3 H4. apply lookup_lt_Some in H3 as Hk. rewrite length_app in Hk. cbn in Hk.
    rewrite lookup_app_l in H1 by lia. rewrite lookup_app_l in H2 by lia.
    destruct (decide (S k = length pub)) as [E|E].
    + rewrite lookup_app_r in H3 by lia. rewrite lookup_app_r in H4 by lia.
      rewrite E, Nat.sub_diag in H3. rewrite E, Hl, Nat.sub_diag in H4. injection H3 as <-. injection H4 as <-.
      cbn [fst]. apply Hd; rewrite last_lookup; rewrite <- ?Hl, <- E; done.
    + rewrite lookup_app_l in H3 by lia. rewrite lookup_app_l in H4 by lia. by eapply (Hg k).
Qed.

(** The counters between which a line is waited for. *)
Definition waiting (p : Pc) : bool :=
  match p with PPred | PPark | PBlocked | PWoken => true | _ => false end.

(** The lines handled when the counter is [pc t]. *)
Definition progressed (t : Player) : nat := match pc t with PProgress => S (idx t) | _ => idx t end.

Section ok.
Context (tnow : Z) (stop : bool) (pub : list (Z * (string * string))) (t : Player).

#[local] Abbreviation h := (handled (progressed t) t).
#[local] Abbreviation ts := (baseTime t + offset t).

Record player_ok : Prop := {
  pl_paced : paced pub h;
  pl_past : ∀ p, list.last pub = Some p -> p.1 <= tnow;
  pl_init : pc t = PInit -> idx t = 0%nat;
  pl_prev : pc t <> PPublish -> pc t <> PCrash -> stop = true \/
    ∀ e, list.last h = Some e -> e.1 = baseTime t + prevOffset t;
  pl_line : waiting (pc t) || match pc t with PCheck | PPublish => true | _ => false end = true ->
    ∃ l r, lines t !! idx t = Some l /\ json_load l = Some r /\ timestamp_of r = Some ts;
  pl_wait : waiting (pc t) = true -> due pub h ts (deadline t) /\ deadline t <= tnow + 5000;
  pl_check : pc t = PCheck -> stop = true \/ due pub h ts tnow;
  pl_publish : pc t = PPublish -> due pub h ts tnow;
  pl_sent : pc t = PPublish -> prevOffset t = offset t;
  pl_end : pc t = PEnd -> stop = true \/ (length (lines t) <= idx t)%nat;
  pl_complete : pc t = PComplete false -> (length (lines t) <= idx t)%nat;
}.

End ok.

Lemma player_ok_later n n' sf sf' pub t :
  player_ok n sf pub t -> n <= n' -> (sf = true -> sf' = true) -> player_ok n' sf' pub t.
Proof.
  intros [] Hn Hs. split; try done.
  - intros p Hp. specialize (pl_past0 p Hp). lia.
  - intros H1 H2. destruct (pl_prev0 H1 H2); auto.
  - intros H1. destruct (pl_wait0 H1). split; [done|lia].
  - intros H1. destruct (pl_check0 H1) as [?|Hd]; [auto|]. right. intros p e Hp He. specialize (Hd p e Hp He). lia.
  - intros H1 p e Hp He. specialize (pl_publish0 H1 p e Hp He). lia.
  - intros H1. destruct (pl_end0 H1); auto.
Qed.

Tactic Notation "fields" :=
  cbn [now stored stopFlag playing thread main published progress completed goto set_pc set_base set_prev
       next_line set_wait lines onProgress onComplete baseTime prevOffset idx offset deadline pc
       handled progressed waiting orb].
Tactic Notation "fields" "in" "*" :=
  cbn [now stored stopFlag playing thread main published progress completed goto set_pc set_base set_prev
       next_line set_wait lines onProgress onComplete baseTime prevOffset idx offset deadline pc
       handled progressed waiting orb] in *.

(** Cases of [player_ok] after a step from a known counter. *)
Ltac player_cases H Ep :=
  destruct H; unfold progressed in *; rewrite Ep in *; split; unfold progressed; fields in *;
  try done; try (intros; try done; auto; fail).

Lemma player_ok_loopBody n pub t p t' :
  player_ok n false pub t -> pc t = PTop -> loopBody n t = (p, t') -> player_ok n false pub (set_pc p t').
Proof.
  intros Hok Ep. unfold loopBody.
  destruct (lines t !! idx t) as [l|] eqn:El;
    [|intros [= <- <-]; apply lookup_ge_None in El; player_cases Hok Ep; auto].
  destruct (json_load l) as [r|] eqn:Ej.
  2: { intros [= <- <-].
       assert (handled (S (idx t)) t = handled (idx t) t) as Eh.
       { rewrite (handled_next _ _ _ El). unfold timed. rewrite Ej. cbn. by rewrite app_nil_r. }
       unfold handled in Eh. player_cases Hok Ep; unfold handled in *; fields; by rewrite Eh. }
  assert (player_ok n false pub (set_pc PCrash t)) as Hcrash by (player_cases Hok Ep).
  destruct (topic_of r); [|by intros [= <- <-]].
  destruct (timestamp_of r ≫= _) as [off|] eqn:Eo; [|by intros [= <- <-]].
  destruct (sub64 off (prevOffset t)) as [delta|] eqn:Ed; [|by intros [= <- <-]]. clear Hcrash.
  apply bind_Some in Eo as (ts & Et & Eo). unfold sub64 in Eo, Ed.
  case_match; [|done]. case_match; [|done]. injection Eo as <-. injection Ed as <-.
  assert (timestamp_of r = Some (baseTime t + (ts - baseTime t))) as Ets.
  { rewrite Et. f_equal. lia. }
  intros Hcase.
  assert (∀ x, n + Z.min (ts - baseTime t - prevOffset t) 5000 <= x ->
    due pub (handled (idx t) t) (baseTime t + (ts - baseTime t)) x) as Hdue.
  { intros x Hx. destruct Hok as [_ Hpast _ Hprev]. unfold progressed in *. rewrite Ep in *.
    destruct Hprev as [?|Hprev]; [done..|]. intros p0 e Hp He. specialize (Hpast _ Hp).
    specialize (Hprev _ He). lia. }
  destruct (Z.ltb_spec 0 (ts - baseTime t - prevOffset t)); injection Hcase as <- <-.
  - player_cases Hok Ep; [by exists l, r|]. intros _. split; [|lia]. apply Hdue. lia.
  - player_cases Hok Ep; [by exists l, r|]. intros _. right. apply Hdue. lia.
Qed.

(** A message is published exactly when what it needs has been checked. *)
Lemma player_ok_publish n sf pub t m :
  player_ok n sf pub t -> pc t = PPublish -> lines t !! idx t ≫= message = Some m ->
  player_ok n sf (pub ++ [(n, m)]) (set_pc PProgress t).
Proof.
  intros Hok Ep Hm. assert (pl_line' := pl_line _ _ _ _ Hok). rewrite Ep in pl_line'.
  destruct pl_line' as (l & r & El & Ej & Et); [done|]. rewrite El in Hm. cbn [mbind option_bind] in Hm.
  assert (handled (S (idx t)) t = handled (idx t) t ++ [(baseTime t + offset t, m)]) as Eh.
  { rewrite (handled_next _ _ _ El). unfold timed. rewrite Ej. cbn [mbind option_bind].
    by rewrite Et; cbn [mbind option_bind]; rewrite Hm. }
  unfold handled in Eh.
  player_cases Hok Ep; unfold handled in *; fields; rewrite ?Eh.
  - apply paced_snoc; [done|]. by apply pl_publish0.
  - rewrite last_snoc. intros p [= <-]. done.
  - intros _ _. right. intros e. rewrite last_snoc. intros [= <-]. cbn. by rewrite pl_sent0.
Qed.

Lemma player_ok_step s s' t :
  thread s = Some t -> player_ok (now s) (stopFlag s) (published s) t -> playerStep s = Some s' ->
  ∃ t', thread s' = Some t' /\ player_ok (now s') (stopFlag s') (published s') t'.
Proof.
  intros E Hok. unfold playerStep. rewrite E, bind_ret. destruct (pc t) eqn:Ep; try done.
  - destruct (initBase t) as [b|]; intros [= <-]; eexists; (split; [reflexivity|]).
    + assert (idx t = 0%nat) as Hi by (by apply (pl_init _ _ _ _ Hok)).
      player_cases Hok Ep. intros _ _. right. intros e. unfold handled. rewrite Hi. done.
    + player_cases Hok Ep.
  - destruct ((idx t <? length (lines t))%nat && negb (stopFlag s)) eqn:Eb.
    + destruct (loopBody (now s) t) as [p t'] eqn:El. intros [= <-]. eexists. split; [reflexivity|]. fields.
      bool_prop. assert (stopFlag s = false) as Hf by done. rewrite Hf in *. by eapply player_ok_loopBody.
    + intros [= <-]. eexists. split; [reflexivity|]. player_cases Hok Ep. intros _.
      apply andb_false_iff in Eb as [Eb%Nat.ltb_ge|Eb%negb_false_iff]; auto.
  - intros [= <-]. eexists. split; [reflexivity|]. fields; destruct (stopFlag s); player_cases Hok Ep.
  - intros [= <-]. eexists. split; [reflexivity|]. player_cases Hok Ep.
  - destruct (deadline t <=? now s) eqn:Ed; [|done]. intros [= <-]. eexists. split; [reflexivity|].
    player_cases Hok Ep.
  - intros [= <-]. eexists. split; [reflexivity|]. destruct (now s <? deadline t) eqn:Ed; player_cases Hok Ep.
    intros _. right. bool_prop. intros p e Hp He. destruct pl_wait0 as [Hd _]; [done|].
    specialize (Hd p e Hp He). unfold handled in Hd. lia.
  - intros [= <-]. eexists. split; [reflexivity|]. fields; destruct (stopFlag s); player_cases Hok Ep.
    intros _. by destruct pl_check0 as [?|?].
  - destruct (lines t !! idx t ≫= message) as [m|] eqn:Em; intros [= <-]; eexists; (split; [reflexivity|]).
    + by apply player_ok_publish.
    + player_cases Hok Ep.
  - intros [= <-]. eexists. split; [reflexivity|]. player_cases Hok Ep.
  - intros [= <-]. eexists. split; [reflexivity|]. fields; destruct (stopFlag s); player_cases Hok Ep.
    intros _. by destruct pl_end0.
  - intros [= <-]. eexists. split; [reflexivity|]. player_cases Hok Ep.
Qed.

Definition main_ok (s : State) : Prop :=
  match main s with
  | MStopNotify _ | MStopJoin _ => stopFlag s = true
  | MLoad _ | MStart _ _ | MDestroyed => thread s = None
  | MIdle | MStopFlag _ => True
  end.

(** onComplete(false) is called by a thread that has dealt with every line. *)
Definition completed_ok (s : State) (t : Player) : Prop :=
  (pc t <> PDone -> completed s = []) /\ (false ∈ completed s -> (length (lines t) <= idx t)%nat).

Record invariant (s : State) : Prop := {
  inv_player : ∀ t, thread s = Some t -> player_ok (now s) (stopFlag s) (published s) t;
  inv_completed : ∀ t, thread s = Some t -> completed_ok s t;
  inv_main : main_ok s;
}.

(** What a step of the thread leaves alone. *)
Lemma playerStep_frame s s' :
  playerStep s = Some s' -> now s' = now s /\ stopFlag s' = stopFlag s /\ main s' = main s /\ stored s' = stored s.
Proof.
  unfold playerStep. intros (t & E & H)%bind_Some.
  destruct (pc t); try done; repeat case_match; try done; injection H as <-; done.
Qed.

Lemma completed_ok_step s s' t t' :
  player_ok (now s) (stopFlag s) (published s) t -> completed_ok s t ->
  thread s = Some t -> playerStep s = Some s' -> thread s' = Some t' -> completed_ok s' t'.
Proof.
  intros Hok [Hc Hf] E. unfold playerStep. rewrite E, bind_ret. destruct (pc t) eqn:Ep; try done.
  all: rewrite Hc in Hf by done.
  all: try (repeat case_match; intros [= <-] [= <-]; unfold completed_ok; fields; split; rewrite ?Hc by done; try done;
            by intros ?%not_elem_of_nil).
  intros [= <-] [= <-]. unfold completed_ok; fields; split; [done|]. rewrite Hc by done. destruct (onComplete t); [|by intros ?%not_elem_of_nil].
  cbn [app]. rewrite list_elem_of_singleton. intros <-. by apply (pl_complete _ _ _ _ Hok).
Qed.

Lemma player_ok_new n l p c : player_ok n false [] (mkPlayer l p c 0 0 0 0 0 PInit).
Proof. split; unfold progressed; fields; try done. intros _ _. by right. Qed.

Lemma player_ok_woken n sf pub t : player_ok n sf pub t -> player_ok n sf pub (notified t).
Proof.
  intros Hok. unfold notified. destruct (pc t) eqn:Ep; try done. player_cases Hok Ep.
Qed.

Lemma playback_invariant_exec a s s' : invariant s -> exec a s = Some s' -> invariant s'.
Proof.
  intros Hi. pose proof Hi as [Hp Hc Hm]. unfold exec.
  assert (∀ b, call b s = Some s' -> invariant s') as Hcall.
  { intros b. unfold call. destruct (main s); try done. intros [= <-]. by split. }
  destruct a; try apply Hcall.
  - unfold mainStep, main_ok in *. destruct (main s) as [|b|b|b|body|p c|] eqn:Em; try done.
    + intros [= <-]. split; fields; try done. intros t E. eapply player_ok_later; [by apply Hp|lia|done].
    + intros [= <-]. split; fields; [| |done].
      * intros u (t & E & ->)%fmap_Some. by apply player_ok_woken, Hp.
      * intros u (t & E & ->)%fmap_Some. specialize (Hc t E). unfold notified. by destruct (pc t) eqn:Ep; try done;
          destruct Hc as [Hc ?]; split; fields; [intros _; apply Hc; rewrite Ep|].
    + assert (joined b s = s' -> invariant s') as Hj by (intros <-; split; fields; try done; by destruct b).
      destruct (thread s) as [t|]; [destruct (pc t); try done|]; intros [= ?]; by apply Hj.
    + intros [= <-]. split; fields; rewrite ?Hm; done.
    + destruct (stored s) eqn:Es; intros [= <-]; split; fields; rewrite ?Hm; try done.
      * intros t [= <-]. apply player_ok_new.
      * intros t [= <-]. unfold completed_ok. fields. split; [done|]. by intros ?%not_elem_of_nil.
  - intros Hs. pose proof (playerStep_frame _ _ Hs) as (En & Ef & Em & _).
    assert (∃ t, thread s = Some t) as [t E].
    { unfold playerStep in Hs. apply bind_Some in Hs as (t & ? & _). by exists t. }
    destruct (player_ok_step s s' t E (Hp t E) Hs) as (t' & E' & Hok). split.
    + intros u Hu. rewrite E' in Hu. by injection Hu as <-.
    + intros u Hu. apply (completed_ok_step s s' t u); auto.
    + unfold main_ok in *. rewrite Em, Ef. destruct (main s); try done; by rewrite Hm in E.
  - unfold spuriousWakeup. intros (t & E & H)%bind_Some. destruct (pc t) eqn:Ep; try done. injection H as <-.
    split; fields.
    + intros u [= <-]. specialize (Hp t E). player_cases Hp Ep.
    + intros u [= <-]. destruct (Hc t E) as [Hc1 ?]. split; fields; [intros _; apply Hc1; by rewrite Ep|done].
    + unfold main_ok in *. fields. destruct (main s); try done; by rewrite Hm in E.
  - unfold publishThrows. intros (t & E & H)%bind_Some. destruct (pc t) eqn:Ep; try done.
    destruct (_ ≫= message) as [m|] eqn:El; [|done]. injection H as <-. split; fields.
    + intros u [= <-]. specialize (Hp t E). player_cases Hp Ep.
    + intros u [= <-]. destruct (Hc t E) as [Hc1 ?]. split; fields; [intros _; apply Hc1; by rewrite Ep|done].
    + unfold main_ok in *. fields. destruct (main s); try done; by rewrite Hm in E.
  - intros [= <-]. split; fields; try done. intros t E. eapply player_ok_later; [by apply Hp|lia|done].
Qed.

Lemma playback_reachable_invariant s : reachable s -> invariant s.
Proof.
  apply reachable_ind'; [by split|]. intros a ??. apply playback_invariant_exec.
Qed.

(** * Stopping *)

Definition ended (a : After) (s : State) : Prop :=
  main s = finished a /\ thread s = None /\ playing s = false.
Definition crashed (s : State) : Prop := ∃ t, thread s = Some t /\ pc t = PCrash.

(** [k] steps of the thread and the join; [k] steps into the crash. *)
Ltac ends k := exists k; eexists; (split; [lia|]); right; (split; [cbn; reflexivity|done]).
Ltac crashes k := exists k; eexists; (split; [lia|]); left; (split; [cbn; reflexivity|by eexists]).

(** With the flag set, from a counter that does not wait. *)
Lemma stop_running s a t :
  main s = MStopJoin a -> stopFlag s = true -> thread s = Some t -> waiting (pc t) = false ->
  ∃ k s', (k <= 5)%nat /\
    ((execs (replicate k Worker) s = Some s' /\ crashed s') \/
     (execs (replicate k Worker ++ [Main]) s = Some s' /\ ended a s')).
Proof.
  destruct s as [nw st sf pl th m pub pr co]. fields. intros -> -> -> Hw.
  destruct t as [ls op oc b pv i o d p]. fields in *. destruct p; try done.
  - destruct (initBase (mkPlayer ls op oc b pv i o d PInit)) as [b'|] eqn:Eb.
    + exists 4%nat. eexists. split; [lia|]. right. cbn -[initBase]. rewrite Eb. cbn. rewrite andb_false_r. cbn.
      split; [reflexivity|done].
    + exists 1%nat. eexists. split; [lia|]. left. cbn -[initBase]. rewrite Eb. cbn.
      split; [reflexivity|by eexists].
  - exists 3%nat. eexists. split; [lia|]. right. cbn. rewrite andb_false_r. cbn. split; [reflexivity|done].
  - ends 3%nat.
  - set (t := mkPlayer ls op oc b pv i o d PPublish).
    set (s := mkState nw st true pl (Some t) (MStopJoin a) pub pr co).
    assert (∃ s1, playerStep s = Some s1 /\
      s1 = match ls !! i ≫= message with
           | Some m => mkState nw st true pl (Some (set_pc PProgress t)) (MStopJoin a) (pub ++ [(nw, m)]) pr co
           | None => goto PCrash t s
           end) as (s1 & E1 & Es1).
    { unfold playerStep. cbn [thread s]. rewrite bind_ret. cbn [t pc lines idx]. destruct (ls !! i ≫= message); by eexists. }
    destruct (ls !! i ≫= message) as [m|].
    + exists 5%nat. eexists. split; [lia|]. right. cbn [replicate app execs exec]. rewrite E1, bind_ret, Es1.
      cbn. rewrite andb_false_r. cbn. split; [reflexivity|done].
    + exists 1%nat. eexists. split; [lia|]. left. cbn [replicate execs exec]. rewrite E1, bind_ret, Es1.
      split; [reflexivity|by eexists].
  - exists 4%nat. eexists. split; [lia|]. right. cbn. rewrite andb_false_r. cbn. split; [reflexivity|done].
  - ends 2%nat.
  - ends 1%nat.
  - ends 0%nat.
  - crashes 0%nat.
Qed.

(** At most [b] actions of the client and the thread end the stop. *)
Definition steps_to (b : nat) (a : After) (s : State) : Prop :=
  ∃ l s', Forall (λ x, x = Main \/ x = Worker) l /\ (length l <= b)%nat /\
    execs l s = Some s' /\ (ended a s' \/ crashed s').

Lemma steps_cons b a x s s1 :
  x = Main \/ x = Worker -> exec x s = Some s1 -> steps_to b a s1 -> steps_to (S b) a s.
Proof.
  intros Hx E (l & s' & Hl & Hb & Hs & H). exists (x :: l), s'. split; [by constructor|].
  split; [cbn; lia|]. split; [|done]. cbn [execs]. by rewrite E, bind_ret.
Qed.

Lemma steps_weaken b b' a s : steps_to b a s -> (b <= b')%nat -> steps_to b' a s.
Proof. intros (l & s' & Hl & Hb & H) ?. exists l, s'. split; [done|]. split; [lia|done]. Qed.

(** A wait in progress is over. *)
Definition ripe (s : State) : Prop :=
  ∀ t, thread s = Some t -> waiting (pc t) = true -> deadline t <= now s.

Lemma steps_running s a t :
  main s = MStopJoin a -> stopFlag s = true -> thread s = Some t -> waiting (pc t) = false -> steps_to 6 a s.
Proof.
  intros Hm Hf E Hw. destruct (stop_running s a t Hm Hf E Hw) as (k & s' & Hk & [[Hs Hc]|[Hs Hc]]).
  - exists (replicate k Worker), s'. split; [apply Forall_replicate; auto|]. rewrite length_replicate.
    split; [lia|]. auto.
  - exists (replicate k Worker ++ [Main]), s'. split; [|rewrite length_app, length_replicate; cbn].
    + apply Forall_app. split; [apply Forall_replicate|repeat constructor]; auto.
    + split; [lia|]. auto.
Qed.

Definition joining (a : After) (s : State) (t : Player) : Prop :=
  main s = MStopJoin a /\ stopFlag s = true /\ thread s = Some t /\ deadline t <= now s.

(** One step of a waiting thread that only moves its counter. *)
Lemma steps_goto b a s t p :
  joining a s t -> playerStep s = Some (goto p t s) ->
  (joining a (goto p t s) (set_pc p t) -> steps_to b a (goto p t s)) -> steps_to (S b) a s.
Proof.
  intros (Hm & Hf & E & Hd) Hs H. eapply steps_cons; [by right|exact Hs|]. by apply H.
Qed.

Lemma steps_checked a s t : joining a s t -> waiting (pc t) = false -> steps_to 6 a s.
Proof. intros (Hm & Hf & E & _). by apply steps_running. Qed.

Lemma steps_woken a s t : joining a s t -> pc t = PPred \/ pc t = PWoken -> steps_to 7 a s.
Proof.
  intros Hj Hp. pose proof Hj as (Hm & Hf & E & Hd). apply (steps_goto _ a s t PCheck Hj).
  - unfold playerStep. rewrite E, bind_ret. destruct Hp as [-> | ->]; [by rewrite Hf|].
    by rewrite (proj2 (Z.ltb_ge _ _)) by lia.
  - intros Hj'. by eapply steps_checked.
Qed.

Lemma steps_blocked a s t : joining a s t -> pc t = PBlocked -> steps_to 8 a s.
Proof.
  intros Hj Hp. pose proof Hj as (Hm & Hf & E & Hd). apply (steps_goto _ a s t PWoken Hj).
  - unfold playerStep. rewrite E, bind_ret, Hp. by rewrite (proj2 (Z.leb_le _ _)) by lia.
  - intros Hj'. eapply steps_woken; [done|by right].
Qed.

Lemma steps_parked a s t : joining a s t -> pc t = PPark -> steps_to 9 a s.
Proof.
  intros Hj Hp. pose proof Hj as (Hm & Hf & E & Hd). apply (steps_goto _ a s t PBlocked Hj).
  - unfold playerStep. by rewrite E, bind_ret, Hp.
  - intros Hj'. by eapply steps_blocked.
Qed.

Lemma steps_join s a : main s = MStopJoin a -> stopFlag s = true -> ripe s -> steps_to 9 a s.
Proof.
  intros Hm Hf Hr. destruct (thread s) as [t|] eqn:E.
  2: { apply (steps_weaken 1); [|lia]. exists [Main]. eexists. split; [repeat constructor; auto|].
       split; [done|]. cbn. unfold mainStep. rewrite Hm, E. split; [reflexivity|by left]. }
  destruct (waiting (pc t)) eqn:Ew.
  - pose proof (Hr t E Ew) as Hd. assert (joining a s t) as Hj by done.
    destruct (pc t) eqn:Ep; try done.
    + apply (steps_weaken 7); [|lia]. eapply steps_woken; [done|by left].
    + by eapply steps_parked.
    + apply (steps_weaken 8); [|lia]. by eapply steps_blocked.
    + apply (steps_weaken 7); [|lia]. eapply steps_woken; [done|by right].
  - apply (steps_weaken 6); [|lia]. by eapply steps_running.
Qed.

Lemma steps_notify s a : main s = MStopNotify a -> stopFlag s = true -> ripe s -> steps_to 10 a s.
Proof.
  intros Hm Hf Hr. eapply steps_cons; [by left|cbn; unfold mainStep; rewrite Hm; reflexivity|].
  apply steps_join; [done..|]. intros u (t & E & ->)%fmap_Some. cbn. unfold notified.
  destruct (pc t) eqn:Ep; cbn; intros Hw; apply Hr; by rewrite ?Ep in *.
Qed.

Lemma steps_flag s a : main s = MStopFlag a -> ripe s -> steps_to 11 a s.
Proof.
  intros Hm Hr. eapply steps_cons; [by left|cbn; unfold mainStep; rewrite Hm; reflexivity|].
  by apply steps_notify.
Qed.

(** * Playing to the end *)

(** The thread runs alone, time passing. *)
Definition plays (s s' : State) : Prop :=
  ∃ acts, Forall (λ a, a = Worker \/ ∃ n, a = Tick n) acts /\ execs acts s = Some s'.

Lemma plays_refl s : plays s s.
Proof. by exists []. Qed.

Lemma plays_trans s s' s'' : plays s s' -> plays s' s'' -> plays s s''.
Proof.
  intros (l & Hl & H) (k & Hk & H'). exists (l ++ k). split; [by apply Forall_app|].
  by rewrite execs_app, H, bind_ret.
Qed.

Lemma plays_step s s1 s' : playerStep s = Some s1 -> plays s1 s' -> plays s s'.
Proof.
  intros H. apply plays_trans. exists [Worker]. split; [repeat constructor; auto|]. cbn. by rewrite H.
Qed.

Lemma plays_tick n s s' :
  plays (mkState (now s + Z.of_nat n) (stored s) (stopFlag s) (playing s) (thread s) (main s) (published s)
    (progress s) (completed s)) s' -> plays s s'.
Proof. apply plays_trans. exists [Tick n]. split; [|done]. constructor; [right; by exists n|done]. Qed.

(** A line the thread does not throw on. *)
Definition good (l : string) : Prop :=
  json_load l = None \/ ∃ r topic data ts, json_load l = Some r /\ topic_of r = Some topic /\
    data_of r = Some data /\ timestamp_of r = Some ts /\ 0 <= ts < 4611686018427387904.

(** Before the test of the loop for line [i]. *)
Record at_line (L : list string) (i : nat) (s : State) (t : Player) : Prop := {
  at_thread : thread s = Some t;
  at_pc : pc t = PTop;
  at_idx : idx t = i;
  at_lines : lines t = L;
  at_complete : onComplete t = true;
  at_flag : stopFlag s = false;
  at_completed : completed s = [];
  at_base : 0 <= baseTime t < 4611686018427387904;
  at_prev : -4611686018427387904 < prevOffset t < 4611686018427387904;
}.

(** Steps of a thread that only moves its counter. *)
Ltac play := eapply plays_step; [unfold playerStep; rewrite bind_ret; fields; reflexivity|]; fields.

(** From the check on: publication, progress, next line. *)
Lemma plays_check L s t l m :
  thread s = Some t -> pc t = PCheck -> L !! idx t = Some l -> lines t = L -> message l = Some m ->
  onComplete t = true -> stopFlag s = false -> completed s = [] ->
  0 <= baseTime t < 4611686018427387904 -> -4611686018427387904 < offset t < 4611686018427387904 ->
  ∃ s' t', plays s s' /\ at_line L (S (idx t)) s' t'.
Proof.
  intros E Ep Hl HL Hm Hc Hf Hco Hb Ho. eexists _, _. split.
  - eapply plays_step; [unfold playerStep; rewrite E, bind_ret, Ep, Hf; reflexivity|].
    eapply plays_step; [unfold playerStep; cbn [goto thread]; rewrite bind_ret; fields; rewrite HL, Hl; cbn [mbind option_bind];
      rewrite Hm; reflexivity|].
    eapply plays_step; [unfold playerStep; cbn [goto thread]; rewrite bind_ret; fields; reflexivity|].
    apply plays_refl.
  - split; fields; try done.
Qed.

Lemma plays_line L i s t l :
  at_line L i s t -> L !! i = Some l -> good l -> ∃ s' t', plays s s' /\ at_line L (S i) s' t'.
Proof.
  intros [E Ep <- HL Hc Hf Hco Hb Hpv] Hl Hg.
  assert ((idx t <? length (lines t))%nat && negb (stopFlag s) = true) as Ht.
  { rewrite Hf, HL. apply andb_true_iff. split; [|done]. apply Nat.ltb_lt. by apply lookup_lt_Some in Hl. }
  assert (∀ p t', loopBody (now s) t = (p, t') -> playerStep s = Some (goto p t' s)) as Hstep.
  { intros p t' Hlb. unfold playerStep. by rewrite E, bind_ret, Ep, Ht, Hlb. }
  unfold loopBody in Hstep. rewrite HL, Hl in Hstep.
  destruct Hg as [Hj|(r & topic & data & ts & Hj & Htp & Hdt & Hts & Hr)]; rewrite Hj in Hstep.
  - eexists _, _. split; [eapply plays_step; [by apply Hstep|apply plays_refl]|]. by split.
  - rewrite Htp, Hts in Hstep. rewrite bind_ret in Hstep.
    assert (sub64 ts (baseTime t) = Some (ts - baseTime t)) as E1.
    { unfold sub64. rewrite (proj2 (Z.leb_le _ _)), (proj2 (Z.ltb_lt _ _)) by lia. done. }
    assert (sub64 (ts - baseTime t) (prevOffset t) = Some (ts - baseTime t - prevOffset t)) as E2.
    { unfold sub64. rewrite (proj2 (Z.leb_le _ _)), (proj2 (Z.ltb_lt _ _)) by lia. done. }
    rewrite E1, E2 in Hstep.
    assert (message l = Some (topic, data)) as Hm.
    { unfold message. rewrite Hj, bind_ret, Htp, bind_ret, Hdt. done. }
    destruct (Z.ltb_spec 0 (ts - baseTime t - prevOffset t)).
    + set (w := Z.min (ts - baseTime t - prevOffset t) 5000) in *.
      set (t1 := set_wait (ts - baseTime t) (now s + w) t) in *.
      set (s1 := mkState (now s + w) (stored s) (stopFlag s) (playing s) (Some (set_pc PCheck t1)) (main s)
        (published s) (progress s) (completed s)).
      destruct (plays_check L s1 (set_pc PCheck t1) l (topic, data)) as (s' & t' & Hp & Ha); try done.
      { subst t1. fields. lia. }
      exists s', t'. split; [|done]. eapply plays_step; [by apply Hstep|].
      eapply plays_step; [unfold playerStep; cbn [goto thread]; rewrite bind_ret; fields; rewrite Hf; reflexivity|].
      eapply plays_step; [unfold playerStep; cbn [goto thread]; rewrite bind_ret; fields; reflexivity|].
      apply (plays_tick (Z.to_nat w)). fields. rewrite Z2Nat.id by lia.
      eapply plays_step; [unfold playerStep; cbn [goto thread]; rewrite bind_ret; fields;
        rewrite (proj2 (Z.leb_le _ _)) by (cbn; lia); reflexivity|].
      eapply plays_step; [unfold playerStep; cbn [goto thread]; rewrite bind_ret; fields;
        rewrite (proj2 (Z.ltb_ge _ _)) by (cbn; lia); reflexivity|].
      exact Hp.
    + destruct (plays_check L (goto PCheck (set_wait (ts - baseTime t) (deadline t) t) s)
        (set_pc PCheck (set_wait (ts - baseTime t) (deadline t) t)) l (topic, data)) as (s' & t' & Hp & Ha); try done.
      { fields. lia. }
      exists s', t'. split; [|done]. eapply plays_step; [by apply Hstep|exact Hp].
Qed.

Lemma plays_lines L n i s t :
  at_line L i s t -> (i + n = length L)%nat -> Forall good L ->
  ∃ s' t', plays s s' /\ at_line L (length L) s' t'.
Proof.
  revert i s t. induction n as [|n IH]; intros i s t Hat Hn Hg.
  - exists s, t. split; [apply plays_refl|]. by replace (length L) with i by lia.
  - destruct (lookup_lt_is_Some_2 L i) as [l Hl]; [lia|].
    destruct (plays_line L i s t l) as (s1 & t1 & H1 & Ha1); [done..| |].
    { rewrite List.Forall_forall in Hg. apply Hg, list_elem_of_In. by eapply list_elem_of_lookup_2. }
    destruct (IH (S i) s1 t1) as (s2 & t2 & H2 & Ha2); [done|lia|done|].
    exists s2, t2. split; [by eapply plays_trans|done].
Qed.

(** After the last line: the report. *)
Lemma plays_end L s t :
  at_line L (length L) s t ->
  ∃ s' t', plays s s' /\ thread s' = Some t' /\ pc t' = PDone /\ lines t' = L /\ completed s' = [false] /\
    playing s' = false.
Proof.
  intros [E Ep Hi HL Hc Hf Hco _ _]. eexists _, _. split.
  - eapply plays_step.
    { unfold playerStep. rewrite E, bind_ret, Ep, Hi, HL, Nat.ltb_irrefl. cbn [andb]. reflexivity. }
    eapply plays_step; [unfold playerStep; cbn [goto thread]; rewrite bind_ret; fields; rewrite Hf; reflexivity|].
    eapply plays_step; [unfold playerStep; cbn [thread]; rewrite bind_ret; fields; rewrite Hc, Hco; reflexivity|].
    apply plays_refl.
  - done.
Qed.

(** * Properties *)

Lemma reachable_faithful s t :
  reachable s -> thread s = Some t ->
  let recording := omap timed (lines t) in
  (∃ rest, recording.*2 = (published s).*2 ++ rest) /\
  (∀ k p e p' e', published s !! k = Some p -> recording !! k = Some e ->
    published s !! S k = Some p' -> recording !! S k = Some e' -> p.1 + Z.min (e'.1 - e.1) 5000 <= p'.1) /\
  (false ∈ completed s -> (published s).*2 = recording.*2).
Proof.
  intros [Hp Hc _]%playback_reachable_invariant E recording. destruct (Hp t E) as [Hpaced _ _ _ _ _ _ _ _ _ _].
  pose proof (paced_length _ _ Hpaced) as Hlen. destruct Hpaced as [Hsame Hgap].
  assert (recording = handled (progressed t) t ++ omap timed (drop (progressed t) (lines t))) as Er.
  { unfold handled, recording. by rewrite <- omap_app, take_drop. }
  split; [|split].
  - exists (omap timed (drop (progressed t) (lines t))).*2. by rewrite Er, fmap_app, Hsame.
  - intros k p e p' e' H1 H2 H3 H4. apply lookup_lt_Some in H3 as Hk.
    rewrite Er, lookup_app_l in H2 by lia. rewrite Er, lookup_app_l in H4 by lia. by eapply (Hgap k).
  - intros Hf. destruct (Hc t E) as [_ Hl]. specialize (Hl Hf). rewrite Hsame, Er.
    rewrite drop_ge; [by rewrite app_nil_r|]. unfold progressed. destruct (pc t); lia.
Qed.

(** The thread adds to what it has published. *)
Lemma playerStep_grows s s' :
  playerStep s = Some s' -> published s `prefix_of` published s' /\ progress s `prefix_of` progress s' /\
    completed s `prefix_of` completed s'.
Proof.
  unfold playerStep. intros (t & E & H)%bind_Some.
  destruct (pc t); try done; repeat case_match; try done; injection H as <-; cbn;
    split_and!; first [done | by apply prefix_app_r].
Qed.

Lemma replay_completes s p L :
  reachable s -> main s = MStart p true -> stored s = L -> L <> [] -> Forall good L ->
  ∃ acts s', Forall (λ a, a = Worker \/ ∃ n, a = Tick n) acts /\ execs (Main :: acts) s = Some s' /\
    (published s').*2 = (omap timed L).*2 /\ completed s' = [false] /\ playing s' = false.
Proof.
  intros Hr Hm Hst Hne Hg. destruct L as [|l L]; [done|].
  set (s1 := mkState (now s) (l :: L) false true (Some (mkPlayer (l :: L) p true 0 0 0 0 0 PInit)) MIdle [] [] []).
  assert (exec Main s = Some s1) as E1 by (cbn; unfold mainStep; by rewrite Hm, Hst).
  assert (∃ b, initBase (mkPlayer (l :: L) p true 0 0 0 0 0 PInit) = Some b /\ 0 <= b < 4611686018427387904)
    as (b & Eb & Hb).
  { unfold initBase. fields. apply Forall_cons_1 in Hg as [[->|(r & ? & ? & ts & -> & _ & _ & Hts & Hr2)] _].
    - by exists 0.
    - by exists ts. }
  set (t2 := mkPlayer (l :: L) p true b 0 0 0 0 PTop).
  set (s2 := mkState (now s) (l :: L) false true (Some t2) MIdle [] [] []).
  assert (playerStep s1 = Some s2) as E2.
  { unfold playerStep. cbn [thread s1]. rewrite bind_ret. cbn [pc]. by rewrite Eb. }
  destruct (plays_lines (l :: L) (length (l :: L)) 0 s2 t2) as (s3 & t3 & H3 & Ha3); [by split|done|done|].
  destruct (plays_end (l :: L) s3 t3 Ha3) as (s4 & t4 & H4 & Et & _ & HL & Hc & Hpl).
  assert (plays s1 s4) as (acts & Hacts & Hrun).
  { eapply plays_step; [exact E2|]. by eapply plays_trans. }
  exists acts, s4. split; [done|]. assert (execs (Main :: acts) s = Some s4) as Hall.
  { cbn [execs]. by rewrite E1, bind_ret. }
  split; [done|]. split; [|done]. assert (reachable s4) as Hr4 by (by eapply execs_reachable).
  pose proof (reachable_faithful s4 t4 Hr4 Et) as (_ & _ & Hf). rewrite HL in Hf. apply Hf. rewrite Hc. left.
Qed.

(** C27: the messages published since the start are those of the recording, in
    order and without gaps, each at the earliest its recorded distance after
    its predecessor, or five seconds; when onComplete(false) has been called,
    none is missing. *)
Theorem playback_faithful s t :
  reachable s -> thread s = Some t ->
  let recording := omap timed (lines t) in
  (∃ rest, recording.*2 = (published s).*2 ++ rest) /\
  (∀ k p e p' e', published s !! k = Some p -> recording !! k = Some e ->
    published s !! S k = Some p' -> recording !! S k = Some e' -> p.1 + Z.min (e'.1 - e.1) 5000 <= p'.1) /\
  (false ∈ completed s -> (published s).*2 = recording.*2).
Proof. apply reachable_faithful. Qed.

(** Stopping (also by a load, a restart or the destructor) takes at most
    five seconds and eleven actions from every point of every interleaving,
    although the flag is set and notified without the mutex, so that a
    notification can be lost: the join returns, or the replay thread has thrown
    on a malformed line. *)
Theorem playback_stop_bounded s a :
  reachable s -> main s = MStopFlag a \/ main s = MStopNotify a \/ main s = MStopJoin a ->
  ∃ n l s', (n <= 5000)%nat /\ Forall (λ x, x = Main \/ x = Worker) l /\ (length l <= 11)%nat /\
    execs (Tick n :: l) s = Some s' /\ (ended a s' \/ crashed s').
Proof.
  intros [Hp _ Hm]%playback_reachable_invariant Hstop.
  assert (∃ n, (n <= 5000)%nat /\ ∀ t, thread s = Some t -> waiting (pc t) = true ->
    deadline t <= now s + Z.of_nat n) as (n & Hn & Hr).
  { destruct (thread s) as [t|] eqn:E; [|exists 0%nat; split; [lia|done]]. destruct (waiting (pc t)) eqn:Ew.
    - destruct (pl_wait _ _ _ _ (Hp t eq_refl) Ew) as [_ Hd]. exists (Z.to_nat (deadline t - now s)).
      split; [lia|]. intros u [= <-] _. lia.
    - exists 0%nat. split; [lia|]. intros u [= <-]. congruence. }
  set (s1 := mkState (now s + Z.of_nat n) (stored s) (stopFlag s) (playing s) (thread s) (main s)
    (published s) (progress s) (completed s)).
  assert (steps_to 11 a s1) as (l & s' & Hl & Hb & Hs & H).
  { unfold main_ok in Hm. destruct Hstop as [E|[E|E]]; rewrite E in Hm.
    - by apply steps_flag.
    - apply (steps_weaken 10); [|lia]. by apply steps_notify.
    - apply (steps_weaken 9); [|lia]. by apply steps_join. }
  exists n, l, s'. by repeat (split; [done|]).
Qed.

(** A started replay ends: when every line of the recording is either not
    JSON or a record with a timestamp below 2^62, the thread, left alone, comes
    to its end in finitely many actions, having published every record of the
    recording in order, called onComplete(false) once and cleared _playing. *)
Theorem playback_completes s p L :
  reachable s -> main s = MStart p true -> stored s = L -> L <> [] -> Forall good L ->
  ∃ acts s', Forall (λ a, a = Worker \/ ∃ n, a = Tick n) acts /\ execs (Main :: acts) s = Some s' /\
    (published s').*2 = (omap timed L).*2 /\ completed s' = [false] /\ playing s' = false.
Proof. apply replay_completes. Qed.

End engine.

(** * Recording files *)

(** A recording, as OmniscopeApp writes it: a line and a newline per record. *)
Fixpoint recording_body (ls : list string) : string :=
  match ls with
  | [] => ""
  | l :: ls => (l ++ String "010" (recording_body ls))%string
  end.

Fixpoint no_newline (s : string) : bool :=
  match s with
  | EmptyString => true
  | String c s => negb (Ascii.eqb c "010") && no_newline s
  end.

Lemma getlines_line acc l rest :
  no_newline l = true -> getlines acc (l ++ String "010" rest) = (acc ++ l)%string :: getlines "" rest.
Proof.
  revert acc. induction l as [|c l IH]; intros acc Hl.
  - change ("" ++ String "010" rest)%string with (String "010" rest). cbn [getlines]. cbn [Ascii.eqb Bool.eqb].
    f_equal. clear. induction acc as [|x acc IH]; [done|].
    change (String x acc = String x (acc ++ "")). by rewrite <- IH.
  - change (String c l ++ String "010" rest)%string with (String c (l ++ String "010" rest)).
    cbn [getlines no_newline] in *. bool_prop. rewrite H. rewrite IH by done. f_equal.
    clear. induction acc as [|x acc IH]; [done|].
    change (String x ((acc ++ String c "") ++ l) = String x (acc ++ String c l))%string. by rewrite IH.
Qed.

Lemma recording_lines_body ls :
  Forall (λ l, l <> ""%string /\ no_newline l = true) ls -> recording_lines (recording_body ls) = ls.
Proof.
  unfold recording_lines. induction 1 as [|l ls [Hl Hn] _ IH]; [done|]. cbn [recording_body].
  rewrite getlines_line by done. change ("" ++ l)%string with l. rewrite filter_cons, decide_True by done.
  by rewrite IH.
Qed.

(** Loading what was recorded gives the recorded lines back: a file of
    non-empty lines without newlines, each followed by a newline, loads as
    exactly those lines. *)
Theorem recording_roundtrip ls :
  Forall (λ l, l <> ""%string /\ no_newline l = true) ls -> recording_lines (recording_body ls) = ls.
Proof. apply recording_lines_body. Qed.

(** * Witnesses: a record is its text, with a hundred milliseconds a character *)

Definition w_load (l : string) : option string := if String.eqb l "x" then None else Some l.
Definition w_topic (r : string) : option string := Some "t"%string.
Definition w_data (r : string) : option string := Some r.
Definition w_time (r : string) : option Z := Some (100 * Z.of_nat (String.length r)).
Abbreviation w_exec := (exec w_load w_topic w_data w_time).

Definition w_lines : list string := ["a"; "x"; "abc"]%string.

(** The second record waits for its 200 ms. *)
Definition w_player : Player := mkPlayer w_lines true true 100 0 2 200 200 PBlocked.
Definition w_state (m : MainPc) : State :=
  mkState 0 w_lines false true (Some w_player) m [(0, ("t", "a")%string)] [(1, 3)%nat] [].

Lemma w_reachable : Prelude.reachable w_exec construct (w_state MIdle).
Proof.
  apply (execs_reachable w_exec construct
    ([Load (recording_body w_lines); Main; Main; Main; Main; Start true true; Main; Main; Main; Main]
      ++ replicate 9 Worker) construct); [constructor|].
  vm_compute. reflexivity.
Qed.

Lemma playback_faithful_witness :
  (∃ rest, [("t", "a"); ("t", "abc")]%string = [("t", "a")%string] ++ rest) /\
  (∀ k p e p' e', [(0, ("t", "a"))]%string !! k = Some p ->
    [(100, ("t", "a")); (300, ("t", "abc"))]%string !! k = Some e ->
    [(0, ("t", "a"))]%string !! S k = Some p' ->
    [(100, ("t", "a")); (300, ("t", "abc"))]%string !! S k = Some e' -> p.1 + Z.min (e'.1 - e.1) 5000 <= p'.1) /\
  (false ∈ @nil bool -> [("t", "a")]%string = [("t", "a"); ("t", "abc")]%string).
Proof.
  apply (playback_faithful w_load w_topic w_data w_time (w_state MIdle) w_player); [exact w_reachable|reflexivity].
Defined.

Lemma playback_stop_bounded_witness :
  ∃ n l s', (n <= 5000)%nat /\ Forall (λ x, x = Main \/ x = Worker) l /\ (length l <= 11)%nat /\
    Prelude.execs w_exec (Tick n :: l) (w_state (MStopFlag AReturn)) = Some s' /\ (ended AReturn s' \/ crashed s').
Proof.
  apply (playback_stop_bounded w_load w_topic w_data w_time (w_state (MStopFlag AReturn)) AReturn); [|by left].
  apply (execs_reachable w_exec construct [Stop] (w_state MIdle)); [exact w_reachable|reflexivity].
Defined.

Lemma playback_completes_witness :
  ∃ acts s', Forall (λ a, a = Worker \/ ∃ n, a = Tick n) acts /\
    Prelude.execs w_exec (Main :: acts) (mkState 0 w_lines true false None (MStart false true) [] [] []) = Some s' /\
    (published s').*2 = [("t", "a"); ("t", "abc")]%string /\ completed s' = [false] /\ playing s' = false.
Proof.
  apply (playback_completes w_load w_topic w_data w_time
    (mkState 0 w_lines true false None (MStart false true) [] [] []) false w_lines); [|reflexivity|reflexivity|done|].
  - apply (execs_reachable w_exec construct
      [Load (recording_body w_lines); Main; Main; Main; Main; Start false true; Main; Main; Main] construct);
      [constructor|]. vm_compute. reflexivity.
  - constructor; [|constructor; [|constructor; [|constructor]]].
    + right. exists "a"%string, "t"%string, "a"%string, 100. repeat split; done.
    + by left.
    + right. exists "abc"%string, "t"%string, "abc"%string, 300. repeat split; done.
Defined.

Lemma recording_roundtrip_witness :
  recording_lines (String "097" (String "010" (String "098" (String "010" "")))) = ["a"; "b"]%string.
Proof.
  apply (recording_roundtrip ["a"; "b"]%string). repeat constructor; done.
Defined.

(** The notification of a stop can be lost: the thread parks after it, and the
    join then waits for the line's time. *)
Example playback_lost_notification :
  ∃ s t, Prelude.reachable w_exec construct s /\ main s = MStopJoin AReturn /\ thread s = Some t /\
    pc t = PBlocked /\ deadline t = now s + 200.
Proof.
  exists (mkState 0 w_lines true true (Some w_player) (MStopJoin AReturn) [(0, ("t", "a")%string)] [(1, 3)%nat] []), w_player.
  split; [|done].
  apply (execs_reachable w_exec construct
    ([Load (recording_body w_lines); Main; Main; Main; Main; Start true true; Main; Main; Main; Main]
      ++ replicate 8 Worker ++ [Stop; Main; Main; Worker]) construct); [constructor|]. vm_compute. reflexivity.
Qed.
