(* ===== verification/Dds.v ===== *)
(** DDS topics, publishers and subscribers: src/libs/CycloneDDS/.

    [TopicConfig] and [CycloneDDSConfig]: the registry of topics and their QoS
    and its defaults.  [DDSPublisher] and [DDSSubscriber]: the calls they make
    to the DDS library, which is not modelled; what DataReader::take returns is
    an input.  A subscriber is a step machine of its client and its polling
    thread, as in Timer.v. *)

From Stdlib Require Import String.
From S2P Require Import Prelude.

(** A QoS is the list of the policies streamed into a default-constructed one. *)
Inductive Policy : Type := Reliable (seconds : Z) | BestEffort | KeepLast (depth : Z).
Definition Qos : Type := list Policy.

Record TopicEntry : Type := mkTopicEntry {
  topicName : string;
  entry_writerQos : Qos;
  entry_readerQos : Qos;
}.

Module TopicConfig.

Abbreviation DDSTopicConfig := (gmap string TopicEntry).

(** std::unordered_map::emplace keeps an entry that is there. *)
Definition emplace (m : DDSTopicConfig) (e : TopicEntry) : DDSTopicConfig :=
  match m !! topicName e with Some _ => m | None => <[topicName e := e]> m end.

Definition construct (entries : list TopicEntry) : DDSTopicConfig := foldl emplace ∅ entries.

(** The left side is the text of the std::out_of_range thrown. *)
Definition getEntry (name : string) (c : DDSTopicConfig) : string + TopicEntry :=
  match c !! name with
  | None => inl ("DDSTopicConfig: topic '" ++ name ++ "' is not registered")%string
  | Some e => inr e
  end.

Definition writerQos (name : string) (c : DDSTopicConfig) : string + Qos :=
  match getEntry name c with inl e => inl e | inr e => inr (entry_writerQos e) end.

Definition readerQos (name : string) (c : DDSTopicConfig) : string + Qos :=
  match getEntry name c with inl e => inl e | inr e => inr (entry_readerQos e) end.

Definition hasTopic (name : string) (c : DDSTopicConfig) : bool := bool_decide (is_Some (c !! name)).

(** The order of an unordered_map is unspecified; this is the one of [gmap]. *)
Definition topicNames (c : DDSTopicConfig) : list string := (map_to_list c).*1.

(** The entry of a name is the first one of the list that has it. *)
Definition first_entry (name : string) (es : list TopicEntry) : option TopicEntry :=
  list.head (filter (λ e, topicName e = name) es).

Lemma emplace_lookup m e name :
  emplace m e !! name = match m !! name with
                        | Some x => Some x
                        | None => if decide (topicName e = name) then Some e else None
                        end.
Proof.
  unfold emplace. destruct (m !! topicName e) eqn:E.
  - destruct (m !! name) eqn:En; [done|]. rewrite decide_False; [done|]. intros <-. congruence.
  - destruct (decide (topicName e = name)) as [<-|Hn].
    + by rewrite lookup_insert_eq, E.
    + rewrite lookup_insert_ne by done. by destruct (m !! name).
Qed.

Lemma construct_lookup es name : construct es !! name = first_entry name es.
Proof.
  assert (∀ m, foldl emplace m es !! name
    = match m !! name with Some x => Some x | None => first_entry name es end) as H.
  { induction es as [|e es IH]; intros m; cbn [foldl]; [by destruct (m !! name)|].
    rewrite IH, emplace_lookup. destruct (m !! name); [done|]. unfold first_entry.
    destruct (decide (topicName e = name)).
    - by rewrite filter_cons_True.
    - by rewrite filter_cons_False. }
  unfold construct. by rewrite H, lookup_empty.
Qed.

Lemma first_entry_name name es e : first_entry name es = Some e -> topicName e = name.
Proof.
  unfold first_entry. intros H. assert (e ∈ filter (λ e, topicName e = name) es) as Hin.
  { destruct (filter _ es); [done|]. injection H as ->. left. }
  by apply list_elem_of_filter in Hin as [? _].
Qed.

Lemma first_entry_None name es : first_entry name es = None <-> name ∉ topicName <$> es.
Proof.
  unfold first_entry. split.
  - intros H (e & -> & He)%list_elem_of_fmap. destruct (filter _ es) eqn:E; [|done].
    assert (e ∈ filter (λ x, topicName x = topicName e) es) as Hin by by apply list_elem_of_filter.
    rewrite E in Hin. by apply not_elem_of_nil in Hin.
  - intros H. destruct (filter _ es) as [|e l] eqn:E; [done|]. destruct H.
    assert (e ∈ filter (λ x, topicName x = name) es) as Hin by (rewrite E; left).
    apply list_elem_of_filter in Hin as [<- Hin]. by apply list_elem_of_fmap_2.
Qed.

End TopicConfig.

Module CycloneDDSConfig.

Definition SENSOR_TOPIC : string := "SensorTopic".
Definition TRACK_TOPIC : string := "TrackTopic".

(** [DDSTopicConfig _config{{}};] selects the constructor from an initializer
    list, of one value-initialised entry. *)
Definition construct : TopicConfig.DDSTopicConfig := TopicConfig.construct [mkTopicEntry "" [] []].

Definition defaultInitialize (c : TopicConfig.DDSTopicConfig) : TopicConfig.DDSTopicConfig :=
  TopicConfig.construct
    [mkTopicEntry SENSOR_TOPIC [Reliable 1; KeepLast 10] [Reliable 1; KeepLast 10];
     mkTopicEntry TRACK_TOPIC [BestEffort; KeepLast 1] [BestEffort; KeepLast 1]].

Definition config (c : TopicConfig.DDSTopicConfig) : TopicConfig.DDSTopicConfig := c.

(** The registry of a new object is not empty. *)
Example construct_empty_name : TopicConfig.topicNames (config construct) = [""%string].
Proof. vm_compute. reflexivity. Qed.

End CycloneDDSConfig.

Module DDSPublisher.
Section publisher.
Context {T : Type}.

(** The calls made to the DDS library. *)
Inductive Call : Type :=
  | CreateTopic (name : string)
  | CreateWriter (topic : string) (qos : Qos)
  | Write (message : T).

(** [_writer]: whether the optional holds one. *)
Record DDSPublisher : Type := mkDDSPublisher {
  domain : Z;
  entry : TopicEntry;
  writer : bool;
  calls : list Call;
}.

Definition construct (domainId : Z) (e : TopicEntry) : DDSPublisher := mkDDSPublisher domainId e false [].

Definition getOrCreateWriter (p : DDSPublisher) : DDSPublisher :=
  if writer p then p
  else mkDDSPublisher (domain p) (entry p) true
         (calls p ++ [CreateTopic (topicName (entry p)); CreateWriter (topicName (entry p)) (entry_writerQos (entry p))]).

Definition publish (message : T) (p : DDSPublisher) : DDSPublisher :=
  let p := getOrCreateWriter p in
  mkDDSPublisher (domain p) (entry p) (writer p) (calls p ++ [Write message]).

Definition topicEntry (p : DDSPublisher) : TopicEntry := entry p.

Definition written (p : DDSPublisher) : list T :=
  omap (λ c, match c with Write m => Some m | _ => None end) (calls p).

Lemma written_publish m p : written (publish m p) = written p ++ [m].
Proof.
  unfold written, publish, getOrCreateWriter. destruct (writer p); cbn [calls]; rewrite !omap_app; [done|].
  cbn. by rewrite app_nil_r.
Qed.

Lemma entry_publish m p : entry (publish m p) = entry p.
Proof. unfold publish, getOrCreateWriter. by destruct (writer p). Qed.
End publisher.
Arguments DDSPublisher : clear implicits.
Arguments Call : clear implicits.
End DDSPublisher.

Module DDSSubscriber.
Section subscriber.
Context {T Handler : Type}.

(** The polling thread: [LTop] before the loop test, [LBody] before the test of
    the reader and the handler, [LSamples l] in the loop over the samples with
    [l] left, [LSleep] before the sleep. *)
Inductive Pc : Type := LTop | LBody | LSamples (rest : list (bool * T)) | LSleep | LDone.

(** The client: [MStopFlag], [MStopJoin]: inside stop(), called by the destructor
    when [destroy]; [MUndefined]: a data race; [MTerminated]: a thread object
    overwritten while joinable. *)
Inductive MainPc : Type :=
  | MIdle | MStopFlag (destroy : bool) | MStopJoin (destroy : bool)
  | MDestroyed | MUndefined | MTerminated.

(** An empty std::function is no [handler].  [handled] records the calls of
    handlers, [taken] the valid samples taken and the handler at that time. *)
Record DDSSubscriber : Type := mkDDSSubscriber {
  domain : Z;
  entry : TopicEntry;
  reader : option Qos;
  handler : option Handler;
  running : bool;
  pollThread : option Pc;
  main : MainPc;
  handled : list (Handler * T);
  taken : list (Handler * T);
}.

Definition construct (domainId : Z) (e : TopicEntry) : DDSSubscriber :=
  mkDDSSubscriber domainId e None None false None MIdle [] [].

Definition topicEntry (s : DDSSubscriber) : TopicEntry := entry s.
Definition isRunning (s : DDSSubscriber) : bool := running s.

Definition set_main (m : MainPc) (s : DDSSubscriber) : DDSSubscriber :=
  mkDDSSubscriber (domain s) (entry s) (reader s) (handler s) (running s) (pollThread s) m (handled s) (taken s).

(** Assigning the reader and the handler while the polling thread uses them is
    undefined. *)
Definition subscribe (h : Handler) (s : DDSSubscriber) : DDSSubscriber :=
  match pollThread s with
  | Some _ => set_main MUndefined s
  | None =>
      mkDDSSubscriber (domain s) (entry s) (Some (entry_readerQos (entry s))) (Some h) (running s) None (main s)
        (handled s) (taken s)
  end.

Definition start (s : DDSSubscriber) : DDSSubscriber :=
  if running s then s
  else match pollThread s with
  | Some _ => set_main MTerminated s
  | None =>
      mkDDSSubscriber (domain s) (entry s) (reader s) (handler s) true (Some LTop) (main s) (handled s) (taken s)
  end.

Definition mainStep (s : DDSSubscriber) : option DDSSubscriber :=
  match main s with
  | MStopFlag d =>
      if running s
      then Some (mkDDSSubscriber (domain s) (entry s) (reader s) (handler s) false (pollThread s) (MStopJoin d)
                   (handled s) (taken s))
      else Some (set_main (if d then MDestroyed else MIdle) s)
  | MStopJoin d =>
      match pollThread s with
      | None | Some LDone =>
          Some (mkDDSSubscriber (domain s) (entry s) (reader s) (handler s) (running s) None
                  (if d then MDestroyed else MIdle) (handled s) (taken s))
      | _ => None
      end
  | _ => None
  end.

Definition goto (p : Pc) (s : DDSSubscriber) : DDSSubscriber :=
  mkDDSSubscriber (domain s) (entry s) (reader s) (handler s) (running s) (Some p) (main s) (handled s) (taken s).

Definition valid (l : list (bool * T)) : list T := omap (λ x : bool * T, if x.1 then Some x.2 else None) l.

(** One step of pollLoop; [samples]: what take() returns in this step. *)
Definition pollStep (samples : list (bool * T)) (s : DDSSubscriber) : option DDSSubscriber :=
  p ← pollThread s;
  match p with
  | LTop => Some (goto (if running s then LBody else LDone) s)
  | LBody =>
      match reader s, handler s with
      | Some _, Some h =>
          Some (mkDDSSubscriber (domain s) (entry s) (reader s) (handler s) (running s) (Some (LSamples samples))
                  (main s) (handled s) (taken s ++ (pair h <$> valid samples)))
      | _, _ => Some (goto LSleep s)
      end
  | LSamples [] => Some (goto LSleep s)
  | LSamples ((v, x) :: rest) =>
      match handler s with
      | Some h =>
          Some (mkDDSSubscriber (domain s) (entry s) (reader s) (handler s) (running s) (Some (LSamples rest))
                  (main s) (if v then handled s ++ [(h, x)] else handled s) (taken s))
      | None => None
      end
  | LSleep => Some (goto LTop s)
  | LDone => None
  end.

Inductive Action : Type :=
  | Subscribe (h : Handler) | Start | Stop | Destroy | Main | Poll (samples : list (bool * T)).

Definition exec (a : Action) (s : DDSSubscriber) : option DDSSubscriber :=
  match a with
  | Subscribe h => match main s with MIdle => Some (subscribe h s) | _ => None end
  | Start => match main s with MIdle => Some (start s) | _ => None end
  | Stop => match main s with MIdle => Some (set_main (MStopFlag false) s) | _ => None end
  | Destroy => match main s with MIdle => Some (set_main (MStopFlag true) s) | _ => None end
  | Main => mainStep s
  | Poll samples => pollStep samples s
  end.

#[local] Abbreviation execs := (Prelude.execs exec).
#[local] Abbreviation reachable d e := (Prelude.reachable exec (construct d e)).

(** * Invariant *)

Tactic Notation "fields" :=
  cbn [domain entry reader handler running pollThread main handled taken set_main goto].

Definition pending (s : DDSSubscriber) : list (Handler * T) :=
  match pollThread s, handler s with
  | Some (LSamples rest), Some h => pair h <$> valid rest
  | _, _ => []
  end.

Definition stopping (m : MainPc) : bool := match m with MStopJoin _ => true | _ => false end.
Definition failed (m : MainPc) : bool := match m with MUndefined | MTerminated => true | _ => false end.

Record invariant (s : DDSSubscriber) : Prop := {
  inv_handled : handled s ++ pending s = taken s;
  inv_thread : failed (main s) = false -> stopping (main s) = false -> (running s = true <-> is_Some (pollThread s));
  inv_running : running s = true -> failed (main s) = false -> pollThread s <> Some LDone /\ stopping (main s) = false;
  inv_samples : ∀ rest, pollThread s = Some (LSamples rest) -> is_Some (handler s);
  inv_joined : pollThread s = None -> stopping (main s) = false -> running s = false;
}.

Lemma dds_invariant_construct d e : invariant (construct d e).
Proof. split; try done. intros _ _. cbn. split; [done|by intros []]. Qed.

(** A step of the client that leaves the thread and the handler alone. *)
Lemma dds_invariant_set_main m s :
  invariant s -> stopping (main s) = false -> failed (main s) = false -> stopping m = false ->
  invariant (set_main m s).
Proof. intros [H1 H2 H3 H4 H5] Hs Hf Hm. split; fields; auto. intros Hr _. split; [by apply H3|done]. Qed.

Lemma dds_invariant_mainStep s s' : invariant s -> mainStep s = Some s' -> invariant s'.
Proof.
  intros Hi. pose proof Hi as [H1 H2 H3 H4 H5]. unfold mainStep. destruct (main s) as [|d|d| | |] eqn:Em; try done.
  - destruct (running s) eqn:Er; intros [= <-].
    + by split; fields.
    + apply dds_invariant_set_main; rewrite ?Em; by destruct d.
  - assert (running s = false) as Er.
    { destruct (running s) eqn:Er; [|done]. destruct (H3 eq_refl eq_refl) as [_ [=]]. }
    intros H. assert (pending s = []) as Hp by (unfold pending; by destruct (pollThread s) as [[]|]).
    rewrite Hp in H1.
    destruct (pollThread s) as [[]|]; try done; injection H as <-;
      (split; fields; [exact H1|by rewrite Er; split; [|intros []]|by rewrite Er|done|done]).
Qed.

Lemma dds_invariant_pollStep l s s' : invariant s -> pollStep l s = Some s' -> invariant s'.
Proof.
  intros [H1 H2 H3 H4 H5]. unfold pollStep. intros (p & E & H)%bind_Some. rewrite E in *.
  assert (∀ q, (q = LDone -> running s = false) -> (∀ r, q = LSamples r -> False) -> pending s = [] -> invariant (goto q s)) as Hgo.
  { intros q Hq Hl Hp. rewrite Hp in H1. split; fields.
    - unfold pending. fields. destruct q; try done. by destruct (Hl rest).
    - intros Hf Hs. rewrite (H2 Hf Hs). done.
    - intros Hr Hf. split; [|by apply H3]. intros [= ->]. rewrite Hq in Hr by done. done.
    - intros r [= ->]. by destruct (Hl r).
    - done. }
  unfold pending in H1, Hgo. rewrite E in H1, Hgo.
  destruct p as [| |rest| |]; try done.
  - injection H as <-. apply Hgo; [by destruct (running s)|by destruct (running s)|done].
  - destruct (reader s); [|by injection H as <-; apply Hgo]. destruct (handler s) as [h|] eqn:Eh;
      [|by injection H as <-; apply Hgo].
    injection H as <-. split; unfold pending; fields; try done.
    + rewrite app_nil_r in H1. by rewrite H1.
    + intros Hf Hs. by rewrite (H2 Hf Hs).
    + intros Hr Hf. split; [done|by apply H3].
  - destruct (H4 rest eq_refl) as [h Eh]. rewrite Eh in *. destruct rest as [|[v x] rest].
    + injection H as <-. by apply Hgo.
    + injection H as <-. split; unfold pending; fields; try done.
      * rewrite <- H1. destruct v; [|done]. cbn. by rewrite <- (assoc_L (++)).
      * intros Hf Hs. by rewrite (H2 Hf Hs).
      * intros Hr Hf. split; [done|by apply H3].
  - injection H as <-. by apply Hgo.
Qed.

Lemma dds_invariant_exec a s s' : invariant s -> exec a s = Some s' -> invariant s'.
Proof.
  intros Hi. pose proof Hi as [H1 H2 H3 H4 H5]. unfold exec. destruct a.
  - destruct (main s) eqn:Em; try done. intros [= <-]. unfold subscribe.
    destruct (pollThread s) eqn:E; [by apply dds_invariant_set_main; rewrite ?Em|].
    specialize (H5 eq_refl eq_refl). unfold pending in *. rewrite E in *. rewrite Em, H5 in *.
    split; unfold pending; fields; rewrite ?Em; try done; by split; [|intros []].
  - destruct (main s) eqn:Em; try done. intros [= <-]. unfold start. destruct (running s) eqn:Er; [done|].
    destruct (pollThread s) eqn:E; [by apply dds_invariant_set_main; rewrite ?Em|].
    unfold pending in *. rewrite E in *. by split; unfold pending; fields; rewrite ?Em.
  - destruct (main s) eqn:Em; try done. intros [= <-]. by apply dds_invariant_set_main; rewrite ?Em.
  - destruct (main s) eqn:Em; try done. intros [= <-]. by apply dds_invariant_set_main; rewrite ?Em.
  - by apply dds_invariant_mainStep.
  - by apply dds_invariant_pollStep.
Qed.

Lemma dds_reachable_invariant d e s : reachable d e s -> invariant s.
Proof. apply reachable_ind'; [apply dds_invariant_construct|]. intros a ??. apply dds_invariant_exec. Qed.
(** * Stopping *)

(** With [running] false the thread ends after [n] steps, [l] being what take()
    returns if it is called once more. *)
Definition ends (l : list (bool * T)) (n : nat) (s : DDSSubscriber) : Prop :=
  ∃ s', execs (replicate n (Poll l)) s = Some s' /\ pollThread s' = Some LDone /\ main s' = main s /\
    running s' = false /\ handler s' = handler s /\ taken s `prefix_of` taken s'.

Lemma ends_step l n s s1 :
  pollStep l s = Some s1 -> main s1 = main s -> handler s1 = handler s -> taken s `prefix_of` taken s1 ->
  ends l n s1 -> ends l (S n) s.
Proof.
  intros E Em Eh Ht (s' & H & ? & ? & ? & ? & ?). exists s'.
  split; [cbn; by rewrite E, bind_ret|]. split; [done|]. split; [congruence|]. split; [done|].
  split; [congruence|by etransitivity].
Qed.

Lemma ends_top l s : pollThread s = Some LTop -> running s = false -> ends l 1 s.
Proof.
  intros E Hr. eexists. split; [cbn; unfold pollStep; by rewrite E, Hr|]. by repeat split.
Qed.

Lemma ends_sleep l s : pollThread s = Some LSleep -> running s = false -> ends l 2 s.
Proof.
  intros E Hr. apply ends_step with (s1 := goto LTop s); try done; [unfold pollStep; by rewrite E|].
  by apply ends_top.
Qed.

Lemma ends_samples l rest : ∀ s,
  pollThread s = Some (LSamples rest) -> is_Some (handler s) -> running s = false -> ends l (length rest + 3) s.
Proof.
  induction rest as [|[v x] rest IH]; intros s E [h Eh] Hr.
  - apply ends_step with (s1 := goto LSleep s); try done; [unfold pollStep; by rewrite E|]. by apply ends_sleep.
  - change (length ((v, x) :: rest) + 3)%nat with (S (length rest + 3)).
    eapply ends_step; [unfold pollStep; rewrite E, bind_ret, Eh; reflexivity|done..|].
    apply IH; fields; [done|by rewrite ?Eh|done].
Qed.

Lemma ends_body l s : pollThread s = Some LBody -> running s = false -> ∃ n, (n <= length l + 4)%nat /\ ends l n s.
Proof.
  intros E Hr. destruct (reader s) eqn:Er; [destruct (handler s) as [h|] eqn:Eh|].
  - exists (S (length l + 3)). split; [lia|].
    eapply ends_step; [unfold pollStep; rewrite E, bind_ret, Er, Eh; reflexivity|done..|by apply prefix_app_r|].
    apply ends_samples; fields; [done|by rewrite ?Eh|done].
  - exists 3%nat. split; [lia|].
    eapply ends_step; [unfold pollStep; rewrite E, bind_ret, Er, Eh; reflexivity|done..|]. by apply ends_sleep.
  - exists 3%nat. split; [lia|].
    eapply ends_step; [unfold pollStep; rewrite E, bind_ret, Er; reflexivity|done..|]. by apply ends_sleep.
Qed.

(** The samples the thread still has in hand. *)
Definition in_hand (s : DDSSubscriber) : nat :=
  match pollThread s with Some (LSamples rest) => length rest | _ => 0 end.

Lemma ends_any l s p :
  invariant s -> pollThread s = Some p -> p <> LDone -> running s = false ->
  ∃ n, (n <= Nat.max (in_hand s) (length l) + 4)%nat /\ ends l n s.
Proof.
  intros Hi E Hp Hr. unfold in_hand. rewrite E. destruct p as [| |rest| |]; try done.
  - exists 1%nat. split; [lia|]. by apply ends_top.
  - destruct (ends_body l s E Hr) as (n & Hn & H). exists n. split; [lia|done].
  - exists (length rest + 3)%nat. split; [lia|]. apply ends_samples; [done|by eapply inv_samples|done].
  - exists 2%nat. split; [lia|]. by apply ends_sleep.
Qed.

Definition stopped (s0 s : DDSSubscriber) : Prop :=
  invariant s /\ main s = MIdle /\ running s = false /\ pollThread s = None /\ handled s = taken s /\
  taken s0 `prefix_of` taken s.

(** stop() of a running subscriber, the polling thread alone running meanwhile. *)
Lemma stop_run l s :
  invariant s -> main s = MIdle -> running s = true ->
  ∃ n s1 s2 s', (n <= Nat.max (in_hand s) (length l) + 4)%nat /\
    execs [Stop; Main] s = Some s1 /\ main s1 = MStopJoin false /\
    execs (replicate n (Poll l)) s1 = Some s2 /\ pollThread s2 = Some LDone /\
    mainStep s2 = Some s' /\ stopped s s'.
Proof.
  intros Hi Hm Hr.
  destruct (proj1 (inv_thread s Hi ltac:(by rewrite Hm) ltac:(by rewrite Hm)) Hr) as [p Ep].
  destruct (inv_running s Hi Hr ltac:(by rewrite Hm)) as [Hp _].
  set (s1 := mkDDSSubscriber (domain s) (entry s) (reader s) (handler s) false (pollThread s) (MStopJoin false)
               (handled s) (taken s)).
  assert (execs [Stop; Main] s = Some s1) as E1.
  { cbn. rewrite Hm, bind_ret. unfold mainStep. cbn. by rewrite Hr. }
  assert (∀ x y k, invariant x -> execs k x = Some y -> invariant y) as Hinv.
  { intros x y k Hx E. eapply execs_invariant; [|exact Hx|exact E]. intros a ?? _. apply dds_invariant_exec. }
  pose proof (Hinv _ _ _ Hi E1) as Hi1.
  destruct (ends_any l s1 p Hi1 Ep) as (n & Hn & s2 & E2 & Hd & Hm2 & Hr2 & Hh2 & Ht2); [congruence|done|].
  pose proof (Hinv _ _ _ Hi1 E2) as Hi2.
  set (s' := mkDDSSubscriber (domain s2) (entry s2) (reader s2) (handler s2) (running s2) None MIdle (handled s2) (taken s2)).
  assert (mainStep s2 = Some s') as E3 by (unfold mainStep; by rewrite Hm2, Hd).
  exists n, s1, s2, s'. do 6 (split; [done|]). split; [by eapply dds_invariant_mainStep|].
  do 3 (split; [done|]). split; [|exact Ht2]. change (handled s' = taken s') with (handled s2 = taken s2).
  rewrite <- (inv_handled s2 Hi2). unfold pending. rewrite Hd. by rewrite app_nil_r.
Qed.

(** stop() as one step of its caller: the thread alone runs while the caller
    waits in join(); [l] is what take() returns if it is called once more.
    [None]: not idle, or no fuel. *)
Fixpoint drain (fuel : nat) (l : list (bool * T)) (s : DDSSubscriber) : option DDSSubscriber :=
  match fuel with
  | O => None
  | S fuel =>
      match pollThread s with
      | None | Some LDone => mainStep s
      | _ => s' ← pollStep l s; drain fuel l s'
      end
  end.

Definition stop (l : list (bool * T)) (s : DDSSubscriber) : option DDSSubscriber :=
  s1 ← execs [Stop; Main] s;
  match main s1 with
  | MIdle => Some s1
  | _ => drain (S (Nat.max (in_hand s) (length l) + 4)) l s1
  end.

Lemma drain_ends l n : ∀ fuel s s',
  (n < fuel)%nat -> execs (replicate n (Poll l)) s = Some s' -> pollThread s' = Some LDone ->
  drain fuel l s = mainStep s'.
Proof.
  induction n as [|n IH]; intros [|fuel] s s' Hf E Hd; try lia.
  - injection E as ->. cbn. by rewrite Hd.
  - cbn in E. apply bind_Some in E as (s1 & E1 & E). cbn [drain].
    destruct (pollThread s) as [p|] eqn:Ep; [|unfold pollStep in E1; by rewrite Ep in E1].
    destruct p; [..|unfold pollStep in E1; by rewrite Ep in E1];
      (rewrite E1, bind_ret; apply IH; [lia|done|done]).
Qed.

(** stop() returns: the thread is gone, its samples have been handed over. *)
Lemma stop_spec l s :
  invariant s -> main s = MIdle ->
  ∃ s' k, stop l s = Some s' /\ execs k s = Some s' /\ stopped s s' /\ (∀ h, Subscribe h ∉ k).
Proof.
  intros Hi Hm. destruct (running s) eqn:Hr.
  - destruct (stop_run l s Hi Hm Hr) as (n & s1 & s2 & s' & Hn & E1 & Hm1 & E2 & Hd & E3 & Hs).
    exists s', ([Stop; Main] ++ replicate n (Poll l) ++ [Main]). split; [|split; [|split; [done|]]].
    + unfold stop. rewrite E1, bind_ret, Hm1, <- E3. apply (drain_ends l n); [lia|done|done].
    + rewrite execs_app, E1, bind_ret, execs_app, E2, bind_ret. cbn. by rewrite E3, bind_ret.
    + intros h. rewrite !elem_of_app, !elem_of_cons, elem_of_replicate.
      by intros [[?|[?|?%elem_of_nil]]|[[? _]|[?|?%elem_of_nil]]].
  - exists (set_main MIdle (set_main (MStopFlag false) s)), [Stop; Main].
    assert (execs [Stop; Main] s = Some (set_main MIdle (set_main (MStopFlag false) s))) as E.
    { cbn. rewrite Hm, bind_ret. unfold mainStep. cbn. by rewrite Hr. }
    split; [unfold stop; by rewrite E, bind_ret|]. split; [done|].
    assert (pollThread s = None) as Ht.
    { destruct (pollThread s) eqn:Et; [|done]. destruct (inv_thread s Hi) as [_ H]; rewrite ?Hm; [done..|].
      rewrite Et, Hr in H. by specialize (H ltac:(done)). }
    assert (handled s = taken s) as Hd.
    { rewrite <- (inv_handled s Hi). unfold pending. by rewrite Ht, app_nil_r. }
    split; [|intros h; rewrite !elem_of_cons; by intros [?|[?|?%elem_of_nil]]].
    split; [|done]. eapply execs_invariant; [|exact Hi|exact E]. intros a ?? _. apply dds_invariant_exec.
Qed.

(** While nothing else is subscribed, what is taken is for the one handler. *)
Definition serves (h : Handler) (s : DDSSubscriber) : Prop :=
  handler s = Some h /\ Forall (λ ht, ht.1 = h) (taken s).

Lemma serves_exec h a s s' : serves h s -> (∀ h', a <> Subscribe h') -> exec a s = Some s' -> serves h s'.
Proof.
  intros [Hh Ht] Ha E. destruct a as [h'| | | | |l]; cbn [exec] in E; [by destruct (Ha h')|..].
  - destruct (main s); try done. injection E as <-. unfold start.
    destruct (running s); [done|]. by destruct (pollThread s).
  - destruct (main s); try done. by injection E as <-.
  - destruct (main s); try done. by injection E as <-.
  - unfold mainStep in E. repeat case_match; try done; by injection E as <-.
  - unfold pollStep in E. apply bind_Some in E as (p & _ & E). rewrite Hh in E.
    destruct p as [| |[|[v x] rest]| |]; try done.
    + by injection E as <-.
    + destruct (reader s); injection E as <-; [|done]. split; [done|]. fields. apply Forall_app. split; [done|].
      by apply Forall_fmap, Forall_true.
    + by injection E as <-.
    + by injection E as <-.
    + by injection E as <-.
Qed.

Lemma serves_execs h k s s' :
  serves h s -> (∀ h', Subscribe h' ∉ k) -> execs k s = Some s' -> serves h s'.
Proof.
  intros Hs Hk E. eapply execs_invariant; [|exact Hs|exact E]. intros a x y Ha Hx. apply serves_exec; [done|].
  intros h' ->. by apply (Hk h').
Qed.
End subscriber.
Arguments DDSSubscriber : clear implicits.
Arguments Action : clear implicits.
End DDSSubscriber.

(** * Properties *)

(** The registry built from a list has exactly the topics of the list, each
    once; the entry of a topic is the first of the list with that name, and
    looking up any other name throws. *)
Theorem dds_topic_config es name :
  let c := TopicConfig.construct es in
  TopicConfig.getEntry name c
  = match TopicConfig.first_entry name es with
    | Some e => inr e
    | None => inl ("DDSTopicConfig: topic '" ++ name ++ "' is not registered")%string
    end /\
  (TopicConfig.hasTopic name c = true <-> name ∈ topicName <$> es) /\
  (name ∈ TopicConfig.topicNames c <-> name ∈ topicName <$> es) /\ NoDup (TopicConfig.topicNames c).
Proof.
  intros c. unfold TopicConfig.getEntry, TopicConfig.hasTopic, TopicConfig.topicNames.
  assert (c !! name = TopicConfig.first_entry name es) as E by apply TopicConfig.construct_lookup.
  assert (is_Some (TopicConfig.first_entry name es) <-> name ∈ topicName <$> es) as Hs.
  { rewrite <- not_eq_None_Some, TopicConfig.first_entry_None.
    split; [intros H; by apply dec_stable|tauto]. }
  rewrite E. split; [by destruct (TopicConfig.first_entry _ _)|]. rewrite bool_decide_eq_true.
  split; [exact Hs|]. split; [|apply NoDup_fst_map_to_list].
  rewrite <- Hs, <- E. split.
  - intros ([k e] & -> & H)%list_elem_of_fmap. apply elem_of_map_to_list in H. by exists e.
  - intros [e H]. apply list_elem_of_fmap. exists (name, e). split; [done|]. by apply elem_of_map_to_list.
Qed.

(** A reader that asks for reliability is offered it. *)
Definition compatible (e : TopicEntry) : bool :=
  forallb (λ p, match p with
                | Reliable _ => existsb (λ q, match q with Reliable _ => true | _ => false end) (entry_writerQos e)
                | _ => true
                end) (entry_readerQos e).

(** C32: stopping a running subscriber returns, whatever its thread was doing,
    after at most as many of its steps as it has samples in hand, or takes once
    more, plus four; then no thread is left and every valid sample ever taken has
    been given to the handler subscribed at the time, once and in order. *)
Theorem dds_stop_delivers {T Handler} d e (s : DDSSubscriber.DDSSubscriber T Handler) l :
  Prelude.reachable DDSSubscriber.exec (DDSSubscriber.construct d e) s ->
  DDSSubscriber.main s = DDSSubscriber.MIdle -> DDSSubscriber.running s = true ->
  ∃ n s', (n <= Nat.max (DDSSubscriber.in_hand s) (length l) + 4)%nat /\
    Prelude.execs DDSSubscriber.exec
      ([DDSSubscriber.Stop; DDSSubscriber.Main] ++ replicate n (DDSSubscriber.Poll l) ++ [DDSSubscriber.Main]) s
    = Some s' /\
    DDSSubscriber.main s' = DDSSubscriber.MIdle /\ DDSSubscriber.pollThread s' = None /\
    DDSSubscriber.taken s `prefix_of` DDSSubscriber.taken s' /\ DDSSubscriber.handled s' = DDSSubscriber.taken s'.
Proof.
  intros Hs%DDSSubscriber.dds_reachable_invariant Hm Hr.
  destruct (DDSSubscriber.stop_run l s Hs Hm Hr) as (n & s1 & s2 & s' & Hn & E1 & _ & E2 & _ & E3 & Hst).
  destruct Hst as (_ & H1 & _ & H2 & H3 & H4). exists n, s'. split; [done|]. split; [|done].
  rewrite execs_app, E1, bind_ret, execs_app, E2, bind_ret. cbn. by rewrite E3, bind_ret.
Qed.

(** Two samples taken, one of them invalid, the other still in hand. *)
Definition w_entry : TopicEntry := mkTopicEntry "SensorTopic" [Reliable 1] [Reliable 1].
Definition w_polling : DDSSubscriber.DDSSubscriber Z nat :=
  DDSSubscriber.mkDDSSubscriber 0 w_entry (Some [Reliable 1]) (Some 7%nat) true
    (Some (DDSSubscriber.LSamples [(true, 5)])) DDSSubscriber.MIdle [] [(7%nat, 5)].

Lemma w_polling_reachable :
  Prelude.reachable DDSSubscriber.exec (DDSSubscriber.construct 0 w_entry) w_polling.
Proof.
  eapply execs_reachable with (l := [DDSSubscriber.Subscribe 7%nat; DDSSubscriber.Start; DDSSubscriber.Poll [];
    DDSSubscriber.Poll [(false, 4); (true, 5)]; DDSSubscriber.Poll []]); [apply reachable_init|by vm_compute].
Qed.

Lemma dds_stop_delivers_witness :
  ∃ n s', (n <= Nat.max (DDSSubscriber.in_hand w_polling) (length [(true, 9)]) + 4)%nat /\
    Prelude.execs DDSSubscriber.exec
      ([DDSSubscriber.Stop; DDSSubscriber.Main] ++ replicate n (DDSSubscriber.Poll [(true, 9)]) ++ [DDSSubscriber.Main])
      w_polling = Some s' /\
    DDSSubscriber.main s' = DDSSubscriber.MIdle /\ DDSSubscriber.pollThread s' = None /\
    DDSSubscriber.taken w_polling `prefix_of` DDSSubscriber.taken s' /\
    DDSSubscriber.handled s' = DDSSubscriber.taken s'.
Proof. apply (dds_stop_delivers 0 w_entry w_polling [(true, 9)] w_polling_reachable); reflexivity. Defined.

(** Nothing makes the two sides of an entry agree. *)
Example incompatible_entry :
  compatible <$> TopicConfig.construct [mkTopicEntry "t" [BestEffort] [Reliable 1]] !! "t"%string = Some false.
Proof. vm_compute. reflexivity. Qed.

Example default_entries_compatible :
  forallb (λ kv, compatible kv.2)
    (map_to_list (CycloneDDSConfig.config (CycloneDDSConfig.defaultInitialize CycloneDDSConfig.construct))) = true.
Proof. vm_compute. reflexivity. Qed.
