(* ===== verification/DdsTest.v ===== *)
(** The DDS test programs: src/src/apps/TestApps/DDSPublisherTest.cpp and
    DDSSubscriberTest.cpp, over Dds.v, and src/src/apps/DDSSubscriberTest.cpp, an
    older version of the latter that no CMakeLists.txt builds.

    The classes idlc generates from the idl files are records.  The programs
    end when a signal has cleared [isRunning]; what the flag is read as, the
    clock and the random numbers are inputs, and so are the samples the readers
    take.  The logger of a new process is always initialised. *)

From Stdlib Require Import String SpecFloat.
From S2P Require Import Prelude Ieee754 GeneralLogger Programs SensorMessages Dds.
Import CycloneDDSConfig DDSPublisher DDSSubscriber.

(** * Samples *)

Inductive SensorStatus : Type := SENSOR_UNKNOWN | SENSOR_ONLINE | SENSOR_OFFLINE | SENSOR_ERROR.

Record SensorReading : Type := mkSensorReading {
  sr_header : MessageHeader;
  sr_sensor_id : string;
  sr_sensor_name : string;
  sr_value : double;
  sr_unit : string;
  sr_timestamp_ms : Z;
  sr_quality : Z;
  sr_status : SensorStatus;
  sr_latitude : double;
  sr_longitude : double;
  sr_altitude : double;
}.

Inductive TrackClassification : Type :=
  | TRACK_UNKNOWN | TRACK_FRIENDLY | TRACK_HOSTILE | TRACK_NEUTRAL | TRACK_PENDING.

Record TrackUpdate : Type := mkTrackUpdate {
  tu_header : MessageHeader;
  tu_track_id : string;
  tu_track_name : string;
  tu_latitude : double;
  tu_longitude : double;
  tu_altitude : double;
  tu_heading : double;
  tu_speed : double;
  tu_classification : TrackClassification;
  tu_timestamp_ms : Z;
  tu_update_number : Z;
  tu_confidence : double;
}.

(** A member that is not set keeps the value a new sample has. *)
Definition newHeader : MessageHeader := mkMessageHeader "" 0.

(** * The command line *)

(** [None]: std::stoul throws and nothing catches it. *)
Definition domainArg (argv : list string) : option Z :=
  match argv !! 1%nat with
  | None => Some 0
  | Some a => v ← stoul a; Some (u32 v)
  end.

(** [defaults.config()] after defaultInitialize(). *)
Definition defaults : TopicConfig.DDSTopicConfig := config (defaultInitialize CycloneDDSConfig.construct).

(** * DDSPublisherTest *)

(** What one pass of the loop reads: the system clock (nanoseconds) and the five
    numbers drawn. *)
Record Pass : Type := mkPass {
  now : Z;
  tempDraw : double;
  latDraw : double;
  lonDraw : double;
  headingDraw : double;
  speedDraw : double;
}.

Definition epochMs (p : Pass) : Z := Z.quot (now p) 1000000.

Definition makeSensor (p : Pass) : SensorReading :=
  mkSensorReading newHeader "sensor-001" "Temperature Sensor" (tempDraw p) "celsius" (epochMs p) 95 SENSOR_ONLINE
    (literal 377749 10000) (literal (-1224194) 10000) (literal 10 1).

Definition makeTrack (p : Pass) (sequence : Z) : TrackUpdate :=
  mkTrackUpdate newHeader "track-alpha" "Aircraft Alpha" (latDraw p) (lonDraw p) (literal 10000 1) (headingDraw p)
    (speedDraw p) TRACK_FRIENDLY (epochMs p) sequence (literal 95 100).

Record Publisher : Type := mkPublisher {
  sensorPub : DDSPublisher SensorReading;
  trackPub : DDSPublisher TrackUpdate;
  sequence : Z;
  pubLog : list LogLine;
}.

(** [None]: [++sequence] overflows. *)
Definition loopBody (p : Pass) (s : Publisher) : option Publisher :=
  let sp := publish (makeSensor p) (sensorPub s) in
  let tp := publish (makeTrack p (sequence s)) (trackPub s) in
  n ← increment (sequence s);
  Some (mkPublisher sp tp n
    (pubLog s ++ if Z.rem n 100 =? 0 then [GPINFO "Published {} sensor + track samples" [AInt n]] else [])).

(** The passes for which [isRunning] is read as true. *)
Fixpoint publisherLoop (passes : list Pass) (s : Publisher) : option Publisher :=
  match passes with
  | [] => Some s
  | p :: passes => s ← loopBody p s; publisherLoop passes s
  end.

(** main() of the publisher, [isRunning] cleared after the passes given.  A
    program that throws has no state. *)
Definition publisherMain (argv : list string) (passes : list Pass) : option (Exit * option Publisher) :=
  match domainArg argv with
  | None => Some (Terminate, None)
  | Some d =>
      match TopicConfig.getEntry SENSOR_TOPIC defaults, TopicConfig.getEntry TRACK_TOPIC defaults with
      | inr sensor, inr track =>
          s ← publisherLoop passes
                (mkPublisher (DDSPublisher.construct d sensor) (DDSPublisher.construct d track) 0
                   [GPINFO "Using DDS domain ID: {}" [AInt d]]);
          Some (Return 0,
                Some (mkPublisher (sensorPub s) (trackPub s) (sequence s)
                  (pubLog s ++ [GPINFO "DDSPublisherTest shutting down after {} messages" [AInt (sequence s)]])))
      | _, _ => Some (Terminate, None)
      end
  end.

(** * DDSSubscriberTest *)

Definition sensorLine (msg : SensorReading) : LogLine :=
  GPINFO "Sensor [{}]: value={:.2f} {} (quality={})"
    [AStr (sr_sensor_id msg); ADouble (sr_value msg); AStr (sr_unit msg); AInt (sr_quality msg)].

Definition trackLine (msg : TrackUpdate) : LogLine :=
  GPINFO "Track [{}]: lat={:.4f} lon={:.4f} alt={:.0f} hdg={:.1f} spd={:.1f}"
    [AStr (tu_track_id msg); ADouble (tu_latitude msg); ADouble (tu_longitude msg); ADouble (tu_altitude msg);
     ADouble (tu_heading msg); ADouble (tu_speed msg)].

(** The two subscribers; a handler is the function it calls for a sample. *)
Record Subscriber : Type := mkSubscriber {
  sensorSub : DDSSubscriber SensorReading (SensorReading -> LogLine);
  trackSub : DDSSubscriber TrackUpdate (TrackUpdate -> LogLine);
}.

(** A step of one of the polling threads while the main thread sleeps. *)
Inductive Step : Type :=
  | SensorStep (samples : list (bool * SensorReading))
  | TrackStep (samples : list (bool * TrackUpdate)).

Definition step (a : Step) (s : Subscriber) : option Subscriber :=
  match a with
  | SensorStep l => u ← exec (Poll l) (sensorSub s); Some (mkSubscriber u (trackSub s))
  | TrackStep l => u ← exec (Poll l) (trackSub s); Some (mkSubscriber (sensorSub s) u)
  end.

(** The subscribers when the main thread enters its loop. *)
Definition started (d : Z) (sensor track : TopicEntry) : Subscriber :=
  mkSubscriber
    (DDSSubscriber.start (DDSSubscriber.subscribe sensorLine (DDSSubscriber.construct d sensor)))
    (DDSSubscriber.start (DDSSubscriber.subscribe trackLine (DDSSubscriber.construct d track))).

(** What the main thread prints, among the lines of the handlers. *)
Definition mainLines (d : Z) : list LogLine :=
  [GPINFO "Using DDS domain ID: {}" [AInt d]; GPINFO "DDSSubscriberTest running. Press Ctrl+C to stop." [];
   GPINFO "DDSSubscriberTest shutting down." []].

(** main() of the subscriber, with its lines: [steps] until [isRunning] is
    cleared; [lateS] and [lateT]: what the threads take if they take once more;
    [trackSteps]: the steps of the track thread while the sensor subscriber
    stops.  [None]: a step that is not enabled. *)
Definition subscriberMain (argv : list string) (steps : list Step) (lateS : list (bool * SensorReading))
    (trackSteps : list (list (bool * TrackUpdate))) (lateT : list (bool * TrackUpdate))
    : option (Exit * list LogLine * option Subscriber) :=
  match domainArg argv with
  | None => Some (Terminate, [], None)
  | Some d =>
      match TopicConfig.getEntry SENSOR_TOPIC defaults, TopicConfig.getEntry TRACK_TOPIC defaults with
      | inr sensor, inr track =>
          s ← Prelude.execs step steps (started d sensor track);
          u ← stop lateS (sensorSub s);
          t ← Prelude.execs exec (Poll <$> trackSteps) (trackSub s);
          t ← stop lateT t;
          Some (Return 0, mainLines d, Some (mkSubscriber u t))
      | _, _ => Some (Terminate, [GPINFO "Using DDS domain ID: {}" [AInt d]], None)
      end
  end.

(** main() of src/apps/DDSSubscriberTest.cpp, the program before the topics' names
    became constants. *)
Definition oldSubscriberMain (argv : list string) (steps : list Step) (lateS : list (bool * SensorReading))
    (trackSteps : list (list (bool * TrackUpdate))) (lateT : list (bool * TrackUpdate))
    : option (Exit * list LogLine * option Subscriber) :=
  match domainArg argv with
  | None => Some (Terminate, [], None)
  | Some d =>
      match TopicConfig.getEntry "SensorTopic" defaults, TopicConfig.getEntry "TrackTopic" defaults with
      | inr sensor, inr track =>
          s ← Prelude.execs step steps (started d sensor track);
          u ← stop lateS (sensorSub s);
          t ← Prelude.execs exec (Poll <$> trackSteps) (trackSub s);
          t ← stop lateT t;
          Some (Return 0, mainLines d, Some (mkSubscriber u t))
      | _, _ => Some (Terminate, [GPINFO "Using DDS domain ID: {}" [AInt d]], None)
      end
  end.

(** What a subscriber has printed. *)
Definition printed {T} (s : DDSSubscriber T (T -> LogLine)) : list LogLine := (λ ht, ht.1 ht.2) <$> handled s.

(** The valid samples it has taken. *)
Definition samples_taken {T} (s : DDSSubscriber T (T -> LogLine)) : list T := (taken s).*2.

(** * The publisher *)

Definition sensorEntry : TopicEntry := mkTopicEntry SENSOR_TOPIC [Reliable 1; KeepLast 10] [Reliable 1; KeepLast 10].
Definition trackEntry : TopicEntry := mkTopicEntry TRACK_TOPIC [BestEffort; KeepLast 1] [BestEffort; KeepLast 1].

Lemma default_entries :
  TopicConfig.getEntry SENSOR_TOPIC defaults = inr sensorEntry /\ TopicConfig.getEntry TRACK_TOPIC defaults = inr trackEntry.
Proof. by vm_compute. Qed.

(** The tracks of successive passes, the first of which finds [n]. *)
Fixpoint tracks (passes : list Pass) (n : Z) : list TrackUpdate :=
  match passes with
  | [] => []
  | p :: passes => makeTrack p n :: tracks passes (n + 1)
  end.

Lemma publisherLoop_spec passes s :
  0 <= sequence s -> sequence s + zlen passes < 2 ^ 31 ->
  ∃ s', publisherLoop passes s = Some s' /\ sequence s' = sequence s + zlen passes /\
    written (sensorPub s') = written (sensorPub s) ++ (makeSensor <$> passes) /\
    written (trackPub s') = written (trackPub s) ++ tracks passes (sequence s).
Proof.
  revert s. induction passes as [|p passes IH]; intros s Hs Hl; cbn [publisherLoop tracks].
  { exists s. change (zlen []) with 0. rewrite !app_nil_r. split_and!; try done. lia. }
  assert (zlen (p :: passes) = 1 + zlen passes) as Hz by (unfold zlen; cbn [length]; lia).
  assert (0 <= zlen passes) by (unfold zlen; lia).
  unfold loopBody, increment. rewrite (proj2 (Z.eqb_neq _ _)) by lia. rewrite !bind_ret.
  edestruct IH as (s' & E & E1 & E2 & E3); [..|exists s'; split; [exact E|]]; cbn [sequence sensorPub trackPub]; [lia|lia|].
  rewrite E1, E2, E3. cbn [sequence sensorPub trackPub]. rewrite !written_publish, <- !(assoc_L (++)).
  split; [lia|done].
Qed.

(** * The subscriber *)

Lemma started_ok {T} d e (h : T -> LogLine) :
  let s : DDSSubscriber T (T -> LogLine) := DDSSubscriber.start (DDSSubscriber.subscribe h (DDSSubscriber.construct d e)) in
  invariant s /\ main s = MIdle /\ serves h s.
Proof.
  intros s. split; [|done].
  set (u := DDSSubscriber.subscribe h (DDSSubscriber.construct d e) : DDSSubscriber T (T -> LogLine)) in s.
  assert (invariant u) as Hu.
  { apply (dds_invariant_exec (DDSSubscriber.Subscribe h) (DDSSubscriber.construct d e)); [|done].
    apply dds_invariant_construct. }
  by apply (dds_invariant_exec DDSSubscriber.Start u).
Qed.

Definition serving {T} (h : T -> LogLine) (s : DDSSubscriber T (T -> LogLine)) : Prop :=
  invariant s /\ main s = MIdle /\ serves h s.

Lemma serving_poll {T} (h : T -> LogLine) l s s' : serving h s -> exec (Poll l) s = Some s' -> serving h s'.
Proof.
  intros (Hi & Hm & Hs) E. split; [by eapply dds_invariant_exec|]. split.
  - rewrite <- Hm. cbn in E. unfold pollStep in E. apply bind_Some in E as (p & _ & E).
    destruct p as [| |[|[v x] rest]| |]; try done; repeat case_match; by simplify_eq.
  - eapply serves_exec; [exact Hs| |exact E]. by intros h'.
Qed.

Lemma serving_polls {T} (h : T -> LogLine) ls s s' :
  serving h s -> Prelude.execs exec (Poll <$> ls) s = Some s' -> serving h s'.
Proof.
  intros Hs E. eapply execs_invariant; [|exact Hs|exact E].
  intros a x y (l & -> & _)%list_elem_of_fmap Hx. by apply serving_poll.
Qed.

(** A stopped subscriber has printed what it took. *)
Lemma serving_stop {T} (h : T -> LogLine) l s :
  serving h s ->
  ∃ s', stop l s = Some s' /\ pollThread s' = None /\ running s' = false /\
    samples_taken s `prefix_of` samples_taken s' /\ printed s' = h <$> samples_taken s'.
Proof.
  intros (Hi & Hm & Hs). destruct (stop_spec l s Hi Hm) as (s' & k & E & Ek & (_ & _ & Hr & Ht & Hh & [r Hp]) & Hk).
  exists s'. split; [done|]. split; [done|]. split; [done|]. split.
  - unfold samples_taken. rewrite Hp, fmap_app. by exists r.*2.
  - destruct (serves_execs h k s s' Hs Hk Ek) as [_ Hf]. unfold printed, samples_taken. rewrite Hh, <- list_fmap_compose.
    apply list_fmap_ext. intros i [f x] Hx. cbn.
    pose proof (proj1 (Forall_lookup _ _) Hf i _ Hx) as Hfx. cbn in Hfx. by rewrite Hfx.
Qed.

Lemma steps_serving d steps s :
  Prelude.execs step steps (started d sensorEntry trackEntry) = Some s ->
  serving sensorLine (sensorSub s) /\ serving trackLine (trackSub s).
Proof.
  intros E. eapply (execs_invariant step (λ s, serving sensorLine (sensorSub s) /\ serving trackLine (trackSub s))); [..|exact E].
  - intros [l|l] x y _ [H1 H2]; cbn [step]; intros (u & E1 & [= <-])%bind_Some.
    + split; [by eapply serving_poll|done].
    + split; [done|by eapply serving_poll].
  - split; apply started_ok.
Qed.

(** C24: the two DDS programs.  The publisher ends normally when [isRunning] is
    cleared and has written one sensor reading and one track per pass, in order,
    the tracks numbered from 0.  Whatever its threads did until [isRunning] was
    cleared, the subscriber ends normally too, its threads joined, and has printed
    exactly one line per valid sample its readers took, in order; so when the
    readers took some of the samples written, in order, it has printed their
    lines and nothing else. *)
Theorem dds_test_end_to_end argv argv' d d' passes steps lateS trackSteps lateT s1 t1 :
  domainArg argv = Some d -> domainArg argv' = Some d' -> zlen passes < 2 ^ 31 ->
  Prelude.execs step steps (started d' sensorEntry trackEntry) = Some s1 ->
  Prelude.execs exec (Poll <$> trackSteps) (trackSub s1) = Some t1 ->
  ∃ p s, publisherMain argv passes = Some (Return 0, Some p) /\
    sequence p = zlen passes /\ written (sensorPub p) = makeSensor <$> passes /\ written (trackPub p) = tracks passes 0 /\
    subscriberMain argv' steps lateS trackSteps lateT = Some (Return 0, mainLines d', Some s) /\
    pollThread (sensorSub s) = None /\ pollThread (trackSub s) = None /\
    printed (sensorSub s) = sensorLine <$> samples_taken (sensorSub s) /\
    printed (trackSub s) = trackLine <$> samples_taken (trackSub s) /\
    (samples_taken (sensorSub s) `sublist_of` written (sensorPub p) ->
     printed (sensorSub s) `sublist_of` (sensorLine ∘ makeSensor <$> passes)) /\
    (samples_taken (trackSub s) `sublist_of` written (trackPub p) ->
     printed (trackSub s) `sublist_of` (trackLine <$> tracks passes 0)).
Proof.
  intros Hd Hd' Hl Hs Ht. destruct default_entries as [E1 E2].
  unfold publisherMain, subscriberMain. rewrite Hd, Hd', E1, E2.
  destruct (publisherLoop_spec passes (mkPublisher (DDSPublisher.construct d sensorEntry)
    (DDSPublisher.construct d trackEntry) 0 [GPINFO "Using DDS domain ID: {}" [AInt d]])) as (p & Ep & P1 & P2 & P3); [done|done|].
  cbn [sequence sensorPub trackPub] in *.
  destruct (steps_serving d' steps s1 Hs) as [Hs1 Ht1].
  destruct (serving_stop sensorLine lateS (sensorSub s1) Hs1) as (u & Eu & U1 & _ & _ & U2).
  destruct (serving_stop trackLine lateT t1 (serving_polls trackLine _ _ _ Ht1 Ht)) as (t & Et & T1 & _ & _ & T2).
  rewrite Ep, Hs, !bind_ret. eexists _, (mkSubscriber u t). split; [done|]. cbn [sequence sensorPub trackPub sensorSub trackSub].
  rewrite P1, P2, P3, Eu, bind_ret, Ht, bind_ret, Et, bind_ret. split; [lia|].
  do 7 (split; [done|]). rewrite U2, T2. split; intros Hsub.
  - change (DDSPublisher.written (DDSPublisher.construct d sensorEntry)) with (@nil SensorReading) in Hsub.
    rewrite list_fmap_compose. by apply fmap_sublist.
  - by apply fmap_sublist.
Qed.

(** The literals are the registry's names, so the older program does the same. *)
Lemma old_subscriber_same argv steps lateS trackSteps lateT :
  oldSubscriberMain argv steps lateS trackSteps lateT = subscriberMain argv steps lateS trackSteps lateT.
Proof. done. Qed.

(** A domain out of range of uint32_t is taken modulo 2^32; an argument that is
    not a number ends both programs with an exception. *)
Example domain_wraps : domainArg ["DDSPublisherTest"; "4294967297"]%string = Some 1.
Proof. by vm_compute. Qed.

Lemma bad_domain argv passes steps lateS ts lateT :
  domainArg argv = None ->
  publisherMain argv passes = Some (Terminate, None) /\
  subscriberMain argv steps lateS ts lateT = Some (Terminate, [], None).
Proof. unfold publisherMain, subscriberMain. by intros ->. Qed.

(** Two passes; the sensor reader takes both samples with an invalid one between
    them, the track reader only the second. *)
Definition w_pass (n : Z) : Pass := mkPass (n * 100000000) (f64_of_Z n) (f64_of_Z n) (f64_of_Z n) (f64_of_Z n) (f64_of_Z n).

Definition w_steps : list Step :=
  [SensorStep []; SensorStep [(true, makeSensor (w_pass 1)); (false, makeSensor (w_pass 1)); (true, makeSensor (w_pass 2))];
   TrackStep []; SensorStep []; TrackStep []; SensorStep []; SensorStep []; TrackStep []].

Lemma dds_test_end_to_end_witness :
  ∃ p s, publisherMain ["p"]%string [w_pass 1; w_pass 2] = Some (Return 0, Some p) /\
    sequence p = 2 /\ written (sensorPub p) = makeSensor <$> [w_pass 1; w_pass 2] /\
    written (trackPub p) = tracks [w_pass 1; w_pass 2] 0 /\
    subscriberMain ["s"; " 0"]%string w_steps [] [[]; []] [(true, makeTrack (w_pass 2) 1)] = Some (Return 0, mainLines 0, Some s) /\
    pollThread (sensorSub s) = None /\ pollThread (trackSub s) = None /\
    printed (sensorSub s) = sensorLine <$> samples_taken (sensorSub s) /\
    printed (trackSub s) = trackLine <$> samples_taken (trackSub s) /\
    (samples_taken (sensorSub s) `sublist_of` written (sensorPub p) ->
     printed (sensorSub s) `sublist_of` (sensorLine ∘ makeSensor <$> [w_pass 1; w_pass 2])) /\
    (samples_taken (trackSub s) `sublist_of` written (trackPub p) ->
     printed (trackSub s) `sublist_of` (trackLine <$> tracks [w_pass 1; w_pass 2] 0)).
Proof.
  eapply (dds_test_end_to_end ["p"]%string ["s"; " 0"]%string 0 0 [w_pass 1; w_pass 2] w_steps [] [[]; []]
    [(true, makeTrack (w_pass 2) 1)]); by vm_compute.
Defined.
