(* ===== verification/TransportDds.v ===== *)
(** Omniscope's DDS transport: src/apps/Omniscope/TransportDds.cpp.

    The transport owns a publisher and a subscriber (Dds.v) for each of the two
    topics.  Its operations hold a mutex, so they are steps of a machine whose
    other steps are those of the two polling threads; within an operation that
    stops a subscriber, its thread runs alone ([DDSSubscriber.stop]).  The
    conversions between samples and JSON are generated code: parameters. *)

From Stdlib Require Import String.
From S2P Require Import Prelude ITransport Dds.
Import CycloneDDSConfig DDSPublisher DDSSubscriber.

Section transport.
Context {Sensor Track Rec Callback : Type}.

(** crow's parser; toJson and dump, fromJson of the two types ([None]: throws). *)
Record JsonHelpers : Type := mkJsonHelpers {
  json_load : string -> option Rec;
  sensor_toText : Sensor -> string;
  track_toText : Track -> string;
  sensor_fromJson : Rec -> option Sensor;
  track_fromJson : Rec -> option Track;
}.
Context (J : JsonHelpers).

Record TransportDds : Type := mkTransportDds {
  domainId : Z;
  ddsConfig : gmap string TopicEntry;
  sensorPub : DDSPublisher Sensor;
  trackPub : DDSPublisher Track;
  sensorSub : DDSSubscriber Sensor Callback;
  trackSub : DDSSubscriber Track Callback;
  activeTopics : gset string;
}.

(** The left side is the exception getEntry throws. *)
Definition construct (domain : Z) : string + TransportDds :=
  let config := config (defaultInitialize CycloneDDSConfig.construct) in
  match TopicConfig.getEntry SENSOR_TOPIC config, TopicConfig.getEntry TRACK_TOPIC config with
  | inr sensor, inr track =>
      inr (mkTransportDds domain config (DDSPublisher.construct domain sensor) (DDSPublisher.construct domain track)
             (DDSSubscriber.construct domain sensor) (DDSSubscriber.construct domain track) ∅)
  | inl e, _ | _, inl e => inl e
  end.

Definition name (s : TransportDds) : string := "DDS".
Definition topicNames (s : TransportDds) : list string := [SENSOR_TOPIC; TRACK_TOPIC].

Definition set_sensorSub (u : DDSSubscriber Sensor Callback) (active : gset string) (s : TransportDds) : TransportDds :=
  mkTransportDds (domainId s) (ddsConfig s) (sensorPub s) (trackPub s) u (trackSub s) active.
Definition set_trackSub (u : DDSSubscriber Track Callback) (active : gset string) (s : TransportDds) : TransportDds :=
  mkTransportDds (domainId s) (ddsConfig s) (sensorPub s) (trackPub s) (sensorSub s) u active.

(** A handler of a subscriber is the callback its closure captures. *)
Definition subscribe (topic : string) (cb : Callback) (s : TransportDds) : TransportDds :=
  if decide (topic ∈ activeTopics s) then s
  else if decide (topic = SENSOR_TOPIC) then
    set_sensorSub (start (DDSSubscriber.subscribe cb (sensorSub s))) ({[topic]} ∪ activeTopics s) s
  else if decide (topic = TRACK_TOPIC) then
    set_trackSub (start (DDSSubscriber.subscribe cb (trackSub s))) ({[topic]} ∪ activeTopics s) s
  else s.

(** [lateS], [lateT]: what take() returns if the thread calls it once more. *)
Definition unsubscribe (topic : string) (lateS : list (bool * Sensor)) (lateT : list (bool * Track))
    (s : TransportDds) : option TransportDds :=
  if decide (topic ∈ activeTopics s) then
    if decide (topic = SENSOR_TOPIC) then
      u ← stop lateS (sensorSub s); Some (set_sensorSub u (activeTopics s ∖ {[topic]}) s)
    else if decide (topic = TRACK_TOPIC) then
      u ← stop lateT (trackSub s); Some (set_trackSub u (activeTopics s ∖ {[topic]}) s)
    else Some s
  else Some s.

Definition isSubscribed (topic : string) (s : TransportDds) : bool := bool_decide (topic ∈ activeTopics s).

Definition publishFromJson (topic jsonData : string) (s : TransportDds) : option TransportDds :=
  match json_load J jsonData with
  | None => Some s
  | Some data =>
      if decide (topic = SENSOR_TOPIC) then
        m ← sensor_fromJson J data;
        Some (mkTransportDds (domainId s) (ddsConfig s) (publish m (sensorPub s)) (trackPub s) (sensorSub s)
                (trackSub s) (activeTopics s))
      else if decide (topic = TRACK_TOPIC) then
        m ← track_fromJson J data;
        Some (mkTransportDds (domainId s) (ddsConfig s) (sensorPub s) (publish m (trackPub s)) (sensorSub s)
                (trackSub s) (activeTopics s))
      else Some s
  end.

(** ~TransportDds: the loop over the active topics. *)
Fixpoint destroyLoop (topics : list string) (lateS : list (bool * Sensor)) (lateT : list (bool * Track))
    (s : TransportDds) : option TransportDds :=
  match topics with
  | [] => Some s
  | t :: topics =>
      s ← (if decide (t = SENSOR_TOPIC) then u ← stop lateS (sensorSub s); Some (set_sensorSub u (activeTopics s) s)
           else if decide (t = TRACK_TOPIC) then u ← stop lateT (trackSub s); Some (set_trackSub u (activeTopics s) s)
           else Some s);
      destroyLoop topics lateS lateT s
  end.

Definition destroy (lateS : list (bool * Sensor)) (lateT : list (bool * Track)) (s : TransportDds)
    : option TransportDds := destroyLoop (elements (activeTopics s)) lateS lateT s.

(** The calls of callbacks made by the two threads: callback, topic, JSON text. *)
Definition sensorCalls (s : TransportDds) : list (Callback * string * string) :=
  (λ c, (c.1, SENSOR_TOPIC, sensor_toText J c.2)) <$> handled (sensorSub s).
Definition trackCalls (s : TransportDds) : list (Callback * string * string) :=
  (λ c, (c.1, TRACK_TOPIC, track_toText J c.2)) <$> handled (trackSub s).

(** * The system *)

Inductive Action : Type :=
  | Subscribe (topic : string) (cb : Callback)
  | Unsubscribe (topic : string) (lateS : list (bool * Sensor)) (lateT : list (bool * Track))
  | Publish (topic json : string)
  | SensorPoll (samples : list (bool * Sensor))
  | TrackPoll (samples : list (bool * Track)).

Definition exec (a : Action) (s : TransportDds) : option TransportDds :=
  match a with
  | Subscribe t cb => Some (subscribe t cb s)
  | Unsubscribe t lateS lateT => unsubscribe t lateS lateT s
  | Publish t j => publishFromJson t j s
  | SensorPoll l => u ← pollStep l (sensorSub s); Some (set_sensorSub u (activeTopics s) s)
  | TrackPoll l => u ← pollStep l (trackSub s); Some (set_trackSub u (activeTopics s) s)
  end.

(** * Invariant *)

(** A subscriber as the transport leaves it between its operations. *)
Record sub_ok {T} (active : Prop) (u : DDSSubscriber T Callback) : Prop := {
  sub_invariant : invariant u;
  sub_idle : main u = MIdle;
  sub_running : running u = true <-> active;
}.

Record ok (s : TransportDds) : Prop := {
  ok_sensor : sub_ok (SENSOR_TOPIC ∈ activeTopics s) (sensorSub s);
  ok_track : sub_ok (TRACK_TOPIC ∈ activeTopics s) (trackSub s);
  ok_active : ∀ t, t ∈ activeTopics s -> t ∈ topicNames s;
}.

Lemma sub_ok_iff {T} (P Q : Prop) (u : DDSSubscriber T Callback) : (P <-> Q) -> sub_ok P u -> sub_ok Q u.
Proof. intros H []. split; [done|done|tauto]. Qed.

(** A subscriber that is not running has no thread: no race, nothing overwritten. *)
Lemma sub_ok_subscribe {T} (P Q : Prop) cb (u : DDSSubscriber T Callback) :
  sub_ok P u -> ~ P -> Q -> sub_ok Q (start (DDSSubscriber.subscribe cb u)) /\
  handler (start (DDSSubscriber.subscribe cb u)) = Some cb.
Proof.
  intros [Hi Hm Hr] HP HQ.
  assert (running u = false) as Er by (destruct (running u); [by destruct HP; apply Hr|done]).
  assert (pollThread u = None) as Et.
  { destruct (pollThread u) eqn:E; [|done]. destruct (inv_thread u Hi) as [_ H]; rewrite ?Hm; [done..|].
    rewrite E, Er in H. by specialize (H ltac:(done)). }
  set (u1 := DDSSubscriber.subscribe cb u).
  assert (main u1 = MIdle) as Hm1 by (unfold u1, DDSSubscriber.subscribe; by rewrite Et).
  assert (invariant u1) as Hi1.
  { apply (dds_invariant_exec (DDSSubscriber.Subscribe cb) u u1 Hi). cbn. by rewrite Hm. }
  assert (invariant (start u1)) as Hi2.
  { apply (dds_invariant_exec DDSSubscriber.Start u1 (start u1) Hi1). cbn. by rewrite Hm1. }
  unfold start, u1, DDSSubscriber.subscribe in *. rewrite Et in *. cbn in *. rewrite Er in *. split; [split; [exact Hi2|exact Hm|done]|done].
Qed.

Lemma sub_ok_stop {T} P (l : list (bool * T)) (u : DDSSubscriber T Callback) :
  sub_ok P u -> ∃ u', stop l u = Some u' /\ sub_ok False u' /\ handled u' = taken u' /\ taken u `prefix_of` taken u'.
Proof.
  intros [Hi Hm Hr]. destruct (stop_spec l u Hi Hm) as (u' & _ & E & _ & (Hi' & Hm' & Hr' & _ & Hh & Ht) & _).
  exists u'. split; [done|]. split; [|done]. split; [done|done|]. by rewrite Hr'.
Qed.

Lemma sub_ok_poll {T} P l (u u' : DDSSubscriber T Callback) : sub_ok P u -> pollStep l u = Some u' -> sub_ok P u'.
Proof.
  intros [Hi Hm Hr] E. assert (main u' = main u /\ running u' = running u) as [Em Er].
  { unfold pollStep in E. apply bind_Some in E as (p & _ & E). destruct p as [| |[|[v x] rest]| |]; try done;
      repeat case_match; by simplify_eq. }
  split; [by eapply dds_invariant_pollStep|congruence|by rewrite Er].
Qed.

Lemma transport_ok_construct d s : construct d = inr s -> ok s.
Proof.
  unfold construct. vm_compute (TopicConfig.getEntry _ _). intros [= <-].
  split; cbn; [split; [apply dds_invariant_construct|done|]; split; [done|set_solver]..|set_solver].
Qed.

Lemma topics_differ : SENSOR_TOPIC <> TRACK_TOPIC.
Proof. done. Qed.

Lemma ok_subscribe topic cb s : ok s -> ok (subscribe topic cb s).
Proof.
  intros [Hs Ht Ha]. unfold subscribe. case_decide; [done|]. pose proof topics_differ.
  case_decide; [|case_decide; [|done]]; subst; (split; cbn).
  - apply (sub_ok_subscribe (SENSOR_TOPIC ∈ activeTopics s)); [done|done|set_solver].
  - eapply sub_ok_iff; [|exact Ht]. set_solver.
  - set_solver.
  - eapply sub_ok_iff; [|exact Hs]. set_solver.
  - apply (sub_ok_subscribe (TRACK_TOPIC ∈ activeTopics s)); [done|done|set_solver].
  - set_solver.
Qed.

(** unsubscribe returns; what the thread had in hand has been handed over. *)
Lemma unsubscribe_outcome topic lateS lateT s :
  ok s -> ∃ s', unsubscribe topic lateS lateT s = Some s' /\ ok s' /\ activeTopics s' = activeTopics s ∖ {[topic]} /\
    (topic = SENSOR_TOPIC -> topic ∈ activeTopics s -> handled (sensorSub s') = taken (sensorSub s')) /\
    (topic = TRACK_TOPIC -> topic ∈ activeTopics s -> handled (trackSub s') = taken (trackSub s')).
Proof.
  intros Hok. pose proof Hok as [Hs Ht Ha]. pose proof topics_differ. unfold unsubscribe. case_decide as Hin.
  2: { exists s. split; [done|]. split; [done|]. split; [set_solver|done]. }
  case_decide; [|case_decide; [|]]; subst.
  - destruct (sub_ok_stop _ lateS _ Hs) as (u & -> & Hu & Hh & _). eexists. split; [reflexivity|]. split.
    + split; cbn; [eapply sub_ok_iff; [|exact Hu]; set_solver|eapply sub_ok_iff; [|exact Ht]; set_solver|set_solver].
    + split; [done|]. by split.
  - destruct (sub_ok_stop _ lateT _ Ht) as (u & -> & Hu & Hh & _). eexists. split; [reflexivity|]. split.
    + split; cbn; [eapply sub_ok_iff; [|exact Hs]; set_solver|eapply sub_ok_iff; [|exact Hu]; set_solver|set_solver].
    + split; [done|]. by split.
  - specialize (Ha _ Hin). set_solver.
Qed.

Lemma ok_publish topic json s s' :
  ok s -> publishFromJson topic json s = Some s' -> ok s' /\ activeTopics s' = activeTopics s.
Proof.
  intros Hok. unfold publishFromJson. destruct (json_load J json); [|by intros [= <-]].
  destruct Hok as [Hs Ht Ha].
  case_decide; [|case_decide; [|by intros [= <-]]]; intros (m & _ & [= <-])%bind_Some; by split; [split|].
Qed.

Lemma ok_exec a s s' : ok s -> exec a s = Some s' -> ok s'.
Proof.
  intros Hok. destruct a; cbn [exec].
  - intros [= <-]. by apply ok_subscribe.
  - intros E. destruct (unsubscribe_outcome topic lateS lateT s Hok) as (s'' & E' & H & _). congruence.
  - intros E. by apply (ok_publish topic json s).
  - intros (u & E & [= <-])%bind_Some. destruct Hok. split; cbn; [by eapply sub_ok_poll|done|done].
  - intros (u & E & [= <-])%bind_Some. destruct Hok. split; cbn; [done|by eapply sub_ok_poll|done].
Qed.
End transport.
Arguments TransportDds : clear implicits.
Arguments JsonHelpers : clear implicits.
Arguments Action : clear implicits.

(** * The interface *)

Section instance.
Context {Sensor Track Rec Callback : Type} (J : JsonHelpers Sensor Track Rec).
Context (lateS : list (bool * Sensor)) (lateT : list (bool * Track)).

#[export] Instance dds_transport : ITransport (TransportDds Sensor Track Callback) Callback := {
  ITransport.name := name;
  ITransport.topicNames := topicNames;
  ITransport.subscribe t cb s := Some (subscribe t cb s);
  ITransport.unsubscribe t s := unsubscribe t lateS lateT s;
  ITransport.isSubscribed := isSubscribed;
  ITransport.publishFromJson := publishFromJson J;
}.

Lemma dds_activeTopics_subscribe topic cb (s : TransportDds Sensor Track Callback) :
  activeTopics (subscribe topic cb s)
  = if decide (topic ∈ topicNames s) then {[topic]} ∪ activeTopics s else activeTopics s.
Proof.
  unfold subscribe, topicNames. case_decide; [case_decide; [set_solver|done]|].
  destruct (decide (topic = SENSOR_TOPIC)) as [->|]; [by rewrite decide_True by set_solver|].
  destruct (decide (topic = TRACK_TOPIC)) as [->|]; [by rewrite decide_True by set_solver|].
  by rewrite decide_False by set_solver.
Qed.

#[export] Instance dds_laws : TransportLaws (TransportDds Sensor Track Callback) Callback ok.
Proof.
  split; cbn.
  - intros s topic cb Hs. eexists. split; [done|]. split; [by apply ok_subscribe|]. split; [done|]. split; [done|].
    unfold isSubscribed. rewrite dds_activeTopics_subscribe. split.
    + intros Ht. rewrite decide_True by done. apply bool_decide_eq_true. set_solver.
    + intros t Ht. apply bool_decide_ext. case_decide; set_solver.
  - intros s topic Hs. destruct (unsubscribe_outcome topic lateS lateT s Hs) as (s' & -> & Hs' & Ea & _).
    exists s'. split; [done|]. split; [done|]. split; [done|]. split; [done|]. unfold isSubscribed. rewrite Ea. split.
    + apply bool_decide_eq_false. set_solver.
    + intros t Ht. apply bool_decide_ext. set_solver.
  - intros s topic json s' Hs E. destruct (ok_publish J topic json s s' Hs E) as [H Ea].
    split; [done|]. split; [done|]. split; [done|]. intros t. unfold isSubscribed. by rewrite Ea.
Qed.
End instance.

(** * Properties *)

(** C25: whatever the order of the transport's operations and the interleaving of
    the two polling threads, a subscriber runs exactly when its topic is active:
    none is given a new handler or thread while its thread runs, which would be
    a data race or end the program. *)
Theorem transport_dds_race_free {Sensor Track Rec Callback} (J : JsonHelpers Sensor Track Rec) d
    (s0 s : TransportDds Sensor Track Callback) topic cb :
  construct d = inr s0 -> Prelude.reachable (exec J) s0 s ->
  (running (sensorSub s) = true <-> isSubscribed SENSOR_TOPIC s = true) /\
  (running (trackSub s) = true <-> isSubscribed TRACK_TOPIC s = true) /\
  (isSubscribed SENSOR_TOPIC s = false -> pollThread (sensorSub s) = None) /\
  (isSubscribed TRACK_TOPIC s = false -> pollThread (trackSub s) = None) /\
  failed (main (sensorSub (subscribe topic cb s))) = false /\ failed (main (trackSub (subscribe topic cb s))) = false.
Proof.
  intros Hc Hr. assert (ok s) as Hok.
  { revert Hr. apply reachable_ind'; [by eapply transport_ok_construct|]. intros a ??. apply ok_exec. }
  assert (∀ T P (u : DDSSubscriber T Callback), sub_ok P u -> ~ P -> pollThread u = None) as Hnone.
  { intros T P u [Hi Hm Hrun] HP. destruct (pollThread u) eqn:E; [|done]. destruct HP. apply Hrun.
    apply (inv_thread u Hi); by rewrite ?Hm, ?E. }
  pose proof Hok as [Hs Ht _]. unfold isSubscribed. rewrite !bool_decide_eq_true, !bool_decide_eq_false.
  split; [apply (sub_running _ _ Hs)|]. split; [apply (sub_running _ _ Ht)|].
  split; [by apply Hnone|]. split; [by apply Hnone|].
  destruct (ok_subscribe topic cb s Hok) as [[_ -> _] [_ -> _] _]. done.
Qed.

Definition w_helpers : JsonHelpers Z Z string :=
  mkJsonHelpers Some (λ _, "s"%string) (λ _, "t"%string) (λ _, Some 1) (λ _, Some 2).

Definition w_transport : TransportDds Z Z nat :=
  match construct 0 with inr s => s | inl _ => mkTransportDds 0 ∅ (DDSPublisher.construct 0 w_entry)
    (DDSPublisher.construct 0 w_entry) (DDSSubscriber.construct 0 w_entry) (DDSSubscriber.construct 0 w_entry) ∅ end.

Lemma w_transport_construct : construct 0 = inr w_transport.
Proof. vm_compute. reflexivity. Qed.

(** The sensor topic subscribed and unsubscribed, the thread taking a sample. *)
Definition w_actions : list (Action Z Z nat) :=
  [Subscribe SENSOR_TOPIC 3%nat; SensorPoll []; SensorPoll [(true, 8)]; Unsubscribe SENSOR_TOPIC [] [];
   Publish TRACK_TOPIC "{}"].

Definition w_after : TransportDds Z Z nat := default w_transport (Prelude.execs (exec w_helpers) w_actions w_transport).

Lemma w_after_reachable : Prelude.reachable (exec w_helpers) w_transport w_after.
Proof.
  eapply execs_reachable with (l := w_actions); [apply reachable_init|]. unfold w_after.
  assert (is_Some (Prelude.execs (exec w_helpers) w_actions w_transport)) as [s ->] by (vm_compute; by eexists).
  done.
Qed.

Lemma transport_dds_race_free_witness :
  (running (sensorSub w_after) = true <-> isSubscribed SENSOR_TOPIC w_after = true) /\
  (running (trackSub w_after) = true <-> isSubscribed TRACK_TOPIC w_after = true) /\
  (isSubscribed SENSOR_TOPIC w_after = false -> pollThread (sensorSub w_after) = None) /\
  (isSubscribed TRACK_TOPIC w_after = false -> pollThread (trackSub w_after) = None) /\
  failed (main (sensorSub (subscribe SENSOR_TOPIC 4%nat w_after))) = false /\
  failed (main (trackSub (subscribe SENSOR_TOPIC 4%nat w_after))) = false.
Proof. exact (transport_dds_race_free w_helpers 0 w_transport w_after SENSOR_TOPIC 4%nat w_transport_construct w_after_reachable). Defined.

(** The JSON text a transport hands to a callback, published from on
    another, writes the same sample; and a sample taken after a subscription
    makes exactly one call, of the callback subscribed, with the topic and the
    text of the sample, whatever either transport has done before. *)
Theorem transport_dds_roundtrip {Sensor Track Rec Callback} (J : JsonHelpers Sensor Track Rec) d
    (s0 a b : TransportDds Sensor Track Callback) (cb : Callback) m data :
  construct d = inr s0 -> Prelude.reachable (exec J) s0 b ->
  json_load J (sensor_toText J m) = Some data -> sensor_fromJson J data = Some m ->
  isSubscribed SENSOR_TOPIC b = false ->
  (∃ a', publishFromJson J SENSOR_TOPIC (sensor_toText J m) a = Some a' /\
     written (sensorPub a') = written (sensorPub a) ++ [m]) /\
  (∃ b', Prelude.execs (exec J) [Subscribe SENSOR_TOPIC cb; SensorPoll []; SensorPoll [(true, m)]; SensorPoll []] b
           = Some b' /\
     sensorCalls J b' = sensorCalls J b ++ [(cb, SENSOR_TOPIC, sensor_toText J m)] /\
     trackCalls J b' = trackCalls J b).
Proof.
  intros Hc Hr Hl Hf Hns. split.
  - unfold publishFromJson. rewrite Hl, decide_True by done. rewrite Hf, bind_ret. eexists. split; [done|].
    apply written_publish.
  - assert (ok b) as [[Hi Hm Hrun] _ _].
    { revert Hr. apply reachable_ind'; [by eapply transport_ok_construct|]. intros x ??. apply ok_exec. }
    unfold isSubscribed in Hns. apply bool_decide_eq_false in Hns.
    assert (running (sensorSub b) = false) as Er by (destruct (running (sensorSub b)); [by destruct Hns; apply Hrun|done]).
    assert (pollThread (sensorSub b) = None) as Et.
    { destruct (pollThread (sensorSub b)) eqn:E; [|done]. destruct (inv_thread _ Hi) as [_ H]; rewrite ?Hm; [done..|].
      rewrite E, Er in H. by specialize (H ltac:(done)). }
    cbn [Prelude.execs exec]. rewrite bind_ret. unfold subscribe. rewrite decide_False, decide_True by done.
    unfold start, DDSSubscriber.subscribe. rewrite Et. cbn -[activeTopics]. rewrite Er. cbn -[activeTopics].
    eexists. split; [reflexivity|]. split; [|done]. unfold sensorCalls. cbn. by rewrite fmap_app.
Qed.

Definition w_helpers2 : JsonHelpers Z Z Z :=
  mkJsonHelpers (λ s, Some (Z.of_nat (String.length s)))
    (λ m, if (m =? 3)%Z then "xyz"%string else ""%string) (λ _, ""%string) Some Some.

Lemma w_reachable_init : Prelude.reachable (exec w_helpers2) w_transport w_transport.
Proof. apply reachable_init. Qed.

Lemma transport_dds_roundtrip_witness :
  (∃ a', publishFromJson w_helpers2 SENSOR_TOPIC (sensor_toText w_helpers2 3) w_after = Some a' /\
     written (sensorPub a') = written (sensorPub w_after) ++ [3]) /\
  (∃ b', Prelude.execs (exec w_helpers2)
           [Subscribe SENSOR_TOPIC 9%nat; SensorPoll []; SensorPoll [(true, 3)]; SensorPoll []] w_transport = Some b' /\
     sensorCalls w_helpers2 b' = sensorCalls w_helpers2 w_transport ++ [(9%nat, SENSOR_TOPIC, sensor_toText w_helpers2 3)] /\
     trackCalls w_helpers2 b' = trackCalls w_helpers2 w_transport).
Proof.
  apply (transport_dds_roundtrip w_helpers2 0 w_transport w_after w_transport 9%nat 3 3 w_transport_construct w_reachable_init);
    vm_compute; reflexivity.
Defined.
