(* ===== verification/OmniscopeApp.v ===== *)
(** The Omniscope application: src/apps/Omniscope/OmniscopeApp.cpp.

    The application is written against the transport interface (ITransport.v)
    and owns a playback engine (PlaybackEngine.v).  [exec] performs one handler
    of the web server, one message of a transport or one action of the engine,
    with the calls the engine makes back into the application.  A handler that
    calls the engine leaves the rest of its work in [pending], for an action of its
    own; the handlers that use the engine are taken one at a time.  crow's JSON
    library is the record [Crow], what the proofs need of it the class [CrowLaws];
    a text or frame sent is its dump.  [None]: an exception leaves a handler, or the
    action is not enabled. *)

From Stdlib Require Import Ascii String.
From stdpp Require Import pretty.
From S2P Require Import Prelude ITransport.
From S2P Require PlaybackEngine Dds TransportDds Zyre ProtoTopics TransportZyre.

(** * JSON *)

Section json.
Context (Val : Type).

(** crow::json::wvalue as the application builds it; [JLoaded]: a parsed value. *)
Inductive Json : Type :=
  | JString (s : string)
  | JNumber (z : Z)
  | JBool (b : bool)
  | JLoaded (v : Val)
  | JList (l : list Json)
  | JObject (l : list (string * Json)).

(** load: [None] for a text that is not JSON; the accessors of a field: [None]
    where crow throws; [field_text], [value_text]: a field, a value, dumped. *)
Record Crow : Type := mkCrow {
  json_load : string -> option Val;
  str_field : Val -> string -> option string;
  int_field : Val -> string -> option Z;
  field_text : Val -> string -> option string;
  value_text : Val -> string;
  dump : Json -> string;
}.

(** What a field of a dumped object gives the accessors once loaded. *)
Definition field_kept (c : Crow) (r : Val) (f : string * Json) : Prop :=
  match f.2 with
  | JString s => str_field c r f.1 = Some s
  | JNumber z => -9223372036854775808 <= z < 9223372036854775808 -> int_field c r f.1 = Some z
  | JLoaded v => field_text c r f.1 = Some (value_text c v)
  | _ => True
  end.

(** crow's JSON: dump() gives one line of text, and load() of a dumped object an
    object with each field set, and no other. *)
Class CrowLaws (c : Crow) : Prop := {
  dump_line l : dump c (JObject l) <> ""%string /\ PlaybackEngine.no_newline (dump c (JObject l)) = true;
  load_dump l : NoDup l.*1 -> ∃ r, json_load c (dump c (JObject l)) = Some r /\ Forall (field_kept c r) l /\
    ∀ k, k ∉ l.*1 -> str_field c r k = None /\ int_field c r k = None /\ field_text c r k = None;
}.
End json.
Arguments JString {Val} s.
Arguments JNumber {Val} z.
Arguments JBool {Val} b.
Arguments JLoaded {Val} v.
Arguments JList {Val} l.
Arguments JObject {Val} l.
Arguments json_load {Val} c.
Arguments str_field {Val} c.
Arguments int_field {Val} c.
Arguments field_text {Val} c.
Arguments value_text {Val} c.
Arguments dump {Val} c.
Arguments field_kept {Val} c.
Arguments CrowLaws {Val} c.
Arguments dump_line {Val} c {_}.
Arguments load_dump {Val} c {_}.

(** * Timestamps *)

(** [{:0wd}] of a non-negative number. *)
Definition padded (w : nat) (z : Z) : string :=
  let s := pretty z in
  (String.concat "" (replicate (w - String.length s) "0") ++ s)%string.

(** Year, month and day of a day counted from 1970-01-01 (gmtime_r): the days
    from 0000-03-01, in eras of 400 years. *)
Definition civil (days : Z) : Z * Z * Z :=
  let z := days + 719468 in
  let era := z / 146097 in
  let doe := z mod 146097 in
  let yoe := (doe - doe / 1460 + doe / 36524 - doe / 146096) / 365 in
  let doy := doe - (365 * yoe + yoe / 4 - yoe / 100) in
  let mp := (5 * doy + 2) / 153 in
  let day := doy - (153 * mp + 2) / 5 + 1 in
  let month := if mp <? 10 then mp + 3 else mp - 9 in
  ((if month <=? 2 then yoe + era * 400 + 1 else yoe + era * 400), month, day).

Definition iso8601 (epochMs : Z) : string :=
  let secs := epochMs / 1000 in
  let '(y, m, d) := civil (secs / 86400) in
  let sod := secs mod 86400 in
  (padded 4 y ++ "-" ++ padded 2 m ++ "-" ++ padded 2 d ++ "T" ++ padded 2 (sod / 3600) ++ ":" ++
   padded 2 (sod / 60 mod 60) ++ ":" ++ padded 2 (sod mod 60) ++ "." ++ padded 3 (epochMs mod 1000) ++ "Z")%string.

Example iso8601_leap : iso8601 1709164799999 = "2024-02-28T23:59:59.999Z"%string.
Proof. vm_compute. reflexivity. Qed.
Example iso8601_next : iso8601 1709164800000 = "2024-02-29T00:00:00.000Z"%string.
Proof. vm_compute. reflexivity. Qed.

(** * State *)

Section app.
Context {Val S : Type} (crow : Crow Val) `{ITransport S unit}.
#[local] Abbreviation Json := (Json Val).

(** The rest of a handler that has called the engine: after start(), after stop(),
    after loadRecording(). *)
Inductive Pending : Type := AfterStart | AfterStop | AfterLoad.

(** Connections are numbers.  [recFile]: the file the stream has open; [disk]:
    the recordings, as their lines; [sent]: the frames sent, oldest first;
    [responses]: the bodies of the HTTP responses.  The one callback given to
    the transports is that of the application. *)
Record App : Type := mkApp {
  transports : list S;
  wsConnections : gset nat;
  recording : bool;
  recFile : option string;
  recFilename : string;
  disk : gmap string (list string);
  playback : PlaybackEngine.State;
  pending : option Pending;
  sent : list (nat * string);
  responses : list string;
}.

(** The application once run() has created the engine, with the transports added. *)
Definition construct (ts : list S) : App :=
  mkApp ts ∅ false None "" ∅ PlaybackEngine.construct None [] [].

Definition set_transports (ts : list S) (a : App) : App :=
  mkApp ts (wsConnections a) (recording a) (recFile a) (recFilename a) (disk a) (playback a) (pending a) (sent a) (responses a).
Definition set_connections (c : gset nat) (a : App) : App :=
  mkApp (transports a) c (recording a) (recFile a) (recFilename a) (disk a) (playback a) (pending a) (sent a) (responses a).
Definition set_recording (r : bool) (f : option string) (n : string) (d : gmap string (list string)) (a : App) : App :=
  mkApp (transports a) (wsConnections a) r f n d (playback a) (pending a) (sent a) (responses a).
Definition set_playback (e : PlaybackEngine.State) (p : option Pending) (a : App) : App :=
  mkApp (transports a) (wsConnections a) (recording a) (recFile a) (recFilename a) (disk a) e p (sent a) (responses a).
Definition respond (r : string) (a : App) : App :=
  mkApp (transports a) (wsConnections a) (recording a) (recFile a) (recFilename a) (disk a) (playback a) (pending a)
    (sent a) (responses a ++ [r]).

(** addTransport(), before run(). *)
Definition addTransport (t : S) (a : App) : App := set_transports (transports a ++ [t]) a.

Definition send_text (conn : nat) (payload : string) (a : App) : App :=
  mkApp (transports a) (wsConnections a) (recording a) (recFile a) (recFilename a) (disk a) (playback a) (pending a)
    (sent a ++ [(conn, payload)]) (responses a).

(** * Transports *)

(** The index of the transport found. *)
Definition findTransport (topic : string) (a : App) : option nat :=
  fst <$> list_find (λ t, topic ∈ topicNames t) (transports a).

Definition broadcastWs (payload : string) (a : App) : App :=
  foldl (λ a conn, send_text conn payload a) a (elements (wsConnections a)).

(** * Messages *)

Definition recordLine (topic : string) (now : Z) (v : Val) : string :=
  dump crow (JObject [("topic", JString topic); ("timestamp", JString (iso8601 now)); ("timestamp_ms", JNumber now);
                      ("data", JLoaded v)])%string.

Definition appendLine (f line : string) (d : gmap string (list string)) : gmap string (list string) :=
  <[f := default [] (d !! f) ++ [line]]> d.

(** [now]: the clock, in milliseconds since the epoch. *)
Definition onTransportMessage (topic jsonData : string) (now : Z) (a : App) : option App :=
  v ← json_load crow jsonData;
  let payload := dump crow (JObject [("type", JString "message"); ("topic", JString topic);
                                     ("timestamp", JString (iso8601 now)); ("data", JLoaded v)])%string in
  let a :=
    match recording a, recFile a with
    | true, Some f =>
        set_recording true (Some f) (recFilename a) (appendLine f (recordLine topic now v) (disk a)) a
    | _, _ => a
    end in
  Some (broadcastWs payload a).

Definition topicEntries (a : App) : list Json :=
  t ← transports a; tn ← topicNames t;
  [JObject [("name", JString tn); ("subscribed", JBool (isSubscribed tn t)); ("transport", JString (name t))]%string].

Definition topicList (a : App) : string :=
  dump crow (JObject [("type", JString "topics"); ("topics", JList (topicEntries a))])%string.

Definition sendTopicList (conn : nat) (a : App) : App := send_text conn (topicList a) a.

(** * Recording *)

Definition recordingName (now : Z) : string := ("omni_" ++ pretty (now / 1000)%Z ++ ".dat")%string.

(** [opens]: whether the file can be opened; it is truncated. *)
Definition startRecording (now : Z) (opens : bool) (a : App) : App :=
  if recording a then a
  else
    let f := recordingName now in
    if opens then set_recording true (Some f) f (<[f := []]> (disk a)) a
    else set_recording true None f (disk a) a.

Definition stopRecording (a : App) : App * string :=
  if recording a then (set_recording false None (recFilename a) (disk a) a, recFilename a) else (a, ""%string).

(** * Commands *)

(** A handler that uses the engine: the call that starts it. *)
Definition engine_exec : PlaybackEngine.Action -> PlaybackEngine.State -> option PlaybackEngine.State :=
  PlaybackEngine.exec (json_load crow) (λ r, str_field crow r "topic") (λ r, field_text crow r "data")
    (λ r, int_field crow r "timestamp_ms").

Definition callEngine (act : PlaybackEngine.Action) (p : Pending) (a : App) : option App :=
  match pending a with
  | Some _ => None
  | None => e ← engine_exec act (playback a); Some (set_playback e (Some p) a)
  end.

Definition handleWsMessage (conn : nat) (msg : string) (now : Z) (opens : bool) (a : App) : option App :=
  match json_load crow msg with
  | None => Some a
  | Some j =>
      type ← str_field crow j "type";
      if String.eqb type "subscribe" then
        topic ← str_field crow j "topic";
        match findTransport topic a with
        | Some i =>
            t ← transports a !! i;
            t' ← subscribe topic () t;
            Some (sendTopicList conn (set_transports (<[i := t']> (transports a)) a))
        | None => Some (sendTopicList conn a)
        end
      else if String.eqb type "unsubscribe" then
        topic ← str_field crow j "topic";
        match findTransport topic a with
        | Some i =>
            t ← transports a !! i;
            t' ← unsubscribe (Callback := unit) topic t;
            Some (sendTopicList conn (set_transports (<[i := t']> (transports a)) a))
        | None => Some (sendTopicList conn a)
        end
      else if String.eqb type "record_start" then
        Some (send_text conn (dump crow (JObject [("type", JString "recording_started")]%string))
                (startRecording now opens a))
      else if String.eqb type "record_stop" then
        let '(a, filename) := stopRecording a in
        Some (send_text conn
                (dump crow (JObject [("type", JString "recording_stopped"); ("filename", JString filename)]%string)) a)
      else if String.eqb type "playback_start" then callEngine (PlaybackEngine.Start true true) AfterStart a
      else if String.eqb type "playback_stop" then callEngine PlaybackEngine.Stop AfterStop a
      else Some a
  end.

(** POST /playback/load *)
Definition loadRoute (body : string) (a : App) : option App :=
  if String.eqb body "" then Some (respond "Empty body" a)
  else callEngine (PlaybackEngine.Load body) AfterLoad a.

Definition onopen (conn : nat) (a : App) : App :=
  sendTopicList conn (set_connections ({[conn]} ∪ wsConnections a) a).

Definition onclose (conn : nat) (a : App) : App := set_connections (wsConnections a ∖ {[conn]}) a.

(** The end of run(), and the destructor: the engine is stopped. *)
Definition shutdown (a : App) : option App := callEngine PlaybackEngine.Stop AfterStop a.

(** * The engine's callbacks *)

(** The publish callback given in run(). *)
Definition republish (topic jsonData : string) (a : App) : option App :=
  match findTransport topic a with
  | None => Some a
  | Some i =>
      t ← transports a !! i;
      t' ← publishFromJson (Callback := unit) topic jsonData t;
      Some (set_transports (<[i := t']> (transports a)) a)
  end.

Definition republishAll (msgs : list (string * string)) (a : App) : option App :=
  foldl (λ r m, a ← r; republish m.1 m.2 a) (Some a) msgs.

Definition progressFrame (p : nat * nat) : string :=
  dump crow (JObject [("type", JString "playback_progress"); ("current", JNumber (Z.of_nat p.1));
                      ("total", JNumber (Z.of_nat p.2))]%string).

Definition completionFrame (wasStopped : bool) : string :=
  dump crow (JObject [("type", JString (if wasStopped then "playback_stopped" else "playback_finished"))]%string).

(** The calls an action of the engine made: [start] clears the records of calls. *)
Definition calls_made {X} (act : PlaybackEngine.Action) (e : PlaybackEngine.State) (before after : list X) : list X :=
  match act, PlaybackEngine.main e with
  | PlaybackEngine.Main, PlaybackEngine.MStart _ _ => after
  | _, _ => drop (length before) after
  end.

Definition broadcastAll (frames : list string) (a : App) : App := foldl (λ a f, broadcastWs f a) a frames.

(** An action of the engine with the calls it makes; a publication that throws
    ends the process from the replay thread. *)
Definition engineStep (act : PlaybackEngine.Action) (a : App) : option App :=
  let e := playback a in
  e' ← engine_exec act e;
  match republishAll (calls_made act e (PlaybackEngine.published e) (PlaybackEngine.published e')).*2
          (set_playback e' (pending a) a) with
  | Some a =>
      Some (broadcastAll (completionFrame <$> calls_made act e (PlaybackEngine.completed e) (PlaybackEngine.completed e'))
        (broadcastAll (progressFrame <$> calls_made act e (PlaybackEngine.progress e) (PlaybackEngine.progress e')) a))
  | None => e' ← engine_exec PlaybackEngine.PublishThrows e; Some (set_playback e' (pending a) a)
  end.

(** What is left of a handler when the engine's operation has returned; the replay
    thread may have run meanwhile. *)
Definition resume (a : App) : option App :=
  match PlaybackEngine.main (playback a), pending a with
  | PlaybackEngine.MIdle, Some p =>
      let a := set_playback (playback a) None a in
      let count := JNumber (PlaybackEngine.messageCount (playback a)) in
      Some match p with
      | AfterStop => a
      | AfterStart =>
          broadcastWs (dump crow (JObject [("type", JString "playback_started"); ("count", count)]%string)) a
      | AfterLoad =>
          respond (dump crow (JObject [("lines", count)]%string))
            (broadcastWs (dump crow (JObject [("type", JString "recording_loaded"); ("count", count)]%string)) a)
      end
  | _, _ => None
  end.

(** * The system *)

Inductive Action : Type :=
  | TransportMessage (topic json : string) (now : Z)
  | WsMessage (conn : nat) (msg : string) (now : Z) (opens : bool)
  | Open (conn : nat)
  | Close (conn : nat)
  | Upload (body : string)
  | Engine (act : PlaybackEngine.Action)
  | Resume
  | Shutdown.

(** The engine's operations are called by the handlers only. *)
Definition internal (act : PlaybackEngine.Action) : bool :=
  match act with
  | PlaybackEngine.Main | PlaybackEngine.Worker | PlaybackEngine.Spurious | PlaybackEngine.Tick _ => true
  | _ => false
  end.

Definition exec (act : Action) (a : App) : option App :=
  match act with
  | TransportMessage topic json now => onTransportMessage topic json now a
  | WsMessage conn msg now opens => handleWsMessage conn msg now opens a
  | Open conn => Some (onopen conn a)
  | Close conn => Some (onclose conn a)
  | Upload body => loadRoute body a
  | Engine act => if internal act then engineStep act a else None
  | Resume => resume a
  | Shutdown => shutdown a
  end.


(** Adding transports to a new application gives the one run() starts with. *)
Lemma addTransport_construct ts us : foldl (λ a t, addTransport t a) (construct us) ts = construct (us ++ ts).
Proof.
  revert us. induction ts as [|t ts IH]; intros us; cbn; [by rewrite app_nil_r|].
  change (addTransport t (construct us)) with (construct (us ++ [t])). by rewrite IH, <- (assoc_L (++)).
Qed.

(** * What the handlers leave alone *)

Definition recordingState (a : App) : bool * option string * string * gmap string (list string) :=
  (recording a, recFile a, recFilename a, disk a).

Lemma broadcast_frame payload a :
  recordingState (broadcastWs payload a) = recordingState a /\
  transports (broadcastWs payload a) = transports a /\ playback (broadcastWs payload a) = playback a /\
  pending (broadcastWs payload a) = pending a /\ wsConnections (broadcastWs payload a) = wsConnections a /\
  disk (broadcastWs payload a) = disk a /\
  sent (broadcastWs payload a) = sent a ++ ((λ c, (c, payload)) <$> elements (wsConnections a)).
Proof.
  unfold broadcastWs. generalize (elements (wsConnections a)) as l. intros l. revert a.
  induction l as [|c l IH]; intros a; cbn [foldl fmap list_fmap]; [by rewrite app_nil_r|].
  destruct (IH (send_text c payload a)) as (E1 & E2 & E3 & E4 & E5 & E6 & E7).
  rewrite E1, E2, E3, E4, E5, E6, E7. repeat split. cbn. by rewrite <- (assoc_L (++)).
Qed.

Lemma broadcastAll_frame frames a :
  recordingState (broadcastAll frames a) = recordingState a /\
  transports (broadcastAll frames a) = transports a /\ playback (broadcastAll frames a) = playback a /\
  pending (broadcastAll frames a) = pending a /\ wsConnections (broadcastAll frames a) = wsConnections a.
Proof.
  unfold broadcastAll. revert a. induction frames as [|f l IH]; intros a; [done|]. cbn [foldl].
  destruct (IH (broadcastWs f a)) as (-> & -> & -> & -> & ->).
  by destruct (broadcast_frame f a) as (-> & -> & -> & -> & -> & _).
Qed.

(** Republishing changes the transports only, and depends on them only. *)
Fixpoint publishAll (msgs : list (string * string)) (ts : list S) : option (list S) :=
  match msgs with
  | [] => Some ts
  | (topic, data) :: msgs =>
      ts ← match fst <$> list_find (λ t, topic ∈ topicNames t) ts with
           | None => Some ts
           | Some i => t ← ts !! i; t' ← publishFromJson (Callback := unit) topic data t; Some (<[i := t']> ts)
           end;
      publishAll msgs ts
  end.

Lemma foldl_None msgs : foldl (λ r m, a ← r; republish m.1 m.2 a) None msgs = None.
Proof. by induction msgs. Qed.

Lemma set_transports_eq a : set_transports (transports a) a = a.
Proof. by destruct a. Qed.

Lemma republishAll_transports msgs a :
  republishAll msgs a = (ts ← publishAll msgs (transports a); Some (set_transports ts a)).
Proof.
  unfold republishAll. revert a. induction msgs as [|[topic data] msgs IH]; intros a.
  { cbn. by rewrite set_transports_eq. }
  cbn [foldl publishAll]. rewrite bind_ret. unfold republish at 2, findTransport. cbn [fst snd].
  destruct (list_find _ _) as [[i t0]|]; cbn [fmap option_fmap option_map fst].
  - destruct (transports a !! i) as [t|]; [|by rewrite foldl_None]. rewrite !bind_ret.
    destruct (publishFromJson topic data t) as [t'|]; [|by rewrite foldl_None]. rewrite !bind_ret.
    rewrite IH. done.
  - rewrite bind_ret. apply IH.
Qed.

Lemma publishAll_app m1 m2 ts : publishAll (m1 ++ m2) ts = (ts' ← publishAll m1 ts; publishAll m2 ts').
Proof.
  revert ts. induction m1 as [|[topic data] m1 IH]; intros ts; [done|]. cbn [publishAll app].
  destruct (match _ with None => _ | Some _ => _ end) as [ts'|]; [|done]. rewrite !bind_ret. apply IH.
Qed.

Lemma resume_frame a a' :
  resume a = Some a' ->
  recordingState a' = recordingState a /\ transports a' = transports a /\
  playback a' = playback a /\ wsConnections a' = wsConnections a /\ pending a' = None.
Proof.
  unfold resume. destruct (PlaybackEngine.main (playback a)); try done.
  destruct (pending a) as [[]|]; try done; intros [= <-]; try done.
  all: match goal with |- context [broadcastWs ?f ?b] => destruct (broadcast_frame f b) as (E1 & E2 & E3 & E4 & E5 & _) end.
  all: exact (conj E1 (conj E2 (conj E3 (conj E5 E4)))).
Qed.

Lemma resume_ready a :
  PlaybackEngine.main (playback a) = PlaybackEngine.MIdle -> is_Some (pending a) -> is_Some (resume a).
Proof. intros Hm [p Hp]. unfold resume. rewrite Hm, Hp. by eexists. Qed.

(** What an action of the engine does, apart from the frames: it either goes
    through with its publications, or one of them has thrown. *)
Lemma engineStep_outcome act a a' :
  engineStep act a = Some a' ->
  recordingState a' = recordingState a /\ pending a' = pending a /\ wsConnections a' = wsConnections a /\
  ∃ e', engine_exec act (playback a) = Some e' /\
    let calls := (calls_made act (playback a) (PlaybackEngine.published (playback a)) (PlaybackEngine.published e')).*2 in
    (playback a' = e' /\ publishAll calls (transports a) = Some (transports a') \/
     engine_exec PlaybackEngine.PublishThrows (playback a) = Some (playback a') /\ transports a' = transports a /\
     publishAll calls (transports a) = None).
Proof.
  unfold engineStep. intros (e' & Ee & E)%bind_Some. rewrite republishAll_transports in E. cbn [transports set_playback] in E.
  destruct (publishAll _ (transports a)) as [ts|] eqn:Ets; cbn [mbind option_bind] in E.
  - injection E as <-. repeat match goal with |- context [broadcastAll ?f ?x] =>
      let E1 := fresh in let E2 := fresh in let E3 := fresh in let E4 := fresh in let E5 := fresh in
      destruct (broadcastAll_frame f x) as (E1 & E2 & E3 & E4 & E5); rewrite E1, E2, E3, E4, E5; clear E1 E2 E3 E4 E5 end.
    do 3 (split; [done|]). exists e'. split; [done|]. by left.
  - apply bind_Some in E as (e2 & E2 & [= <-]). do 3 (split; [done|]). exists e'. split; [done|]. by right.
Qed.

(** * What an action does to the transports *)

(** A relation that the transports' operations respect, every action respects. *)
Section related.
Context (R : S -> S -> Prop) `{!PreOrder R}.
Hypothesis (Hsub : ∀ topic t t', subscribe topic () t = Some t' -> R t t').
Hypothesis (Hunsub : ∀ topic t t', unsubscribe (Callback := unit) topic t = Some t' -> R t t').
Hypothesis (Hpub : ∀ topic json t t', publishFromJson (Callback := unit) topic json t = Some t' -> R t t').

Lemma related_insert i t t' (l : list S) : l !! i = Some t -> R t t' -> Forall2 R l (<[i := t']> l).
Proof.
  intros Hi Ht. revert i Hi. induction l as [|u l IH]; intros [|i] Hi; cbn in *; [done|done|..].
  - injection Hi as ->. by constructor.
  - constructor; [done|by apply IH].
Qed.

Lemma related_publishAll msgs : ∀ ts ts', publishAll msgs ts = Some ts' -> Forall2 R ts ts'.
Proof.
  induction msgs as [|[topic data] msgs IH]; intros ts ts' E; cbn [publishAll] in E; [by injection E as <-|].
  apply bind_Some in E as (ts1 & E1 & E). etrans; [|by apply IH].
  destruct (fst <$> list_find _ ts) as [i|]; [|by injection E1 as <-].
  apply bind_Some in E1 as (t & Ht & E1). apply bind_Some in E1 as (t' & Et & [= <-]).
  eapply related_insert; [done|]. by eapply Hpub.
Qed.

Lemma related_exec act a a' : exec act a = Some a' -> Forall2 R (transports a) (transports a').
Proof.
  assert (∀ b, transports b = transports a -> Forall2 R (transports a) (transports b)) as Hsame by (by intros b ->).
  destruct act as [topic json now|conn msg now opens|conn|conn|body|act| |]; cbn [exec]; intros E.
  - unfold onTransportMessage in E. apply bind_Some in E as (v & _ & [= <-]). apply Hsame.
    match goal with |- context [broadcastWs ?p ?b] => destruct (broadcast_frame p b) as (_ & -> & _) end.
    by destruct (recording a), (recFile a).
  - unfold handleWsMessage in E. destruct (json_load crow msg) as [j|]; [|by injection E as <-].
    apply bind_Some in E as (type & _ & E).
    repeat match type of E with (if ?c then _ else _) = _ => destruct c end.
    + apply bind_Some in E as (topic & _ & E). destruct (findTransport topic a); [|by injection E as <-].
      apply bind_Some in E as (t & Ht & E). apply bind_Some in E as (t' & Et & [= <-]).
      eapply related_insert; [done|]. by eapply Hsub.
    + apply bind_Some in E as (topic & _ & E). destruct (findTransport topic a); [|by injection E as <-].
      apply bind_Some in E as (t & Ht & E). apply bind_Some in E as (t' & Et & [= <-]).
      eapply related_insert; [done|]. by eapply Hunsub.
    + injection E as <-. apply Hsame. unfold startRecording. destruct (recording a), opens; done.
    + unfold stopRecording in E. destruct (recording a); injection E as <-; by apply Hsame.
    + unfold callEngine in E. destruct (pending a); [done|]. by apply bind_Some in E as (e & _ & [= <-]).
    + unfold callEngine in E. destruct (pending a); [done|]. by apply bind_Some in E as (e & _ & [= <-]).
    + by injection E as <-.
  - by injection E as <-.
  - by injection E as <-.
  - unfold loadRoute in E. destruct (String.eqb body ""); [by injection E as <-|].
    unfold callEngine in E. destruct (pending a); [done|]. by apply bind_Some in E as (e & _ & [= <-]).
  - destruct (internal act); [|done]. destruct (engineStep_outcome act a a' E) as (_ & _ & _ & e' & _ & [[_ Ets]|(_ & Ets & _)]).
    + by eapply related_publishAll.
    + by apply Hsame.
  - apply resume_frame in E as (_ & E & _). by apply Hsame.
  - unfold shutdown, callEngine in E. destruct (pending a); [done|]. by apply bind_Some in E as (e & _ & [= <-]).
Qed.
End related.

(** * Recording *)

(** The commands that start and stop a recording. *)
Definition record_command (act : Action) : bool :=
  match act with
  | WsMessage _ msg _ _ =>
      match json_load crow msg ≫= (λ j, str_field crow j "type") with
      | Some type => String.eqb type "record_start" || String.eqb type "record_stop"
      | None => false
      end
  | _ => false
  end.

(** The message of a transport, with the clock. *)
Definition message_of (act : Action) : option (string * Z * Val) :=
  match act with
  | TransportMessage topic json now => v ← json_load crow json; Some (topic, now, v)
  | _ => None
  end.

Definition line_of (m : string * Z * Val) : string := recordLine m.1.1 m.1.2 m.2.

(** While a recording is on, exactly the messages of the transports go to the
    file, one line each. *)
Lemma recording_step act a a' f l :
  exec act a = Some a' -> record_command act = false ->
  recording a = true -> recFile a = Some f -> disk a !! f = Some l ->
  recording a' = true /\ recFile a' = Some f /\ recFilename a' = recFilename a /\
  disk a' !! f = Some (l ++ option_list (line_of <$> message_of act)).
Proof.
  intros E Hc Hr Hf Hd.
  assert (∀ b, recordingState b = recordingState a -> message_of act = None ->
    recording b = true /\ recFile b = Some f /\ recFilename b = recFilename a /\
    disk b !! f = Some (l ++ option_list (line_of <$> message_of act))) as Hsame.
  { intros b [= -> -> -> ->] ->. cbn. rewrite app_nil_r. done. }
  destruct act as [topic json now|conn msg now opens|conn|conn|body|act| |]; cbn [exec] in E.
  - unfold onTransportMessage in E. apply bind_Some in E as (v & Ev & [= <-]). rewrite Hr, Hf. cbn [message_of].
    rewrite Ev, bind_ret. match goal with |- context [broadcastWs ?p ?b] => destruct (broadcast_frame p b) as (E1 & _) end.
    injection E1 as -> -> -> ->. cbn [recording recFile recFilename disk set_recording option_list fmap option_fmap option_map].
    unfold appendLine. rewrite lookup_insert_eq, Hd. done.
  - unfold handleWsMessage in E. cbn [record_command] in Hc. destruct (json_load crow msg) as [j|]; [|by injection E as <-; apply Hsame].
    rewrite bind_ret in Hc. apply bind_Some in E as (type & Et & E). rewrite Et in Hc.
    apply orb_false_iff in Hc as [Hc1 Hc2]. rewrite Hc1, Hc2 in E.
    destruct (String.eqb type "subscribe"); [|destruct (String.eqb type "unsubscribe");
      [|destruct (String.eqb type "playback_start"); [|destruct (String.eqb type "playback_stop")]]].
    + apply bind_Some in E as (topic & _ & E). destruct (findTransport topic a); [|by injection E as <-; apply Hsame].
      apply bind_Some in E as (t & _ & E). apply bind_Some in E as (t' & _ & [= <-]). by apply Hsame.
    + apply bind_Some in E as (topic & _ & E). destruct (findTransport topic a); [|by injection E as <-; apply Hsame].
      apply bind_Some in E as (t & _ & E). apply bind_Some in E as (t' & _ & [= <-]). by apply Hsame.
    + unfold callEngine in E. destruct (pending a); [done|]. apply bind_Some in E as (e & _ & [= <-]). by apply Hsame.
    + unfold callEngine in E. destruct (pending a); [done|]. apply bind_Some in E as (e & _ & [= <-]). by apply Hsame.
    + injection E as <-. by apply Hsame.
  - injection E as <-. by apply Hsame.
  - injection E as <-. by apply Hsame.
  - unfold loadRoute in E. destruct (String.eqb body ""); [injection E as <-; by apply Hsame|].
    unfold callEngine in E. destruct (pending a); [done|]. apply bind_Some in E as (e & _ & [= <-]). by apply Hsame.
  - destruct (internal act); [|done]. apply engineStep_outcome in E as (E & _). by apply Hsame.
  - apply resume_frame in E as (E & _). by apply Hsame.
  - unfold shutdown, callEngine in E. destruct (pending a); [done|]. apply bind_Some in E as (e & _ & [= <-]). by apply Hsame.
Qed.

Lemma recording_steps acts : ∀ a a' f l,
  Prelude.execs exec acts a = Some a' -> forallb (λ x, negb (record_command x)) acts = true ->
  recording a = true -> recFile a = Some f -> disk a !! f = Some l ->
  recording a' = true /\ recFile a' = Some f /\ recFilename a' = recFilename a /\
  disk a' !! f = Some (l ++ (line_of <$> omap message_of acts)).
Proof.
  induction acts as [|act acts IH]; intros a a' f l E Hc Hr Hf Hd.
  { injection E as <-. cbn. by rewrite app_nil_r. }
  cbn in E. apply bind_Some in E as (b & E1 & E). cbn in Hc. apply andb_true_iff in Hc as [Hc1 Hc2].
  apply negb_true_iff in Hc1.
  destruct (recording_step act a b f l E1 Hc1 Hr Hf Hd) as (Hr' & Hf' & Hn & Hd').
  destruct (IH b a' f _ E Hc2 Hr' Hf' Hd') as (? & ? & ? & Hd2). split; [done|]. split; [done|]. split; [congruence|].
  rewrite Hd2. cbn. destruct (message_of act); cbn; by rewrite <- ?(assoc_L (++)), ?app_nil_r.
Qed.

(** * Replaying *)

#[local] Abbreviation engine_execs := (Prelude.execs engine_exec).
Definition left_alone (act : PlaybackEngine.Action) : Prop :=
  act = PlaybackEngine.Worker \/ ∃ n, act = PlaybackEngine.Tick n.

Lemma engine_grows act e e' :
  left_alone act -> engine_exec act e = Some e' ->
  PlaybackEngine.published e `prefix_of` PlaybackEngine.published e' /\ PlaybackEngine.main e' = PlaybackEngine.main e.
Proof.
  intros [->|[n ->]] E; cbn in E.
  - split; [by eapply PlaybackEngine.playerStep_grows|]. by apply PlaybackEngine.playerStep_frame in E as (_ & _ & ? & _).
  - by injection E as <-.
Qed.

Lemma engines_grow acts : ∀ e e',
  Forall left_alone acts -> engine_execs acts e = Some e' -> PlaybackEngine.published e `prefix_of` PlaybackEngine.published e'.
Proof.
  induction acts as [|act acts IH]; intros e e' Hl E; cbn in E; [by injection E as <-|].
  apply Forall_cons_1 in Hl as [Hact Hl]. apply bind_Some in E as (e1 & E1 & E).
  destruct (engine_grows act e e1 Hact E1) as [Hp _]. etransitivity; [exact Hp|by eapply IH].
Qed.

(** The engine playing by itself republishes what it publishes. *)
Lemma engine_run acts : ∀ a e' ts,
  Forall left_alone acts -> engine_execs acts (playback a) = Some e' ->
  PlaybackEngine.main (playback a) = PlaybackEngine.MIdle ->
  publishAll (drop (length (PlaybackEngine.published (playback a))) (PlaybackEngine.published e')).*2 (transports a)
  = Some ts ->
  ∃ a', Prelude.execs exec (Engine <$> acts) a = Some a' /\ playback a' = e' /\ transports a' = ts /\
    pending a' = pending a.
Proof.
  induction acts as [|act acts IH]; intros a e' ts Hl E Hm Hts; cbn in E.
  { injection E as <-. rewrite drop_ge in Hts by done. injection Hts as <-. by exists a. }
  apply Forall_cons_1 in Hl as [Hact Hl]. apply bind_Some in E as (e1 & E1 & E).
  destruct (engine_grows act _ e1 Hact E1) as [[new Hnew] Hm1].
  destruct (engines_grow acts e1 e' Hl E) as [rest Hrest].
  rewrite Hrest, Hnew, <- (assoc_L (++)), drop_app_length, fmap_app, publishAll_app in Hts.
  apply bind_Some in Hts as (ts1 & Hts1 & Hts).
  assert (∃ c, engineStep act a = Some c /\ playback c = e1 /\ transports c = ts1 /\ pending c = pending a)
    as (c & Ec & Hc1 & Hc2 & Hc3).
  { assert (∀ X (x y : list X), calls_made act (playback a) x y = drop (length x) y) as Hcm.
    { intros X x y. unfold calls_made. rewrite Hm. by destruct act. }
    assert (is_Some (engineStep act a)) as [c Ec].
    { unfold engineStep. rewrite E1, bind_ret, republishAll_transports, !Hcm, Hnew, drop_app_length.
      cbn [transports set_playback]. rewrite Hts1, bind_ret. by eexists. }
    exists c. split; [done|]. destruct (engineStep_outcome act a c Ec) as (_ & Hp & _ & e2 & E2 & Hout).
    rewrite E1 in E2. injection E2 as <-. cbv zeta in Hout. rewrite !Hcm, Hnew, drop_app_length, Hts1 in Hout.
    destruct Hout as [[? [= <-]]|(_ & _ & ?)]; done. }
  destruct (IH c e' ts Hl) as (a' & Ea & Ha1 & Ha2 & Ha3); [by rewrite Hc1|by rewrite Hc1, Hm1| |].
  { by rewrite Hc1, Hrest, drop_app_length, Hc2. }
  exists a'. rewrite Ha3, Hc3. split; [|done]. cbn [fmap list_fmap Prelude.execs exec].
  assert (internal act = true) as -> by (by destruct Hact as [->|[n ->]]). by rewrite Ec, bind_ret.
Qed.

(** So it does when the rest of a handler comes at some point of its run. *)
Lemma engine_run_resumed r1 r2 a e' ts :
  Forall left_alone (r1 ++ r2) -> engine_execs (r1 ++ r2) (playback a) = Some e' ->
  PlaybackEngine.main (playback a) = PlaybackEngine.MIdle -> is_Some (pending a) ->
  publishAll (drop (length (PlaybackEngine.published (playback a))) (PlaybackEngine.published e')).*2 (transports a)
  = Some ts ->
  ∃ a', Prelude.execs exec ((Engine <$> r1) ++ Resume :: (Engine <$> r2)) a = Some a' /\ playback a' = e' /\ transports a' = ts.
Proof.
  intros [Hl1 Hl2]%Forall_app E Hm Hp Hts. rewrite execs_app in E. apply bind_Some in E as (e1 & E1 & E2).
  assert (PlaybackEngine.main e1 = PlaybackEngine.MIdle) as Hm1.
  { rewrite <- Hm. clear -E1 Hl1. revert E1. generalize (playback a) as e. induction Hl1 as [|act r1 Hact _ IH]; intros e E.
    { by injection E as <-. }
    cbn in E. apply bind_Some in E as (e2 & E2 & E). rewrite (IH _ E). by eapply engine_grows. }
  destruct (engines_grow _ _ _ Hl1 E1) as [n1 H1]. destruct (engines_grow _ _ _ Hl2 E2) as [n2 H2].
  rewrite H2, H1, <- (assoc_L (++)), drop_app_length, fmap_app, publishAll_app in Hts.
  apply bind_Some in Hts as (ts1 & Hts1 & Hts).
  destruct (engine_run r1 a e1 ts1 Hl1 E1 Hm) as (b & Eb & Hb1 & Hb2 & Hb3); [by rewrite H1, drop_app_length|].
  destruct (resume_ready b) as [c Ec]; [by rewrite Hb1|by rewrite Hb3|].
  pose proof (resume_frame b c Ec) as (_ & Hc2 & Hc1 & _).
  destruct (engine_run r2 c e' ts Hl2) as (a' & Ea & Ha1 & Ha2 & _);
    [by rewrite Hc1, Hb1|by rewrite Hc1, Hb1|by rewrite Hc1, Hc2, Hb1, Hb2, H2, drop_app_length|].
  exists a'. rewrite execs_app, Eb, bind_ret. cbn [Prelude.execs exec]. by rewrite Ec, bind_ret.
Qed.

(** An action in which the engine makes no calls. *)
Lemma engineStep_quiet act a e' :
  internal act = true -> engine_exec act (playback a) = Some e' ->
  calls_made act (playback a) (PlaybackEngine.published (playback a)) (PlaybackEngine.published e') = [] ->
  calls_made act (playback a) (PlaybackEngine.progress (playback a)) (PlaybackEngine.progress e') = [] ->
  calls_made act (playback a) (PlaybackEngine.completed (playback a)) (PlaybackEngine.completed e') = [] ->
  exec (Engine act) a = Some (set_playback e' (pending a) a).
Proof.
  intros Hi E H1 H2 H3. cbn [exec]. rewrite Hi. unfold engineStep. by rewrite E, bind_ret, H1, H2, H3.
Qed.

(** A recorded line is read back as the record it was made of. *)
Definition reads_back (m : string * Z * Val) : Prop :=
  (∃ r, json_load crow (line_of m) = Some r /\ str_field crow r "topic" = Some m.1.1 /\
     int_field crow r "timestamp_ms" = Some m.1.2 /\ field_text crow r "data" = Some (value_text crow m.2)) /\
  0 <= m.1.2 < 4611686018427387904 /\ line_of m <> ""%string /\ PlaybackEngine.no_newline (line_of m) = true.

(** The clock of a message, in the years up to 146 million. *)
Definition clock_ok (m : string * Z * Val) : Prop := 0 <= m.1.2 < 4611686018427387904.

Lemma line_reads_back `{!CrowLaws crow} m : clock_ok m -> reads_back m.
Proof.
  intros Hc. pose proof Hc as Hc'. unfold clock_ok in Hc'. unfold reads_back, line_of, recordLine.
  match goal with |- context [JObject ?l] => destruct (dump_line crow l) as [H1 H2];
    destruct (load_dump crow l) as (r & Er & Hr & _); [by apply (bool_decide_unpack _); vm_compute|] end.
  apply Forall_cons_1 in Hr as [Ht Hr]. apply Forall_cons_1 in Hr as [_ Hr].
  apply Forall_cons_1 in Hr as [Hn Hr]. apply Forall_cons_1 in Hr as [Hd _].
  split; [|done]. exists r. split; [done|]. split; [exact Ht|]. split; [apply Hn; lia|exact Hd].
Qed.

Definition replayed (m : string * Z * Val) : string * string := (m.1.1, value_text crow m.2).

#[local] Abbreviation timed := (PlaybackEngine.timed (json_load crow) (λ r, str_field crow r "topic") (λ r, field_text crow r "data")
    (λ r, int_field crow r "timestamp_ms")).

Lemma lines_timed l :
  Forall reads_back l -> (omap timed (line_of <$> l)).*2 = replayed <$> l.
Proof.
  induction 1 as [|m l [(r & E1 & E2 & E3 & E4) _] _ IH]; [done|].
  assert (timed (line_of m) = Some (m.1.2, replayed m)) as E.
  { unfold PlaybackEngine.timed, PlaybackEngine.message.
    by rewrite E1, !bind_ret, E3, !bind_ret, E2, !bind_ret, E4, !bind_ret. }
  change ((match timed (line_of m) with
           | Some y => y :: omap timed (line_of <$> l)
           | None => omap timed (line_of <$> l)
           end).*2 = replayed m :: (replayed <$> l)).
  rewrite E. change (replayed m :: (omap timed (line_of <$> l)).*2 = replayed m :: (replayed <$> l)).
  by rewrite IH.
Qed.

Lemma lines_good l :
  Forall reads_back l ->
  Forall (PlaybackEngine.good (json_load crow) (λ r, str_field crow r "topic") (λ r, field_text crow r "data")
    (λ r, int_field crow r "timestamp_ms")) (line_of <$> l).
Proof.
  intros Hl. apply Forall_fmap. eapply Forall_impl; [|exact Hl]. intros m [(r & E1 & E2 & E3 & E4) [Hts _]].
  right. by exists r, m.1.1, (value_text crow m.2), m.1.2.
Qed.

Lemma lines_load l :
  Forall reads_back l ->
  PlaybackEngine.recording_lines (PlaybackEngine.recording_body (line_of <$> l)) = line_of <$> l.
Proof.
  intros Hl. apply PlaybackEngine.recording_lines_body. apply Forall_fmap.
  eapply Forall_impl; [|exact Hl]. by intros m [_ (_ & ? & ?)].
Qed.

Definition command (msg type : string) : Prop := json_load crow msg ≫= (λ j, str_field crow j "type") = Some type.

Lemma command_json msg type :
  command msg type -> ∃ j, json_load crow msg = Some j /\ str_field crow j "type" = Some type.
Proof. intros (j & E1 & E2)%bind_Some. by exists j. Qed.

(** An action of the handler's thread inside the engine. *)
Lemma main_step e2 a :
  PlaybackEngine.mainStep (playback a) = Some e2 ->
  PlaybackEngine.published e2 = PlaybackEngine.published (playback a) ->
  PlaybackEngine.progress e2 = PlaybackEngine.progress (playback a) ->
  PlaybackEngine.completed e2 = PlaybackEngine.completed (playback a) ->
  (∀ p c, PlaybackEngine.main (playback a) <> PlaybackEngine.MStart p c) ->
  exec (Engine PlaybackEngine.Main) a = Some (set_playback e2 (pending a) a).
Proof.
  intros E P1 P2 P3 Hn.
  assert (∀ X (l : list X), calls_made PlaybackEngine.Main (playback a) l l = []) as Hcm.
  { intros X l. unfold calls_made. destruct (PlaybackEngine.main (playback a)) eqn:Em; try (by rewrite drop_ge).
    by destruct (Hn progress complete). }
  by apply engineStep_quiet; [..|rewrite P1|rewrite P2|rewrite P3].
Qed.

(** The handlers' calls up to the engine's own work: three actions of an engine
    without a thread. *)
Definition engine_at (e : PlaybackEngine.State) (m : PlaybackEngine.MainPc) : PlaybackEngine.State :=
  PlaybackEngine.mkState (PlaybackEngine.now e) (PlaybackEngine.stored e) true false None m
    (PlaybackEngine.published e) (PlaybackEngine.progress e) (PlaybackEngine.completed e).

Lemma stop_steps after p a :
  PlaybackEngine.main (playback a) = PlaybackEngine.MStopFlag after -> PlaybackEngine.thread (playback a) = None ->
  pending a = Some p -> PlaybackEngine.finished after <> PlaybackEngine.MIdle ->
  Prelude.execs exec (replicate 3 (Engine PlaybackEngine.Main)) a
    = Some (set_playback (engine_at (playback a) (PlaybackEngine.finished after)) (Some p) a) /\
  engine_execs (replicate 3 PlaybackEngine.Main) (playback a)
    = Some (engine_at (playback a) (PlaybackEngine.finished after)).
Proof.
  intros Hm Ht Hp Hf. set (e := playback a) in *.
  set (e1 := PlaybackEngine.mkState (PlaybackEngine.now e) (PlaybackEngine.stored e) true (PlaybackEngine.playing e) None
    (PlaybackEngine.MStopNotify after) (PlaybackEngine.published e) (PlaybackEngine.progress e) (PlaybackEngine.completed e)).
  set (e2 := PlaybackEngine.mkState (PlaybackEngine.now e) (PlaybackEngine.stored e) true (PlaybackEngine.playing e) None
    (PlaybackEngine.MStopJoin after) (PlaybackEngine.published e) (PlaybackEngine.progress e) (PlaybackEngine.completed e)).
  assert (PlaybackEngine.mainStep e = Some e1) as E1 by (unfold PlaybackEngine.mainStep; by rewrite Hm, Ht).
  assert (PlaybackEngine.mainStep e1 = Some e2) as E2 by done.
  assert (PlaybackEngine.mainStep e2 = Some (engine_at e (PlaybackEngine.finished after))) as E3 by done.
  split; [|cbn [replicate Prelude.execs engine_exec PlaybackEngine.exec]; by rewrite E1, bind_ret, E2, bind_ret, E3, bind_ret].
  cbn [replicate Prelude.execs].
  rewrite (main_step e1 a E1), bind_ret; [|done..|intros ??; fold e; by rewrite Hm].
  rewrite (main_step e2 (set_playback e1 _ _) E2), bind_ret by done.
  rewrite (main_step _ (set_playback e2 _ _) E3), bind_ret by done.
  cbn [pending set_playback]. rewrite Hp. reflexivity.
Qed.

(** Loading a non-empty recording into a fresh application. *)
Lemma upload_run body ts :
  body <> ""%string ->
  ∃ b, Prelude.execs exec (Upload body :: replicate 4 (Engine PlaybackEngine.Main) ++ [Resume]) (construct ts) = Some b /\
    transports b = ts /\ pending b = None /\
    playback b = PlaybackEngine.mkState 0 (PlaybackEngine.recording_lines body) true false None PlaybackEngine.MIdle [] [] [].
Proof.
  intros Hb.
  set (e := PlaybackEngine.set_main (PlaybackEngine.MStopFlag (PlaybackEngine.ALoad body)) PlaybackEngine.construct).
  set (a1 := set_playback e (Some AfterLoad) (construct ts)).
  assert (exec (Upload body) (construct ts) = Some a1) as E1.
  { cbn [exec]. unfold loadRoute. by rewrite (proj2 (String.eqb_neq _ _)). }
  destruct (stop_steps (PlaybackEngine.ALoad body) AfterLoad a1) as [E2 _]; try done.
  change (Upload body :: replicate 4 (Engine PlaybackEngine.Main) ++ [Resume])
    with ([Upload body] ++ replicate 3 (Engine PlaybackEngine.Main) ++ [Engine PlaybackEngine.Main; Resume]).
  set (a2 := set_playback _ _ _) in E2.
  set (e3 := PlaybackEngine.mkState 0 (PlaybackEngine.recording_lines body) true false None PlaybackEngine.MIdle [] [] []).
  assert (exec (Engine PlaybackEngine.Main) a2 = Some (set_playback e3 (Some AfterLoad) a2)) as E3
    by (by apply (main_step e3 a2)).
  destruct (resume_ready (set_playback e3 (Some AfterLoad) a2)) as [b Eb]; [done|by eexists|].
  exists b. rewrite execs_app. cbn [Prelude.execs]. rewrite E1, !bind_ret, execs_app, E2, bind_ret. cbn [Prelude.execs].
  rewrite E3, bind_ret. cbn [exec]. rewrite Eb, bind_ret. split; [done|].
  by destruct (resume_frame _ _ Eb) as (_ & -> & -> & _ & ->).
Qed.

(** Starting the replay, up to the engine's own start. *)
Lemma start_run conn msg now opens b :
  command msg "playback_start" -> pending b = None -> PlaybackEngine.main (playback b) = PlaybackEngine.MIdle ->
  PlaybackEngine.thread (playback b) = None ->
  ∃ c, Prelude.execs exec (WsMessage conn msg now opens :: replicate 3 (Engine PlaybackEngine.Main)) b = Some c /\
    engine_execs (PlaybackEngine.Start true true :: replicate 3 PlaybackEngine.Main) (playback b)
      = Some (playback c) /\
    transports c = transports b /\ pending c = Some AfterStart /\
    playback c = engine_at (playback b) (PlaybackEngine.MStart true true).
Proof.
  intros Hc Hp Hm Ht. destruct (command_json msg _ Hc) as (j & E1 & E2).
  set (e := PlaybackEngine.set_main (PlaybackEngine.MStopFlag (PlaybackEngine.AStart true true)) (playback b)).
  set (a1 := set_playback e (Some AfterStart) b).
  assert (engine_exec (PlaybackEngine.Start true true) (playback b) = Some e) as Ee
    by (unfold engine_exec, PlaybackEngine.exec, PlaybackEngine.call; by rewrite Hm).
  assert (exec (WsMessage conn msg now opens) b = Some a1) as E3.
  { cbn [exec]. unfold handleWsMessage. rewrite E1, E2, bind_ret.
    cbn [String.eqb Ascii.eqb Bool.eqb]. unfold callEngine. by rewrite Hp, Ee. }
  destruct (stop_steps (PlaybackEngine.AStart true true) AfterStart a1) as [E4 E5]; try done.
  eexists. cbn [Prelude.execs]. rewrite E3, bind_ret. split; [exact E4|].
  rewrite Ee, bind_ret. split; [exact E5|]. by repeat split.
Qed.

(** The engine's run from there. *)
Lemma replay_started l a1 a2 :
  Forall reads_back l ->
  playback a1 = PlaybackEngine.mkState 0 (line_of <$> l) true false None PlaybackEngine.MIdle [] [] [] ->
  engine_execs (PlaybackEngine.Start true true :: replicate 3 PlaybackEngine.Main) (playback a1) = Some (playback a2) ->
  l <> [] -> playback a2 = engine_at (playback a1) (PlaybackEngine.MStart true true) ->
  ∃ acts e', Forall left_alone acts /\ engine_execs (PlaybackEngine.Main :: acts) (playback a2) = Some e' /\
    (PlaybackEngine.published e').*2 = replayed <$> l /\ PlaybackEngine.completed e' = [false] /\
    PlaybackEngine.playing e' = false.
Proof.
  intros Hl Hpb1 Ee Hne Hpb2. set (body := PlaybackEngine.recording_body (line_of <$> l)).
  assert (Prelude.reachable engine_exec PlaybackEngine.construct (playback a2)) as Hr.
  { apply execs_reachable with (l := (PlaybackEngine.Load body :: replicate 4 PlaybackEngine.Main) ++
      PlaybackEngine.Start true true :: replicate 3 PlaybackEngine.Main) (s := PlaybackEngine.construct); [apply reachable_init|].
    rewrite execs_app.
    assert (engine_execs (PlaybackEngine.Load body :: replicate 4 PlaybackEngine.Main) PlaybackEngine.construct
      = Some (PlaybackEngine.mkState 0 (PlaybackEngine.recording_lines body) true false None PlaybackEngine.MIdle [] [] []))
      as -> by reflexivity.
    rewrite bind_ret. unfold body. rewrite lines_load by done. by rewrite <- Hpb1. }
  destruct (PlaybackEngine.replay_completes (json_load crow) (λ r, str_field crow r "topic") (λ r, field_text crow r "data")
    (λ r, int_field crow r "timestamp_ms") (playback a2) true (line_of <$> l) Hr) as (acts & e' & Hacts & Ea & Hpub & Hcom & Hpl).
  { by rewrite Hpb2. }
  { by rewrite Hpb2, Hpb1. }
  { by destruct l. }
  { by apply lines_good. }
  rewrite lines_timed in Hpub by done. by exists acts, e'.
Qed.

(** A fresh application to which a recording is uploaded and that is told to
    play it publishes its messages, in order, each on the transport of its topic,
    wherever in the replay the command's handler goes on. *)
Lemma replay_run l ts ts' conn msg now opens :
  Forall reads_back l -> l <> [] -> command msg "playback_start" ->
  publishAll (replayed <$> l) ts = Some ts' ->
  ∃ acts, Forall left_alone acts /\ ∀ r1 r2, acts = r1 ++ r2 ->
    ∃ b, Prelude.execs exec
      (Upload (PlaybackEngine.recording_body (line_of <$> l)) :: replicate 4 (Engine PlaybackEngine.Main) ++ Resume ::
       WsMessage conn msg now opens :: replicate 4 (Engine PlaybackEngine.Main) ++
       (Engine <$> r1) ++ Resume :: (Engine <$> r2)) (construct ts)
      = Some b /\
    transports b = ts' /\ PlaybackEngine.completed (playback b) = [false] /\ PlaybackEngine.playing (playback b) = false.
Proof.
  intros Hl Hne Hc Hts. set (body := PlaybackEngine.recording_body (line_of <$> l)).
  assert (body <> ""%string) as Hbody.
  { unfold body. destruct Hl as [|m l [_ (_ & Hm & _)] Hl]; [done|]. cbn. by destruct (line_of m). }
  destruct (upload_run body ts Hbody) as (a1 & E1 & Ht1 & Hp1 & Hpb1).
  unfold body in Hpb1. rewrite lines_load in Hpb1 by done.
  destruct (start_run conn msg now opens a1 Hc Hp1) as (a2 & E2 & Ee & Ht2 & Hp2 & Hpb2); [by rewrite Hpb1..|].
  destruct (replay_started l a1 a2 Hl Hpb1 Ee) as (acts & e' & Hacts & Ea & Hpub & Hcom & Hpl); [by destruct l|done|].
  cbn [Prelude.execs] in Ea. apply bind_Some in Ea as (e3 & E3 & Ea).
  assert (PlaybackEngine.published e3 = [] /\ PlaybackEngine.progress e3 = [] /\ PlaybackEngine.completed e3 = [] /\
    PlaybackEngine.main e3 = PlaybackEngine.MIdle) as (P1 & P2 & P3 & Hm3).
  { rewrite Hpb2, Hpb1 in E3. cbn [PlaybackEngine.exec] in E3. unfold PlaybackEngine.mainStep, engine_at in E3.
    cbn [PlaybackEngine.main PlaybackEngine.stored] in E3.
    destruct (line_of <$> l) as [|x xs] eqn:El; [by destruct l|]. by injection E3 as <-. }
  set (a3 := set_playback e3 (pending a2) a2).
  assert (exec (Engine PlaybackEngine.Main) a2 = Some a3) as E4.
  { apply engineStep_quiet; [done|exact E3|..]; unfold calls_made; by rewrite Hpb2, ?P1, ?P2, ?P3. }
  exists acts. split; [exact Hacts|]. intros r1 r2 ->.
  destruct (engine_run_resumed r1 r2 a3 e' ts') as (b & Eb & Hbe & Hbt); [done|exact Ea|done|by eexists; exact Hp2| |].
  { cbn [playback set_playback transports a3]. rewrite P1, Ht2, Ht1. cbn [length]. by rewrite drop_0, Hpub. }
  exists b. split; [|rewrite Hbe; by split_and!].
  change (Upload body :: replicate 4 (Engine PlaybackEngine.Main) ++ Resume :: ?y)
    with ((Upload body :: replicate 4 (Engine PlaybackEngine.Main) ++ [Resume]) ++ y).
  rewrite execs_app, E1, bind_ret.
  change (WsMessage conn msg now opens :: replicate 4 (Engine PlaybackEngine.Main) ++ ?y)
    with ((WsMessage conn msg now opens :: replicate 3 (Engine PlaybackEngine.Main)) ++ Engine PlaybackEngine.Main :: y).
  rewrite execs_app, E2, bind_ret. cbn [Prelude.execs]. by rewrite E4, bind_ret.
Qed.

Lemma record_start_step conn msg now a :
  command msg "record_start" -> recording a = false ->
  exec (WsMessage conn msg now true) a
  = Some (send_text conn (dump crow (JObject [("type", JString "recording_started")]%string))
      (set_recording true (Some (recordingName now)) (recordingName now) (<[recordingName now := []]> (disk a)) a)).
Proof.
  intros Hc Hr. destruct (command_json msg _ Hc) as (j & E1 & E2). cbn [exec]. unfold handleWsMessage.
  rewrite E1, E2, bind_ret. cbn [String.eqb Ascii.eqb Bool.eqb]. unfold startRecording. by rewrite Hr.
Qed.

Lemma record_stop_step conn msg now opens a :
  command msg "record_stop" ->
  ∃ a', exec (WsMessage conn msg now opens) a = Some a' /\ disk a' = disk a /\ recording a' = false.
Proof.
  intros Hc. destruct (command_json msg _ Hc) as (j & E1 & E2). cbn [exec]. unfold handleWsMessage.
  rewrite E1, E2, bind_ret. cbn [String.eqb Ascii.eqb Bool.eqb]. unfold stopRecording.
  destruct (recording a) eqn:Er; eexists; split; [reflexivity|done|reflexivity|done].
Qed.

End app.

(** * Properties *)

Section properties.
Context {Val S : Type} (crow : Crow Val) `{ITransport S unit}.

(** C4: what is recorded is replayed.  Between record_start and record_stop,
    whatever else the clients, the transports and the engine do meanwhile, the
    file receives one line per message of a transport; uploaded to another
    application and played there, every message is published again, in order,
    each once and on the first transport that has its topic, and the completion
    callback is called with "not stopped", wherever in the replay the handler of
    the command goes on.  Of crow's JSON this uses that a dumped object loads as
    one with the fields set, and no other.  The messages' clocks count from the
    epoch, and no publication throws. *)
Theorem app_record_replay `{!CrowLaws crow} (a a' : App (S := S)) c1 m1 now1 acts c2 m2 now2 o2 (ts ts' : list S)
    c3 m3 now3 o3 :
  let recorded := omap (message_of crow) acts in
  let file := default [] (disk a' !! recordingName now1) in
  recording a = false -> command crow m1 "record_start" -> command crow m2 "record_stop" ->
  Prelude.execs (exec crow) (WsMessage c1 m1 now1 true :: acts ++ [WsMessage c2 m2 now2 o2]) a = Some a' ->
  forallb (λ x, negb (record_command crow x)) acts = true ->
  recorded <> [] -> Forall clock_ok recorded ->
  command crow m3 "playback_start" -> publishAll (replayed crow <$> recorded) ts = Some ts' ->
  file = line_of crow <$> recorded /\
  ∃ run, Forall left_alone run /\ ∀ r1 r2, run = r1 ++ r2 ->
    ∃ b, Prelude.execs (exec crow)
      (Upload (PlaybackEngine.recording_body file) :: replicate 4 (Engine PlaybackEngine.Main) ++ Resume ::
       WsMessage c3 m3 now3 o3 :: replicate 4 (Engine PlaybackEngine.Main) ++
       (Engine <$> r1) ++ Resume :: (Engine <$> r2)) (construct ts)
    = Some b /\
    transports b = ts' /\ PlaybackEngine.completed (playback b) = [false].
Proof.
  intros recorded file Hr Hc1 Hc2 E Hacts Hne Hclock Hc3 Hts.
  cbn [Prelude.execs] in E. rewrite record_start_step, bind_ret, execs_app in E by done.
  apply bind_Some in E as (b & E1 & E2).
  destruct (recording_steps crow acts _ b (recordingName now1) [] E1 Hacts) as (_ & _ & _ & Hd); [done|done|apply lookup_insert_eq|].
  destruct (record_stop_step crow c2 m2 now2 o2 b Hc2) as (b' & E3 & Hd' & _).
  cbn [Prelude.execs] in E2. rewrite E3, bind_ret in E2. injection E2 as ->.
  assert (file = line_of crow <$> recorded) as Hfile by (unfold file; by rewrite Hd', Hd).
  split; [exact Hfile|]. rewrite Hfile.
  assert (Forall (reads_back crow) recorded) as Hrb.
  { eapply Forall_impl; [|exact Hclock]. intros m. by apply line_reads_back. }
  destruct (replay_run crow recorded ts ts' c3 m3 now3 o3 Hrb Hne Hc3 Hts) as (run & H1 & H2).
  exists run. split; [done|]. intros r1 r2 Hrun. destruct (H2 r1 r2 Hrun) as (x & ? & ? & ? & _). by exists x.
Qed.

(** Two recordings started in the same second share their file name: the
    second start empties the file the first recording was written to. *)
Theorem app_recording_overwritten (a a1 a2 : App (S := S)) c1 m1 now1 acts c2 m2 now2 o2 c3 m3 now3 a3 :
  recording a = false -> command crow m1 "record_start" -> command crow m2 "record_stop" ->
  command crow m3 "record_start" ->
  Prelude.execs (exec crow) (WsMessage c1 m1 now1 true :: acts) a = Some a1 ->
  forallb (λ x, negb (record_command crow x)) acts = true ->
  exec crow (WsMessage c2 m2 now2 o2) a1 = Some a2 -> now3 / 1000 = now1 / 1000 ->
  exec crow (WsMessage c3 m3 now3 true) a2 = Some a3 ->
  disk a2 !! recordingName now1 = Some (line_of crow <$> omap (message_of crow) acts) /\
  disk a3 !! recordingName now1 = Some [].
Proof.
  intros Hr Hc1 Hc2 Hc3 E Hacts E2 Hnow E3.
  cbn [Prelude.execs] in E. rewrite record_start_step, bind_ret in E by done.
  destruct (recording_steps crow acts _ a1 (recordingName now1) [] E Hacts) as (_ & _ & _ & Hd); [done|done|apply lookup_insert_eq|].
  destruct (record_stop_step crow c2 m2 now2 o2 a1 Hc2) as (b' & E4 & Hd' & Hr'). rewrite E2 in E4. injection E4 as <-.
  rewrite record_start_step in E3 by done. injection E3 as <-.
  split; [by rewrite Hd', Hd|]. assert (recordingName now3 = recordingName now1) as -> by (unfold recordingName; by rewrite Hnow).
  apply lookup_insert_eq.
Qed.


(** C29: the commands subscribe and unsubscribe act on the first transport that
    has the topic and on nothing else: they always return, leave every other
    transport as it was and, on the one found, every other topic; the client
    that asked, and only it, is sent the new list of topics. *)
Theorem app_subscription_routes (ok : S -> Prop) `{!TransportLaws S unit ok} (on : bool) (a : App (S := S))
    conn msg now opens j topic :
  Forall ok (transports a) -> json_load crow msg = Some j ->
  str_field crow j "type" = Some (if on then "subscribe" else "unsubscribe")%string ->
  str_field crow j "topic" = Some topic ->
  ∃ a', exec crow (WsMessage conn msg now opens) a = Some a' /\ Forall ok (transports a') /\
    sent a' = sent a ++ [(conn, topicList crow a')] /\
    match findTransport topic a with
    | None => transports a' = transports a /\ Forall (λ t, topic ∉ topicNames t) (transports a)
    | Some i => ∃ t t', transports a !! i = Some t /\ topic ∈ topicNames t /\
        (∀ k u, (k < i)%nat -> transports a !! k = Some u -> topic ∉ topicNames u) /\
        transports a' = <[i := t']> (transports a) /\ isSubscribed topic t' = on /\
        topicNames t' = topicNames t /\ (∀ s, s <> topic -> isSubscribed s t' = isSubscribed s t)
    end.
Proof.
  intros Hok Ej Et Etop. cbn [exec]. unfold handleWsMessage. rewrite Ej, Et, bind_ret.
  unfold findTransport.
  destruct (list_find (λ t, topic ∈ topicNames t) (transports a)) as [[i t]|] eqn:Ef.
  - pose proof Ef as (Hi & Htop & Hfirst)%list_find_Some. cbn [fmap option_fmap option_map fst].
    assert (ok t) as Hokt by (eapply Forall_lookup_1; [exact Hok|exact Hi]).
    assert (∃ t', (if on then subscribe topic () t else unsubscribe (Callback := unit) topic t) = Some t' /\ ok t' /\
      isSubscribed topic t' = on /\ topicNames t' = topicNames t /\ (∀ s, s <> topic -> isSubscribed s t' = isSubscribed s t))
      as (t' & E & Hok' & H1 & H2 & H3).
    { destruct on.
      - destruct (subscribe_ok t topic () Hokt) as (t' & E & Hok' & _ & H2 & H1 & H3). exists t'. auto 10.
      - destruct (unsubscribe_ok (Callback := unit) t topic Hokt) as (t' & E & Hok' & _ & H2 & H1 & H3). by exists t'. }
    eexists. split.
    { destruct on; cbn [String.eqb Ascii.eqb Bool.eqb]; rewrite Etop, bind_ret, Ef; cbn [fmap option_fmap option_map fst];
        rewrite Hi, bind_ret, E, bind_ret; reflexivity. }
    split; [by apply Forall_insert|]. split; [done|]. exists t, t'. split; [done|]. split; [done|].
    split; [intros k u Hk Hu; by eapply Hfirst|]. by split_and!.
  - pose proof Ef as Hnone%list_find_None. exists (sendTopicList crow conn a).
    split; [destruct on; cbn [String.eqb Ascii.eqb Bool.eqb]; by rewrite Etop, bind_ret, Ef|]. by split_and!.
Qed.
End properties.

(** * Witnesses

    A transport that records what is published on its one topic, and texts of
    one character that stand for the JSON the application exchanges. *)

#[export] Instance log_transport : ITransport (string * list string) unit := {
  name t := "Log"%string;
  topicNames t := [t.1];
  subscribe topic _ t := Some t;
  unsubscribe topic t := Some t;
  isSubscribed topic t := false;
  publishFromJson topic data t := Some (t.1, t.2 ++ [data]);
}.

(** A JSON library that keeps the laws: an object is dumped to the digits of its
    number among all objects; a text that is no such number stands for itself. *)
Inductive Field : Type := FString (s : string) | FNumber (z : Z) | FValue (text : string).
Definition Fields : Type := list (string * Field).

#[export] Instance Field_eq_dec : EqDecision Field.
Proof. solve_decision. Defined.

#[export] Instance Field_countable : Countable Field.
Proof.
  refine (inj_countable'
    (λ f, match f with FString s => inl s | FNumber z => inr (inl z) | FValue s => inr (inr s) end)
    (λ x : string + (Z + string), match x with inl s => FString s | inr (inl z) => FNumber z | inr (inr s) => FValue s end) _).
  by intros [].
Defined.

Fixpoint digits (p : positive) : string :=
  match p with
  | xH => "."
  | xO p => String "0" (digits p)
  | xI p => String "1" (digits p)
  end%string.

Fixpoint number (s : string) : option positive :=
  match s with
  | String "." EmptyString => Some xH
  | String "0" s => xO <$> number s
  | String "1" s => xI <$> number s
  | _ => None
  end.

Lemma number_digits p : number (digits p) = Some p.
Proof. induction p as [p IH|p IH|]; cbn; by rewrite ?IH. Qed.

Definition text_of (v : Fields) : string :=
  match v with [("text", FValue s)] => s | _ => digits (encode v) end%string.
Definition field_of (j : Json Fields) : Field :=
  match j with JString s => FString s | JNumber z => FNumber z | JLoaded v => FValue (text_of v) | _ => FValue "" end.
Definition field (v : Fields) (k : string) : option Field := (list_to_map v : gmap string Field) !! k.

Definition text_crow : Crow Fields := {|
  json_load s := Some (default [("text", FValue s)]%string (number s ≫= decode));
  str_field v k := match field v k with Some (FString s) => Some s | _ => None end;
  int_field v k := match field v k with Some (FNumber z) => Some z | _ => None end;
  field_text v k := match field v k with Some (FValue s) => Some s | _ => None end;
  value_text := text_of;
  dump j := match j with JObject l => digits (encode (prod_map id field_of <$> l)) | _ => "." end%string;
|}.

#[export] Instance text_crow_laws : CrowLaws text_crow.
Proof.
  split.
  - intros l. cbn [dump text_crow]. generalize (encode (prod_map id field_of <$> l)) as p. intros p.
    split; [by destruct p|]. induction p as [p IH|p IH|]; cbn; done.
  - intros l Hl. exists (prod_map id field_of <$> l). cbn [json_load dump text_crow].
    rewrite number_digits, bind_ret, decode_encode. split; [done|].
    assert ((prod_map id field_of <$> l).*1 = l.*1) as Hk by (rewrite <- list_fmap_compose; by apply list_fmap_ext).
    split.
    + apply Forall_forall. intros [k j] Hin%list_elem_of_In. unfold field_kept. cbn [fst snd].
      assert (field (prod_map id field_of <$> l) k = Some (field_of j)) as Hf.
      { apply elem_of_list_to_map_1; [by rewrite Hk|]. apply list_elem_of_fmap. by exists (k, j). }
      destruct j; try done; cbn [str_field int_field field_text text_crow]; by rewrite Hf.
    + intros k Hnk. assert (field (prod_map id field_of <$> l) k = None) as Hf
        by (apply not_elem_of_list_to_map_1; by rewrite Hk).
      cbn [str_field int_field field_text text_crow]. by rewrite Hf.
Qed.

(** The text of a command. *)
Definition w_command (l : list (string * string)) : string :=
  dump text_crow (JObject ((λ f, (f.1, JString f.2)) <$> l)).
Definition w_type (type : string) : string := w_command [("type", type)]%string.

Definition w_acts : list Action :=
  [Open 1; TransportMessage "a" "x" 7; Close 1; TransportMessage "b" "y" 9]%string.

Definition w_app : App (S := string * list string) := construct [].
Definition w_end : App (S := string * list string) :=
  default w_app (Prelude.execs (exec text_crow)
    (WsMessage 1 (w_type "record_start") 7 true :: w_acts ++ [WsMessage 1 (w_type "record_stop") 10 true])%string w_app).
Definition w_transports (x y : list string) : list (string * list string) := [("b", y); ("a", x)]%string.

Lemma w_end_reached :
  Prelude.execs (exec text_crow)
    (WsMessage 1 (w_type "record_start") 7 true :: w_acts ++ [WsMessage 1 (w_type "record_stop") 10 true])%string w_app = Some w_end.
Proof. vm_compute. reflexivity. Qed.

Lemma app_record_replay_witness :
  default [] (disk w_end !! recordingName 7) = line_of text_crow <$> omap (message_of text_crow) w_acts /\
  ∃ run, Forall left_alone run /\ ∀ r1 r2, run = r1 ++ r2 ->
    ∃ b, Prelude.execs (exec text_crow)
      (Upload (PlaybackEngine.recording_body (default [] (disk w_end !! recordingName 7))) ::
       replicate 4 (Engine PlaybackEngine.Main) ++ Resume ::
       WsMessage 2 (w_type "playback_start") 20 true :: replicate 4 (Engine PlaybackEngine.Main) ++
       (Engine <$> r1) ++ Resume :: (Engine <$> r2))
      (construct (w_transports [] [])) = Some b /\
    transports b = w_transports ["x"%string] ["y"%string] /\ PlaybackEngine.completed (playback b) = [false].
Proof.
  apply (app_record_replay text_crow w_app w_end 1 (w_type "record_start") 7 w_acts 1 (w_type "record_stop") 10 true
    (w_transports [] []) (w_transports ["x"%string] ["y"%string]) 2 (w_type "playback_start") 20 true).
  - done.
  - by vm_compute.
  - by vm_compute.
  - exact w_end_reached.
  - by vm_compute.
  - done.
  - by repeat constructor.
  - by vm_compute.
  - by vm_compute.
Defined.

(** The first recording is gone after a second start within the second. *)
Definition w_stopped : App (S := string * list string) := w_end.
Definition w_recording : App (S := string * list string) :=
  default w_app (Prelude.execs (exec text_crow) (WsMessage 1 (w_type "record_start") 7 true :: w_acts)%string w_app).
Definition w_again : App (S := string * list string) :=
  default w_app (exec text_crow (WsMessage 1 (w_type "record_start") 999 true)%string w_end).

Lemma w_recording_reached :
  Prelude.execs (exec text_crow) (WsMessage 1 (w_type "record_start") 7 true :: w_acts)%string w_app = Some w_recording.
Proof. vm_compute. reflexivity. Qed.
Lemma w_stopped_reached : exec text_crow (WsMessage 1 (w_type "record_stop") 10 true)%string w_recording = Some w_stopped.
Proof. vm_compute. reflexivity. Qed.
Lemma w_again_reached : exec text_crow (WsMessage 1 (w_type "record_start") 999 true)%string w_stopped = Some w_again.
Proof. vm_compute. reflexivity. Qed.

Lemma app_recording_overwritten_witness :
  disk w_stopped !! recordingName 7 = Some (line_of text_crow <$> omap (message_of text_crow) w_acts) /\
  disk w_again !! recordingName 7 = Some [].
Proof.
  apply (app_recording_overwritten text_crow w_app w_recording w_stopped 1 (w_type "record_start") 7 w_acts 1 (w_type "record_stop") 10 true
    1 (w_type "record_start") 999 w_again);
    [reflexivity|reflexivity|reflexivity|reflexivity|exact w_recording_reached|vm_compute; reflexivity
    |exact w_stopped_reached|reflexivity|exact w_again_reached].
Defined.

(** The two transports of the program. *)
Definition Transports : Type := TransportDds.TransportDds Z Z unit + TransportZyre.TransportZyre unit.
#[local] Instance w_dds : ITransport (TransportDds.TransportDds Z Z unit) unit :=
  TransportDds.dds_transport TransportDds.w_helpers [] [].
#[local] Instance w_dds_laws : TransportLaws (TransportDds.TransportDds Z Z unit) unit TransportDds.ok :=
  TransportDds.dds_laws TransportDds.w_helpers [] [].
#[local] Instance w_zyre : ITransport (TransportZyre.TransportZyre unit) unit :=
  @TransportZyre.zyre_transport _ TransportZyre.text_protobuf unit.
#[local] Instance w_zyre_laws : TransportLaws (TransportZyre.TransportZyre unit) unit (λ _, True) :=
  @TransportZyre.zyre_laws _ TransportZyre.text_protobuf unit.
#[local] Instance w_transport : ITransport Transports unit := sum_transport.
Definition w_ok (t : Transports) : Prop := match t with inl d => TransportDds.ok d | inr z => True end.
#[local] Instance w_laws : TransportLaws Transports unit w_ok := sum_laws.

Definition w_new_dds : TransportDds.TransportDds Z Z unit :=
  match TransportDds.construct 0 with
  | inr s => s
  | inl _ => TransportDds.mkTransportDds 0 ∅ (Dds.DDSPublisher.construct 0 Dds.w_entry)
      (Dds.DDSPublisher.construct 0 Dds.w_entry) (Dds.DDSSubscriber.construct 0 Dds.w_entry)
      (Dds.DDSSubscriber.construct 0 Dds.w_entry) ∅
  end.
Lemma w_new_dds_ok : TransportDds.ok w_new_dds.
Proof. apply (TransportDds.transport_ok_construct 0). vm_compute. reflexivity. Qed.

Definition w_program : App (S := Transports) :=
  construct [inl w_new_dds; inr (TransportZyre.construct (λ a : unit, None) true true 0 0 "TestZyre")].

Definition w_browser : Crow (string * string) := {|
  json_load s := Some ("subscribe", s)%string;
  str_field v k := Some (if String.eqb k "type" then v.1 else v.2);
  int_field v k := None;
  field_text v k := None;
  value_text v := ""%string;
  dump j := ""%string;
|}.

(** "SensorReading" is the second transport's: Zyre gets the subscription. *)
Lemma app_subscription_routes_witness :
  findTransport "SensorReading" w_program = Some 1%nat /\
  ∃ a', exec w_browser (WsMessage 4 "SensorReading" 0 true) w_program = Some a' /\ Forall w_ok (transports a') /\
    sent a' = sent w_program ++ [(4%nat, topicList w_browser a')] /\
    match findTransport "SensorReading" w_program with
    | None => transports a' = transports w_program /\
        Forall (λ t, "SensorReading"%string ∉ topicNames t) (transports w_program)
    | Some i => ∃ t t', transports w_program !! i = Some t /\ "SensorReading"%string ∈ topicNames t /\
        (∀ k u, (k < i)%nat -> transports w_program !! k = Some u -> "SensorReading"%string ∉ topicNames u) /\
        transports a' = <[i := t']> (transports w_program) /\ isSubscribed "SensorReading" t' = true /\
        topicNames t' = topicNames t /\
        (∀ s, s <> "SensorReading"%string -> isSubscribed s t' = isSubscribed s t)
    end.
Proof.
  split; [vm_compute; reflexivity|].
  apply (app_subscription_routes w_browser w_ok true w_program 4 "SensorReading" 0 true ("subscribe", "SensorReading")%string
    "SensorReading"); [|reflexivity|reflexivity|reflexivity].
  constructor; [apply w_new_dds_ok|constructor; [exact I|constructor]].
Defined.
