(* ===== verification/OmniscopeMain.v ===== *)
(** The Omniscope program: src/src/apps/Omniscope/main.cpp with the run() of
    OmniscopeApp.cpp, the two transports of the program (TransportDds.v,
    TransportZyre.v) plugged into the application (OmniscopeApp.v).

    [exec] adds to the application's actions those of the threads the transports
    own, which hand what they receive to the application's callback.  crow's
    server, which calls the application's handlers, is left to the environment. *)

From Stdlib Require Import Ascii String SpecFloat.
From S2P Require Import Prelude GeneralLogger Programs Zyre ProtoTopics ITransport.
From S2P Require TransportDds TransportZyre PlaybackEngine OmniscopeApp.
Import OmniscopeApp(App, Crow, JObject, JString, JLoaded).

(** * The command line *)

Record Config : Type := mkConfig { domainId : Z; httpPort : Z; zyreNamespace : string }.

(** [None]: std::stoul throws. *)
Definition parseArgs (argv : list string) : option Config :=
  d ← match argv !! 1%nat with Some a => v ← stoul a; Some (u32 v) | None => Some 0 end;
  p ← match argv !! 2%nat with Some a => v ← stoul a; Some (u16 v) | None => Some 8080 end;
  Some (mkConfig d p (default "TestZyre"%string (argv !! 3%nat))).

Section program.
Context {Val Sensor Track Rec Message Addr : Type} (crow : Crow Val) (J : TransportDds.JsonHelpers Sensor Track Rec).
Context `{Protobuf Message} (inet_ntop : Addr -> option string).
(** What zyre_new and zyre_start return, and what a DDS reader takes if it takes
    once more while it is stopped. *)
Context (sub_new pub_new : bool) (sub_start pub_start : Z) (lateS : list (bool * Sensor)) (lateT : list (bool * Track)).

Abbreviation Dds := (TransportDds.TransportDds Sensor Track unit).
Abbreviation Zyre := (TransportZyre.TransportZyre unit).
Definition Transport : Type := Dds + Zyre.

#[local] Instance dds : ITransport Dds unit := TransportDds.dds_transport J lateS lateT.
#[local] Instance zyre : ITransport Zyre unit := TransportZyre.zyre_transport.
#[local] Instance transport : ITransport Transport unit := sum_transport.

#[local] Abbreviation Application := (App (S := Transport)).

(** main() up to run(); the left side is an exception. *)
Definition setup (c : Config) : string + Application :=
  match TransportDds.construct (domainId c) with
  | inl e => inl e
  | inr d =>
      let a := OmniscopeApp.construct [] in
      let a := OmniscopeApp.addTransport (inl d) a in
      inr (OmniscopeApp.addTransport
             (inr (TransportZyre.construct inet_ntop sub_new pub_new sub_start pub_start (zyreNamespace c))) a)
  end.

(** What run() prints before the server starts. *)
Definition startLines (c : Config) (a : Application) : list LogLine :=
  GPINFO "Omniscope starting on http://localhost:{}" [AInt (httpPort c)] ::
  ((λ t : Transport, GPINFO "  Transport: {} ({})" [AStr (name t); AInt (Z.of_nat (length (topicNames t)))])
     <$> OmniscopeApp.transports a).

(** * The system *)

Inductive Action : Type :=
  | AppAction (act : OmniscopeApp.Action)
  | SensorThread (samples : list (bool * Sensor)) (now : Z)
  | TrackThread (samples : list (bool * Track)) (now : Z)
  | ZyreThread (e : ZyreEvent) (now : Z).

(** A thread's calls of the callback, in turn. *)
Definition callbacks (calls : list (unit * string * string)) (now : Z) (a : Application) : option Application :=
  foldl (λ r c, a ← r; OmniscopeApp.onTransportMessage crow c.1.2 c.2 now a) (Some a) calls.

Definition new_calls {X} (before after : list X) : list X := drop (length before) after.

(** What the DDS threads hand over between two states of the transports. *)
Definition threadCalls (ts ts' : list Transport) : list (unit * string * string) :=
  match ts !! 0%nat, ts' !! 0%nat with
  | Some (inl d), Some (inl d') =>
      new_calls (TransportDds.sensorCalls J d) (TransportDds.sensorCalls J d') ++
      new_calls (TransportDds.trackCalls J d) (TransportDds.trackCalls J d')
  | _, _ => []
  end.

(** A transport's own step, by the first transport of its kind.  A command that
    stops a DDS subscriber waits for its thread: the thread's last calls come
    before what the command sends. *)
Definition exec (act : Action) (a : Application) : option Application :=
  match act with
  | AppAction (OmniscopeApp.TransportMessage _ _ _) => None
  | AppAction (OmniscopeApp.WsMessage conn msg now opens) =>
      a' ← OmniscopeApp.exec crow (OmniscopeApp.WsMessage conn msg now opens) a;
      b ← callbacks (threadCalls (OmniscopeApp.transports a) (OmniscopeApp.transports a')) now a;
      OmniscopeApp.exec crow (OmniscopeApp.WsMessage conn msg now opens) b
  | AppAction act => OmniscopeApp.exec crow act a
  | SensorThread samples now =>
      match OmniscopeApp.transports a !! 0%nat with
      | Some (inl d) =>
          d' ← TransportDds.exec J (TransportDds.SensorPoll samples) d;
          callbacks (new_calls (TransportDds.sensorCalls J d) (TransportDds.sensorCalls J d')) now
            (OmniscopeApp.set_transports (<[0%nat := inl d']> (OmniscopeApp.transports a)) a)
      | _ => None
      end
  | TrackThread samples now =>
      match OmniscopeApp.transports a !! 0%nat with
      | Some (inl d) =>
          d' ← TransportDds.exec J (TransportDds.TrackPoll samples) d;
          callbacks (new_calls (TransportDds.trackCalls J d) (TransportDds.trackCalls J d')) now
            (OmniscopeApp.set_transports (<[0%nat := inl d']> (OmniscopeApp.transports a)) a)
      | _ => None
      end
  | ZyreThread e now =>
      match OmniscopeApp.transports a !! 1%nat with
      | Some (inr z) => callbacks (TransportZyre.receive z [e]) now a
      | _ => None
      end
  end.

Definition reachable (c : Config) (a : Application) : Prop :=
  ∃ a0, setup c = inr a0 /\ Prelude.reachable exec a0 a.

(** run() of the application set up by main(), with its lines: [acts] while the
    server runs; it then stops the engine, which takes the actions [final], the
    last of them the return from stop().
    The engine is part of the application from its construction, when nothing
    can use it yet; the routes are crow's.  [None]: an action that is not enabled,
    or an engine that has not stopped yet. *)
Definition run (c : Config) (acts final : list Action) (a0 : Application) : option (list LogLine * Application) :=
  a ← Prelude.execs exec acts a0;
  a ← exec (AppAction OmniscopeApp.Shutdown) a;
  a ← Prelude.execs exec final a;
  match OmniscopeApp.pending a with
  | None => Some (startLines c a0 ++ [GPINFO "Omniscope shutting down..." []], a)
  | Some _ => None
  end.

(** main(), without the destructors that follow its return. *)
Definition main (argv : list string) (acts final : list Action)
    : option (Exit * list LogLine * option Application) :=
  match parseArgs argv with
  | None => Some (Terminate, [], None)
  | Some c =>
      match setup c with
      | inl _ => Some (Terminate, [], None)
      | inr a0 => '(lines, a) ← run c acts final a0; Some (Return 0, lines, Some a)
      end
  end.

(** * Invariant *)

(** A subscribed topic has its closure; the node has the program's namespace. *)
Record zyre_ok (ns : string) (z : Zyre) : Prop := {
  zo_name : TransportZyre.tname z = ns;
  zo_node : nodeName (base (TransportZyre.subscriber z)) = ns;
  zo_closure : ∀ topic, topic ∈ TransportZyre.activeTopics z -> ∃ i, topicId topic = Some i /\
    handlers (TransportZyre.subscriber z) !! namespacedTopic ns topic
    = Some (Some (TransportZyre.mkClosure () i (ns ++ "/")%string));
}.

Definition transport_ok (ns : string) (t : Transport) : Prop :=
  match t with inl d => TransportDds.ok d | inr z => zyre_ok ns z end.

Definition same_kind (t t' : Transport) : Prop :=
  match t, t' with inl _, inl _ | inr _, inr _ => True | _, _ => False end.

(** An operation keeps a transport what it is. *)
Definition kept (ns : string) (t t' : Transport) : Prop := same_kind t t' /\ (transport_ok ns t -> transport_ok ns t').

#[local] Instance kept_preorder ns : PreOrder (kept ns).
Proof.
  split.
  - intros [d|z]; by split.
  - intros [x|x] [y|y] [w|w] [H1 H2] [H3 H4]; try done; (split; [done|auto]).
Qed.

Lemma namespacedTopic_inj_r n t u : namespacedTopic n t = namespacedTopic n u -> t = u.
Proof. unfold namespacedTopic. induction n as [|c n IH]; cbn; intros [= E]; auto. Qed.

Lemma zyre_ok_subscribe ns topic z : zyre_ok ns z -> zyre_ok ns (TransportZyre.subscribe topic () z).
Proof.
  intros [H1 H2 H3]. unfold TransportZyre.subscribe. case_decide; [by split|].
  destruct (topicId topic) as [i|] eqn:Ei; [|by split]. split; cbn; [done|by destruct (node _)|].
  rewrite H2. intros t [->%elem_of_singleton|Ht]%elem_of_union.
  - exists i. split; [done|]. by rewrite lookup_insert_eq, H1.
  - destruct (H3 t Ht) as (j & Hj & E). exists j. split; [done|].
    destruct (decide (t = topic)) as [->|Hne]; [done|]. rewrite lookup_insert_ne; [done|].
    intros E'. apply Hne. symmetry. by eapply namespacedTopic_inj_r.
Qed.

Lemma zyre_ok_unsubscribe ns topic z : zyre_ok ns z -> zyre_ok ns (TransportZyre.unsubscribe topic z).
Proof.
  intros [H1 H2 H3]. unfold TransportZyre.unsubscribe. case_decide; [|by split]. split; cbn; [done|done|].
  intros t [Ht _]%elem_of_difference. by apply H3.
Qed.

Lemma zyre_ok_publish ns topic json r z : zyre_ok ns z -> zyre_ok ns (TransportZyre.publishFromJson topic json r z).
Proof. intros [H1 H2 H3]. unfold TransportZyre.publishFromJson. repeat case_match; by split. Qed.

Lemma kept_subscribe ns topic t t' : subscribe topic () t = Some t' -> kept ns t t'.
Proof.
  destruct t as [d|z]; cbn; intros [= <-]; (split; [done|]).
  - apply TransportDds.ok_subscribe.
  - apply zyre_ok_subscribe.
Qed.

Lemma kept_unsubscribe ns topic t t' : unsubscribe (Callback := unit) topic t = Some t' -> kept ns t t'.
Proof.
  destruct t as [d|z]; cbn.
  - intros (d' & E & ->)%fmap_Some. split; [done|]. intros Hd.
    destruct (TransportDds.unsubscribe_outcome topic lateS lateT d Hd) as (d2 & E2 & Hd2 & _). cbn. congruence.
  - intros [= <-]. split; [done|]. apply zyre_ok_unsubscribe.
Qed.

Lemma kept_publish ns topic json t t' : publishFromJson (Callback := unit) topic json t = Some t' -> kept ns t t'.
Proof.
  destruct t as [d|z]; cbn.
  - intros (d' & E & ->)%fmap_Some. split; [done|]. intros Hd. by eapply (TransportDds.ok_publish J).
  - intros [= <-]. split; [done|]. apply zyre_ok_publish.
Qed.

Definition program_ok (ns : string) (a : Application) : Prop :=
  ∃ d z, OmniscopeApp.transports a = [inl d; inr z] /\ TransportDds.ok d /\ zyre_ok ns z.

Lemma setup_ok c a : setup c = inr a -> program_ok (zyreNamespace c) a.
Proof.
  unfold setup. destruct (TransportDds.construct (domainId c)) as [|d] eqn:Ed; [done|]. intros [= <-].
  eexists d, _. split; [reflexivity|]. split; [by eapply TransportDds.transport_ok_construct|].
  unfold TransportZyre.construct, constructSubscriber, Zyre.construct. rewrite andb_false_r.
  unfold start. split; cbn; [done|by destruct sub_new|set_solver].
Qed.

Lemma program_ok_kept ns a a' :
  program_ok ns a -> Forall2 (kept ns) (OmniscopeApp.transports a) (OmniscopeApp.transports a') -> program_ok ns a'.
Proof.
  intros (d & z & E & Hd & Hz) HR. rewrite E in HR.
  inversion HR as [|? t1 ? l [K1 O1] H1]; subst. inversion H1 as [|? t2 ? l2 [K2 O2] H2]; subst. inversion H2; subst.
  destruct t1 as [d'|]; [|done]. destruct t2 as [|z']; [done|]. exists d', z'. by split; [|split; [apply O1|apply O2]].
Qed.

(** A command after which the DDS threads have nothing new. *)
Lemma threadCalls_same d (ts ts' : list Transport) : threadCalls (inl d :: ts) (inl d :: ts') = [].
Proof. unfold threadCalls, new_calls. cbn. by rewrite !drop_ge. Qed.

Lemma command_quiet conn msg now opens (a a' : Application) :
  OmniscopeApp.exec crow (OmniscopeApp.WsMessage conn msg now opens) a = Some a' ->
  threadCalls (OmniscopeApp.transports a) (OmniscopeApp.transports a') = [] ->
  exec (AppAction (OmniscopeApp.WsMessage conn msg now opens)) a = Some a'.
Proof. intros E Hc. cbn [exec]. rewrite E, bind_ret, Hc. exact E. Qed.

(** The frame a message makes. *)
Definition messageFrame (topic : string) (now : Z) (v : Val) : string :=
  OmniscopeApp.dump crow (JObject [("type", JString "message"); ("topic", JString topic);
    ("timestamp", JString (OmniscopeApp.iso8601 now)); ("data", JLoaded v)])%string.

(** The same for every client. *)
Definition messageFrames (topic : string) (now : Z) (v : Val) (clients : gset nat) : list (nat * string) :=
  (λ conn, (conn, messageFrame topic now v)) <$> elements clients.

(** What a transport's message leaves alone. *)
Definition same_but_sent (a a' : Application) : Prop :=
  OmniscopeApp.transports a' = OmniscopeApp.transports a /\
  OmniscopeApp.wsConnections a' = OmniscopeApp.wsConnections a /\
  OmniscopeApp.playback a' = OmniscopeApp.playback a /\ OmniscopeApp.pending a' = OmniscopeApp.pending a.

#[local] Instance same_but_sent_preorder : PreOrder same_but_sent.
Proof. split; unfold same_but_sent; [done|]. intros x y z (?&?&?&?) (?&?&?&?). split_and!; congruence. Qed.

Lemma message_sent topic json now v (a : Application) :
  OmniscopeApp.json_load crow json = Some v ->
  ∃ a', OmniscopeApp.onTransportMessage crow topic json now a = Some a' /\ same_but_sent a a' /\
    OmniscopeApp.sent a' = OmniscopeApp.sent a ++ messageFrames topic now v (OmniscopeApp.wsConnections a).
Proof.
  unfold OmniscopeApp.onTransportMessage. intros ->. rewrite bind_ret. eexists. split; [reflexivity|].
  unfold same_but_sent.
  match goal with |- context [OmniscopeApp.broadcastWs ?f ?x] =>
    destruct (OmniscopeApp.broadcast_frame f x) as (_ & -> & -> & -> & -> & _ & ->) end.
  by destruct (OmniscopeApp.recording a), (OmniscopeApp.recFile a).
Qed.

Lemma callbacks_frame calls now : ∀ a a', callbacks calls now a = Some a' -> same_but_sent a a'.
Proof.
  assert (∀ l : list (unit * string * string), foldl (λ r c, a ← r; OmniscopeApp.onTransportMessage crow c.1.2 c.2 now a) None l
    = @None Application) as Hnone by (by induction l).
  unfold callbacks. induction calls as [|c calls IH]; intros a a'; cbn [foldl]; [by intros [= <-]|].
  rewrite bind_ret. destruct (OmniscopeApp.onTransportMessage crow c.1.2 c.2 now a) as [b|] eqn:E; [|by rewrite Hnone].
  intros Hb. etrans; [|by apply IH]. destruct (OmniscopeApp.json_load crow c.2) as [v|] eqn:Ev.
  - destruct (message_sent c.1.2 c.2 now v a Ev) as (b' & Eb & Hs & _). rewrite E in Eb. by injection Eb as ->.
  - unfold OmniscopeApp.onTransportMessage in E. by rewrite Ev in E.
Qed.

Lemma callbacks_transports calls now a a' :
  callbacks calls now a = Some a' -> OmniscopeApp.transports a' = OmniscopeApp.transports a.
Proof. by intros []%callbacks_frame. Qed.

Lemma exec_ok ns act a a' : program_ok ns a -> exec act a = Some a' -> program_ok ns a'.
Proof.
  intros Hok E. pose proof Hok as (d & z & Et & Hd & Hz).
  assert (∀ d' calls now, TransportDds.ok d' ->
    callbacks calls now (OmniscopeApp.set_transports [inl d'; inr z] a) = Some a' -> program_ok ns a') as Hthread.
  { intros d' calls now Hd' Hc. apply callbacks_transports in Hc. by exists d', z. }
  destruct act as [act|samples now|samples now|e now]; cbn [exec] in E.
  - assert (∃ b, OmniscopeApp.transports b = OmniscopeApp.transports a /\ OmniscopeApp.exec crow act b = Some a')
      as (b & Eb & E').
    { destruct act; try by exists a. apply bind_Some in E as (a1 & _ & E). apply bind_Some in E as (b & Eb & E).
      exists b. split; [by eapply callbacks_transports|done]. }
    eapply program_ok_kept; [exact Hok|]. rewrite <- Eb.
    apply (OmniscopeApp.related_exec crow (kept ns) (kept_subscribe ns) (kept_unsubscribe ns) (kept_publish ns) act b a' E').
  - rewrite Et in E. cbn in E. apply bind_Some in E as (d' & Ed & E).
    eapply Hthread; [|exact E]. by apply (TransportDds.ok_exec J (TransportDds.SensorPoll samples) d).
  - rewrite Et in E. cbn in E. apply bind_Some in E as (d' & Ed & E).
    eapply Hthread; [|exact E]. by apply (TransportDds.ok_exec J (TransportDds.TrackPoll samples) d).
  - rewrite Et in E. cbn in E. apply callbacks_transports in E. rewrite Et in E. by exists d, z.
Qed.

Lemma reachable_ok c a : reachable c a -> program_ok (zyreNamespace c) a.
Proof.
  intros (a0 & Hs & Hr). revert Hr. apply reachable_ind'; [by apply setup_ok|]. intros act ??. apply exec_ok.
Qed.

(** * What reaches the clients *)

Lemma callbacks_one topic json now v (a : Application) :
  OmniscopeApp.json_load crow json = Some v ->
  ∃ a', callbacks [((), topic, json)] now a = Some a' /\ same_but_sent a a' /\
    OmniscopeApp.sent a' = OmniscopeApp.sent a ++ messageFrames topic now v (OmniscopeApp.wsConnections a).
Proof.
  intros Hv. destruct (message_sent topic json now v a Hv) as (a' & E & H'). exists a'. split; [|exact H'].
  unfold callbacks. cbn [foldl]. by rewrite bind_ret.
Qed.

(** A shout of a subscribed topic is handed to the application as its JSON. *)
Lemma zyre_receive_one kind `{!ProtobufLaws Message kind} ns z topic m data out :
  zyre_ok ns z -> topic ∈ TransportZyre.activeTopics z -> topicId topic = Some (kind m) ->
  SerializeToString m = Some data -> MessageToJsonString m = Some out ->
  TransportZyre.receive z [TransportZyre.shout_event (namespacedTopic ns topic) data] = [((), topic, out)].
Proof.
  intros [H1 H2 H3] Ht Hi Hd Ho. destruct (H3 topic Ht) as (i & Ei & Hc). rewrite Hi in Ei. injection Ei as <-.
  unfold TransportZyre.receive. cbn [fmap list_fmap receiveLoop fst snd].
  change (is_type (TransportZyre.shout_event _ _) "STOP") with false. cbn [fst snd]. rewrite app_nil_r.
  unfold handleEvent. change (is_type (TransportZyre.shout_event _ _) "SHOUT") with true.
  cbn [TransportZyre.shout_event event_msg event_group]. rewrite Hc. cbn [mbind list_bind]. rewrite app_nil_r.
  unfold TransportZyre.run_closure. cbn [TransportZyre.id TransportZyre.namePrefix TransportZyre.callback].
  assert (toJson (kind m) data = Some out) as ->.
  { unfold toJson. destruct (topicId_Some _ _ Hi) as [Hk _].
    assert (createMessage (kind m) = Some (newMessage (kind m))) as -> by (by destruct (kind m)).
    by rewrite bind_ret, (parse_serialize m data Hd), bind_ret. }
  unfold namespacedTopic. rewrite <- TransportZyre.append_assoc. by rewrite TransportZyre.strip_prefix_append.
Qed.

(** A program that is not replaying ends three actions after its server. *)
Lemma main_returns argv acts c a0 a :
  parseArgs argv = Some c -> setup c = inr a0 -> Prelude.execs exec acts a0 = Some a ->
  OmniscopeApp.pending a = None -> PlaybackEngine.main (OmniscopeApp.playback a) = PlaybackEngine.MIdle ->
  PlaybackEngine.thread (OmniscopeApp.playback a) = None ->
  ∃ lines a', main argv acts (replicate 3 (AppAction (OmniscopeApp.Engine PlaybackEngine.Main)) ++ [AppAction OmniscopeApp.Resume])
    = Some (Return 0, lines, Some a') /\
    OmniscopeApp.transports a' = OmniscopeApp.transports a /\ OmniscopeApp.disk a' = OmniscopeApp.disk a /\
    OmniscopeApp.sent a' = OmniscopeApp.sent a.
Proof.
  intros Hc Ha0 E Hp Hm Ht. unfold main, run. rewrite Hc, Ha0, E, bind_ret.
  cbn [exec OmniscopeApp.exec]. unfold OmniscopeApp.shutdown, OmniscopeApp.callEngine. rewrite Hp.
  unfold OmniscopeApp.engine_exec. cbn [PlaybackEngine.exec]. unfold PlaybackEngine.call. rewrite Hm, !bind_ret.
  destruct a as [ts cs r rf rn dk e p st rs]. cbn in Hp, Hm, Ht. subst p.
  destruct e as [nw sto fl pl th mn pu pr co]. cbn in Hm, Ht. subst mn th.
  cbn. rewrite !drop_ge by done. cbn. rewrite !drop_ge by done. cbn. rewrite !drop_ge by done. cbn.
  eexists _, _. by split_and!.
Qed.

(** * Properties *)

(** C20: whatever the clients, the server, the engine and the transports' threads
    do, in the running program the two DDS topics are always routed to the DDS
    transport, the protobuf topics to the Zyre transport and every other topic
    to none; a DDS subscriber runs exactly while its topic is subscribed, and
    none has raced with its thread or overwritten it. *)
Theorem omniscope_program_invariant c a topic :
  reachable c a ->
  OmniscopeApp.findTransport topic a
    = (if decide (topic ∈ [Dds.CycloneDDSConfig.SENSOR_TOPIC; Dds.CycloneDDSConfig.TRACK_TOPIC]) then Some 0%nat
       else if decide (topic ∈ allTopicNames) then Some 1%nat else None) /\
  ∃ d z, OmniscopeApp.transports a = [inl d; inr z] /\
    (Dds.DDSSubscriber.running (TransportDds.sensorSub d) = true
       <-> isSubscribed Dds.CycloneDDSConfig.SENSOR_TOPIC (inl d : Transport) = true) /\
    (Dds.DDSSubscriber.running (TransportDds.trackSub d) = true
       <-> isSubscribed Dds.CycloneDDSConfig.TRACK_TOPIC (inl d : Transport) = true) /\
    Dds.DDSSubscriber.main (TransportDds.sensorSub d) = Dds.DDSSubscriber.MIdle /\
    Dds.DDSSubscriber.main (TransportDds.trackSub d) = Dds.DDSSubscriber.MIdle.
Proof.
  intros (d & z & Et & Hd & Hz)%reachable_ok. split.
  - unfold OmniscopeApp.findTransport. rewrite Et. cbn [list_find topicNames transport sum_transport dds zyre].
    change (@topicNames _ _ dds d) with (TransportDds.topicNames d).
    change (@topicNames _ _ zyre z) with (@TransportZyre.topicNames unit z).
    unfold TransportDds.topicNames, TransportZyre.topicNames.
    case_decide; [done|]. by case_decide.
  - exists d, z. split; [done|]. destruct Hd as [[_ Hm1 Hr1] [_ Hm2 Hr2] _]. cbn. unfold TransportDds.isSubscribed.
    by rewrite !bool_decide_eq_true.
Qed.

(** C19: a client that subscribes to a protobuf topic in the running program
    gets its messages: after the command, the shout of any message of that
    topic in the program's namespace, however it was published, reaches each
    connected client as exactly one frame with the bare topic and the JSON of
    the message, and nothing else is sent. *)
Theorem omniscope_zyre_to_clients kind `{!ProtobufLaws Message kind} c (a : Application) conn msg now opens j topic
    m data out v now' :
  reachable c a ->
  OmniscopeApp.json_load crow msg = Some j -> OmniscopeApp.str_field crow j "type" = Some "subscribe"%string ->
  OmniscopeApp.str_field crow j "topic" = Some topic -> topicId topic = Some (kind m) ->
  SerializeToString m = Some data -> MessageToJsonString m = Some out -> OmniscopeApp.json_load crow out = Some v ->
  ∃ a1 a2, exec (AppAction (OmniscopeApp.WsMessage conn msg now opens)) a = Some a1 /\
    OmniscopeApp.wsConnections a1 = OmniscopeApp.wsConnections a /\
    exec (ZyreThread (TransportZyre.shout_event (namespacedTopic (zyreNamespace c) topic) data) now') a1 = Some a2 /\
    OmniscopeApp.sent a2 = OmniscopeApp.sent a1 ++
      ((λ conn, (conn, messageFrame topic now' v)) <$> elements (OmniscopeApp.wsConnections a)).
Proof.
  intros Hr Hj Htype Htop Hi Hd Ho Hv. pose proof (reachable_ok c a Hr) as (d & z & Et & Hdok & Hz).
  set (z1 := TransportZyre.subscribe topic () z).
  set (a1 := OmniscopeApp.sendTopicList crow conn (OmniscopeApp.set_transports [inl d; inr z1] a)).
  assert (topic ∈ allTopicNames) as Hin by (apply topicId_names; by eexists).
  assert (topic ∉ TransportDds.topicNames d) as Hnot.
  { unfold TransportDds.topicNames. intros Hn. clear -Hin Hn. revert Hin. apply (bool_decide_unpack _).
    apply list_elem_of_In in Hn. cbn in Hn. destruct Hn as [<-|[<-|[]]]; by vm_compute. }
  assert (exec (AppAction (OmniscopeApp.WsMessage conn msg now opens)) a = Some a1) as E1.
  { apply command_quiet; [|rewrite Et; apply threadCalls_same].
    cbn [OmniscopeApp.exec]. unfold OmniscopeApp.handleWsMessage. rewrite Hj, Htype, bind_ret.
    cbn [String.eqb Ascii.eqb Bool.eqb]. rewrite Htop, bind_ret. unfold OmniscopeApp.findTransport. rewrite Et.
    cbn [list_find topicNames transport sum_transport dds zyre].
    change (@topicNames _ _ dds d) with (TransportDds.topicNames d).
    change (@topicNames _ _ zyre z) with (@TransportZyre.topicNames unit z).
    rewrite decide_False by done. unfold TransportZyre.topicNames. by rewrite decide_True by done. }
  assert (zyre_ok (zyreNamespace c) z1) as Hz1 by by apply zyre_ok_subscribe.
  assert (topic ∈ TransportZyre.activeTopics z1) as Hact.
  { unfold z1. rewrite TransportZyre.activeTopics_subscribe, decide_True by done. set_solver. }
  destruct (callbacks_one topic out now' v a1 Hv) as (a2 & E2 & _ & Hsent).
  exists a1, a2. split; [exact E1|]. split; [done|]. split; [|exact Hsent].
  cbn [exec]. change (OmniscopeApp.transports a1) with [inl d : Transport; inr z1]. cbn [lookup list_lookup].
  by rewrite (zyre_receive_one kind _ z1 topic m data out Hz1 Hact Hi Hd Ho).
Qed.
End program.

(** The arguments: nothing checks their range. *)
Example parse_defaults : parseArgs ["Omniscope"]%string = Some (mkConfig 0 8080 "TestZyre").
Proof. by vm_compute. Qed.
Example parse_port_wraps :
  parseArgs ["Omniscope"; "4294967297"; "70000"; "omni"]%string = Some (mkConfig 1 4464 "omni").
Proof. by vm_compute. Qed.
Example parse_throws : parseArgs ["Omniscope"; "default"]%string = None.
Proof. by vm_compute. Qed.

(** The program with the default arguments, a client connected. *)
Definition w_config : Config := mkConfig 0 8080 "TestZyre".

#[local] Abbreviation w_setup :=
  (setup (Sensor := Z) (Track := Z) (λ a : unit, None) true true 0 0 w_config).
#[local] Abbreviation w_exec := (exec (H := TransportZyre.text_protobuf) OmniscopeApp.w_browser TransportDds.w_helpers [] []).

Definition w_start : App (S := @Transport Z Z) :=
  match w_setup with inr a => a | inl _ => OmniscopeApp.construct [] end.
Definition w_acts : list (@Action Z Z) :=
  [AppAction (OmniscopeApp.Open 1); AppAction (OmniscopeApp.Open 2);
   AppAction (OmniscopeApp.WsMessage 1 "SensorTopic" 5 true); SensorThread [] 6; SensorThread [(true, 3)] 7;
   SensorThread [] 8].
Definition w_running : App (S := @Transport Z Z) := default w_start (Prelude.execs w_exec w_acts w_start).

#[local] Abbreviation w_reachable :=
  (reachable (H := TransportZyre.text_protobuf) OmniscopeApp.w_browser TransportDds.w_helpers (λ a : unit, None)
     true true 0 0 [] [] w_config).

Lemma w_running_reachable : w_reachable w_running.
Proof.
  exists w_start. split; [by vm_compute|]. apply execs_reachable with (l := w_acts) (s := w_start); [apply reachable_init|].
  unfold w_running. assert (is_Some (Prelude.execs w_exec w_acts w_start)) as [s ->] by (vm_compute; by eexists). done.
Qed.

Lemma omniscope_program_invariant_witness :
  OmniscopeApp.findTransport (H := transport (H := TransportZyre.text_protobuf) TransportDds.w_helpers [] []) "Command" w_running
    = (if decide ("Command"%string ∈ [Dds.CycloneDDSConfig.SENSOR_TOPIC; Dds.CycloneDDSConfig.TRACK_TOPIC]) then Some 0%nat
       else if decide ("Command"%string ∈ allTopicNames) then Some 1%nat else None) /\
  ∃ d z, OmniscopeApp.transports w_running = [inl d; inr z] /\
    (Dds.DDSSubscriber.running (TransportDds.sensorSub d) = true
       <-> TransportDds.isSubscribed Dds.CycloneDDSConfig.SENSOR_TOPIC d = true) /\
    (Dds.DDSSubscriber.running (TransportDds.trackSub d) = true
       <-> TransportDds.isSubscribed Dds.CycloneDDSConfig.TRACK_TOPIC d = true) /\
    Dds.DDSSubscriber.main (TransportDds.sensorSub d) = Dds.DDSSubscriber.MIdle /\
    Dds.DDSSubscriber.main (TransportDds.trackSub d) = Dds.DDSSubscriber.MIdle.
Proof.
  exact (omniscope_program_invariant (H := TransportZyre.text_protobuf) OmniscopeApp.w_browser TransportDds.w_helpers (λ a : unit, None) true true 0 0 [] []
    w_config w_running "Command" w_running_reachable).
Defined.

Lemma omniscope_zyre_to_clients_witness :
  ∃ a1 a2,
    w_exec (AppAction (OmniscopeApp.WsMessage 2 "Command" 9 true)) w_running = Some a1 /\
    OmniscopeApp.wsConnections a1 = OmniscopeApp.wsConnections w_running /\
    w_exec (ZyreThread (TransportZyre.shout_event (namespacedTopic "TestZyre" "Command") "{}") 12) a1 = Some a2 /\
    OmniscopeApp.sent a2 = OmniscopeApp.sent a1 ++
      ((λ conn, (conn, messageFrame OmniscopeApp.w_browser "Command" 12 ("subscribe", "{}")%string))
         <$> elements (OmniscopeApp.wsConnections w_running)).
Proof.
  apply (omniscope_zyre_to_clients (H := TransportZyre.text_protobuf) OmniscopeApp.w_browser TransportDds.w_helpers
    (λ a : unit, None) true true 0 0 [] [] fst (ProtobufLaws0 := TransportZyre.text_laws) w_config w_running 2 "Command" 9 true
    ("subscribe", "Command")%string "Command" (Command, "{}"%string) "{}" "{}" ("subscribe", "{}")%string 12
    w_running_reachable); reflexivity.
Defined.
