(* ===== verification/OmniscopeSystem.v ===== *)
(** The Omniscope program as a system: from a DDS reader to the web clients, from
    one program's recording to another program's clients, and to the end of the
    process.  The definitions are those of OmniscopeMain.v. *)

From Stdlib Require Import Ascii String SpecFloat.
From S2P Require Import Prelude GeneralLogger Programs Zyre ProtoTopics ITransport OmniscopeMain.
From S2P Require Dds TransportDds TransportZyre PlaybackEngine OmniscopeApp.
Import OmniscopeApp(App, Crow, JObject, JString, JLoaded).

(** * The engine inside the application *)

Section engine.
Context {Val S : Type} (crow : Crow Val) `{ITransport S unit}.

#[local] Abbreviation engine_exec := (OmniscopeApp.engine_exec crow).
#[local] Abbreviation app_exec := (OmniscopeApp.exec crow).

(** No handler is inside an idle engine's operation; the engine's states are those
    its own operations reach. *)
Definition engine_ok (a : App (S := S)) : Prop :=
  Prelude.reachable engine_exec PlaybackEngine.construct (OmniscopeApp.playback a) /\
  (OmniscopeApp.pending a = None -> PlaybackEngine.main (OmniscopeApp.playback a) = PlaybackEngine.MIdle).

Lemma engine_ok_same a a' :
  OmniscopeApp.playback a' = OmniscopeApp.playback a -> OmniscopeApp.pending a' = OmniscopeApp.pending a ->
  engine_ok a -> engine_ok a'.
Proof. unfold engine_ok. by intros -> ->. Qed.

Lemma engine_ok_call act p (a a' : App (S := S)) :
  engine_ok a -> OmniscopeApp.callEngine crow act p a = Some a' -> engine_ok a'.
Proof.
  intros [Hr Hm] E. unfold OmniscopeApp.callEngine in E. destruct (OmniscopeApp.pending a); [done|].
  apply bind_Some in E as (e & Ee & [= <-]). split; [|done]. by eapply reachable_step.
Qed.

(** A step of an engine without a client inside leaves it so. *)
Lemma internal_idle act e e' :
  OmniscopeApp.internal act = true -> PlaybackEngine.main e = PlaybackEngine.MIdle -> engine_exec act e = Some e' ->
  PlaybackEngine.main e' = PlaybackEngine.MIdle.
Proof.
  intros Hi Hm E. destruct act; try done; cbn in E.
  - unfold PlaybackEngine.mainStep in E. by rewrite Hm in E.
  - apply PlaybackEngine.playerStep_frame in E as (_ & _ & E & _). congruence.
  - unfold PlaybackEngine.spuriousWakeup in E. apply bind_Some in E as (t & _ & E).
    destruct (PlaybackEngine.pc t); try done. by injection E as <-.
  - by injection E as <-.
Qed.

(** A publication throws only when the replay thread makes one. *)
Lemma publication_made act e e' :
  OmniscopeApp.internal act = true -> engine_exec act e = Some e' ->
  OmniscopeApp.calls_made act e (PlaybackEngine.published e) (PlaybackEngine.published e') <> [] ->
  ∃ e2, engine_exec PlaybackEngine.PublishThrows e = Some e2 /\ PlaybackEngine.crashed e2.
Proof.
  intros Hi E. unfold OmniscopeApp.calls_made. destruct act; try done; cbn in E.
  - unfold PlaybackEngine.mainStep in E. destruct (PlaybackEngine.main e); try done; try (injection E as <-; by rewrite drop_ge).
    + destruct (PlaybackEngine.thread e) as [t|]; [destruct (PlaybackEngine.pc t); try done|]; injection E as <-; by rewrite drop_ge.
    + destruct (PlaybackEngine.stored e); by injection E as <-.
  - unfold PlaybackEngine.playerStep in E. apply bind_Some in E as (t & Et & E). cbn. unfold PlaybackEngine.publishThrows.
    rewrite Et, bind_ret. destruct (PlaybackEngine.pc t) eqn:Ep; try done;
      try (repeat case_match; simplify_eq; by rewrite drop_ge).
    destruct (_ ≫= PlaybackEngine.message _ _ _) as [m|]; injection E as <-; [|by rewrite drop_ge].
    intros _. eexists. split; [reflexivity|]. by eexists.
  - unfold PlaybackEngine.spuriousWakeup in E. apply bind_Some in E as (t & _ & E).
    destruct (PlaybackEngine.pc t); try done. injection E as <-. by rewrite drop_ge.
  - injection E as <-. by rewrite drop_ge.
Qed.

Lemma throws_idle e e' :
  engine_exec PlaybackEngine.PublishThrows e = Some e' ->
  PlaybackEngine.main e' = PlaybackEngine.main e /\ PlaybackEngine.crashed e'.
Proof.
  cbn. unfold PlaybackEngine.publishThrows. intros (t & _ & E)%bind_Some.
  destruct (PlaybackEngine.pc t); try done. destruct (_ ≫= PlaybackEngine.message _ _ _); [|done].
  injection E as <-. split; [done|by eexists].
Qed.

Lemma resume_idle (a a' : App (S := S)) :
  OmniscopeApp.resume crow a = Some a' -> PlaybackEngine.main (OmniscopeApp.playback a) = PlaybackEngine.MIdle.
Proof. unfold OmniscopeApp.resume. by destruct (PlaybackEngine.main _). Qed.

Lemma engine_ok_exec act (a a' : App (S := S)) : engine_ok a -> app_exec act a = Some a' -> engine_ok a'.
Proof.
  intros Hok E. destruct act as [topic json now|conn msg now opens|conn|conn|body|act| |]; cbn [OmniscopeApp.exec] in E.
  - unfold OmniscopeApp.onTransportMessage in E. apply bind_Some in E as (v & _ & [= <-]).
    match goal with |- context [OmniscopeApp.broadcastWs ?p ?b] =>
      destruct (OmniscopeApp.broadcast_frame p b) as (_ & _ & E1 & E2 & _) end.
    eapply engine_ok_same; [rewrite E1|rewrite E2|exact Hok]; by destruct (OmniscopeApp.recording a), (OmniscopeApp.recFile a).
  - unfold OmniscopeApp.handleWsMessage in E. destruct (OmniscopeApp.json_load crow msg) as [j|]; [|by injection E as <-].
    apply bind_Some in E as (type & _ & E).
    repeat match type of E with (if ?c then _ else _) = _ => destruct c end.
    1-2: apply bind_Some in E as (topic & _ & E); destruct (OmniscopeApp.findTransport topic a); [|by injection E as <-];
      apply bind_Some in E as (t & _ & E); apply bind_Some in E as (t' & _ & [= <-]); exact Hok.
    + injection E as <-. unfold OmniscopeApp.startRecording. destruct (OmniscopeApp.recording a), opens; exact Hok.
    + unfold OmniscopeApp.stopRecording in E. destruct (OmniscopeApp.recording a); injection E as <-; exact Hok.
    + by eapply engine_ok_call.
    + by eapply engine_ok_call.
    + by injection E as <-.
  - by injection E as <-.
  - by injection E as <-.
  - unfold OmniscopeApp.loadRoute in E. case_match; [by injection E as <-|]. by eapply engine_ok_call.
  - destruct (OmniscopeApp.internal act) eqn:Ei; [|done]. destruct Hok as [Hr Hm].
    destruct (OmniscopeApp.engineStep_outcome crow act a a' E) as (_ & Hp & _ & e & Ee & Hout). cbv zeta in Hout.
    split; [|rewrite Hp; intros Hnone].
    + destruct Hout as [[-> _]|[Ht _]]; by eapply reachable_step.
    + destruct Hout as [[-> _]|[Ht _]].
      * eapply internal_idle; [exact Ei|by apply Hm|exact Ee].
      * apply throws_idle in Ht as [-> _]. by apply Hm.
  - pose proof (resume_idle a a' E) as Hm. apply OmniscopeApp.resume_frame in E as (_ & _ & E & _).
    destruct Hok as [Hr _]. split; rewrite E; [exact Hr|by intros _].
  - by eapply engine_ok_call.
Qed.

(** The application follows its engine, up to a publication that throws. *)
Lemma engine_follows l : ∀ (a : App (S := S)) e',
  Forall (λ act, OmniscopeApp.internal act = true) l ->
  Prelude.execs engine_exec l (OmniscopeApp.playback a) = Some e' ->
  ∃ l' a', l' `prefix_of` l /\ Prelude.execs app_exec (OmniscopeApp.Engine <$> l') a = Some a' /\
    OmniscopeApp.pending a' = OmniscopeApp.pending a /\
    (l' = l /\ OmniscopeApp.playback a' = e' \/ PlaybackEngine.crashed (OmniscopeApp.playback a')).
Proof.
  induction l as [|act l IH]; intros a e' Hl E; cbn [Prelude.execs] in *.
  { injection E as <-. exists [], a. split; [done|]. split; [done|]. split; [done|]. by left. }
  apply Forall_cons_1 in Hl as [Hi Hl]. apply bind_Some in E as (e & Ee & E).
  assert (is_Some (OmniscopeApp.engineStep crow act a)) as [a1 E1].
  { unfold OmniscopeApp.engineStep. rewrite Ee, bind_ret.
    destruct (OmniscopeApp.republishAll _ _) as [b|] eqn:Eb; [by eexists|].
    destruct (publication_made act _ e Hi Ee) as (e2 & -> & _); [|by eexists]. intros Hnil. by rewrite Hnil in Eb. }
  assert (app_exec (OmniscopeApp.Engine act) a = Some a1) as Ea1 by (cbn [OmniscopeApp.exec]; by rewrite Hi).
  destruct (OmniscopeApp.engineStep_outcome crow act a a1 E1) as (_ & Hp & _ & e2 & Ee2 & Hout).
  rewrite Ee in Ee2. injection Ee2 as <-. destruct Hout as [[H1 _]|[Ht _]].
  - destruct (IH a1 e' Hl) as (l' & a' & Hk & Ea & Hp' & H'); [by rewrite H1|].
    exists (act :: l'), a'. split; [by apply prefix_cons|]. cbn [fmap list_fmap Prelude.execs]. rewrite Ea1, bind_ret.
    split; [done|]. split; [congruence|]. destruct H' as [[-> ?]|?]; auto.
  - exists [act], a1. split; [by exists l|]. cbn [fmap list_fmap Prelude.execs]. rewrite Ea1, bind_ret.
    split; [done|]. split; [done|]. right. by apply throws_idle in Ht as [_ ?].
Qed.
End engine.

Section system.
Context {Val Sensor Track Rec Message Addr : Type} (crow : Crow Val) (J : TransportDds.JsonHelpers Sensor Track Rec).
Context `{Protobuf Message} (inet_ntop : Addr -> option string).
Context (sub_new pub_new : bool) (sub_start pub_start : Z) (lateS : list (bool * Sensor)) (lateT : list (bool * Track)).

#[local] Abbreviation Transport := (@Transport Sensor Track).
#[local] Abbreviation Application := (App (S := Transport)).
#[local] Abbreviation Action := (@Action Sensor Track).
#[local] Abbreviation exec := (OmniscopeMain.exec crow J lateS lateT).
#[local] Abbreviation setup := (OmniscopeMain.setup (Sensor := Sensor) (Track := Track) inet_ntop sub_new pub_new sub_start pub_start).
#[local] Abbreviation reachable := (OmniscopeMain.reachable crow J inet_ntop sub_new pub_new sub_start pub_start lateS lateT).
#[local] Abbreviation frames := (messageFrames crow).

#[local] Instance system_transport : ITransport Transport unit := transport J lateS lateT.

(** * From a DDS reader to the clients *)

(** The sensor subscriber runs with a reader and a handler; its thread is at [p]. *)
Definition polling (p : Dds.DDSSubscriber.Pc (T := Sensor)) (a : Application) : Prop :=
  ∃ d z, OmniscopeApp.transports a = [inl d; inr z] /\
    Dds.DDSSubscriber.reader (TransportDds.sensorSub d) <> None /\
    Dds.DDSSubscriber.handler (TransportDds.sensorSub d) = Some () /\
    Dds.DDSSubscriber.running (TransportDds.sensorSub d) = true /\
    Dds.DDSSubscriber.pollThread (TransportDds.sensorSub d) = Some p.

(** One pass of the thread's loop in which the reader takes [l]: the samples with
    their validity and the time each is handed over; [t]: the time of the other
    steps. *)
Definition sensorCycle (c : list (bool * Sensor * Z) * Z) : list Action :=
  let '(l, t) := c in
  SensorThread [] t :: SensorThread l.*1 t :: ((λ x, SensorThread [] x.2) <$> l) ++ [SensorThread [] t; SensorThread [] t].

(** What the clients are sent for a sample. *)
Definition sampleFrames (clients : gset nat) (x : bool * Sensor * Z) : list (nat * string) :=
  if x.1.1 then
    match OmniscopeApp.json_load crow (TransportDds.sensor_toText J x.1.2) with
    | Some v => frames Dds.CycloneDDSConfig.SENSOR_TOPIC x.2 v clients
    | None => []
    end
  else [].

(** A step of the thread that calls no handler. *)
Lemma sensor_quiet p p' l now (a : Application) :
  polling p a ->
  (∀ u, Dds.DDSSubscriber.pollThread u = Some p -> Dds.DDSSubscriber.running u = true ->
     Dds.DDSSubscriber.reader u <> None -> Dds.DDSSubscriber.handler u = Some () ->
     ∃ u', Dds.DDSSubscriber.pollStep l u = Some u' /\
       Dds.DDSSubscriber.pollThread u' = Some p' /\ Dds.DDSSubscriber.handled u' = Dds.DDSSubscriber.handled u /\
       Dds.DDSSubscriber.running u' = true /\ Dds.DDSSubscriber.reader u' <> None /\
       Dds.DDSSubscriber.handler u' = Some ()) ->
  ∃ a', exec (SensorThread l now) a = Some a' /\ polling p' a' /\
    OmniscopeApp.wsConnections a' = OmniscopeApp.wsConnections a /\ OmniscopeApp.sent a' = OmniscopeApp.sent a.
Proof.
  intros (d & z & Et & H1 & H2 & H3 & H4) Hstep.
  destruct (Hstep _ H4 H3 H1 H2) as (u & Eu & U1 & U2 & U3 & U4 & U5).
  cbn [OmniscopeMain.exec]. rewrite Et. cbn [lookup list_lookup TransportDds.exec]. rewrite Eu, !bind_ret.
  unfold new_calls, TransportDds.sensorCalls. cbn [TransportDds.sensorSub TransportDds.set_sensorSub]. rewrite U2.
  rewrite drop_ge by done. eexists. split; [reflexivity|]. split; [|done].
  eexists _, z. split; [reflexivity|]. done.
Qed.

(** Handing over a valid sample. *)
Lemma sensor_sample x rest now v (a : Application) :
  polling (Dds.DDSSubscriber.LSamples ((true, x) :: rest)) a ->
  OmniscopeApp.json_load crow (TransportDds.sensor_toText J x) = Some v ->
  ∃ a', exec (SensorThread [] now) a = Some a' /\ polling (Dds.DDSSubscriber.LSamples rest) a' /\
    OmniscopeApp.wsConnections a' = OmniscopeApp.wsConnections a /\
    OmniscopeApp.sent a' = OmniscopeApp.sent a ++ frames Dds.CycloneDDSConfig.SENSOR_TOPIC now v (OmniscopeApp.wsConnections a).
Proof.
  intros (d & z & Et & H1 & H2 & H3 & H4) Hv. cbn [OmniscopeMain.exec]. rewrite Et. cbn [lookup list_lookup TransportDds.exec].
  unfold Dds.DDSSubscriber.pollStep. rewrite H4, bind_ret, H2, !bind_ret.
  unfold new_calls, TransportDds.sensorCalls. cbn [TransportDds.sensorSub TransportDds.set_sensorSub Dds.DDSSubscriber.handled].
  rewrite fmap_app, drop_app_length. cbn [fmap list_fmap fst snd].
  set (a1 := OmniscopeApp.set_transports _ a).
  destruct (callbacks_one crow Dds.CycloneDDSConfig.SENSOR_TOPIC _ now v a1 Hv) as (a' & E & (Ht & Hw & _) & Hs).
  exists a'. split; [exact E|]. split; [|done]. eexists _, z. split; [rewrite Ht; reflexivity|]. done.
Qed.

Lemma sensor_samples l : ∀ (a : Application),
  (∀ x, is_Some (OmniscopeApp.json_load crow (TransportDds.sensor_toText J x))) ->
  polling (Dds.DDSSubscriber.LSamples l.*1) a ->
  ∃ a', Prelude.execs exec ((λ x, SensorThread [] x.2) <$> l) a = Some a' /\
    polling (Dds.DDSSubscriber.LSamples []) a' /\ OmniscopeApp.wsConnections a' = OmniscopeApp.wsConnections a /\
    OmniscopeApp.sent a' = OmniscopeApp.sent a ++ (l ≫= sampleFrames (OmniscopeApp.wsConnections a)).
Proof.
  induction l as [|[[v x] now] l IH]; intros a Hj Hp; cbn [fmap list_fmap Prelude.execs fst snd].
  { exists a. by rewrite app_nil_r. }
  assert (∃ a1, exec (SensorThread [] now) a = Some a1 /\ polling (Dds.DDSSubscriber.LSamples l.*1) a1 /\
    OmniscopeApp.wsConnections a1 = OmniscopeApp.wsConnections a /\
    OmniscopeApp.sent a1 = OmniscopeApp.sent a ++ sampleFrames (OmniscopeApp.wsConnections a) (v, x, now))
    as (a1 & -> & Hp1 & Hw1 & Hs1).
  { destruct v.
    - destruct (Hj x) as [w Hw]. unfold sampleFrames. cbn [fst snd]. rewrite Hw. exact (sensor_sample x l.*1 now w a Hp Hw).
    - unfold sampleFrames. cbn [fst snd]. setoid_rewrite app_nil_r. eapply sensor_quiet; [exact Hp|].
      intros u U1 U2 U3 U4. unfold Dds.DDSSubscriber.pollStep. rewrite U1, bind_ret. cbn [fmap list_fmap fst]. rewrite U4.
      eexists. by split_and!. }
  rewrite bind_ret. destruct (IH a1 Hj Hp1) as (a' & -> & Hp' & Hw' & Hs').
  exists a'. rewrite Hw', Hs', Hs1, Hw1, <- (assoc_L (++)). done.
Qed.

Lemma sensor_cycle l t (a : Application) :
  (∀ x, is_Some (OmniscopeApp.json_load crow (TransportDds.sensor_toText J x))) ->
  polling Dds.DDSSubscriber.LTop a ->
  ∃ a', Prelude.execs exec (sensorCycle (l, t)) a = Some a' /\ polling Dds.DDSSubscriber.LTop a' /\
    OmniscopeApp.wsConnections a' = OmniscopeApp.wsConnections a /\
    OmniscopeApp.sent a' = OmniscopeApp.sent a ++ (l ≫= sampleFrames (OmniscopeApp.wsConnections a)).
Proof.
  intros Hj Hp. unfold sensorCycle. cbn [Prelude.execs].
  assert (∀ p p' l' a, polling p a -> p <> Dds.DDSSubscriber.LDone ->
    p' = match p with
         | Dds.DDSSubscriber.LTop => Dds.DDSSubscriber.LBody | Dds.DDSSubscriber.LBody => Dds.DDSSubscriber.LSamples l'
         | Dds.DDSSubscriber.LSleep => Dds.DDSSubscriber.LTop | _ => Dds.DDSSubscriber.LSleep end ->
    (∀ x r, p <> Dds.DDSSubscriber.LSamples (x :: r)) ->
    ∃ a', exec (SensorThread l' t) a = Some a' /\ polling p' a' /\
      OmniscopeApp.wsConnections a' = OmniscopeApp.wsConnections a /\ OmniscopeApp.sent a' = OmniscopeApp.sent a) as Hq.
  { intros p p' l' a0 Hp0 Hd -> Hl. eapply sensor_quiet; [exact Hp0|]. intros u U1 U2 U3 U4.
    unfold Dds.DDSSubscriber.pollStep, Dds.DDSSubscriber.goto. rewrite U1, bind_ret.
    destruct p as [| |[|x r]| |]; try done; rewrite ?U2; try (by destruct (Hl x r));
      try (eexists; by split_and!).
    destruct (Dds.DDSSubscriber.reader u) eqn:Er; [|done]. rewrite U4. eexists. by split_and!. }
  destruct (Hq _ Dds.DDSSubscriber.LBody [] a Hp) as (a1 & -> & Hp1 & Hw1 & Hs1); [done..|]. rewrite bind_ret.
  destruct (Hq _ (Dds.DDSSubscriber.LSamples l.*1) l.*1 a1 Hp1) as (a2 & -> & Hp2 & Hw2 & Hs2); [done..|]. rewrite bind_ret.
  rewrite execs_app. destruct (sensor_samples l a2 Hj Hp2) as (a3 & -> & Hp3 & Hw3 & Hs3). rewrite bind_ret.
  destruct (Hq _ Dds.DDSSubscriber.LSleep [] a3 Hp3) as (a4 & E4 & Hp4 & Hw4 & Hs4); [done..|].
  destruct (Hq _ Dds.DDSSubscriber.LTop [] a4 Hp4) as (a5 & E5 & Hp5 & Hw5 & Hs5); [done..|].
  exists a5. cbn [Prelude.execs]. rewrite E4, bind_ret, E5, bind_ret. split; [done|]. split; [done|].
  rewrite Hw5, Hw4, Hw3, Hw2, Hw1, Hs5, Hs4, Hs3, Hs2, Hs1, Hw2, Hw1. done.
Qed.

Lemma sensor_cycles cycles : ∀ (a : Application),
  (∀ x, is_Some (OmniscopeApp.json_load crow (TransportDds.sensor_toText J x))) ->
  polling Dds.DDSSubscriber.LTop a ->
  ∃ a', Prelude.execs exec (cycles ≫= sensorCycle) a = Some a' /\ polling Dds.DDSSubscriber.LTop a' /\
    OmniscopeApp.wsConnections a' = OmniscopeApp.wsConnections a /\
    OmniscopeApp.sent a' = OmniscopeApp.sent a ++ (List.concat cycles.*1 ≫= sampleFrames (OmniscopeApp.wsConnections a)).
Proof.
  induction cycles as [|[l t] cycles IH]; intros a Hj Hp; cbn [mbind list_bind fmap list_fmap List.concat fst].
  { exists a. cbn. by rewrite app_nil_r. }
  rewrite execs_app. destruct (sensor_cycle l t a Hj Hp) as (a1 & -> & Hp1 & Hw1 & Hs1). rewrite bind_ret.
  destruct (IH a1 Hj Hp1) as (a' & -> & Hp' & Hw' & Hs'). exists a'. split; [done|]. split; [done|].
  rewrite Hw', Hs', Hs1, Hw1, bind_app, (assoc_L (++)). done.
Qed.

(** * The end of the process *)

Lemma exec_engine_ok act (a a' : Application) : engine_ok crow a -> exec act a = Some a' -> engine_ok crow a'.
Proof.
  intros Hok E. assert (∀ calls now b, OmniscopeApp.playback b = OmniscopeApp.playback a ->
    OmniscopeApp.pending b = OmniscopeApp.pending a -> callbacks crow calls now b = Some a' -> engine_ok crow a') as Hcb.
  { intros calls now b Hb1 Hb2 (_ & _ & E1 & E2)%callbacks_frame.
    apply (engine_ok_same crow a); [congruence|congruence|exact Hok]. }
  destruct act as [act|samples now|samples now|e now]; cbn [OmniscopeMain.exec] in E.
  - destruct act; try (eapply engine_ok_exec; [exact Hok|exact E]); [done|]. apply bind_Some in E as (a1 & _ & E).
    apply bind_Some in E as (b & Eb & E). destruct (callbacks_frame crow _ _ _ _ Eb) as (_ & _ & E1 & E2).
    eapply engine_ok_exec; [|exact E]. by eapply (engine_ok_same crow a).
  - destruct (OmniscopeApp.transports a !! 0%nat) as [[d|]|]; try done. apply bind_Some in E as (d' & _ & E). by (eapply Hcb; [..|exact E]).
  - destruct (OmniscopeApp.transports a !! 0%nat) as [[d|]|]; try done. apply bind_Some in E as (d' & _ & E). by (eapply Hcb; [..|exact E]).
  - destruct (OmniscopeApp.transports a !! 1%nat) as [[|z]|]; try done. by (eapply Hcb; [..|exact E]).
Qed.

Lemma setup_shape c a :
  setup c = inr a -> ∃ d, TransportDds.construct (domainId c) = inr d /\
    a = OmniscopeApp.construct
          [inl d; inr (TransportZyre.construct inet_ntop sub_new pub_new sub_start pub_start (zyreNamespace c))].
Proof.
  unfold OmniscopeMain.setup. destruct (TransportDds.construct (domainId c)) as [|d] eqn:Ed; [done|].
  intros [= <-]. by exists d.
Qed.

Lemma setup_engine_ok c a : setup c = inr a -> engine_ok crow a.
Proof. intros (d & _ & ->)%setup_shape. split; [constructor|done]. Qed.

Lemma engine_execs l (a : Application) :
  Prelude.execs exec ((λ act, AppAction (OmniscopeApp.Engine act)) <$> l) a
  = Prelude.execs (OmniscopeApp.exec crow) (OmniscopeApp.Engine <$> l) a.
Proof.
  revert a. induction l as [|act l IH]; intros a; [done|]. cbn [fmap list_fmap Prelude.execs OmniscopeMain.exec].
  destruct (OmniscopeApp.exec crow (OmniscopeApp.Engine act) a); [apply IH|done].
Qed.

(** C21: the program comes to its end.  When the server returns in any state in
    which no handler is inside the engine, whether a recording is being replayed
    or not, main() returns 0 after at most five seconds, eleven actions of the
    engine and the return from its stop(); unless the replay thread, within these
    actions at the latest, meets a line it throws on or makes a publication that
    throws, which ends the process. *)
Theorem omniscope_exits argv acts c a0 (a : Application) :
  parseArgs argv = Some c -> setup c = inr a0 -> Prelude.execs exec acts a0 = Some a ->
  OmniscopeApp.pending a = None ->
  ∃ n l, (n <= 5000)%nat /\ Forall (λ x, x = PlaybackEngine.Main \/ x = PlaybackEngine.Worker) l /\ (length l <= 11)%nat /\
    let stops := (λ act, AppAction (OmniscopeApp.Engine act)) <$> PlaybackEngine.Tick n :: l in
    (∃ b, OmniscopeMain.main crow J inet_ntop sub_new pub_new sub_start pub_start lateS lateT argv acts
            (stops ++ [AppAction OmniscopeApp.Resume])
          = Some (Return 0, startLines J lateS lateT c a0 ++ [GPINFO "Omniscope shutting down..." []], Some b)) \/
    (∃ b, Prelude.execs exec (acts ++ AppAction OmniscopeApp.Shutdown :: stops) a0 = Some b /\
          PlaybackEngine.crashed (OmniscopeApp.playback b)).
Proof.
  intros Hc Ha0 E Hp.
  assert (engine_ok crow a) as [Hr Hm].
  { eapply (execs_invariant exec (engine_ok crow) acts a0); [|by eapply setup_engine_ok|exact E].
    intros act x y _. apply exec_engine_ok. }
  specialize (Hm Hp). set (e1 := PlaybackEngine.set_main (PlaybackEngine.MStopFlag PlaybackEngine.AReturn) (OmniscopeApp.playback a)).
  assert (OmniscopeApp.engine_exec crow PlaybackEngine.Stop (OmniscopeApp.playback a) = Some e1) as Ee1.
  { cbn. unfold PlaybackEngine.call. by rewrite Hm. }
  set (a1 := OmniscopeApp.set_playback e1 (Some OmniscopeApp.AfterStop) a).
  assert (exec (AppAction OmniscopeApp.Shutdown) a = Some a1) as Ea1.
  { cbn [OmniscopeMain.exec OmniscopeApp.exec]. unfold OmniscopeApp.shutdown, OmniscopeApp.callEngine.
    by rewrite Hp, Ee1, bind_ret. }
  destruct (PlaybackEngine.playback_stop_bounded (OmniscopeApp.json_load crow) (λ r, OmniscopeApp.str_field crow r "topic")
    (λ r, OmniscopeApp.field_text crow r "data") (λ r, OmniscopeApp.int_field crow r "timestamp_ms") e1 PlaybackEngine.AReturn)
    as (n & l & e' & Hn & Hl & Hlen & Ee & Hend).
  { exact (reachable_step _ _ _ _ _ Hr Ee1). } { by left. }
  cbn [Prelude.execs] in Ee. apply bind_Some in Ee as (e2 & Et & Ee).
  set (a2 := OmniscopeApp.set_playback e2 (Some OmniscopeApp.AfterStop) a).
  assert (OmniscopeApp.exec crow (OmniscopeApp.Engine (PlaybackEngine.Tick n)) a1 = Some a2) as Ea2.
  { rewrite (OmniscopeApp.engineStep_quiet crow _ a1 e2); [done|done|exact Et|..];
      injection Et as <-; unfold OmniscopeApp.calls_made; by rewrite drop_ge. }
  destruct (engine_follows crow l a2 e') as (l' & b & [k ->] & Eb & Hpend & Hb).
  { eapply Forall_impl; [|exact Hl]. by intros ? [-> | ->]. } { exact Ee. }
  apply Forall_app in Hl as [Hl' _]. rewrite length_app in Hlen.
  exists n, l'. do 2 (split; [done|]). split; [lia|]. cbv zeta.
  set (stops := _ <$> PlaybackEngine.Tick n :: l'). assert (Prelude.execs exec stops a1 = Some b) as Ef.
  { unfold stops. rewrite engine_execs. cbn [fmap list_fmap Prelude.execs]. by rewrite Ea2, bind_ret. }
  assert (PlaybackEngine.crashed (OmniscopeApp.playback b) ->
    ∃ b, Prelude.execs exec (acts ++ AppAction OmniscopeApp.Shutdown :: stops) a0 = Some b /\
      PlaybackEngine.crashed (OmniscopeApp.playback b)) as Hcrash.
  { intros Hx. exists b. rewrite execs_app, E, bind_ret. cbn [Prelude.execs]. by rewrite Ea1, bind_ret. }
  destruct Hb as [[_ Hb]|Hb]; [|right; by apply Hcrash].
  destruct Hend as [(Hmain & _)|Hx]; [|right; apply Hcrash; by rewrite Hb]. left.
  destruct (OmniscopeApp.resume_ready crow b) as [b' Eb']; [by rewrite Hb|by rewrite Hpend; eexists|].
  exists b'. unfold OmniscopeMain.main, OmniscopeMain.run. rewrite Hc, Ha0, E, bind_ret, Ea1, bind_ret, execs_app, Ef, bind_ret.
  cbn [Prelude.execs OmniscopeMain.exec OmniscopeApp.exec]. rewrite Eb', !bind_ret.
  by destruct (OmniscopeApp.resume_frame crow b b' Eb') as (_ & _ & _ & _ & ->).
Qed.

(** * Into another program's clients *)

(** A recorded message on its way: topic and JSON text as replayed, the protobuf
    message that text gives, its bytes, its JSON text at the other end, what crow
    makes of that, and when it arrives. *)
Record Crossing : Type := mkCrossing {
  x_topic : string;
  x_json : string;
  x_message : Message;
  x_data : string;
  x_out : string;
  x_value : Val;
  x_time : Z;
}.

Record crosses (kind : Message -> TopicId) (x : Crossing) : Prop := {
  cr_topic : topicId (x_topic x) = Some (kind (x_message x));
  cr_json : fromJsonToMessage (kind (x_message x)) (x_json x) = Some (x_message x);
  cr_data : SerializeToString (x_message x) = Some (x_data x);
  cr_out : MessageToJsonString (x_message x) = Some (x_out x);
  cr_value : OmniscopeApp.json_load crow (x_out x) = Some (x_value x);
}.

Lemma zyre_routed topic d z :
  is_Some (topicId topic) -> list_find (λ t : Transport, topic ∈ topicNames t) [inl d; inr z] = Some (1%nat, inr z).
Proof.
  intros Hi%topicId_names. cbn [list_find topicNames system_transport transport sum_transport].
  change (topicNames d) with (TransportDds.topicNames d). change (topicNames z) with (TransportZyre.topicNames z).
  rewrite decide_False, decide_True; [done|done|].
  unfold TransportDds.topicNames. intros Hn. clear -Hi Hn. revert Hi. apply (bool_decide_unpack _).
  apply list_elem_of_In in Hn. cbn in Hn. destruct Hn as [<-|[<-|[]]]; by vm_compute.
Qed.

(** Replaying shouts the messages, in order. *)
Lemma zyre_publishes kind ns d xs : ∀ z,
  TransportZyre.wf ns z -> Forall (crosses kind) xs ->
  ∃ z', OmniscopeApp.publishAll ((λ x, (x_topic x, x_json x)) <$> xs) [inl d : Transport; inr z]
        = Some [inl d; inr z'] /\
    shouted (calls (TransportZyre.publisher z'))
    = shouted (calls (TransportZyre.publisher z)) ++ ((λ x, (namespacedTopic ns (x_topic x), x_data x)) <$> xs).
Proof.
  induction xs as [|x xs IH]; intros z Hw Hx; cbn [fmap list_fmap OmniscopeApp.publishAll].
  { exists z. by rewrite app_nil_r. }
  apply Forall_cons_1 in Hx as [[Hi Hj Hd Ho _] Hx]. rewrite zyre_routed by (by rewrite Hi).
  cbn [fmap option_fmap option_map fst lookup list_lookup]. rewrite bind_ret.
  cbn [publishFromJson system_transport transport sum_transport].
  set (z1 := TransportZyre.publishFromJson (x_topic x) (x_json x) 0 z).
  change (publishFromJson (x_topic x) (x_json x) z) with (Some z1). cbn [fmap option_fmap option_map]. rewrite !bind_ret.
  assert (TransportZyre.wf ns z1) as Hw1
    by exact (TransportZyre.wf_op ns z (TransportZyre.Publish (x_topic x) (x_json x) 0) Hw).
  destruct (IH z1 Hw1 Hx) as (z' & E & Hs). exists z'. split; [exact E|]. rewrite Hs.
  assert (shouted (calls (TransportZyre.publisher z1))
    = shouted (calls (TransportZyre.publisher z)) ++ [(namespacedTopic ns (x_topic x), x_data x)]) as ->.
  { destruct Hw as [_ _ Hname Hn Hr]. unfold z1, TransportZyre.publishFromJson. rewrite Hi, Hj, Hd. unfold publish.
    rewrite Hn, Hr. cbn [negb orb fst TransportZyre.publisher call calls]. unfold shouted. rewrite omap_app, Hname. done. }
  by rewrite <- (assoc_L (++)).
Qed.

(** Arriving there, each makes its frames. *)
Lemma peer_receives kind `{!ProtobufLaws Message kind} ns xs d z : ∀ b : Application,
  OmniscopeApp.transports b = [inl d; inr z] -> zyre_ok ns z -> Forall (crosses kind) xs ->
  Forall (λ x, x_topic x ∈ TransportZyre.activeTopics z) xs ->
  ∃ b', Prelude.execs exec ((λ x, ZyreThread (TransportZyre.shout_event (namespacedTopic ns (x_topic x)) (x_data x)) (x_time x))
          <$> xs) b = Some b' /\
    OmniscopeApp.sent b' = OmniscopeApp.sent b ++
      (xs ≫= λ x, frames (x_topic x) (x_time x) (x_value x) (OmniscopeApp.wsConnections b)).
Proof.
  induction xs as [|x xs IH]; intros b Et Hz Hx Hsub; cbn [fmap list_fmap Prelude.execs mbind list_bind].
  { exists b. by rewrite app_nil_r. }
  apply Forall_cons_1 in Hx as [[Hi Hj Hd Ho Hv] Hx]. apply Forall_cons_1 in Hsub as [Ha Hsub].
  destruct (callbacks_one crow (x_topic x) (x_out x) (x_time x) (x_value x) b Hv) as (b1 & E1 & (Ht1 & Hw1 & _) & Hs1).
  destruct (IH b1) as (b' & E & Hs); [by rewrite Ht1|done..|]. exists b'. split.
  - cbn [OmniscopeMain.exec]. rewrite Et. cbn [lookup list_lookup].
    rewrite (zyre_receive_one kind ns z (x_topic x) (x_message x) (x_data x) (x_out x) Hz Ha Hi Hd Ho), E1, bind_ret. exact E.
  - by rewrite Hs, Hs1, Hw1, (assoc_L (++)).
Qed.

(** The actions of a replay leave the DDS threads alone. *)
Lemma replay_actions acts : ∀ a a' : Application,
  Forall (λ act, match act with
                 | OmniscopeApp.Upload _ | OmniscopeApp.Engine _ | OmniscopeApp.Resume => True
                 | OmniscopeApp.WsMessage _ msg _ _ => OmniscopeApp.command crow msg "playback_start"
                 | _ => False end) acts ->
  Prelude.execs (OmniscopeApp.exec crow) acts a = Some a' -> Prelude.execs exec (AppAction <$> acts) a = Some a'.
Proof.
  induction acts as [|act acts IH]; intros a a' Hl E; [done|]. apply Forall_cons_1 in Hl as [Hact Hl].
  cbn [fmap list_fmap Prelude.execs] in *. apply bind_Some in E as (a1 & E1 & E).
  assert (exec (AppAction act) a = Some a1) as ->; [|rewrite bind_ret; by apply IH].
  destruct act as [| conn msg now opens| | | | | |]; try done. apply command_quiet; [exact E1|].
  assert (OmniscopeApp.transports a1 = OmniscopeApp.transports a) as ->.
  { destruct (OmniscopeApp.command_json crow msg _ Hact) as (j & Hj & Htype).
    cbn [OmniscopeApp.exec] in E1. unfold OmniscopeApp.handleWsMessage in E1. rewrite Hj, Htype, bind_ret in E1.
    cbn [String.eqb Ascii.eqb Bool.eqb] in E1. unfold OmniscopeApp.callEngine in E1.
    destruct (OmniscopeApp.pending a); [done|]. apply bind_Some in E1 as (e & _ & [= <-]). done. }
  unfold threadCalls, new_calls. destruct (OmniscopeApp.transports a !! 0%nat) as [[d|]|]; [|done..].
  by rewrite !drop_ge.
Qed.

(** C5: a recording crosses the network.  A file of recorded messages, each of a
    protobuf topic and convertible by protobuf there and back, is uploaded to a
    fresh program whose zyre node could be created and replayed there: it is
    shouted message by message, wherever in the replay the handler of the command
    goes on, and the replay ends normally.  When zyre hands these shouts in order
    to another program of the same namespace whose topics are subscribed, each of
    its clients gets one frame per recorded message, in order, with the bare topic
    and the JSON of the message. *)
Theorem omniscope_replay_to_peer kind `{!ProtobufLaws Message kind} `{!OmniscopeApp.CrowLaws crow} c c' a0
    (b : Application) d z recorded xs conn msg now opens :
  pub_new = true -> setup c = inr a0 -> recorded <> [] -> Forall OmniscopeApp.clock_ok recorded ->
  OmniscopeApp.command crow msg "playback_start" ->
  (λ x, (x_topic x, x_json x)) <$> xs = OmniscopeApp.replayed crow <$> recorded -> Forall (crosses kind) xs ->
  reachable c' b -> zyreNamespace c' = zyreNamespace c -> OmniscopeApp.transports b = [inl d; inr z] ->
  Forall (λ x, x_topic x ∈ TransportZyre.activeTopics z) xs ->
  ∃ run, Forall OmniscopeApp.left_alone run /\ ∀ r1 r2, run = r1 ++ r2 -> ∃ a1 d1 z1 b',
    Prelude.execs exec (AppAction <$>
      OmniscopeApp.Upload (PlaybackEngine.recording_body (OmniscopeApp.line_of crow <$> recorded)) ::
      replicate 4 (OmniscopeApp.Engine PlaybackEngine.Main) ++ OmniscopeApp.Resume ::
      OmniscopeApp.WsMessage conn msg now opens :: replicate 4 (OmniscopeApp.Engine PlaybackEngine.Main) ++
      (OmniscopeApp.Engine <$> r1) ++ OmniscopeApp.Resume :: (OmniscopeApp.Engine <$> r2)) a0 = Some a1 /\
    PlaybackEngine.completed (OmniscopeApp.playback a1) = [false] /\
    OmniscopeApp.transports a1 = [inl d1; inr z1] /\
    length (shouted (calls (TransportZyre.publisher z1))) = length recorded /\
    Prelude.execs exec
      (zip_with (λ gd t, ZyreThread (TransportZyre.shout_event gd.1 gd.2) t)
         (shouted (calls (TransportZyre.publisher z1))) (x_time <$> xs)) b = Some b' /\
    OmniscopeApp.sent b' = OmniscopeApp.sent b ++
      (xs ≫= λ x, frames (x_topic x) (x_time x) (x_value x) (OmniscopeApp.wsConnections b)).
Proof.
  intros Hnew Hset Hne Hclock Hcmd Hxs Hx Hr Hns Et Hsub.
  destruct (setup_shape c a0 Hset) as (d0 & _ & ->). set (z0 := TransportZyre.construct _ _ _ _ _ _).
  assert (TransportZyre.wf (zyreNamespace c) z0 /\ shouted (calls (TransportZyre.publisher z0)) = []) as [Hw Hs0].
  { unfold z0. rewrite Hnew. split; [apply TransportZyre.wf_construct|done]. }
  destruct (zyre_publishes kind _ d0 xs z0 Hw Hx) as (z1 & Hpub & Hs1). rewrite Hxs in Hpub. rewrite Hs0 in Hs1.
  assert (Forall (OmniscopeApp.reads_back crow) recorded) as Hrb.
  { eapply Forall_impl; [|exact Hclock]. intros m. by apply OmniscopeApp.line_reads_back. }
  destruct (OmniscopeApp.replay_run crow recorded _ _ conn msg now opens Hrb Hne Hcmd Hpub) as (run & Hrun & Hall).
  exists run. split; [done|]. intros r1 r2 Hsplit. destruct (Hall r1 r2 Hsplit) as (a1 & Ea1 & Ht1 & Hc1 & _).
  pose proof (reachable_ok crow J inet_ntop sub_new pub_new sub_start pub_start lateS lateT c' b Hr) as (d' & z' & Et' & _ & Hz).
  rewrite Et in Et'. injection Et' as <- <-. rewrite Hns in Hz.
  destruct (peer_receives kind _ xs d z b Et Hz Hx Hsub) as (b' & Eb & Hsb).
  exists a1, d0, z1, b'. split.
  { apply replay_actions; [|exact Ea1]. repeat first [constructor|apply Forall_app; split|apply Forall_fmap, Forall_forall]; done. }
  do 2 (split; [done|]). rewrite Hs1. cbn [app]. split.
  { rewrite length_fmap. apply (f_equal length) in Hxs. by rewrite !length_fmap in Hxs. }
  split; [|exact Hsb]. rewrite <- Eb. f_equal. clear. induction xs as [|x xs IH]; [done|]. cbn. by rewrite IH.
Qed.

(** C18: a client that subscribes to the sensor topic in the running program gets
    its samples.  From then on, however many passes its thread makes and whatever
    the reader takes in each, every valid sample is sent to every client once, in
    order, as one frame with its topic and JSON, the invalid ones are dropped, and
    nothing else is sent. *)
Theorem omniscope_dds_to_clients c (a : Application) d z conn msg now opens j cycles :
  reachable c a -> OmniscopeApp.transports a = [inl d; inr z] ->
  TransportDds.isSubscribed Dds.CycloneDDSConfig.SENSOR_TOPIC d = false ->
  OmniscopeApp.json_load crow msg = Some j -> OmniscopeApp.str_field crow j "type" = Some "subscribe"%string ->
  OmniscopeApp.str_field crow j "topic" = Some Dds.CycloneDDSConfig.SENSOR_TOPIC ->
  (∀ x, is_Some (OmniscopeApp.json_load crow (TransportDds.sensor_toText J x))) ->
  ∃ a1 a2, exec (AppAction (OmniscopeApp.WsMessage conn msg now opens)) a = Some a1 /\
    OmniscopeApp.wsConnections a1 = OmniscopeApp.wsConnections a /\
    Prelude.execs exec (cycles ≫= sensorCycle) a1 = Some a2 /\
    OmniscopeApp.sent a2 = OmniscopeApp.sent a1 ++
      (List.concat cycles.*1 ≫= sampleFrames (OmniscopeApp.wsConnections a)).
Proof.
  intros Hr Et Hsub Hj Htype Htop Hload.
  pose proof (reachable_ok crow J inet_ntop sub_new pub_new sub_start pub_start lateS lateT c a Hr) as (d' & z' & Et' & Hd & Hz).
  rewrite Et in Et'. injection Et' as <- <-.
  set (d1 := TransportDds.subscribe Dds.CycloneDDSConfig.SENSOR_TOPIC () d).
  set (a1 := OmniscopeApp.sendTopicList crow conn (OmniscopeApp.set_transports [inl d1; inr z] a)).
  assert (OmniscopeApp.exec crow (OmniscopeApp.WsMessage conn msg now opens) a = Some a1) as E1.
  { cbn [OmniscopeApp.exec]. unfold OmniscopeApp.handleWsMessage. rewrite Hj, Htype, bind_ret.
    cbn [String.eqb Ascii.eqb Bool.eqb]. rewrite Htop, bind_ret. unfold OmniscopeApp.findTransport. rewrite Et. done. }
  unfold TransportDds.isSubscribed in Hsub. apply bool_decide_eq_false in Hsub.
  pose proof Hd as [[Hi Hm Hrun] _ _].
  assert (Dds.DDSSubscriber.running (TransportDds.sensorSub d) = false) as Er.
  { destruct (Dds.DDSSubscriber.running (TransportDds.sensorSub d)); [|done]. by destruct Hsub; apply Hrun. }
  assert (Dds.DDSSubscriber.pollThread (TransportDds.sensorSub d) = None) as Ep.
  { destruct (Dds.DDSSubscriber.pollThread (TransportDds.sensorSub d)) eqn:E; [|done].
    destruct (Dds.DDSSubscriber.inv_thread _ Hi) as [_ H']; rewrite ?Hm; [done..|]. rewrite E, Er in H'. by specialize (H' ltac:(done)). }
  assert (TransportDds.sensorSub d1 = Dds.DDSSubscriber.start (Dds.DDSSubscriber.subscribe () (TransportDds.sensorSub d))) as Ed1.
  { unfold d1, TransportDds.subscribe. by rewrite decide_False by done. }
  assert (polling Dds.DDSSubscriber.LTop a1) as Hpoll.
  { exists d1, z. split; [done|]. rewrite Ed1. unfold Dds.DDSSubscriber.subscribe. rewrite Ep.
    unfold Dds.DDSSubscriber.start. cbn. rewrite Er. done. }
  destruct (sensor_cycles cycles a1 Hload Hpoll) as (a2 & E2 & _ & _ & Hs).
  exists a1, a2. split; [|by split].
  apply command_quiet; [exact E1|]. rewrite Et. unfold threadCalls, new_calls. cbn [lookup list_lookup OmniscopeApp.transports a1 OmniscopeApp.sendTopicList OmniscopeApp.send_text OmniscopeApp.set_transports].
  unfold TransportDds.sensorCalls, TransportDds.trackCalls. rewrite Ed1. unfold Dds.DDSSubscriber.subscribe. rewrite Ep.
  unfold Dds.DDSSubscriber.start. cbn [Dds.DDSSubscriber.running]. rewrite Er. cbn [Dds.DDSSubscriber.pollThread Dds.DDSSubscriber.handled].
  assert (TransportDds.trackSub d1 = TransportDds.trackSub d) as ->.
  { unfold d1, TransportDds.subscribe. by rewrite decide_False by done. }
  by rewrite !drop_ge.
Qed.
End system.

(** * Witnesses

    With the JSON library of OmniscopeApp.v. *)

Import OmniscopeApp(text_crow, Fields, FValue, FString, w_command, w_type).

#[local] Existing Instance TransportZyre.text_protobuf.
#[local] Existing Instance OmniscopeApp.text_crow_laws.
#[local] Abbreviation s_exec := (OmniscopeMain.exec text_crow TransportDds.w_helpers [] []).
#[local] Abbreviation s_reachable :=
  (OmniscopeMain.reachable text_crow TransportDds.w_helpers (λ a : unit, None) true true 0 0 [] [] w_config).

Definition s_subscribe (topic : string) : string := w_command [("type", "subscribe"); ("topic", topic)]%string.

(** Two clients; the protobuf topics subscribed by them. *)
Definition s_acts : list (@Action Z Z) :=
  AppAction <$> [OmniscopeApp.Open 1; OmniscopeApp.Open 2; OmniscopeApp.WsMessage 1 (s_subscribe "Command") 5 true;
                 OmniscopeApp.WsMessage 2 (s_subscribe "SensorReading") 6 true]%string.

Definition s_peer : App (S := @Transport Z Z) := default w_start (Prelude.execs s_exec s_acts w_start).

Lemma s_peer_reachable : s_reachable s_peer.
Proof.
  exists w_start. split; [by vm_compute|]. apply execs_reachable with (l := s_acts) (s := w_start); [apply reachable_init|].
  unfold s_peer. assert (is_Some (Prelude.execs s_exec s_acts w_start)) as [s ->] by (vm_compute; by eexists). done.
Qed.

Definition s_dds : TransportDds.TransportDds Z Z unit :=
  match OmniscopeApp.transports s_peer with inl d :: _ => d | _ => TransportDds.set_sensorSub (Dds.DDSSubscriber.construct 0 Dds.w_entry) ∅
    (TransportDds.mkTransportDds 0 ∅ (Dds.DDSPublisher.construct 0 Dds.w_entry) (Dds.DDSPublisher.construct 0 Dds.w_entry)
       (Dds.DDSSubscriber.construct 0 Dds.w_entry) (Dds.DDSSubscriber.construct 0 Dds.w_entry) ∅) end.
Definition s_zyre : TransportZyre.TransportZyre unit :=
  match OmniscopeApp.transports s_peer with
  | [_; inr z] => z
  | _ => TransportZyre.construct (λ a : unit, None) true true 0 0 ""
  end.

Definition s_recorded : list (string * Z * Fields) :=
  [("Command", 7, [("text", FValue "x")]); ("SensorReading", 9, [("text", FValue "y")])]%string.

Definition s_crossings : list (Crossing (Val := Fields) (Message := TopicId * string)) :=
  [mkCrossing "Command" "x" (Command, "x") "x" "x" [("text", FValue "x")] 100;
   mkCrossing "SensorReading" "y" (SensorReading, "y") "y" "y" [("text", FValue "y")] 103]%string.

Lemma omniscope_replay_to_peer_witness :
  ∃ run, Forall OmniscopeApp.left_alone run /\ ∀ r1 r2, run = r1 ++ r2 -> ∃ a1 d1 z1 b',
    Prelude.execs s_exec (AppAction <$>
      OmniscopeApp.Upload (PlaybackEngine.recording_body (OmniscopeApp.line_of text_crow <$> s_recorded)) ::
      replicate 4 (OmniscopeApp.Engine PlaybackEngine.Main) ++ OmniscopeApp.Resume ::
      OmniscopeApp.WsMessage 1 (w_type "playback_start") 5 true :: replicate 4 (OmniscopeApp.Engine PlaybackEngine.Main) ++
      (OmniscopeApp.Engine <$> r1) ++ OmniscopeApp.Resume :: (OmniscopeApp.Engine <$> r2)) w_start = Some a1 /\
    PlaybackEngine.completed (OmniscopeApp.playback a1) = [false] /\
    OmniscopeApp.transports a1 = [inl d1; inr z1] /\
    length (shouted (calls (TransportZyre.publisher z1))) = 2%nat /\
    Prelude.execs s_exec
      (zip_with (λ gd t, ZyreThread (TransportZyre.shout_event gd.1 gd.2) t)
         (shouted (calls (TransportZyre.publisher z1))) [100; 103]) s_peer = Some b' /\
    OmniscopeApp.sent b' = OmniscopeApp.sent s_peer ++
      (s_crossings ≫= λ x, messageFrames text_crow (x_topic x) (x_time x) (x_value x) (OmniscopeApp.wsConnections s_peer)).
Proof.
  apply (omniscope_replay_to_peer text_crow TransportDds.w_helpers (λ a : unit, None) true true 0 0 [] [] fst
    (ProtobufLaws0 := TransportZyre.text_laws) w_config w_config w_start s_peer s_dds s_zyre s_recorded s_crossings
    1 (w_type "playback_start") 5 true).
  - done.
  - by vm_compute.
  - done.
  - by repeat constructor.
  - by vm_compute.
  - by vm_compute.
  - by repeat constructor.
  - apply s_peer_reachable.
  - done.
  - by vm_compute.
  - apply (bool_decide_unpack _). by vm_compute.
Defined.

(** An invalid sample between two valid ones, and a pass with none. *)
Definition s_cycles : list (list (bool * Z * Z) * Z) := [([(true, 4, 21); (false, 5, 22); (true, 6, 23)], 20); ([], 24)].

Lemma omniscope_dds_to_clients_witness :
  ∃ a1 a2, s_exec (AppAction (OmniscopeApp.WsMessage 2 (s_subscribe "SensorTopic") 9 true)) s_peer = Some a1 /\
    OmniscopeApp.wsConnections a1 = OmniscopeApp.wsConnections s_peer /\
    Prelude.execs s_exec (s_cycles ≫= sensorCycle) a1 = Some a2 /\
    OmniscopeApp.sent a2 = OmniscopeApp.sent a1 ++
      ([(true, 4, 21); (false, 5, 22); (true, 6, 23)]
         ≫= sampleFrames text_crow TransportDds.w_helpers (OmniscopeApp.wsConnections s_peer)).
Proof.
  apply (omniscope_dds_to_clients text_crow TransportDds.w_helpers (λ a : unit, None) true true 0 0 [] [] w_config s_peer
    s_dds s_zyre 2 (s_subscribe "SensorTopic") 9 true [("type", FString "subscribe"); ("topic", FString "SensorTopic")]%string
    s_cycles).
  - apply s_peer_reachable.
  - by vm_compute.
  - by vm_compute.
  - by vm_compute.
  - by vm_compute.
  - by vm_compute.
  - intros x. by eexists.
Defined.

(** The server returns while a recording is being replayed, whose first messages
    came before the handler of playback_start went on. *)
Definition s_playing : list (@Action Z Z) :=
  AppAction <$> (OmniscopeApp.Upload (PlaybackEngine.recording_body (OmniscopeApp.line_of text_crow <$> s_recorded)) ::
    replicate 4 (OmniscopeApp.Engine PlaybackEngine.Main) ++ OmniscopeApp.Resume ::
    OmniscopeApp.WsMessage 1 (w_type "playback_start") 5 true ::
    replicate 4 (OmniscopeApp.Engine PlaybackEngine.Main) ++ replicate 8 (OmniscopeApp.Engine PlaybackEngine.Worker) ++
    [OmniscopeApp.Resume]).

Definition s_played : App (S := @Transport Z Z) := default w_start (Prelude.execs s_exec s_playing w_start).

Lemma omniscope_exits_witness :
  ∃ n l, (n <= 5000)%nat /\ Forall (λ x, x = PlaybackEngine.Main \/ x = PlaybackEngine.Worker) l /\ (length l <= 11)%nat /\
    let stops := (λ act, AppAction (OmniscopeApp.Engine act)) <$> PlaybackEngine.Tick n :: l in
    (∃ b, OmniscopeMain.main text_crow TransportDds.w_helpers (λ a : unit, None) true true 0 0 [] [] ["Omniscope"]%string
            s_playing (stops ++ [AppAction OmniscopeApp.Resume])
          = Some (Return 0, startLines TransportDds.w_helpers [] [] w_config w_start ++
                              [GPINFO "Omniscope shutting down..." []], Some b)) \/
    (∃ b, Prelude.execs s_exec (s_playing ++ AppAction OmniscopeApp.Shutdown :: stops) w_start = Some b /\
          PlaybackEngine.crashed (OmniscopeApp.playback b)).
Proof.
  apply (omniscope_exits text_crow TransportDds.w_helpers (λ a : unit, None) true true 0 0 [] [] ["Omniscope"]%string
    s_playing w_config w_start s_played); by vm_compute.
Defined.

(** The other end: a recorded sample of a DDS topic that its fromJson throws on. *)
Definition s_helpers : TransportDds.JsonHelpers Z Z string :=
  TransportDds.mkJsonHelpers (λ s, Some s) (TransportDds.sensor_toText TransportDds.w_helpers)
    (TransportDds.track_toText TransportDds.w_helpers) (λ _, None) (λ _, None).

Example publication_throws :
  (a ← Prelude.execs (OmniscopeMain.exec text_crow s_helpers [] [])
      (AppAction <$> (OmniscopeApp.Upload (PlaybackEngine.recording_body
          [OmniscopeApp.line_of text_crow ("SensorTopic", 7, [("text", FValue "x")])])%string ::
        replicate 4 (OmniscopeApp.Engine PlaybackEngine.Main) ++ OmniscopeApp.Resume ::
        OmniscopeApp.WsMessage 1 (w_type "playback_start") 5 true ::
        replicate 4 (OmniscopeApp.Engine PlaybackEngine.Main) ++ replicate 4 (OmniscopeApp.Engine PlaybackEngine.Worker)))
      w_start;
   PlaybackEngine.pc <$> PlaybackEngine.thread (OmniscopeApp.playback a)) = Some PlaybackEngine.PCrash.
Proof. by vm_compute. Qed.
