(* ===== verification/GrpcServer.v ===== *)
(** gRPC server: src/apps/TestApps/GrpcServerTest.cpp.

    The messages are those of src/libs/GrpcService/proto/sensor_service.proto,
    an enum field being its number.  A handler is a function of its service's
    state; those of SensorService take effect where they hold the mutex, and a
    stream works on a copy taken there.  What a context or a reader returns, the
    clock and the generated names of enum values are inputs; logging is left
    out.  [main] and the signal handler are a step machine.  [None] is the
    overflow of an int32_t. *)

From Stdlib Require Import String SpecFloat.
From S2P Require Import Prelude Ieee754.

(** * Messages *)

Record SensorReading : Type := mkSensorReading {
  sensor_id : string;
  sensor_name : string;
  value : double;
  unit_ : string;
  timestamp_ns : Z;
}.

Record SubmitReadingResponse : Type := mkSubmitReadingResponse { accepted : bool; detail : string }.
Record StreamReadingsRequest : Type := mkStreamReadingsRequest { sensor_id_filter : string; max_count : Z }.

Record CommandRequest : Type := mkCommandRequest {
  command_id : string;
  command_type : Z;
  target_id : string;
  payload : string;
}.
Record CommandResponse : Type := mkCommandResponse { response_id : string; success : bool; message : string }.

Record LogEntry : Type := mkLogEntry { source : string; severity : Z; log_message : string; log_ns : Z }.
Record LogSummary : Type := mkLogSummary { entries_received : Z; errors : Z; warnings : Z }.
Record HealthCheckResponse : Type := mkHealthCheckResponse { status : Z; details : string; uptime_ms : Z }.

Definition COMMAND_START : Z := 1.
Definition COMMAND_RESET : Z := 3.
Definition SEVERITY_INFO : Z := 1.
Definition SEVERITY_WARNING : Z := 2.
Definition SEVERITY_ERROR : Z := 3.
Definition SERVING : Z := 1.

(** grpc::Status. *)
Record Status : Type := mkStatus { error_code : Z; error_message : string }.
Definition OK : Status := mkStatus 0 "".
Definition CANCELLED : Z := 1.
Definition is_ok (s : Status) : bool := error_code s =? 0.

(** * SensorService *)

Module SensorServiceImpl.

(** [_readings] *)
Definition State : Type := list SensorReading.

Definition SubmitReading (r : SensorReading) (s : State) : Status * SubmitReadingResponse * State :=
  (OK, mkSubmitReadingResponse true ("Stored reading for " ++ sensor_id r)%string, s ++ [r]).

(** [if (!filter.empty() && r.sensor_id() != filter) continue;] *)
Definition skipped (filter : string) (r : SensorReading) : bool :=
  negb (String.eqb filter "") && negb (String.eqb (sensor_id r) filter).

(** The loop over the snapshot; [cancelled]: what IsCancelled() returns in each
    iteration, false once the list is at its end. *)
Fixpoint streamLoop (snapshot : list SensorReading) (filter : string) (maxCount sent : Z) (cancelled : list bool)
    : Status * list SensorReading :=
  match snapshot with
  | [] => (OK, [])
  | r :: rest =>
      if default false (head cancelled) then (mkStatus CANCELLED "Client cancelled", [])
      else if skipped filter r then streamLoop rest filter maxCount sent (tail cancelled)
      else if maxCount <=? sent + 1 then (OK, [r])
      else let '(st, written) := streamLoop rest filter maxCount (sent + 1) (tail cancelled) in (st, r :: written)
  end.

Definition effectiveMax (req : StreamReadingsRequest) : Z := if max_count req <=? 0 then 10 else max_count req.

Definition StreamReadings (req : StreamReadingsRequest) (cancelled : list bool) (s : State)
    : Status * list SensorReading :=
  streamLoop s (sensor_id_filter req) (effectiveMax req) 0 cancelled.

Definition ClearReadings (s : State) : Status * State := (OK, []).

End SensorServiceImpl.

(** * CommandService *)

Module CommandServiceImpl.

Definition ExecuteCommand (CommandType_Name : Z -> string) (req : CommandRequest) : Status * CommandResponse :=
  (OK, mkCommandResponse (command_id req) true
         ("Executed " ++ CommandType_Name (command_type req) ++ " on " ++ target_id req)%string).

Definition FireCommand (req : CommandRequest) : Status := OK.

End CommandServiceImpl.

(** * DiagnosticsService *)

Module DiagnosticsServiceImpl.

(** [_startTime], in nanoseconds. *)
Definition State : Type := Z.

Definition construct (now : Z) : State := now.

Definition CheckHealth (now : Z) (s : State) : Status * HealthCheckResponse :=
  (OK, mkHealthCheckResponse SERVING "All systems nominal" (Z.quot (now - s) 1000000)).

Definition increment (n : Z) : option Z := if n <? 2 ^ 31 - 1 then Some (n + 1) else None.

Fixpoint ingestLoop (entries : list LogEntry) (total errors warnings : Z) : option LogSummary :=
  match entries with
  | [] => Some (mkLogSummary total errors warnings)
  | e :: entries =>
      total ← increment total;
      if severity e =? SEVERITY_ERROR then errors ← increment errors; ingestLoop entries total errors warnings
      else if severity e =? SEVERITY_WARNING then
        warnings ← increment warnings; ingestLoop entries total errors warnings
      else ingestLoop entries total errors warnings
  end.

Definition IngestLogs (entries : list LogEntry) : option (Status * LogSummary) :=
  summary ← ingestLoop entries 0 0 0; Some (OK, summary).

Definition ResetCounters (now : Z) (s : State) : Status * State := (OK, now).

End DiagnosticsServiceImpl.

(** * The process *)

Module Process.

(** [main] before BuildAndStart returned, before s_server is set, in Wait, at
    its end. *)
Inductive Pc : Type := PBuild | PPublish | PWait | PExit (code : Z).

Record State : Type := mkState { pc : Pc; s_running : bool; s_server : bool; shut_down : bool }.

Definition construct : State := mkState PBuild true false false.

(** [started]: whether BuildAndStart gives a server. *)
Definition step (started : bool) (s : State) : option State :=
  match pc s with
  | PBuild => Some (mkState (if started then PPublish else PExit 1) (s_running s) (s_server s) (shut_down s))
  | PPublish => Some (mkState PWait (s_running s) true (shut_down s))
  | PWait => if shut_down s then Some (mkState (PExit 0) (s_running s) (s_server s) true) else None
  | PExit _ => None
  end.

Definition signalHandler (s : State) : State :=
  mkState (pc s) false (s_server s) (shut_down s || s_server s).

Definition listenAddr (argv : list string) : string := default "0.0.0.0:50051"%string (argv !! 1%nat).

(** A signal that comes before s_server is set does not end the server. *)
Example early_signal_lost : ∃ s,
  step true (signalHandler construct) ≫= step true = Some s /\ s_running s = false /\ step true s = None.
Proof. by eexists. Qed.

Lemma signal_ends s : pc s = PWait -> s_server s = true -> ∃ s', step true (signalHandler s) = Some s' /\ pc s' = PExit 0.
Proof. intros Hp Hs. unfold step, signalHandler. cbn. rewrite Hp, Hs, orb_true_r. by eexists. Qed.

End Process.

(** * What the services do *)

(** What is stored after a sequence of calls: the readings since the last clear. *)
Inductive SensorCall : Type :=
  | Submit (r : SensorReading) | Stream (req : StreamReadingsRequest) (cancelled : list bool) | Clear.

Definition serve (s : SensorServiceImpl.State) (c : SensorCall) : SensorServiceImpl.State :=
  match c with
  | Submit r => (SensorServiceImpl.SubmitReading r s).2
  | Stream req cs => s
  | Clear => (SensorServiceImpl.ClearReadings s).2
  end.

Definition submitted (calls : list SensorCall) : list SensorReading :=
  omap (λ c, match c with Submit r => Some r | _ => None end) calls.

Definition clears (c : SensorCall) : bool := match c with Clear => true | _ => false end.

Lemma serve_submitted calls s :
  forallb (λ c, negb (clears c)) calls = true -> foldl serve s calls = s ++ submitted calls.
Proof.
  revert s. induction calls as [|c calls IH]; intros s H; cbn; [by rewrite app_nil_r|].
  cbn in H. apply andb_true_iff in H as [Hc H]. rewrite IH by done.
  destruct c; cbn; [by rewrite <- (assoc_L (++))|done|done].
Qed.

(** The readings a request asks for: of every sensor when its filter is empty,
    else of the sensor named; the first [max_count] of them, and ten when the count
    is not positive (for 0 sensor_service.proto has no limit). *)
Definition of_sensor (req : StreamReadingsRequest) (r : SensorReading) : Prop :=
  sensor_id_filter req = ""%string \/ sensor_id r = sensor_id_filter req.

#[global] Instance of_sensor_decision req r : Decision (of_sensor req r).
Proof. unfold of_sensor. apply _. Defined.

Definition wanted (req : StreamReadingsRequest) (l : list SensorReading) : list SensorReading :=
  take (if decide (0 < max_count req) then Z.to_nat (max_count req) else 10%nat) (filter (of_sensor req) l).

Lemma skipped_sensor req r : SensorServiceImpl.skipped (sensor_id_filter req) r = false <-> of_sensor req r.
Proof.
  unfold SensorServiceImpl.skipped, of_sensor.
  destruct (String.eqb_spec (sensor_id_filter req) ""), (String.eqb_spec (sensor_id r) (sensor_id_filter req));
    cbn; split; intros; tauto || done.
Qed.

Lemma wanted_loop req l :
  take (Z.to_nat (SensorServiceImpl.effectiveMax req))
    (filter (λ r, SensorServiceImpl.skipped (sensor_id_filter req) r = false) l) = wanted req l.
Proof.
  unfold wanted. f_equal.
  - unfold SensorServiceImpl.effectiveMax. destruct (Z.leb_spec (max_count req) 0);
      [by rewrite decide_False by lia|by rewrite decide_True by lia].
  - apply list_filter_iff. apply skipped_sensor.
Qed.

Lemma streamLoop_spec l f m sent cs :
  0 <= sent < m ->
  let all := take (Z.to_nat (m - sent)) (filter (λ r, SensorServiceImpl.skipped f r = false) l) in
  let '(st, written) := SensorServiceImpl.streamLoop l f m sent cs in
  written `prefix_of` all /\ (Forall (eq false) cs -> st = OK /\ written = all) /\ (is_ok st = true -> written = all).
Proof.
  revert sent cs. induction l as [|r l IH]; intros sent cs Hs; cbn zeta; cbn [SensorServiceImpl.streamLoop].
  { by rewrite filter_nil, take_nil. }
  destruct (default false (head cs)) eqn:Ec.
  { split; [apply prefix_nil|]. split; [|done]. intros H. destruct cs as [|c cs]; [done|]. inversion H. by subst. }
  assert (Forall (eq false) cs -> Forall (eq false) (tail cs)) as Htl by (intros [|]; [constructor|done]).
  destruct (SensorServiceImpl.skipped f r) eqn:Ef.
  { rewrite filter_cons_False by (by rewrite Ef). specialize (IH sent (tail cs) Hs). cbn zeta in IH.
    destruct (SensorServiceImpl.streamLoop _ _ _ _ _) as [st w]. destruct IH as (H1 & H2 & H3). auto. }
  rewrite filter_cons_True by done. replace (Z.to_nat (m - sent)) with (S (Z.to_nat (m - (sent + 1)))) by lia.
  cbn [take]. destruct (Z.leb_spec m (sent + 1)).
  { replace (Z.to_nat (m - (sent + 1))) with 0%nat by lia. rewrite take_0. done. }
  specialize (IH (sent + 1) (tail cs) ltac:(lia)). cbn zeta in IH.
  destruct (SensorServiceImpl.streamLoop _ _ _ _ _) as [st w]. destruct IH as (H1 & H2 & H3).
  split; [by apply prefix_cons|]. split; [intros H'; destruct (H2 (Htl H')) as [-> ->]; done|].
  intros H'. by rewrite (H3 H').
Qed.

(** ** IngestLogs *)

Definition of_severity (s : Z) (entries : list LogEntry) : Z := zlen (filter (λ e, severity e = s) entries).

Lemma of_severity_cons s e l :
  of_severity s (e :: l) = (if severity e =? s then 1 else 0) + of_severity s l.
Proof.
  unfold of_severity. destruct (Z.eqb_spec (severity e) s).
  - rewrite filter_cons_True by done. unfold zlen. cbn. lia.
  - by rewrite filter_cons_False.
Qed.

Lemma increment_Some n : n < 2 ^ 31 - 1 -> DiagnosticsServiceImpl.increment n = Some (n + 1).
Proof. intros. unfold DiagnosticsServiceImpl.increment. by rewrite (proj2 (Z.ltb_lt _ _)). Qed.

Lemma ingestLoop_spec l t e w :
  0 <= e -> 0 <= w -> e <= t -> w <= t -> t + zlen l < 2 ^ 31 ->
  DiagnosticsServiceImpl.ingestLoop l t e w
  = Some (mkLogSummary (t + zlen l) (e + of_severity SEVERITY_ERROR l) (w + of_severity SEVERITY_WARNING l)).
Proof.
  revert t e w. induction l as [|x l IH]; intros t e w He Hw Het Hwt Hl.
  { cbn. do 2 f_equal; unfold of_severity, zlen; cbn; lia. }
  assert (zlen (x :: l) = 1 + zlen l) as Hz by (unfold zlen; cbn; lia). rewrite Hz in *.
  pose proof (zlen_nonneg l). cbn [DiagnosticsServiceImpl.ingestLoop].
  rewrite (increment_Some t), bind_ret, !of_severity_cons by lia.
  destruct (Z.eqb_spec (severity x) SEVERITY_ERROR) as [Ex|Ex].
  - rewrite (increment_Some e), bind_ret, IH by lia. rewrite Ex. cbn. do 2 f_equal; lia.
  - destruct (Z.eqb_spec (severity x) SEVERITY_WARNING).
    + rewrite (increment_Some w), bind_ret, IH by lia. do 2 f_equal; lia.
    + rewrite IH by lia. do 2 f_equal; lia.
Qed.

(** * Properties *)

(** C30: a stream delivers what was submitted since the last clear.  Whatever calls
    came before, a request that is not cancelled is sent exactly the first
    readings of its sensor, or of all when it names none, in the order of
    submission and up to its count, or ten when that is not positive; a cancelled
    one is sent a prefix of them, and an OK status means all of them. *)
Theorem grpc_stream_exact s before calls req cancelled :
  forallb (λ c, negb (clears c)) calls = true ->
  let stored := foldl serve s (before ++ Clear :: calls) in
  let '(st, written) := SensorServiceImpl.StreamReadings req cancelled stored in
  written `prefix_of` wanted req (submitted calls) /\
  (Forall (eq false) cancelled -> st = OK /\ written = wanted req (submitted calls)) /\
  (is_ok st = true -> written = wanted req (submitted calls)).
Proof.
  intros H. cbn zeta. rewrite foldl_app. cbn [foldl serve SensorServiceImpl.ClearReadings snd].
  rewrite (serve_submitted calls []) by done. cbn [app].
  pose proof (streamLoop_spec (submitted calls) (sensor_id_filter req) (SensorServiceImpl.effectiveMax req) 0 cancelled) as Hs.
  unfold SensorServiceImpl.StreamReadings. rewrite <- wanted_loop. rewrite Z.sub_0_r in Hs. apply Hs.
  unfold SensorServiceImpl.effectiveMax. case_bool; bool_prop; lia.
Qed.

Definition w_reading (id : string) (t : Z) : SensorReading := mkSensorReading id "n" (f64_of_Z t) "u" t.

Lemma grpc_stream_exact_witness :
  let calls := [Submit (w_reading "a" 1); Stream (mkStreamReadingsRequest "" 0) []; Submit (w_reading "b" 2);
                Submit (w_reading "a" 3)] in
  let stored := foldl serve [] ([Submit (w_reading "a" 0)] ++ Clear :: calls) in
  let '(st, written) := SensorServiceImpl.StreamReadings (mkStreamReadingsRequest "a" 5) [false; true] stored in
  written `prefix_of` wanted (mkStreamReadingsRequest "a" 5) (submitted calls) /\
  (Forall (eq false) [false; true] -> st = OK /\ written = wanted (mkStreamReadingsRequest "a" 5) (submitted calls)) /\
  (is_ok st = true -> written = wanted (mkStreamReadingsRequest "a" 5) (submitted calls)).
Proof.
  exact (grpc_stream_exact [] [Submit (w_reading "a" 0)]
    [Submit (w_reading "a" 1); Stream (mkStreamReadingsRequest "" 0) []; Submit (w_reading "b" 2); Submit (w_reading "a" 3)]
    (mkStreamReadingsRequest "a" 5) [false; true] eq_refl).
Defined.

(** A count of zero streams ten readings, not all of them. *)
Example stream_zero_count :
  length (SensorServiceImpl.StreamReadings (mkStreamReadingsRequest "" 0) [] (replicate 12 (w_reading "a" 0))).2 = 10%nat.
Proof. reflexivity. Qed.
