(* ===== verification/GrpcClient.v ===== *)
(** gRPC client: src/apps/TestApps/GrpcClientTest.cpp.

    The client is written against a stub: the record of the calls it makes on a
    world [W], each with its result.  Its observable is its log.  [s_running]
    only ever becomes false, so a run is given the number of loads of it that
    still read true.  The random values, the clock and the channel's states are
    inputs; [None]: the channel's states given are at an end, or an int has
    overflowed. *)

From Stdlib Require Import String SpecFloat.
From S2P Require Import Prelude Ieee754 GeneralLogger GrpcServer.

Record Stub (W : Type) : Type := mkStub {
  SubmitReading : SensorReading -> W -> Status * SubmitReadingResponse * W;
  StreamReadings : StreamReadingsRequest -> W -> Status * list SensorReading * W;
  ClearReadings : W -> Status * W;
  ExecuteCommand : CommandRequest -> W -> Status * CommandResponse * W;
  FireCommand : CommandRequest -> W -> Status * W;
  CheckHealth : string -> W -> Status * HealthCheckResponse * W;
  (** the number of entries Write accepts, and what Finish returns *)
  IngestLogs : list LogEntry -> W -> nat * Status * LogSummary * W;
  ResetCounters : W -> Status * W;
}.
Arguments SubmitReading {W} s.
Arguments StreamReadings {W} s.
Arguments ClearReadings {W} s.
Arguments ExecuteCommand {W} s.
Arguments FireCommand {W} s.
Arguments CheckHealth {W} s.
Arguments IngestLogs {W} s.
Arguments ResetCounters {W} s.

Definition ABool (b : bool) : Arg := AStr (if b then "true" else "false").

Definition makeReading (sensorId name : string) (v : double) (u : string) (now : Z) : SensorReading :=
  mkSensorReading sensorId name v u now.

Section client.
Context {W : Type} (stub : Stub W) (Status_Name : Z -> string).
(** Draws of the two distributions and readings of the clock, by iteration. *)
Context (temp pressure : nat -> double) (now : nat -> Z).

(** * SensorService *)

Definition submitRequest (i : nat) : SensorReading :=
  if Nat.even i then makeReading "temp-001" "Temperature Sensor" (temp i) "celsius" (now i)
  else makeReading "press-002" "Pressure Sensor" (pressure i) "hPa" (now i).

Definition NUM_READINGS : nat := 5.

(** [for (int i = 0; i < NUM_READINGS && s_running.load(); ++i)], [n] iterations
    left; the loads left, the world, the log. *)
Fixpoint submitLoop (n i running : nat) (w : W) : nat * W * list LogLine :=
  match n, running with
  | O, _ => (running, w, [])
  | S n, O => (O, w, [])
  | S n, S running =>
      let '(st, response, w) := SubmitReading stub (submitRequest i) w in
      let line :=
        if is_ok st
        then GPINFO "SubmitReading[{}]: accepted={} detail='{}'"
               [AInt (Z.of_nat i); ABool (accepted response); AStr (detail response)]
        else GPERROR "SubmitReading[{}] failed: {} — {}"
               [AInt (Z.of_nat i); AInt (error_code st); AStr (error_message st)] in
      let '(running, w, log) := submitLoop n (S i) running w in
      (running, w, line :: log)
  end.

Definition streamed (r : SensorReading) : LogLine :=
  GPINFO "  Streamed: sensor_id={} value={:.2f} {}" [AStr (sensor_id r); ADouble (value r); AStr (unit_ r)].

Definition streamFinished (count : Z) : LogLine :=
  GPINFO "StreamReadings finished — received {} readings" [AInt count].

Definition testSensorService (running : nat) (w : W) : nat * W * list LogLine :=
  let '(running, w, log1) := submitLoop NUM_READINGS 0 running w in
  let '(st, readings, w) := StreamReadings stub (mkStreamReadingsRequest "" 10) w in
  let line2 :=
    if is_ok st then streamFinished (zlen readings)
    else GPERROR "StreamReadings failed: {} — {}" [AInt (error_code st); AStr (error_message st)] in
  let '(st, w) := ClearReadings stub w in
  let line3 :=
    if is_ok st then GPINFO "ClearReadings succeeded" []
    else GPERROR "ClearReadings failed: {}" [AStr (error_message st)] in
  (running, w,
   [GPINFO "=== SensorService ===" []] ++ log1 ++ [GPINFO "Requesting stream of stored readings..." []] ++
   (streamed <$> readings) ++ [line2; GPINFO "Calling ClearReadings (fire-and-forget)..." []; line3]).

(** * CommandService *)

Definition testCommandService (w : W) : W * list LogLine :=
  let request := mkCommandRequest "cmd-1001" COMMAND_START "sensor-cluster-A" "initial-config" in
  let '(st, response, w) := ExecuteCommand stub request w in
  let line1 :=
    if is_ok st
    then GPINFO "ExecuteCommand: id={} success={} message='{}'"
           [AStr (response_id response); ABool (success response); AStr (message response)]
    else GPERROR "ExecuteCommand failed: {}" [AStr (error_message st)] in
  let request := mkCommandRequest "cmd-1002" COMMAND_RESET "sensor-cluster-B" "" in
  let '(st, w) := FireCommand stub request w in
  let line2 :=
    if is_ok st then GPINFO "FireCommand: sent (fire-and-forget, no response payload)" []
    else GPERROR "FireCommand failed: {}" [AStr (error_message st)] in
  (w, [GPINFO "=== CommandService ===" []; line1; line2]).

(** * DiagnosticsService *)

Definition logs : list (Z * string * string) :=
  [(SEVERITY_INFO, "sensor-001", "Sensor started"); (SEVERITY_WARNING, "sensor-002", "Battery low");
   (SEVERITY_ERROR, "sensor-003", "Connection lost"); (SEVERITY_INFO, "sensor-001", "Reading captured");
   (SEVERITY_ERROR, "sensor-004", "Checksum mismatch")]%string.

Definition logEntries : list LogEntry :=
  imap (λ i l, mkLogEntry l.1.2 l.1.1 l.2 (now i)) logs.

Definition testDiagnosticsService (w : W) : W * list LogLine :=
  let '(st, response, w) := CheckHealth stub "SensorService" w in
  let line1 :=
    if is_ok st
    then GPINFO "CheckHealth: status={} details='{}' uptime_ms={}"
           [AStr (Status_Name (status response)); AStr (details response); AInt (uptime_ms response)]
    else GPERROR "CheckHealth failed: {}" [AStr (error_message st)] in
  let '(written, st, summary, w) := IngestLogs stub logEntries w in
  let broken := if (written <? length logEntries)%nat then [GPERROR "IngestLogs: write failed (broken stream)" []] else [] in
  let line2 :=
    if is_ok st
    then GPINFO "IngestLogs summary: received={} errors={} warnings={}"
           [AInt (entries_received summary); AInt (errors summary); AInt (warnings summary)]
    else GPERROR "IngestLogs failed: {}" [AStr (error_message st)] in
  let '(st, w) := ResetCounters stub w in
  let line3 :=
    if is_ok st then GPINFO "ResetCounters succeeded" []
    else GPERROR "ResetCounters failed: {}" [AStr (error_message st)] in
  (w,
   [GPINFO "=== DiagnosticsService ===" []; line1;
    GPINFO "IngestLogs: sending log entries (client-streaming)..." []] ++ broken ++
   [line2; GPINFO "Calling ResetCounters (fire-and-forget)..." []; line3]).

(** * main *)

(** grpc_connectivity_state *)
Definition GRPC_CHANNEL_READY : Z := 2.
Definition GRPC_CHANNEL_SHUTDOWN : Z := 4.

(** [states]: what GetState returns from call to call; what is left of it and of
    the loads comes back. *)
Fixpoint waitForReady (serverAddr : string) (states : list Z) (running : nat)
    : option (bool * list Z * nat * list LogLine) :=
  match running with
  | O => Some (false, states, O, [])
  | S running =>
      match states with
      | [] => None
      | state :: states =>
          if state =? GRPC_CHANNEL_READY then Some (true, states, running, [])
          else if state =? GRPC_CHANNEL_SHUTDOWN
          then Some (false, states, running, [GPERROR "Channel entered SHUTDOWN state" []])
          else
            '(ready, states, running, log) ← waitForReady serverAddr states running;
            Some (ready, states, running,
                  GPINFO "Channel state: {} — waiting for server at {} ..." [AInt state; AStr serverAddr] :: log)
      end
  end.

(** [for (int i = 0; i < 10 && s_running.load(); ++i)]: the loads left. *)
Fixpoint pace (n running : nat) : nat :=
  match n, running with
  | O, _ => running
  | S n, O => O
  | S n, S running => pace n running
  end.

(** One pass of the loop once the channel is ready. *)
Definition clientRound (round : Z) (running : nat) (w : W) : nat * W * list LogLine :=
  let '(running, w, log1) := testSensorService running w in
  let '(w, log2) := testCommandService w in
  let '(w, log3) := testDiagnosticsService w in
  (pace 10 running, w,
   [GPINFO "===== Round {} =====" [AInt round]] ++ log1 ++ log2 ++ log3 ++
   [GPINFO "Round {} complete — pausing before next round" [AInt round]]).

(** [while (s_running.load())]; a pass takes at least one load, so [running + 1]
    is fuel enough. *)
Fixpoint rounds (fuel : nat) (serverAddr : string) (round : Z) (states : list Z) (running : nat) (w : W)
    : option (Z * W * list LogLine) :=
  match fuel with
  | O => None
  | S fuel =>
      match running with
      | O => Some (round, w, [])
      | S running =>
          '(ready, states, running, log0) ← waitForReady serverAddr states running;
          if negb ready then Some (round, w, log0)
          else
            round ← DiagnosticsServiceImpl.increment round;
            let '(running, w, log1) := clientRound round running w in
            '(round, w, log2) ← rounds fuel serverAddr round states running w;
            Some (round, w, log0 ++ log1 ++ log2)
      end
  end.

Definition main (argv : list string) (states : list Z) (running : nat) (w : W) : option (Z * W * list LogLine) :=
  let serverAddr := default "localhost:50051"%string (argv !! 1%nat) in
  '(round, w, log) ← rounds (S running) serverAddr 0 states running w;
  Some (0, w, [GPINFO "Connecting to gRPC server at {}" [AStr serverAddr]] ++ log ++
              [GPINFO "Client shut down after {} rounds" [AInt round]]).

(** * Termination *)

Lemma submitLoop_loads n i running w : ((submitLoop n i running w).1.1 <= running)%nat.
Proof.
  revert i running w. induction n as [|n IH]; intros i running w; cbn; [done|].
  destruct running as [|running]; [done|]. destruct (SubmitReading _ _ _) as [[st resp] w'].
  specialize (IH (S i) running w'). destruct (submitLoop _ _ _ _) as [[r ?] ?]. cbn in *. lia.
Qed.

Lemma pace_loads n running : (pace n running <= running)%nat.
Proof. revert running. induction n as [|n IH]; intros [|r]; cbn; try lia. specialize (IH r). lia. Qed.

Lemma clientRound_loads round running w : ((clientRound round running w).1.1 <= running)%nat.
Proof.
  unfold clientRound, testSensorService. pose proof (submitLoop_loads NUM_READINGS 0 running w).
  destruct (submitLoop _ _ _ _) as [[r w1] l1]. destruct (StreamReadings _ _ _) as [[? ?] w2].
  destruct (ClearReadings _ _) as [? w3]. destruct (testCommandService _) as [w4 ?].
  destruct (testDiagnosticsService _) as [w5 ?]. cbn [fst] in *. pose proof (pace_loads 10 r). lia.
Qed.

(** Each load consumes at most one state of the channel. *)
Lemma waitForReady_total addr states running :
  (running <= length states)%nat ->
  ∃ ready states' running' log, waitForReady addr states running = Some (ready, states', running', log) /\
    (running' <= running)%nat /\ (running' <= length states')%nat.
Proof.
  revert running. induction states as [|st states IH]; intros [|running] Hl; cbn in Hl |- *;
    [by eexists _, _, _, _| lia| |].
  { eexists _, _, _, _. split; [done|]. lia. }
  case_bool; [eexists _, _, _, _; split; [done|]; lia|].
  case_bool; [eexists _, _, _, _; split; [done|]; lia|].
  destruct (IH running ltac:(lia)) as (ready & s' & r' & log & -> & ? & ?).
  eexists _, _, _, _. split; [done|]. lia.
Qed.

Lemma rounds_total fuel addr round states running w :
  (running < fuel)%nat -> (running <= length states)%nat -> 0 <= round -> round + Z.of_nat running < 2 ^ 31 ->
  ∃ round' w' log, rounds fuel addr round states running w = Some (round', w', log) /\
    round <= round' <= round + Z.of_nat running.
Proof.
  revert round states running w. induction fuel as [|fuel IH]; intros round states running w Hf Hl H0 Hr; [lia|].
  cbn [rounds]. destruct running as [|running]; [eexists _, _, _; split; [done|]; lia|].
  destruct (waitForReady_total addr states running ltac:(lia)) as (ready & states' & r1 & log0 & -> & Hr1 & Hl1).
  rewrite bind_ret. destruct ready; cbn [negb]; [|eexists _, _, _; split; [done|]; lia].
  rewrite increment_Some, bind_ret by lia.
  pose proof (clientRound_loads (round + 1) r1 w) as Hc. destruct (clientRound _ _ _) as [[r2 w2] log1]. cbn in Hc.
  destruct (IH (round + 1) states' r2 w2) as (round' & w' & log & -> & ?); [lia..|].
  rewrite bind_ret. eexists _, _, _. split; [done|]. lia.
Qed.
End client.

(** * Against the server of GrpcServer.v *)

Record World : Type := mkWorld { sensors : SensorServiceImpl.State; diagnostics : DiagnosticsServiceImpl.State }.

(** A channel that loses nothing; [steady]: the server's clock. *)
Definition direct (CommandType_Name : Z -> string) (steady : Z) : Stub World := {|
  SubmitReading r w :=
    let '(st, response, s) := SensorServiceImpl.SubmitReading r (sensors w) in
    (st, response, mkWorld s (diagnostics w));
  StreamReadings req w :=
    let '(st, l) := SensorServiceImpl.StreamReadings req [] (sensors w) in (st, l, w);
  ClearReadings w :=
    let '(st, s) := SensorServiceImpl.ClearReadings (sensors w) in (st, mkWorld s (diagnostics w));
  ExecuteCommand req w :=
    let '(st, response) := CommandServiceImpl.ExecuteCommand CommandType_Name req in (st, response, w);
  FireCommand req w := (CommandServiceImpl.FireCommand req, w);
  CheckHealth _ w := let '(st, response) := DiagnosticsServiceImpl.CheckHealth steady (diagnostics w) in (st, response, w);
  IngestLogs entries w :=
    match DiagnosticsServiceImpl.IngestLogs entries with
    | Some (st, summary) => (length entries, st, summary, w)
    | None => (O, mkStatus 2 "", mkLogSummary 0 0 0, w)
    end;
  ResetCounters w :=
    let '(st, s) := DiagnosticsServiceImpl.ResetCounters steady (diagnostics w) in (st, mkWorld (sensors w) s);
|}.

Section served.
Context (CommandType_Name Status_Name : Z -> string) (steady : Z).
Context (temp pressure : nat -> double) (now : nat -> Z).
#[local] Abbreviation stub := (direct CommandType_Name steady).
#[local] Abbreviation requests i n := (submitRequest temp pressure now <$> seq i n).

Definition quiet (log : list LogLine) : Prop := Forall (λ l, level l <> ERROR) log.

Lemma submitLoop_served n i running w :
  ∃ log, submitLoop stub temp pressure now n i running w
    = ((running - n)%nat, mkWorld (sensors w ++ requests i (Nat.min n running)) (diagnostics w), log) /\ quiet log.
Proof.
  revert i running w. induction n as [|n IH]; intros i running w.
  { exists []. cbn. rewrite app_nil_r, Nat.sub_0_r. split; [by destruct w|constructor]. }
  destruct running as [|running].
  { exists []. cbn. rewrite app_nil_r. split; [by destruct w|constructor]. }
  cbn [submitLoop stub SubmitReading SensorServiceImpl.SubmitReading].
  destruct (IH (S i) running (mkWorld (sensors w ++ [submitRequest temp pressure now i]) (diagnostics w))) as (log & -> & Hq).
  eexists. split; [|].
  - cbn [sensors diagnostics Nat.min seq fmap list_fmap]. rewrite <- (assoc_L (++)). reflexivity.
  - constructor; [done|exact Hq].
Qed.

Lemma stream_served l :
  SensorServiceImpl.StreamReadings (mkStreamReadingsRequest "" 10) [] l = (OK, take 10 l).
Proof.
  unfold SensorServiceImpl.StreamReadings. cbn [sensor_id_filter].
  pose proof (streamLoop_spec l "" 10 0 [] ltac:(lia)) as H. cbn zeta in H.
  change (SensorServiceImpl.effectiveMax _) with 10.
  destruct (SensorServiceImpl.streamLoop _ _ _ _ _) as [st written].
  destruct H as (_ & H & _). destruct (H ltac:(constructor)) as [-> ->]. f_equal.
  change (Z.to_nat (10 - 0)) with 10%nat. f_equal. clear.
  induction l as [|r l IH]; [done|]. by rewrite filter_cons_True, IH.
Qed.
End served.

(** * Properties *)

(** C31: one pass of the client against the server, whatever it had stored.  The
    stream shows what was stored and then what the client submitted, in order and
    up to ten; the store is empty afterwards; the summary of the five log entries
    counts two errors and one warning; no call fails. *)
Theorem grpc_round_served CommandType_Name Status_Name steady temp pressure now round running w :
  let stub := direct CommandType_Name steady in
  let sent := submitRequest temp pressure now <$> seq 0 (Nat.min 5 running) in
  let shown := take 10 (sensors w ++ sent) in
  let '(running', w', log) := clientRound stub Status_Name temp pressure now round running w in
  w' = mkWorld [] steady /\ quiet log /\
  (∃ before after, log = before ++ (streamed <$> shown) ++ [streamFinished (zlen shown)] ++ after) /\
  GPINFO "IngestLogs summary: received={} errors={} warnings={}" [AInt 5; AInt 2; AInt 1] ∈ log.
Proof.
  intros stub sent shown. unfold clientRound, testSensorService. subst stub.
  destruct (submitLoop_served CommandType_Name steady temp pressure now NUM_READINGS 0 running w) as (log1 & -> & Hq1).
  cbn [direct StreamReadings sensors].
  change (submitRequest temp pressure now <$> seq 0 (Nat.min NUM_READINGS running)) with sent.
  rewrite stream_served. change (is_ok OK) with true. cbn match.
  fold shown. cbn [direct ClearReadings SensorServiceImpl.ClearReadings diagnostics sensors].
  cbn [testCommandService direct ExecuteCommand CommandServiceImpl.ExecuteCommand FireCommand CommandServiceImpl.FireCommand].
  set (line := GPINFO "IngestLogs summary: received={} errors={} warnings={}" [AInt 5; AInt 2; AInt 1]).
  assert (∃ log3, testDiagnosticsService (direct CommandType_Name steady) Status_Name now (mkWorld [] (diagnostics w)) = (mkWorld [] steady, log3) /\
    quiet log3 /\ line ∈ log3) as (log3 & -> & Hq3 & Hin).
  { eexists. split; [reflexivity|]. split; [repeat constructor; done|]. 
    do 3 apply list_elem_of_further. apply list_elem_of_here. }
  split; [done|]. split; [|split].
  - unfold quiet in *. rewrite !Forall_app. split_and!; try (repeat constructor; done); try done.
    apply Forall_fmap. by apply Forall_true.
  - eexists ([_] ++ [_] ++ log1 ++ [_]), _. rewrite <- !(assoc_L (++)). cbn [app]. reflexivity.
  - rewrite !elem_of_app. auto 10.
Qed.

(** The client ends once it is told to.  Whatever the server answers, and
    whatever states the channel goes through, a run in which the flag reads true
    a finite number of times returns 0, after at most as many passes. *)
Theorem grpc_client_terminates {W} (stub : Stub W) Status_Name temp pressure now argv states running w :
  (running <= length states)%nat -> Z.of_nat running < 2 ^ 31 ->
  ∃ passes w' log, main stub Status_Name temp pressure now argv states running w
    = Some (0, w', log ++ [GPINFO "Client shut down after {} rounds" [AInt passes]]) /\
    0 <= passes <= Z.of_nat running.
Proof.
  intros Hl Hr. unfold main.
  destruct (rounds_total stub Status_Name temp pressure now (S running) (default "localhost:50051"%string (argv !! 1%nat))
    0 states running w) as (round & w' & log & -> & ?); [lia..|].
  rewrite bind_ret. eexists _, _, _. split; [by rewrite (assoc_L (++))|]. lia.
Qed.

Lemma grpc_client_terminates_witness :
  ∃ passes w' log, main (direct (λ _, "START") 7) (λ _, "SERVING") (λ _, f64_of_Z 20) (λ _, f64_of_Z 1000) Z.of_nat
      ["client"] (replicate 40 GRPC_CHANNEL_READY) 40 (mkWorld [] 0)
    = Some (0, w', log ++ [GPINFO "Client shut down after {} rounds" [AInt passes]]) /\
    0 <= passes <= Z.of_nat 40.
Proof.
  apply (grpc_client_terminates (direct (λ _, "START"%string) 7) (λ _, "SERVING"%string) (λ _, f64_of_Z 20)
    (λ _, f64_of_Z 1000) Z.of_nat ["client"%string] (replicate 40 GRPC_CHANNEL_READY) 40 (mkWorld [] 0));
    [rewrite length_replicate|]; lia.
Defined.
